(* ===== verification/_CoqProject ===== *)
-Q . S2P
Prelude.v
Wire.v
Encode.v
Book.v
OrderBook.v
Doubles.v
LadderBook.v
Builder.v
Spsc.v
Threaded.v
Fairness.v
Roundtrip.v
ExecTypes.v
Twap.v
Vwap.v
Pov.v
RiskGate.v
FillSim.v
Mold.v
Sender.v
Receiver.v
Session.v
Recovery.v
Gzip.v
Snapshot.v
Publish.v
Query.v
Csv.v
Differential.v
Conv.v
Server.v
Os.v
Handles.v
Args.v
Replay.v
Corpus.v
ReplayQuery.v
ReplayThreaded.v
Live.v
Demo.v
Synthetic.v
Bench.v
BenchMain.v
BenchThreaded.v
Almgren.v
Strategy.v
Execution.v
Affinity.v
FullDay.v
UnitTests.v
