(* ===== verification/Prelude.v ===== *)
(** * itch-lob-engine: a verification library (root file)

    The repository is a header-only C++ engine (include/) that reads a NASDAQ
    ITCH 5.0 stream, rebuilds every symbol's limit order book from it, runs
    execution strategies against the result, and publishes the books to a
    small query server; the programs under src/ put the headers together and
    bench/ times them.  This library models the headers, the programs' own
    logic and the benchmark's bookkeeping in Rocq as executable definitions
    and proves what makes them correct.

    ** The parts and how they meet

    - Bytes to messages.  [Wire] is include/itch/messages.hpp and parser.hpp:
      readers, records, [dispatch] (one [event] per handler callback) and the
      frame loop [parse_stream].  [Encode] is include/itch/encode.hpp, the
      inverse direction.
    - Messages to books.  [Book] states what a book is: a finite map from order
      id to resting order, the reference transitions, and the interface
      [BookOps]/[BookLaws].  [OrderBook] (include/book/order_book.hpp) and
      [LadderBook] (include/book/ladder_book.hpp, its price window computed in
      the binary64 of [Doubles]) implement it.  [Builder] is the locate-indexed
      table of include/pipeline/book_table.hpp with the [BookBuilder] handler of
      include/pipeline/dispatch_to_book.hpp, proved against the interface only;
      [Builder.sim] is its refinement relation to a map of resting orders per
      locate.
    - The two-thread pipeline.  [Spsc] is include/pipeline/spsc_queue.hpp, once
      as sequential operations and once as two threads interleaving at each
      atomic access, with the stale acquire loads the memory model allows.
      [Threaded] is include/pipeline/message.hpp and threaded_replay.hpp over
      that ring: a parser thread, a book-builder thread, the [producer_done]
      flag and the final drain; [Fairness] is its fair infinite runs.
      [Roundtrip] is the other program of two threads
      over it, the latency measurement of bench/bench_threaded_main.cpp.
      [Affinity] is the pinning its threads start with
      (include/pipeline/thread_affinity.hpp).
    - Input.  [Gzip] is include/io/gzip_source.hpp: the chunked replay with its
      carry buffer.  [Mold], [Sender], [Receiver] are include/net/moldudp64.hpp,
      multicast_test_sender.hpp and multicast_receiver.hpp; [Session] connects
      a sender to a receiver, and [Recovery] does so under any losses.
    - Execution.  [ExecTypes], [Twap], [Vwap], [Pov], [Almgren], [RiskGate] and
      [FillSim] are the files of include/exec; [Strategy] is the interface the
      four strategies share (execution_strategy.hpp) with its contract, and
      [Execution] lets any client that follows the headers' protocol drive a
      strategy that keeps it, the risk gate and the fill simulator.
    - Queries.  [Snapshot] is include/pipeline/book_snapshot.hpp; [Publish] is
      the publishing handler of src/replay_query_main.cpp, a builder that
      refreshes the store as it replays; [Query] is
      include/net/query_server.hpp's wire format, request handler and receive
      loop, and [Server] its threads: the accept loop with its reaping and
      connection cap, a thread per connection, and [stop].
    - Resources.  [Os] is a small language of operating-system calls with
      exceptions, the C++ rules for destructors, and two logics: triples, for
      what holds whatever fails, and [balanced] blocks, for what a run does
      given which calls fail; [Handles]
      writes in it the constructors, moves and destructors of every class that
      owns a descriptor, a mapping, a FILE or a z_stream (io/mmap_source.hpp,
      io/gzip_source.hpp and the four socket classes of include/net).
    - Programs.  [Args] is the argv handling of the replay programs and [Conv]
      the C library's number conversions they use.  [Replay] is
      src/replay_main.cpp, [ReplayThreaded] src/replay_threaded_main.cpp and
      [ReplayQuery] src/replay_query_main.cpp, whose ingest side is [Publish]:
      which source is opened, what is run, what is reported, how long it serves
      and where an exception ends up.  [Live] is the receive loop of
      src/live_replay_main.cpp; [Demo] is its [main] and
      src/multicast_sender_main.cpp, the two programs that run as a pair.
    - Benchmarks.  [Synthetic] is bench/synthetic_session.hpp, the generator of
      random valid sessions; [Bench] is bench/bench_main.cpp, whose timed
      handler is a builder that also keeps counters and samples, and
      [BenchMain] its [main]; and
      [BenchThreaded] is bench/bench_threaded_main.cpp, which times the replay
      on one and on two threads.
    - Tests.  [FullDay] is tests/test_full_day_invariants.cpp: the two books
      against a naive third one.  [UnitTests] runs the cases of the other files
      of tests/ on the models, those that need no threads, sockets or files.
    - Fuzzing.  [Differential] is fuzz/fuzz_differential.cpp: the two books run
      against each other, message by message; [Corpus] is fuzz/fuzz_parser.cpp
      and the seeds of fuzz/generate_corpus.cpp.

    [Prelude] (this file) holds what they share: machine integers, the
    [outcome] monad, bounds-checked array access, and lemmas on lists, maps
    and prefixes.

    ** Reading the models

    An unsigned w-bit value is a [Z] and every conversion or wrapping operation
    of the source is a reduction written at the same place ([u32], [u64],
    [u128]).  A function that can throw, or that reads or writes an array,
    returns an [outcome]: [Throw] is a C++ exception, [UB] an access outside an
    array, a read of an inactive union member or an out-of-range conversion of
    a double.  A C++ object is a record with the members' names; a method
    takes it and returns it.  [std::map] and [std::unordered_map] are stdpp's
    [gmap]; [begin()] is the least (or greatest) key.  A handler template
    parameter is a Rocq function over [event]s.

    Loops.  Most are structural in the buffer, the list of inputs or the number
    of slots left.  A loop with fuel is called with a bound its lemmas show to
    be enough (the number of bytes left for the frame loop, the length of the
    datagram for the block loop, the size of the map for the drain), so that
    [NoFuel] is never a result; the theorems state results, not only results if
    any.

    Outside code.  zlib's [inflate] and the [fread]s (a list of results,
    [Gzip]), the C library's [acosh] and [sinh] (functions, [Almgren]), the
    sockets and the clock (lists of datagrams, [recv] results and deadline
    tests, [Receiver] and [Query]) are arguments of the definitions, as are
    the outcome of each system call ([Os], [Affinity]), the random draws ([Synthetic]), the
    clock readings ([Bench]), the order in which threads are scheduled and how
    many elements a [std::vector] can be grown to ([Replay]).

    ** What the theorems show

    - Parsing: on every buffer the frame loop never reads out of bounds and
      delivers exactly the callbacks of the complete frames
      ([parse_stream_correct]); it inverts the encoders ([stream_roundtrip]).
    - Messages: every field of a callback fits the C++ type of its member
      ([decoded_messages_typed]).
    - Books: each operation of either book acts on the resting orders as
      specified and keeps the book's aggregates exact
      ([ob_mutators_refine], [ladder_mutators_refine], the observers), growth
      loses nothing ([growth_lossless]); a replay of any input neither
      throws nor touches memory it should not ([replay_never_fails]); on prices
      aligned to a cent and below $40,000 it yields exactly the specified books
      ([replay_exact]) and the same books with either implementation
      ([books_agree]).
    - Differential: the harness of fuzz/fuzz_differential.cpp, run on any input
      at all, finds no divergence ([differential_never_aborts]), and its
      counters are exact over a session ([session_counts]); the full-day test
      passes on every feed that keeps its generator's discipline, not only on
      its random one ([full_day_clean]).
    - Threads: the ring is a FIFO under every interleaving
      ([spsc_fifo]) and free of races on its slots ([spsc_race_free]); every
      finished run of the pipeline has dispatched each message once, in order
      ([pipeline_result]), which gives the single-threaded result when no frame
      is malformed ([threaded_equals_single]), and a finish is always
      reachable ([pipeline_can_finish]), and every run whose schedule is fair
      finishes ([fair_pipeline_finishes]; [unscheduled_parser_starves] shows the
      hypothesis is needed); a hard pin that reports success binds
      its thread to that core alone ([pin_exact]).
    - Input: chunking is invisible ([chunked_replay_exact]); whatever the
      network does a receiver delivers a prefix of the session in order
      ([delivers_prefix]), all of it when nothing is lost
      ([lossless_session]), when one packet is lost and retransmitted
      ([single_loss_recovered]), and under any pattern of losses that the
      packets still to come make up for, one each ([losses_recovered]).
    - Execution: the schedules send the parent order exactly
      ([schedule_executes_total], [target_exact], [almgren_schedule_total]),
      the risk gate lets through only what its limits allow ([apply_sound],
      [check_exact]), and the fill simulator's score is the sum of its fills
      ([session_exact]); whatever the strategy, the market and the client that
      drives them do, the three keep the parent order, the gate's budgets and the
      simulator's counters at once ([execution_within_limits]).
    - Queries: a snapshot is the table's top of book ([snapshot_exact]), what
      readers find while a replay is served is always that of some prefix, and
      a recent one ([published_snapshots_exact]), from the file to the bytes a
      client reads ([served_quote_exact]); packet boundaries are
      invisible ([packets_invisible]), and a response reads back to the values
      it was built from ([quote_response_readable]).
    - The query server: at most [kMaxConnections] connections are open
      ([connections_bounded]), [stop] returns only when every thread has ended
      and every descriptor is closed ([stop_joins_all]), and it does return
      unless a send blocks ([stop_terminates], [stalled_client_blocks_stop]).
    - Resources: whatever calls fail, no class leaks or releases twice
      ([classes_leak_nothing]), and a moved object has one owner
      ([moves_own_once]).
    - Programs: the sender and the live program, run as a pair, reproduce the
      self test of the replay program, as they stand ([demo_pair_exact]) and
      over a network that loses messages ([lossy_pair_exact]); the query program's
      report is exact ([served_report_exact]); its exit code and output, like the
      replay program's, are decided by the command line, the calls that fail and
      the file ([query_program_exact], [replay_program_exact]), but for the path
      that does without a handler ([legacy_exception_escapes]); flags are found
      anywhere in argv and removed ([command_lines_exact]); the report of a
      replay counts what the file holds ([report_exact]); the two-thread program prints the same
      report ([threaded_report_equals]) but a bad gzip file ends it in
      [std::terminate] ([gzip_failure_terminates]); the live program's
      summaries are those of the messages delivered so far
      ([live_summaries_exact], [idle_polls_repeat_summary]).
    - Benchmarks: a generated session is well formed and every order it refers
      to rests ([synthetic_session_accepted]); the rows count each message of
      each pass once ([bench_counts_exact]), and both books are measured on the
      same messages, those of the file named or of the synthetic session
      ([bench_main_exact]); the files
      written read back to the measurements ([csv_reads_back],
      [threaded_csv_reads_back], [summary_reads_back]); each round-trip sample
      is the time from the reading made for it before its push to the one made
      after its pop, under every interleaving ([roundtrip_exact]), and the threaded benchmark compares paths
      that did the same work ([bench_rows_exact]).
    - Where the code falls short of what it means to do, a theorem exhibits it:
      [malformed_frame_diverges], [full_map_stalls], [stale_head_stalls],
      [burst_loss_one_per_poll], [full_queue_loses_shares], [market_orders_escape_notional],
      [refused_replace_drops_order], [response_may_be_torn].

    ** What is not modelled

    The layout of what the programs print, but for the tables of the
    benchmarks, the files they write and the differential harness's summary;
    elapsed times and the pacing sleep of the publishing handler; where a pinned
    thread then runs (the threads' interleavings are unrestricted anyway); the
    random generator of the full-day test; the tests that need real threads,
    sockets, files or an [acosh]; and tools.  The Almgren-Chriss constructor's
    floating-point trajectory is executed but only its rounding into shares is
    specified. *)

From Stdlib Require Export ZArith Lia Bool.
From stdpp Require Export base gmap list strings fin_maps.

#[global] Open Scope Z_scope.

(** ** Machine integers

    An unsigned w-bit C++ value is a [Z]; the functions below are the
    conversions [static_cast<std::uintN_t>], i.e. reduction modulo [2^N].
    The moduli are written out so that [lia] sees constants. *)

Definition u8 (x : Z) : Z := x mod 256.
Definition u16 (x : Z) : Z := x mod 65536.
Definition u32 (x : Z) : Z := x mod 4294967296.
Definition u64 (x : Z) : Z := x mod 18446744073709551616.
Definition u128 (x : Z) : Z := x mod 340282366920938463463374607431768211456.

Definition is_u8 (x : Z) : Prop := 0 <= x < 256.
Definition is_u16 (x : Z) : Prop := 0 <= x < 65536.
Definition is_u32 (x : Z) : Prop := 0 <= x < 4294967296.
Definition is_u48 (x : Z) : Prop := 0 <= x < 281474976710656.
Definition is_u64 (x : Z) : Prop := 0 <= x < 18446744073709551616.

(** ** Outcomes

    What running a piece of C++ can do: return a value, throw a standard
    exception, or reach undefined behaviour (an out-of-bounds read, an
    out-of-range float-to-integer conversion).  [NoFuel] is not a behaviour of
    the code: it marks a loop whose fuel argument was too small, and the
    theorems rule it out. *)

Inductive outcome (A : Type) : Type :=
| Ok (a : A)
| Throw (what : string)
| UB
| NoFuel.
Arguments Ok {A} a.
Arguments Throw {A} what.
Arguments UB {A}.
Arguments NoFuel {A}.

#[export] Instance outcome_ret : MRet outcome := @Ok.
#[export] Instance outcome_bind : MBind outcome := fun A B f m =>
  match m with
  | Ok a => f a
  | Throw w => Throw w
  | UB => UB
  | NoFuel => NoFuel
  end.
#[export] Instance outcome_fmap : FMap outcome := fun A B f m =>
  match m with
  | Ok a => Ok (f a)
  | Throw w => Throw w
  | UB => UB
  | NoFuel => NoFuel
  end.

Definition is_Ok {A} (m : outcome A) : Prop := exists a, m = Ok a.

(** Reading element [i] of an array (or of the memory behind a pointer): an
    index past the end is undefined behaviour. *)
Definition rd {A} (m : list A) (i : nat) : outcome A :=
  match m !! i with
  | Some x => Ok x
  | None => UB
  end.

(** Writing element [i] of an array: same bounds as a read. *)
Definition wr {A} (m : list A) (i : nat) (x : A) : outcome (list A) :=
  if decide (i < length m)%nat then Ok (<[i := x]> m) else UB.

(** ** Tactics *)

Ltac unfold_words :=
  unfold u8, u16, u32, u64, u128, is_u8, is_u16, is_u32, is_u48, is_u64 in *.

(** Linear arithmetic over machine words: quotients and remainders by
    constants are turned into equations first. *)
Ltac word_lia :=
  unfold_words; Z.div_mod_to_equations; lia.

(** A literal is in range (without touching the other hypotheses). *)
Ltac u32c := unfold is_u8, is_u16, is_u32, is_u48, is_u64; lia.

(** Take apart a monadic computation that is known to return. *)
Ltac invert_ok :=
  repeat match goal with
  | H : Ok _ = Ok _ |- _ => injection H as H; subst
  | H : Throw _ = Ok _ |- _ => discriminate H
  | H : UB = Ok _ |- _ => discriminate H
  | H : NoFuel = Ok _ |- _ => discriminate H
  | H : (?m ≫= _) = Ok _ |- _ =>
      destruct m eqn:?; cbn [mbind outcome_bind] in H; try discriminate H
  end.

(** Case on every [if] and [match] scrutinee of the goal, then simplify. *)
Ltac split_cases :=
  repeat (case_match; simplify_eq/=).

(** ** Generic lemmas *)

Lemma bind_Ok {A B} (f : A -> outcome B) (a : A) : (Ok a ≫= f) = f a.
Proof. reflexivity. Qed.

Lemma rd_lookup {A} (m : list A) (i : nat) (x : A) : m !! i = Some x -> rd m i = Ok x.
Proof. unfold rd. now intros ->. Qed.

Lemma rd_app_r {A} (l k : list A) (i : nat) : rd (l ++ k) (length l + i) = rd k i.
Proof. unfold rd. rewrite lookup_app_r by lia. now replace (length l + i - length l)%nat with i by lia. Qed.

Lemma rd_app_l {A} (l k : list A) (i : nat) : (i < length l)%nat -> rd (l ++ k) i = rd l i.
Proof. intros Hi. unfold rd. now rewrite lookup_app_l. Qed.

Lemma rd_ok {A} (m : list A) (i : nat) : (i < length m)%nat -> exists x, rd m i = Ok x /\ m !! i = Some x.
Proof.
  intros Hi. destruct (lookup_lt_is_Some_2 m i Hi) as [x Hx].
  exists x. split; [now apply rd_lookup | done].
Qed.

Lemma u8_range x : is_u8 (u8 x).
Proof. word_lia. Qed.
Lemma u16_range x : is_u16 (u16 x).
Proof. word_lia. Qed.
Lemma u32_range x : is_u32 (u32 x).
Proof. word_lia. Qed.
Lemma u64_range x : is_u64 (u64 x).
Proof. word_lia. Qed.

Lemma u8_id x : is_u8 x -> u8 x = x.
Proof. intros; apply Z.mod_small; assumption. Qed.
Lemma u16_id x : is_u16 x -> u16 x = x.
Proof. intros; apply Z.mod_small; assumption. Qed.
Lemma u32_id x : is_u32 x -> u32 x = x.
Proof. intros; apply Z.mod_small; assumption. Qed.
Lemma u64_id x : is_u64 x -> u64 x = x.
Proof. intros; apply Z.mod_small; assumption. Qed.

Create HintDb words.
Create Rewrite HintDb words.
#[export] Hint Resolve u8_range u16_range u32_range u64_range : words.
#[export] Hint Rewrite @u8_id @u16_id @u32_id @u64_id using (word_lia) : words.

(** Or-ing a value into the low bits a left shift has cleared is addition. *)
Lemma lor_shiftl_add (a b n : Z) :
  0 <= n -> 0 <= b < 2 ^ n -> Z.lor (Z.shiftl a n) b = a * 2 ^ n + b.
Proof.
  intros Hn Hb.
  assert (Z.land (Z.shiftl a n) b = 0) as Hland.
  { apply Z.bits_inj'. intros i Hi. rewrite Z.land_spec, Z.bits_0.
    destruct (Z.lt_ge_cases i n).
    - now rewrite Z.shiftl_spec_low.
    - rewrite <- (Z.mod_small b (2 ^ n)) by lia.
      rewrite Z.mod_pow2_bits_high by lia. apply andb_false_r. }
  rewrite <- Z.shiftl_mul_pow2 by lia.
  pose proof (Z.add_lor_land (Z.shiftl a n) b). lia.
Qed.

(** Duplicates only make a list longer. *)
Lemma size_list_to_set_le `{Countable A} (l : list A) : (size (list_to_set l : gset A) <= length l)%nat.
Proof.
  induction l as [|x l IH]; cbn; [done|]. rewrite size_union_alt, size_singleton.
  pose proof (subseteq_size (list_to_set l ∖ {[x]} : gset A) (list_to_set l)
    (subseteq_difference_l _ _ _ (reflexivity _))). lia.
Qed.

(** What holds of a list holds of its sublists. *)
Lemma Forall_sublist {A} (P : A -> Prop) (l k : list A) : sublist l k -> Forall P k -> Forall P l.
Proof. rewrite !Forall_forall. intros Hl Hk x Hx. apply Hk. by eapply sublist_subseteq. Qed.
