(* ===== verification/Wire.v ===== *)
(** * Wire: ITCH 5.0 messages and the stream parser

    Models include/itch/messages.hpp (big-endian readers, message structs,
    [wire_size]) and include/itch/parser.hpp ([dispatch], [parse_stream]).

    A buffer is a list of bytes (values in 0..255) and a pointer into it is an
    index; every read goes through [rd], so that reading past the buffer is
    [UB].  A [char] that carries a message type is represented by its
    unsigned-char value (the code only compares it with ASCII letters and
    converts it back to unsigned char).  [itch::Side] is a [char]-based enum
    that [dispatch] fills with an unchecked cast, so it is the byte itself.

    The reference definitions at the end ([be_val], [frames], [frame_event])
    say independently what a stream means; the theorems show that the code
    computes exactly that, for every buffer, without an out-of-bounds read. *)

From S2P Require Import Prelude.

Module Wire.

(** ** Big-endian readers (messages.hpp) *)

Definition be16 (m : list Z) (p : nat) : outcome Z :=
  b0 ← rd m p; b1 ← rd m (p + 1);
  Ok (u16 (Z.lor (Z.shiftl b0 8) b1)).

Definition be32 (m : list Z) (p : nat) : outcome Z :=
  b0 ← rd m p; b1 ← rd m (p + 1); b2 ← rd m (p + 2); b3 ← rd m (p + 3);
  Ok (Z.lor (Z.lor (Z.lor (u32 (Z.shiftl b0 24)) (u32 (Z.shiftl b1 16))) (u32 (Z.shiftl b2 8))) b3).

Definition be48 (m : list Z) (p : nat) : outcome Z :=
  hi ← be16 m p; lo ← be32 m (p + 2);
  Ok (Z.lor (u64 (Z.shiftl hi 32)) lo).

Definition be64 (m : list Z) (p : nat) : outcome Z :=
  hi ← be32 m p; lo ← be32 m (p + 4);
  Ok (Z.lor (u64 (Z.shiftl hi 32)) lo).

(** ** Messages *)

Definition Side := Z.
Definition Buy : Side := 66.
Definition Sell : Side := 83.

Record Header := mkHeader { locate : Z; timestamp : Z }.

Record AddOrder := mkAddOrder {
  add_hdr : Header; add_ref : Z; add_side : Side; add_shares : Z;
  add_stock : list Z; add_price : Z }.

Record OrderExecuted := mkOrderExecuted {
  exec_hdr : Header; exec_ref : Z; exec_shares : Z; exec_match : Z }.

Record OrderExecutedPrice := mkOrderExecutedPrice {
  execp_hdr : Header; execp_ref : Z; execp_shares : Z; execp_match : Z;
  execp_printable : bool; execp_price : Z }.

Record OrderCancel := mkOrderCancel {
  cancel_hdr : Header; cancel_ref : Z; cancel_canceled : Z }.

Record OrderDelete := mkOrderDelete { delete_hdr : Header; delete_ref : Z }.

Record OrderReplace := mkOrderReplace {
  replace_hdr : Header; replace_orig_ref : Z; replace_new_ref : Z;
  replace_shares : Z; replace_price : Z }.

(** The message-type letters. *)
Definition chA := 65.
Definition chC := 67.
Definition chD := 68.
Definition chE := 69.
Definition chF := 70.
Definition chN := 78.
Definition chU := 85.
Definition chX := 88.
Definition chY := 89.

Definition wire_size (type : Z) : Z :=
  if type =? chA then 36
  else if type =? chF then 40
  else if type =? chE then 31
  else if type =? chC then 36
  else if type =? chX then 23
  else if type =? chD then 19
  else if type =? chU then 35
  else -1.

(** ** The handler interface

    [dispatch] is a template over any type with these callbacks; the object
    is mutable, so each callback maps its state to its next state. *)

Class Handler (S : Type) := {
  on_add : AddOrder -> S -> S;
  on_execute : OrderExecuted -> S -> S;
  on_execute_price : OrderExecutedPrice -> S -> S;
  on_cancel : OrderCancel -> S -> S;
  on_delete : OrderDelete -> S -> S;
  on_replace : OrderReplace -> S -> S;
  on_other : Z -> nat -> S -> S
}.

(** ** parser.hpp *)

Definition header (m : list Z) (p : nat) : outcome Header :=
  l ← be16 m (p + 1); t ← be48 m (p + 5);
  Ok (mkHeader l t).

(** [std::memcpy] of [n] bytes out of the buffer. *)
Definition memcpy (m : list Z) (p n : nat) : outcome (list Z) :=
  if decide (p + n <= length m)%nat then Ok (take n (drop p m)) else UB.

(** [for (int i = 7; i >= 0 && dst[i] == ' '; --i) dst[i] = '\0';] where [n]
    is [i + 1]. *)
Fixpoint trim_spaces (n : nat) (dst : list Z) : list Z :=
  match n with
  | O => dst
  | S i => if decide (dst !! i = Some 32) then trim_spaces i (<[i := 0]> dst) else dst
  end.

Definition copy_stock (m : list Z) (p : nat) : outcome (list Z) :=
  s ← memcpy m p 8;
  Ok (trim_spaces 8 (s ++ [0])).

Section Dispatch.
Context {S : Type} `{Handler S}.

Definition dispatch (m : list Z) (p : nat) (len : nat) (h : S) : outcome (bool * S) :=
  type ← rd m p;
  let expect := wire_size type in
  if (expect <? 0) || negb (expect =? Z.of_nat len) then Ok (false, on_other type len h)
  else if (type =? chA) || (type =? chF) then
    hdr ← header m p;
    ref ← be64 m (p + 11);
    side ← rd m (p + 19);
    shares ← be32 m (p + 20);
    stock ← copy_stock m (p + 24);
    price ← be32 m (p + 32);
    Ok (true, on_add (mkAddOrder hdr ref side shares stock price) h)
  else if type =? chE then
    hdr ← header m p;
    ref ← be64 m (p + 11);
    shares ← be32 m (p + 19);
    mtch ← be64 m (p + 23);
    Ok (true, on_execute (mkOrderExecuted hdr ref shares mtch) h)
  else if type =? chC then
    hdr ← header m p;
    ref ← be64 m (p + 11);
    shares ← be32 m (p + 19);
    mtch ← be64 m (p + 23);
    pr ← rd m (p + 31);
    price ← be32 m (p + 32);
    Ok (true, on_execute_price (mkOrderExecutedPrice hdr ref shares mtch (pr =? chY) price) h)
  else if type =? chX then
    hdr ← header m p;
    ref ← be64 m (p + 11);
    canceled ← be32 m (p + 19);
    Ok (true, on_cancel (mkOrderCancel hdr ref canceled) h)
  else if type =? chD then
    hdr ← header m p;
    ref ← be64 m (p + 11);
    Ok (true, on_delete (mkOrderDelete hdr ref) h)
  else if type =? chU then
    hdr ← header m p;
    orig ← be64 m (p + 11);
    new ← be64 m (p + 19);
    shares ← be32 m (p + 27);
    price ← be32 m (p + 31);
    Ok (true, on_replace (mkOrderReplace hdr orig new shares price) h)
  else Ok (true, h).

(** The [while] loop of [parse_stream]; one unit of fuel per iteration. *)
Fixpoint parse_loop (fuel : nat) (data : list Z) (len off count : nat) (h : S)
  : outcome (nat * S) :=
  match fuel with
  | O => NoFuel
  | Datatypes.S fuel =>
    if decide (off + 2 <= len)%nat then
      mlen ← be16 data off;
      let mlen := Z.to_nat mlen in
      if decide (mlen = 0 \/ len < off + 2 + mlen)%nat then Ok (count, h)
      else
        '(_, h') ← dispatch data (off + 2) mlen h;
        parse_loop fuel data len (off + (2 + mlen)) (count + 1) h'
    else Ok (count, h)
  end.

(** Every iteration consumes at least three bytes, so [len + 1] iterations
    are enough. *)
Definition parse_stream (data : list Z) (len : nat) (h : S) : outcome (nat * S) :=
  parse_loop (len + 1) data len 0 0 h.

End Dispatch.

(** ** Reference definitions *)

(** A decoded message, or a frame the decoder does not route to the book. *)
Inductive event :=
| EAdd (m : AddOrder)
| EExec (m : OrderExecuted)
| EExecPrice (m : OrderExecutedPrice)
| ECancel (m : OrderCancel)
| EDelete (m : OrderDelete)
| EReplace (m : OrderReplace)
| EOther (type : Z) (len : nat).

Definition apply_event {S} `{Handler S} (h : S) (e : event) : S :=
  match e with
  | EAdd m => on_add m h
  | EExec m => on_execute m h
  | EExecPrice m => on_execute_price m h
  | ECancel m => on_cancel m h
  | EDelete m => on_delete m h
  | EReplace m => on_replace m h
  | EOther t n => on_other t n h
  end.

(** The number a big-endian byte string denotes. *)
Definition be_val (l : list Z) : Z := foldl (fun acc b => acc * 256 + b) 0 l.

Definition field (f : list Z) (off n : nat) : Z := be_val (take n (drop off f)).

Definition byte_at (f : list Z) (off : nat) : Z := default 0 (f !! off).

(** The stock symbol with its trailing padding replaced by NUL bytes. *)
Definition stock_at (f : list Z) (off : nat) : list Z :=
  trim_spaces 8 (take 8 (drop off f) ++ [0]).

Definition frame_header (f : list Z) : Header := mkHeader (field f 1 2) (field f 5 6).

(** What one frame means: the ITCH 5.0 layout tables, by byte offset. *)
Definition frame_event (f : list Z) : event :=
  let type := byte_at f 0 in
  let hdr := frame_header f in
  let ref := field f 11 8 in
  if negb (wire_size type =? Z.of_nat (length f)) then EOther type (length f)
  else if (type =? chA) || (type =? chF) then
    EAdd (mkAddOrder hdr ref (byte_at f 19) (field f 20 4) (stock_at f 24) (field f 32 4))
  else if type =? chE then EExec (mkOrderExecuted hdr ref (field f 19 4) (field f 23 8))
  else if type =? chC then
    EExecPrice (mkOrderExecutedPrice hdr ref (field f 19 4) (field f 23 8)
                  (byte_at f 31 =? chY) (field f 32 4))
  else if type =? chX then ECancel (mkOrderCancel hdr ref (field f 19 4))
  else if type =? chD then EDelete (mkOrderDelete hdr ref)
  else EReplace (mkOrderReplace hdr ref (field f 19 8) (field f 27 4) (field f 31 4)).

(** Splitting a byte string into length-prefixed frames and what is left: a
    partial prefix, a zero length, or a truncated payload. *)
Fixpoint split_frames (fuel : nat) (bs : list Z) : list (list Z) * list Z :=
  match fuel with
  | O => ([], bs)
  | Datatypes.S fuel =>
    match bs with
    | b0 :: b1 :: tl =>
      let n := Z.to_nat (b0 * 256 + b1) in
      if decide (n = 0 \/ length tl < n)%nat then ([], bs)
      else
        let '(fs, rest) := split_frames fuel (drop n tl) in
        (take n tl :: fs, rest)
    | _ => ([], bs)
    end
  end.

Definition frames (bs : list Z) : list (list Z) := (split_frames (length bs) bs).1.
Definition leftover (bs : list Z) : list Z := (split_frames (length bs) bs).2.

Definition events (bs : list Z) : list event := frame_event <$> frames bs.

Definition bytes (m : list Z) : Prop := Forall is_u8 m.

#[global] Instance is_u8_dec x : Decision (is_u8 x) := ltac:(unfold is_u8; apply _).
#[global] Instance bytes_dec m : Decision (bytes m) := ltac:(unfold bytes; apply _).

(** ** Readers compute big-endian values *)

Lemma bytes_lookup m i b : bytes m -> m !! i = Some b -> is_u8 b.
Proof. intros Hm Hi. exact (Forall_lookup_1 _ _ _ _ Hm Hi). Qed.

Lemma bytes_drop n m : bytes m -> bytes (drop n m).
Proof. apply Forall_drop. Qed.

Lemma bytes_take n m : bytes m -> bytes (take n m).
Proof. apply Forall_take. Qed.

Lemma be_val_snoc l b : be_val (l ++ [b]) = be_val l * 256 + b.
Proof. unfold be_val. now rewrite foldl_app. Qed.

Lemma be_val_app l k : be_val (l ++ k) = be_val l * 256 ^ Z.of_nat (length k) + be_val k.
Proof.
  induction k as [|b k IH] using rev_ind.
  - rewrite app_nil_r. simpl. change (be_val []) with 0. lia.
  - rewrite app_assoc, !be_val_snoc, IH, length_app. simpl length.
    rewrite Nat2Z.inj_add, Z.pow_add_r by lia. simpl Z.of_nat. lia.
Qed.

Lemma be_val_range l : bytes l -> 0 <= be_val l < 256 ^ Z.of_nat (length l).
Proof.
  induction l as [|b l IH] using rev_ind; intros Hl.
  - unfold be_val; simpl. lia.
  - apply Forall_app in Hl as [Hl Hb]. apply Forall_cons_1 in Hb as [Hb _].
    specialize (IH Hl). rewrite be_val_snoc, length_app, Nat2Z.inj_add. simpl length.
    change (Z.of_nat 1) with 1. rewrite Z.pow_add_r, Z.pow_1_r by lia. unfold is_u8 in Hb.
    lia.
Qed.

(** Every reader moves to the suffix it reads from. *)
Lemma rd_drop (m : list Z) p i : rd m (p + i) = rd (drop p m) i.
Proof. unfold rd. now rewrite lookup_drop. Qed.

Lemma rd_drop_0 (m : list Z) p : rd m p = rd (drop p m) 0.
Proof. rewrite <- rd_drop. f_equal. lia. Qed.

Lemma take_drop_destruct (m : list Z) p n :
  (p + n <= length m)%nat -> length (take n (drop p m)) = n.
Proof. intros. rewrite length_take, length_drop. lia. Qed.

Lemma be16_val m p : bytes m -> (p + 2 <= length m)%nat ->
  be16 m p = Ok (be_val (take 2 (drop p m))).
Proof.
  intros Hm Hp. unfold be16. rewrite (rd_drop_0 m p), !(rd_drop m p).
  pose proof (bytes_drop p m Hm) as Hd. pose proof (length_drop m p) as Hl.
  destruct (drop p m) as [|a [|b tl]]; simpl in Hl; try lia.
  inversion_clear Hd as [|?? Ha Hd']. inversion_clear Hd' as [|?? Hb _].
  unfold rd, be_val. simpl. f_equal.
  rewrite lor_shiftl_add by (unfold is_u8 in *; lia). change (2 ^ 8) with 256. word_lia.
Qed.

Lemma be32_val m p : bytes m -> (p + 4 <= length m)%nat ->
  be32 m p = Ok (be_val (take 4 (drop p m))).
Proof.
  intros Hm Hp. unfold be32. rewrite (rd_drop_0 m p), !(rd_drop m p).
  pose proof (bytes_drop p m Hm) as Hd. pose proof (length_drop m p) as Hl.
  destruct (drop p m) as [|a [|b [|c [|d tl]]]]; simpl in Hl; try lia.
  unfold bytes in Hd. rewrite !Forall_cons in Hd. destruct Hd as (Ha & Hb & Hc & Hd & _).
  unfold rd, be_val. simpl. f_equal. unfold is_u8 in *.
  assert (forall x k, 0 <= x < 256 -> 0 <= k <= 24 -> u32 (Z.shiftl x k) = Z.shiftl x k) as Hsm.
  { intros x k Hx Hk. apply u32_id. rewrite Z.shiftl_mul_pow2 by lia.
    assert (2 ^ k <= 2 ^ 24) by (apply Z.pow_le_mono_r; lia).
    assert (0 < 2 ^ k) by (apply Z.pow_pos_nonneg; lia).
    change (2 ^ 24) with 16777216 in *. unfold is_u32. nia. }
  rewrite !Hsm by lia.
  rewrite <- !Z.lor_assoc.
  rewrite (lor_shiftl_add c d 8) by lia.
  rewrite (lor_shiftl_add b _ 16) by lia.
  rewrite (lor_shiftl_add a _ 24) by lia. lia.
Qed.

Lemma take_take_drop (m : list Z) p i j :
  take (i + j) (drop p m) = take i (drop p m) ++ take j (drop (p + i) m).
Proof. rewrite <- take_take_drop, drop_drop. reflexivity. Qed.
(** A high half and a low 32-bit half, as [be48] and [be64] join them. *)
Lemma join32 hi lo : is_u32 hi -> is_u32 lo ->
  Z.lor (u64 (Z.shiftl hi 32)) lo = hi * 4294967296 + lo.
Proof.
  intros Hhi Hlo.
  replace (u64 (Z.shiftl hi 32)) with (Z.shiftl hi 32).
  - rewrite lor_shiftl_add; [reflexivity | lia | exact Hlo].
  - symmetry. apply u64_id. rewrite Z.shiftl_mul_pow2 by lia.
    change (2 ^ 32) with 4294967296. word_lia.
Qed.

Lemma be_val_take_range m p n : bytes m -> (p + n <= length m)%nat ->
  0 <= be_val (take n (drop p m)) < 256 ^ Z.of_nat n.
Proof.
  intros Hm Hp. pose proof (be_val_range (take n (drop p m))) as H.
  rewrite take_drop_destruct in H by done. auto using bytes_take, bytes_drop.
Qed.

Lemma be_val_split m p i j : bytes m -> (p + (i + j) <= length m)%nat ->
  be_val (take (i + j) (drop p m)) =
  be_val (take i (drop p m)) * 256 ^ Z.of_nat j + be_val (take j (drop (p + i) m)).
Proof.
  intros Hm Hp. rewrite take_take_drop, be_val_app, take_drop_destruct by lia. reflexivity.
Qed.

Lemma be48_val m p : bytes m -> (p + 6 <= length m)%nat ->
  be48 m p = Ok (be_val (take 6 (drop p m))).
Proof.
  intros Hm Hp. unfold be48. rewrite be16_val, bind_Ok, be32_val, bind_Ok by (done || lia).
  pose proof (be_val_take_range m p 2 Hm ltac:(lia)) as H1.
  pose proof (be_val_take_range m (p + 2) 4 Hm ltac:(lia)) as H2.
  change (256 ^ Z.of_nat 2) with 65536 in H1. change (256 ^ Z.of_nat 4) with 4294967296 in H2.
  rewrite join32 by word_lia. f_equal. symmetry.
  exact (be_val_split m p 2 4 Hm Hp).
Qed.

Lemma be64_val m p : bytes m -> (p + 8 <= length m)%nat ->
  be64 m p = Ok (be_val (take 8 (drop p m))).
Proof.
  intros Hm Hp. unfold be64. rewrite !be32_val, !bind_Ok by (done || lia).
  pose proof (be_val_take_range m p 4 Hm ltac:(lia)) as H1.
  pose proof (be_val_take_range m (p + 4) 4 Hm ltac:(lia)) as H2.
  change (256 ^ Z.of_nat 4) with 4294967296 in *.
  rewrite join32 by word_lia. f_equal. symmetry.
  exact (be_val_split m p 4 4 Hm Hp).
Qed.

(** ** One frame *)

(** Frame [f] is the [len] bytes at [p]: its fields are the buffer's bytes. *)
Section Frame.
Variables (m : list Z) (p len : nat).
Hypothesis Hm : bytes m.
Hypothesis Hlen : (p + len <= length m)%nat.
Let f := take len (drop p m).

Lemma frame_slice off n : (off + n <= len)%nat ->
  take n (drop off f) = take n (drop (p + off) m).
Proof.
  intros Hn. unfold f. rewrite skipn_firstn_comm, take_take, drop_drop.
  f_equal. lia.
Qed.

Lemma frame_length : length f = len.
Proof. apply take_drop_destruct. done. Qed.

Lemma be16_field off : (off + 2 <= len)%nat -> be16 m (p + off) = Ok (field f off 2).
Proof. intros. unfold field. rewrite frame_slice by done. apply be16_val; [done | lia]. Qed.

Lemma be32_field off : (off + 4 <= len)%nat -> be32 m (p + off) = Ok (field f off 4).
Proof. intros. unfold field. rewrite frame_slice by done. apply be32_val; [done | lia]. Qed.

Lemma be48_field off : (off + 6 <= len)%nat -> be48 m (p + off) = Ok (field f off 6).
Proof. intros. unfold field. rewrite frame_slice by done. apply be48_val; [done | lia]. Qed.

Lemma be64_field off : (off + 8 <= len)%nat -> be64 m (p + off) = Ok (field f off 8).
Proof. intros. unfold field. rewrite frame_slice by done. apply be64_val; [done | lia]. Qed.

Lemma rd_field off : (off < len)%nat -> rd m (p + off) = Ok (byte_at f off).
Proof.
  intros Hoff. rewrite rd_drop. unfold byte_at, f, rd.
  rewrite lookup_take_lt by done.
  destruct (lookup_lt_is_Some_2 (drop p m) off) as [x ->]; [rewrite length_drop; lia | done].
Qed.

Lemma header_field : (11 <= len)%nat -> header m p = Ok (frame_header f).
Proof.
  intros. unfold header, frame_header.
  now rewrite be16_field, bind_Ok, be48_field, bind_Ok by lia.
Qed.

Lemma copy_stock_field off : (off + 8 <= len)%nat -> copy_stock m (p + off) = Ok (stock_at f off).
Proof.
  intros. unfold copy_stock, memcpy, stock_at.
  rewrite decide_True by lia. rewrite bind_Ok, frame_slice by done. reflexivity.
Qed.

End Frame.

Lemma wire_size_cases t : wire_size t <> -1 ->
  (t = chA \/ t = chF) \/ t = chE \/ t = chC \/ t = chX \/ t = chD \/ t = chU.
Proof.
  unfold wire_size. repeat case_match; intros; rewrite ?Z.eqb_eq in *; tauto || lia.
Qed.

(** Rewrite every reader of [dispatch] into the field it computes. *)
Ltac read_fields Hm Hp :=
  repeat first
    [ rewrite (header_field _ _ _ Hm Hp) by lia
    | rewrite (be64_field _ _ _ Hm Hp) by lia
    | rewrite (be32_field _ _ _ Hm Hp) by lia
    | rewrite (copy_stock_field _ _ _ Hp) by lia
    | rewrite (rd_field _ _ _ Hp) by lia
    | rewrite bind_Ok ].

(** [dispatch] on a frame inside the buffer invokes the one callback the
    frame's bytes call for, and reports whether the frame was decoded. *)
Lemma dispatch_frame {S} `{Handler S} m p len (h : S) :
  bytes m -> (0 < len)%nat -> (p + len <= length m)%nat ->
  let f := take len (drop p m) in
  dispatch m p len h =
    Ok (wire_size (byte_at f 0) =? Z.of_nat len, apply_event h (frame_event f)).
Proof.
  intros Hm Hlen Hp f. unfold dispatch.
  replace (rd m p) with (rd m (p + 0)) by (f_equal; lia).
  rewrite (rd_field m p len Hp 0) by lia. fold f. rewrite bind_Ok.
  unfold frame_event. rewrite (frame_length m p len Hp : length f = len).
  destruct (wire_size (byte_at f 0) =? Z.of_nat len) eqn:Hw; simpl negb; rewrite ?orb_true_r, ?orb_false_r.
  2: reflexivity.
  apply Z.eqb_eq in Hw.
  destruct (wire_size_cases (byte_at f 0)) as [[Ht | Ht] | [Ht | [Ht | [Ht | [Ht | Ht]]]]]; [lia|..];
    rewrite Ht in *;
    match type of Hw with ?w = _ => let w' := eval vm_compute in w in change w with w' in Hw |- * end;
    simpl; read_fields Hm Hp; reflexivity.
Qed.
(** ** Splitting into frames *)

(** One step of the split, by the shape of the input. *)
Definition next_frame (bs : list Z) : option (list Z * list Z) :=
  match bs with
  | b0 :: b1 :: tl =>
    let n := Z.to_nat (b0 * 256 + b1) in
    if decide (n = 0 \/ length tl < n)%nat then None else Some (take n tl, drop n tl)
  | _ => None
  end.

Lemma split_frames_step fuel bs :
  split_frames (Datatypes.S fuel) bs =
    match next_frame bs with
    | None => ([], bs)
    | Some (f, tl) => let '(fs, rest) := split_frames fuel tl in (f :: fs, rest)
    end.
Proof. destruct bs as [|? [|??]]; simpl; try reflexivity. now case_decide. Qed.

Lemma next_frame_shorter bs f tl :
  next_frame bs = Some (f, tl) ->
  (length bs = 2 + length f + length tl)%nat /\ (0 < length f)%nat.
Proof.
  destruct bs as [|b0 [|b1 rest]]; try discriminate. simpl. case_decide; [discriminate|].
  intros [= <- <-]. rewrite length_take, length_drop. lia.
Qed.

Lemma split_frames_fuel k1 k2 bs :
  (length bs <= k1)%nat -> (length bs <= k2)%nat -> split_frames k1 bs = split_frames k2 bs.
Proof.
  revert k2 bs. induction k1 as [|k1 IH]; intros k2 bs H1 H2.
  - destruct bs; [|simpl in H1; lia]. destruct k2; reflexivity.
  - destruct k2 as [|k2].
    { destruct bs; [reflexivity | simpl in H2; lia]. }
    rewrite !split_frames_step. destruct (next_frame bs) as [[f tl]|] eqn:Hn; [|done].
    apply next_frame_shorter in Hn. rewrite (IH k2 tl) by lia. reflexivity.
Qed.

Lemma frames_step bs :
  (frames bs, leftover bs) =
    match next_frame bs with
    | None => ([], bs)
    | Some (f, tl) => (f :: frames tl, leftover tl)
    end.
Proof.
  unfold frames, leftover. rewrite <- surjective_pairing.
  rewrite (split_frames_fuel _ (Datatypes.S (length bs))), split_frames_step by lia.
  destruct (next_frame bs) as [[f tl]|] eqn:Hn; [|done].
  apply next_frame_shorter in Hn.
  rewrite (split_frames_fuel _ (length tl)) by lia.
  now destruct (split_frames (length tl) tl).
Qed.

Lemma frames_stop bs : next_frame bs = None -> frames bs = [] /\ leftover bs = bs.
Proof. intros Hn. pose proof (frames_step bs) as H. rewrite Hn in H. split; congruence. Qed.

Lemma frames_next bs f tl : next_frame bs = Some (f, tl) ->
  frames bs = f :: frames tl /\ leftover bs = leftover tl.
Proof. intros Hn. pose proof (frames_step bs) as H. rewrite Hn in H. split; congruence. Qed.

(** Induction over the frames of a byte string. *)
Lemma frames_ind (P : list Z -> Prop) :
  (forall bs, next_frame bs = None -> P bs) ->
  (forall bs f tl, next_frame bs = Some (f, tl) -> P tl -> P bs) ->
  forall bs, P bs.
Proof.
  intros Hstop Hstep bs. induction bs as [bs IH] using (induction_ltof1 _ (@length Z)).
  destruct (next_frame bs) as [[f tl]|] eqn:Hn; [|by apply Hstop].
  apply (Hstep bs f tl Hn), IH. unfold ltof.
  apply next_frame_shorter in Hn. lia.
Qed.

Lemma next_frame_bytes bs f tl : bytes bs -> next_frame bs = Some (f, tl) -> bytes f /\ bytes tl.
Proof.
  intros Hbs. destruct bs as [|b0 [|b1 rest]]; try discriminate. simpl. case_decide; [discriminate|].
  intros [= <- <-]. apply Forall_cons_1 in Hbs as [_ Hbs]. apply Forall_cons_1 in Hbs as [_ Hbs].
  split; [by apply bytes_take | by apply bytes_drop].
Qed.

(** The first frame of a byte string is its prefix bytes and payload. *)
Lemma next_frame_eq bs f tl : bytes bs -> next_frame bs = Some (f, tl) ->
  exists b0 b1, bs = b0 :: b1 :: f ++ tl /\ is_u8 b0 /\ is_u8 b1 /\ b0 * 256 + b1 = Z.of_nat (length f).
Proof.
  intros Hbs. destruct bs as [|b0 [|b1 rest]]; try discriminate. simpl. case_decide as Hd; [discriminate|].
  intros [= <- <-]. exists b0, b1. rewrite take_drop, length_take.
  apply Forall_cons_1 in Hbs as [H0 Hbs]. apply Forall_cons_1 in Hbs as [H1 _].
  unfold is_u8 in *. split_and!; try done || lia.
Qed.

(** ** The stream loop *)

(** A frame as the length prefix can carry it. *)
Definition wf_frame (f : list Z) : Prop := bytes f /\ 0 < Z.of_nat (length f) < 65536.

Lemma frames_wf bs : bytes bs -> Forall wf_frame (frames bs).
Proof.
  induction bs as [bs Hn|bs f tl Hn IH] using frames_ind; intros Hb.
  - destruct (frames_stop bs Hn) as [-> _]. apply Forall_nil_2.
  - destruct (frames_next _ _ _ Hn) as [-> _].
    destruct (next_frame_bytes _ _ _ Hb Hn) as [Hf Htl].
    destruct (next_frame_eq _ _ _ Hb Hn) as (b0 & b1 & _ & H0 & H1 & Hv).
    pose proof (next_frame_shorter _ _ _ Hn) as [_ Hpos].
    apply Forall_cons_2; [|by apply IH]. split; [done|]. unfold is_u8 in *. lia.
Qed.

Lemma parse_loop_frames {S} `{Handler S} fuel data len off count (h : S) :
  bytes data -> (off <= len <= length data)%nat -> (len - off < fuel)%nat ->
  let bs := take (len - off) (drop off data) in
  parse_loop fuel data len off count h =
    Ok ((count + length (frames bs))%nat, foldl apply_event h (frame_event <$> frames bs)).
Proof.
  intros Hb. revert off count h. induction fuel as [|fuel IH]; intros off count h Hoff Hfuel bs; [lia|].
  assert (Hbs : length bs = (len - off)%nat) by (apply take_drop_destruct; lia).
  cbn [parse_loop]. case_decide as H2.
  2: { destruct (frames_stop bs) as [-> _]; [|simpl; f_equal; f_equal; lia].
       destruct bs as [|? [|??]]; simpl in Hbs; try reflexivity; lia. }
  rewrite be16_val, bind_Ok by (done || lia).
  assert (Hpre : take 2 (drop off data) = take 2 bs).
  { unfold bs. rewrite take_take. f_equal. lia. }
  rewrite Hpre. destruct bs as [|b0 [|b1 tl]] eqn:Ebs; simpl in Hbs; try lia.
  assert (be_val (take 2 (b0 :: b1 :: tl)) = b0 * 256 + b1) as ->.
  { unfold be_val. simpl. lia. }
  destruct (next_frame (b0 :: b1 :: tl)) as [[f rest]|] eqn:Hn.
  2: { destruct (frames_stop _ Hn) as [-> _]. simpl in Hn. case_decide as Hd; [|discriminate].
       rewrite decide_True by lia. simpl. f_equal; f_equal; lia. }
  destruct (frames_next _ _ _ Hn) as [-> _].
  simpl in Hn. case_decide as Hd; [discriminate|]. injection Hn as Hf Hrest.
  rewrite decide_False by lia.
  set (n := Z.to_nat (b0 * 256 + b1)) in *.
  assert (Htl : tl = take (len - off - 2) (drop (off + 2) data)).
  { rewrite <- (drop_drop data 2 off). change tl with (drop 2 (b0 :: b1 :: tl)). rewrite <- Ebs.
    unfold bs. now rewrite skipn_firstn_comm. }
  rewrite dispatch_frame, bind_Ok by (done || lia). cbv zeta.
  assert (take n (drop (off + 2) data) = f) as ->.
  { rewrite <- Hf, Htl, take_take. f_equal. lia. }
  rewrite IH by lia. cbv zeta.
  replace (take (len - (off + (2 + n))) (drop (off + (2 + n)) data)) with rest.
  - cbn. f_equal. f_equal. lia.
  - rewrite <- Hrest, Htl, skipn_firstn_comm, drop_drop. f_equal; [lia|]. f_equal. lia.
Qed.
(** ** Concatenation *)

Lemma next_frame_app a b f tl :
  next_frame a = Some (f, tl) -> next_frame (a ++ b) = Some (f, tl ++ b).
Proof.
  destruct a as [|b0 [|b1 rest]]; try discriminate. simpl. case_decide as Hd; [discriminate|].
  intros [= <- <-]. rewrite decide_False by (rewrite length_app; lia).
  now rewrite take_app_le, drop_app_le by lia.
Qed.

(** Parsing a concatenation: the frames of the first part, then the frames
    of what the first part left over followed by the second part. *)
Lemma frames_app a b :
  frames (a ++ b) = frames a ++ frames (leftover a ++ b) /\
  leftover (a ++ b) = leftover (leftover a ++ b).
Proof.
  induction a as [a Hn | a f tl Hn IH] using frames_ind.
  - destruct (frames_stop a Hn) as [-> ->]. done.
  - destruct (frames_next _ _ _ Hn) as [-> ->].
    destruct (frames_next _ _ _ (next_frame_app _ b _ _ Hn)) as [-> ->].
    destruct IH as [-> ->]. done.
Qed.

Lemma leftover_stuck bs : next_frame (leftover bs) = None.
Proof.
  induction bs as [bs Hn | bs f tl Hn IH] using frames_ind.
  - by destruct (frames_stop bs Hn) as [_ ->].
  - by destruct (frames_next _ _ _ Hn) as [_ ->].
Qed.

Lemma leftover_bytes bs : bytes bs -> bytes (leftover bs).
Proof.
  induction bs as [bs Hn | bs f tl Hn IH] using frames_ind; intros Hb.
  - by destruct (frames_stop bs Hn) as [_ ->].
  - destruct (frames_next _ _ _ Hn) as [_ ->]. by apply IH, (next_frame_bytes bs f tl).
Qed.

(** The whole buffer, as every caller but the chunked reader passes it. *)
Lemma parse_stream_frames {S} `{Handler S} data len (h : S) :
  bytes data -> (len <= length data)%nat ->
  parse_stream data len h =
    Ok (length (frames (take len data)), foldl apply_event h (events (take len data))).
Proof.
  intros Hb Hlen. unfold parse_stream. rewrite parse_loop_frames by (done || lia).
  cbv zeta. now rewrite drop_0, Nat.sub_0_r.
Qed.

(** ** Properties *)

(** C9: [parse_stream] on any byte buffer and any length that fits it returns
    (it never reads past the buffer and never loops), reports the number of
    complete frames of the reference splitting, and has invoked the handler
    exactly once per frame, in order, with the message the frame's bytes
    denote at the ITCH byte offsets. *)
Theorem parse_stream_correct {S} `{Handler S} (data : list Z) (len : nat) (h : S)
    (Hbytes : bytes data) (Hlen : (len <= length data)%nat) :
  parse_stream data len h =
    Ok (length (frames (take len data)), foldl apply_event h (events (take len data))).
Proof. by apply parse_stream_frames. Qed.

(** A handler that logs what it is called with. *)
#[global] Instance log_handler : Handler (list event) := {
  on_add m h := h ++ [EAdd m];
  on_execute m h := h ++ [EExec m];
  on_execute_price m h := h ++ [EExecPrice m];
  on_cancel m h := h ++ [ECancel m];
  on_delete m h := h ++ [EDelete m];
  on_replace m h := h ++ [EReplace m];
  on_other t n h := h ++ [EOther t n]
}.

Lemma log_events es l : foldl apply_event (l : list event) es = l ++ es.
Proof.
  revert l. induction es as [|e es IH]; intros l; cbn [foldl]; [by rewrite app_nil_r|].
  rewrite IH. destruct e; cbn; by rewrite <- app_assoc.
Qed.

(** A one-byte unknown frame, a delete of order 7 on locate 3, and a
    truncated tail. *)
Definition sample_stream : list Z :=
  [0; 1; 83] ++ [0; 19; 68; 0; 3; 0; 0; 0; 0; 0; 0; 0; 100; 0; 0; 0; 0; 0; 0; 0; 7] ++ [0; 36; 65].

Theorem parse_stream_correct_witness :
  bytes sample_stream /\ (length sample_stream <= length sample_stream)%nat /\
  parse_stream sample_stream (length sample_stream) ([] : list event) =
    Ok (2%nat, [EOther 83 1; EDelete (mkOrderDelete (mkHeader 3 100) 7)]).
Proof.
  assert (bytes sample_stream) as Hb.
  { apply (bool_decide_unpack _). vm_compute. exact I. }
  split; [exact Hb|]. split; [apply le_n|].
  rewrite (parse_stream_correct sample_stream (length sample_stream) [] Hb (le_n _)).
  vm_compute. reflexivity.
Defined.

End Wire.
