(* ===== verification/Encode.v ===== *)
(** * Encode: the synthetic ITCH encoders

    Models include/itch/encode.hpp.  [std::vector::push_back] is appending one
    byte; [std::string_view] is the list of its characters' bytes.  The
    theorems are the two round trips between these encoders and the parser of
    [Wire], for single messages and for whole framed streams, and the
    lossless re-framing of arbitrary input. *)

From S2P Require Import Prelude Wire.

Module Encode.

Definition Msg := list Z.

(** [for (int s = 8 * (n - 1); s >= 0; s -= 8) v.push_back(u8(x >> s));] *)
Fixpoint push_be (n : nat) (v : Msg) (x : Z) : Msg :=
  match n with
  | O => v
  | S k => push_be k (v ++ [u8 (Z.shiftr x (8 * Z.of_nat k))]) x
  end.

Definition be16 (v : Msg) (x : Z) : Msg := (v ++ [u8 (Z.shiftr x 8)]) ++ [u8 x].
Definition be32 (v : Msg) (x : Z) : Msg := push_be 4 v x.
Definition be48 (v : Msg) (x : Z) : Msg := push_be 6 v x.
Definition be64 (v : Msg) (x : Z) : Msg := push_be 8 v x.

Definition stock8 (v : Msg) (s : list Z) : Msg :=
  foldl (fun v i => v ++ [match s !! i with Some c => u8 c | None => 32 end]) v (seq 0 8).

Definition header (m : Msg) (type locate ts : Z) : Msg :=
  be48 (be16 (be16 (m ++ [u8 type]) locate) 0) ts.

Definition add_order (locate ts ref : Z) (side : Wire.Side) (shares : Z) (stock : list Z)
    (price : Z) : Msg :=
  be32 (stock8 (be32 (be64 (header [] Wire.chA locate ts) ref ++ [u8 side]) shares) stock) price.

Definition executed (locate ts ref shares mtch : Z) : Msg :=
  be64 (be32 (be64 (header [] Wire.chE locate ts) ref) shares) mtch.

Definition executed_price (locate ts ref shares mtch : Z) (printable : bool) (price : Z) : Msg :=
  be32 (be64 (be32 (be64 (header [] Wire.chC locate ts) ref) shares) mtch
          ++ [if printable then Wire.chY else Wire.chN]) price.

Definition cancel (locate ts ref canceled : Z) : Msg :=
  be32 (be64 (header [] Wire.chX locate ts) ref) canceled.

Definition del (locate ts ref : Z) : Msg := be64 (header [] Wire.chD locate ts) ref.

Definition replace (locate ts orig next shares price : Z) : Msg :=
  be32 (be32 (be64 (be64 (header [] Wire.chU locate ts) orig) next) shares) price.

Definition frame (out : list Z) (m : Msg) : list Z :=
  be16 out (u16 (Z.of_nat (length m))) ++ m.

Definition stream (msgs : list Msg) : list Z := foldl frame [] msgs.

(** ** Encoding a decoded message *)

(** The characters before the NUL padding, as a [string_view] on
    [AddOrder::stock] sees them. *)
Fixpoint c_str (s : list Z) : list Z :=
  match s with
  | [] => []
  | c :: s => if c =? 0 then [] else c :: c_str s
  end.

Definition encode_event (e : Wire.event) : Msg :=
  match e with
  | Wire.EAdd m =>
      add_order (Wire.locate (Wire.add_hdr m)) (Wire.timestamp (Wire.add_hdr m)) (Wire.add_ref m)
        (Wire.add_side m) (Wire.add_shares m) (c_str (Wire.add_stock m)) (Wire.add_price m)
  | Wire.EExec m =>
      executed (Wire.locate (Wire.exec_hdr m)) (Wire.timestamp (Wire.exec_hdr m))
        (Wire.exec_ref m) (Wire.exec_shares m) (Wire.exec_match m)
  | Wire.EExecPrice m =>
      executed_price (Wire.locate (Wire.execp_hdr m)) (Wire.timestamp (Wire.execp_hdr m))
        (Wire.execp_ref m) (Wire.execp_shares m) (Wire.execp_match m)
        (Wire.execp_printable m) (Wire.execp_price m)
  | Wire.ECancel m =>
      cancel (Wire.locate (Wire.cancel_hdr m)) (Wire.timestamp (Wire.cancel_hdr m))
        (Wire.cancel_ref m) (Wire.cancel_canceled m)
  | Wire.EDelete m =>
      del (Wire.locate (Wire.delete_hdr m)) (Wire.timestamp (Wire.delete_hdr m)) (Wire.delete_ref m)
  | Wire.EReplace m =>
      replace (Wire.locate (Wire.replace_hdr m)) (Wire.timestamp (Wire.replace_hdr m))
        (Wire.replace_orig_ref m) (Wire.replace_new_ref m) (Wire.replace_shares m)
        (Wire.replace_price m)
  | Wire.EOther t n => u8 t :: replicate (n - 1) 0
  end.

(** ** Messages the encoders can express *)

Definition wf_header (h : Wire.Header) : Prop :=
  is_u16 (Wire.locate h) /\ is_u48 (Wire.timestamp h).

(** A decoded stock symbol: at most eight non-NUL characters, the last one
    not a space, NUL-padded to nine. *)
Definition wf_stock (s : list Z) : Prop :=
  exists sym, s = sym ++ replicate (9 - length sym) 0 /\ (length sym <= 8)%nat /\
    Forall (fun c => 0 < c < 256) sym /\ last sym <> Some 32.

Definition wf_event (e : Wire.event) : Prop :=
  match e with
  | Wire.EAdd m =>
      wf_header (Wire.add_hdr m) /\ is_u64 (Wire.add_ref m) /\ is_u8 (Wire.add_side m) /\
      is_u32 (Wire.add_shares m) /\ wf_stock (Wire.add_stock m) /\ is_u32 (Wire.add_price m)
  | Wire.EExec m =>
      wf_header (Wire.exec_hdr m) /\ is_u64 (Wire.exec_ref m) /\ is_u32 (Wire.exec_shares m) /\
      is_u64 (Wire.exec_match m)
  | Wire.EExecPrice m =>
      wf_header (Wire.execp_hdr m) /\ is_u64 (Wire.execp_ref m) /\ is_u32 (Wire.execp_shares m) /\
      is_u64 (Wire.execp_match m) /\ is_u32 (Wire.execp_price m)
  | Wire.ECancel m =>
      wf_header (Wire.cancel_hdr m) /\ is_u64 (Wire.cancel_ref m) /\ is_u32 (Wire.cancel_canceled m)
  | Wire.EDelete m => wf_header (Wire.delete_hdr m) /\ is_u64 (Wire.delete_ref m)
  | Wire.EReplace m =>
      wf_header (Wire.replace_hdr m) /\ is_u64 (Wire.replace_orig_ref m) /\
      is_u64 (Wire.replace_new_ref m) /\ is_u32 (Wire.replace_shares m) /\
      is_u32 (Wire.replace_price m)
  | Wire.EOther t n =>
      is_u8 t /\ 0 < Z.of_nat n < 65536 /\ Wire.wire_size t <> Z.of_nat n
  end.

(** ** Fixed-width integers *)

Definition be_bytes (n : nat) (x : Z) : list Z := push_be n [] x.

Lemma push_be_app n v x : push_be n v x = v ++ be_bytes n x.
Proof.
  unfold be_bytes. revert v. induction n as [|n IH]; intros v; simpl.
  - by rewrite app_nil_r.
  - by rewrite IH, (IH [_]), <- app_assoc.
Qed.

Lemma be_bytes_S n x : be_bytes (S n) x = u8 (Z.shiftr x (8 * Z.of_nat n)) :: be_bytes n x.
Proof. unfold be_bytes. simpl. by rewrite push_be_app. Qed.

Lemma length_be_bytes n x : length (be_bytes n x) = n.
Proof. induction n; [done|]. rewrite be_bytes_S. simpl. lia. Qed.

Lemma bytes_be_bytes n x : Wire.bytes (be_bytes n x).
Proof.
  induction n; [apply Forall_nil_2|].
  rewrite be_bytes_S. apply Forall_cons_2; [apply u8_range | done].
Qed.

(** Writing [n] big-endian bytes keeps the value modulo [256^n]. *)
Lemma be_val_be_bytes n x : Wire.be_val (be_bytes n x) = x mod 256 ^ Z.of_nat n.
Proof.
  induction n as [|n IH].
  - by rewrite Z.mod_1_r.
  - rewrite be_bytes_S. change (?a :: ?l) with ([a] ++ l).
    rewrite Wire.be_val_app, IH, length_be_bytes. unfold Wire.be_val; simpl foldl.
    rewrite Z.shiftr_div_pow2 by lia.
    replace (2 ^ (8 * Z.of_nat n)) with (256 ^ Z.of_nat n) by (rewrite Z.pow_mul_r by lia; done).
    rewrite Nat2Z.inj_succ, Z.pow_succ_r by lia.
    rewrite (Z.mul_comm 256), Z.rem_mul_r by lia. unfold u8. lia.
Qed.

Lemma be16_app v x : be16 v x = v ++ be_bytes 2 x.
Proof. unfold be16. rewrite <- app_assoc. reflexivity. Qed.

Lemma stock8_app v s :
  stock8 v s = v ++ map (fun i => match s !! i with Some c => u8 c | None => 32 end) (seq 0 8).
Proof. unfold stock8. simpl. by rewrite <- !app_assoc. Qed.

(** ** Reading a field out of an encoded message *)

Lemma field_skip (a b : list Z) off n :
  (length a <= off)%nat -> Wire.field (a ++ b) off n = Wire.field b (off - length a) n.
Proof. intros. unfold Wire.field. by rewrite drop_app_ge. Qed.

Lemma field_be k x b : 0 <= x < 256 ^ Z.of_nat k -> Wire.field (be_bytes k x ++ b) 0 k = x.
Proof.
  intros. unfold Wire.field. rewrite drop_0, take_app_length'; [|by rewrite length_be_bytes].
  rewrite be_val_be_bytes. by apply Z.mod_small.
Qed.

Lemma byte_at_skip (a b : list Z) off :
  (length a <= off)%nat -> Wire.byte_at (a ++ b) off = Wire.byte_at b (off - length a).
Proof. intros. unfold Wire.byte_at. by rewrite lookup_app_r. Qed.

Lemma stock_at_skip (a b : list Z) off :
  (length a <= off)%nat -> Wire.stock_at (a ++ b) off = Wire.stock_at b (off - length a).
Proof. intros. unfold Wire.stock_at. by rewrite drop_app_ge. Qed.

Lemma cons_app (c : Z) (l : list Z) : c :: l = [c] ++ l.
Proof. done. Qed.

(** ** The stock symbol *)

Lemma c_str_wf sym n : Forall (fun c => 0 < c < 256) sym -> c_str (sym ++ replicate n 0) = sym.
Proof.
  induction 1 as [|c sym Hc Hsym IH]; simpl.
  - by destruct n.
  - destruct (c =? 0) eqn:E; [lia|]. by rewrite IH.
Qed.

Lemma trim_spaces_pad sym k rest :
  last sym <> Some 32 ->
  Wire.trim_spaces (length sym + k) (sym ++ replicate k 32 ++ rest) =
  sym ++ replicate k 0 ++ rest.
Proof.
  intros Hlast. revert rest. induction k as [|k IH]; intros rest.
  - rewrite Nat.add_0_r. simpl. destruct (length sym) eqn:E; [done|]. simpl.
    rewrite decide_False; [done|]. intros Hl. apply Hlast.
    rewrite last_lookup, E. simpl. by rewrite lookup_app_l in Hl by lia.
  - rewrite Nat.add_succ_r. cbn [Wire.trim_spaces].
    rewrite !replicate_S_end, <- !app_assoc.
    rewrite decide_True.
    2: { rewrite lookup_app_r, lookup_app_r by (rewrite ?length_replicate; lia).
         rewrite length_replicate. by replace (length sym + k - length sym - k)%nat with 0%nat by lia. }
    rewrite insert_app_r. rewrite insert_app_r_alt by (rewrite length_replicate; lia).
    rewrite length_replicate, Nat.sub_diag. simpl. apply IH.
Qed.

Lemma stock8_sym sym : (length sym <= 8)%nat -> Forall (fun c => 0 < c < 256) sym ->
  map (fun i => match sym !! i with Some c => u8 c | None => 32 end) (seq 0 8)
  = sym ++ replicate (8 - length sym) 32.
Proof.
  intros Hlen Hsym. apply list_eq. intros i. change (map ?f ?l) with (f <$> l).
  rewrite list_lookup_fmap. destruct (decide (i < 8)%nat) as [Hi|Hi].
  - rewrite lookup_seq_lt by done. simpl.
    destruct (sym !! i) as [c|] eqn:E.
    + rewrite (lookup_app_l_Some _ _ _ _ E). f_equal. apply u8_id.
      pose proof (Forall_lookup_1 _ _ _ _ Hsym E) as Hc. simpl in Hc. unfold is_u8. lia.
    + apply lookup_ge_None in E. rewrite lookup_app_r, lookup_replicate_2 by lia. done.
  - rewrite lookup_seq_ge by lia. symmetry. apply lookup_ge_None.
    rewrite length_app, length_replicate. lia.
Qed.

Lemma stock_roundtrip (s b : list Z) : wf_stock s ->
  Wire.stock_at (map (fun i => match c_str s !! i with Some c => u8 c | None => 32 end) (seq 0 8) ++ b) 0 = s.
Proof.
  intros (sym & -> & Hlen & Hsym & Hlast). rewrite c_str_wf by done.
  rewrite stock8_sym by done. unfold Wire.stock_at.
  rewrite drop_0, take_app_length' by (rewrite length_app, length_replicate; lia).
  rewrite <- app_assoc.
  pose proof (trim_spaces_pad sym (8 - length sym) [0] Hlast) as H.
  replace (length sym + (8 - length sym))%nat with 8%nat in H by lia. rewrite H.
  f_equal. rewrite <- replicate_S_end. f_equal. lia.
Qed.
(** ** Round trip of one message *)

Lemma field_be_last k x : 0 <= x < 256 ^ Z.of_nat k -> Wire.field (be_bytes k x) 0 k = x.
Proof. intros. rewrite <- (app_nil_r (be_bytes k x)). by apply field_be. Qed.

Lemma byte_at_here (c : Z) (b : list Z) : Wire.byte_at ([c] ++ b) 0 = c.
Proof. done. Qed.

(** Read every field of a message in normal form. *)
Ltac read_encoded :=
  repeat (first
    [ rewrite field_be by (unfold_words; cbn; lia)
    | rewrite field_be_last by (unfold_words; cbn; lia)
    | rewrite byte_at_here
    | rewrite stock_roundtrip by assumption
    | rewrite field_skip by (rewrite ?length_be_bytes, ?length_map; cbn; lia)
    | rewrite byte_at_skip by (rewrite ?length_be_bytes, ?length_map; cbn; lia)
    | rewrite stock_at_skip by (rewrite ?length_be_bytes, ?length_map; cbn; lia)
    | progress rewrite ?length_be_bytes, ?length_map
    | progress cbn [length Nat.sub seq] ]).

Lemma header_nf type locate ts :
  header [] type locate ts = [u8 type] ++ be_bytes 2 locate ++ be_bytes 2 0 ++ be_bytes 6 ts.
Proof.
  unfold header, be48, be16, Msg. rewrite push_be_app, <- !app_assoc. reflexivity.
Qed.

(** Bring a message to a right-nested concatenation of fields, decide the
    branch [frame_event] takes on its type and length, read the fields. *)
Ltac decode_encoded :=
  rewrite header_nf; unfold be32, be64, Msg;
  rewrite ?stock8_app, ?push_be_app, <- ?app_assoc;
  unfold Wire.frame_event, Wire.frame_header;
  rewrite byte_at_here, ?length_app, ?length_be_bytes, ?length_map;
  repeat match goal with
  | |- (if ?c then _ else _) = _ =>
      let c' := eval vm_compute in c in change c with c'; cbv iota
  end;
  read_encoded; rewrite ?u8_id by assumption; try reflexivity.

Lemma encode_event_frame e : wf_event e -> Wire.frame_event (encode_event e) = e.
Proof.
  destruct e as [[[l ts]]|[[l ts]]|[[l ts]]|[[l ts]]|[[l ts]]|[[l ts]]|t n]; unfold wf_event, wf_header;
    cbn [encode_event Wire.locate Wire.timestamp Wire.add_hdr Wire.add_ref Wire.add_side Wire.add_shares
         Wire.add_stock Wire.add_price Wire.exec_hdr Wire.exec_ref Wire.exec_shares Wire.exec_match
         Wire.execp_hdr Wire.execp_ref Wire.execp_shares Wire.execp_match Wire.execp_printable
         Wire.execp_price Wire.cancel_hdr Wire.cancel_ref Wire.cancel_canceled Wire.delete_hdr
         Wire.delete_ref Wire.replace_hdr Wire.replace_orig_ref Wire.replace_new_ref
         Wire.replace_shares Wire.replace_price];
    intros; destruct_and?.
  - unfold add_order. decode_encoded.
  - unfold executed. decode_encoded.
  - unfold executed_price. decode_encoded. by destruct execp_printable.
  - unfold cancel. decode_encoded.
  - unfold del. decode_encoded.
  - unfold replace. decode_encoded.
  - unfold Wire.frame_event. simpl length. rewrite length_replicate.
    replace (S (n - 1)) with n by lia. unfold Wire.byte_at. simpl. rewrite u8_id by done.
    by rewrite (proj2 (Z.eqb_neq _ _)) by done.
Qed.

Lemma encode_event_length e : wf_event e -> 0 < Z.of_nat (length (encode_event e)) < 65536.
Proof.
  destruct e; intros He; cbn [encode_event];
    try (unfold add_order, executed, executed_price, cancel, del, replace;
         rewrite header_nf; unfold be32, be64, Msg;
         rewrite ?stock8_app, ?push_be_app, ?length_app, ?length_be_bytes, ?length_map; cbn; lia).
  cbn [wf_event] in He. simpl length. rewrite length_replicate. lia.
Qed.

(** ** Framing *)

Lemma frame_app out m :
  0 < Z.of_nat (length m) < 65536 ->
  frame out m = out ++ be_bytes 2 (Z.of_nat (length m)) ++ m.
Proof.
  intros. unfold frame. rewrite be16_app, <- app_assoc. by rewrite u16_id by word_lia.
Qed.

Lemma next_frame_frame m tl :
  0 < Z.of_nat (length m) < 65536 ->
  Wire.next_frame (be_bytes 2 (Z.of_nat (length m)) ++ m ++ tl) = Some (m, tl).
Proof.
  intros Hm. pose proof (be_val_be_bytes 2 (Z.of_nat (length m))) as Hv.
  rewrite !be_bytes_S in *. change (be_bytes 0 ?x) with (@nil Z) in *.
  change (256 ^ Z.of_nat 2) with 65536 in Hv. rewrite Z.mod_small in Hv by lia.
  unfold Wire.be_val in Hv. cbn [foldl] in Hv.
  cbn [app Wire.next_frame]. replace (Z.to_nat _) with (length m) by lia.
  rewrite decide_False by (rewrite length_app; lia).
  by rewrite take_app_length, drop_app_length.
Qed.

Lemma stream_app ms m : stream (ms ++ [m]) = frame (stream ms) m.
Proof. unfold stream. by rewrite foldl_app. Qed.

Lemma foldl_frame_app out ms :
  Forall (fun m => 0 < Z.of_nat (length m) < 65536) ms ->
  foldl frame out ms = out ++ stream ms.
Proof.
  unfold stream. revert out. induction ms as [|m ms IH]; intros out Hms; simpl.
  - by rewrite app_nil_r.
  - apply Forall_cons in Hms as [Hm Hms]. rewrite (IH (frame out m)), (IH (frame [] m)) by done.
    rewrite !frame_app by done. by rewrite app_nil_l, <- !app_assoc.
Qed.

Lemma stream_cons m ms :
  Forall (fun m => 0 < Z.of_nat (length m) < 65536) (m :: ms) ->
  stream (m :: ms) = be_bytes 2 (Z.of_nat (length m)) ++ m ++ stream ms.
Proof.
  intros Hms. apply Forall_cons in Hms as [Hm Hms].
  change (stream (m :: ms)) with (foldl frame (frame [] m) ms).
  rewrite foldl_frame_app by done. rewrite frame_app by done. by rewrite app_nil_l, <- app_assoc.
Qed.

(** Frames of any content survive framing: whatever the payloads are, the
    reader gets them back and stops exactly at the unframed tail. *)
Lemma frames_stream ms tl :
  Forall (fun m => 0 < Z.of_nat (length m) < 65536) ms ->
  Wire.frames (stream ms ++ tl) = ms ++ Wire.frames tl /\
  Wire.leftover (stream ms ++ tl) = Wire.leftover tl.
Proof.
  induction ms as [|m ms IH]; intros Hms; [done|].
  rewrite stream_cons by done. apply Forall_cons in Hms as [Hm Hms].
  rewrite <- !app_assoc.
  destruct (Wire.frames_next _ _ _ (next_frame_frame m (stream ms ++ tl) Hm)) as [-> ->].
  destruct (IH Hms) as [-> ->]. done.
Qed.
Lemma bytes_stock8 (s : list Z) : Wire.bytes (map (fun i => match s !! i with Some c => u8 c | None => 32 end) (seq 0 8)).
Proof.
  apply Forall_forall. intros x Hx. apply list_elem_of_In, in_map_iff in Hx as (i & <- & _).
  destruct (s !! i); [apply u8_range | word_lia].
Qed.

Lemma bytes_encode_event e : Wire.bytes (encode_event e).
Proof.
  assert (forall c, Wire.bytes [u8 c]) as H1.
  { intros. apply Forall_singleton, u8_range. }
  destruct e; cbn [encode_event];
    try (unfold add_order, executed, executed_price, cancel, del, replace;
         rewrite header_nf; unfold be32, be64, Msg;
         rewrite ?stock8_app, ?push_be_app, <- ?app_assoc;
         unfold Wire.bytes; rewrite !Forall_app; split_and!;
         try apply bytes_be_bytes; try apply bytes_stock8; try apply H1).
  - destruct (Wire.execp_printable m); apply Forall_singleton; unfold Wire.chY, Wire.chN; word_lia.
  - apply Forall_cons_2; [apply u8_range|]. apply Forall_replicate. word_lia.
Qed.

Lemma bytes_stream ms : Forall Wire.bytes ms -> Wire.bytes (stream ms).
Proof.
  induction ms as [|m ms IH] using rev_ind; intros Hms; [apply Forall_nil_2|].
  apply Forall_app in Hms as [Hms Hm]. rewrite stream_app. unfold frame.
  rewrite be16_app. apply Forall_app; split; [apply Forall_app; split|].
  - by apply IH.
  - apply bytes_be_bytes.
  - by inversion_clear Hm.
Qed.

(** The events of a stream of encoded messages are the messages. *)
Lemma events_stream es tl :
  Forall wf_event es -> Wire.next_frame tl = None ->
  Wire.events (stream (encode_event <$> es) ++ tl) = es.
Proof.
  intros Hes Htl. unfold Wire.events.
  destruct (frames_stream (encode_event <$> es) tl) as [-> _].
  { apply Forall_fmap. eapply Forall_impl; [exact Hes | apply encode_event_length]. }
  destruct (Wire.frames_stop tl Htl) as [-> _]. rewrite app_nil_r, <- list_fmap_compose.
  rewrite <- (list_fmap_id es) at 2. apply Forall_fmap_ext_1.
  eapply Forall_impl; [exact Hes | apply encode_event_frame].
Qed.

(** ** Properties *)

(** C21: parsing what the encoders produced gives the messages back: for every
    list of well-formed messages (undecoded types included), framed into a
    stream and followed by any tail that starts no complete frame,
    [parse_stream] reports exactly as many frames as messages and calls the
    handler with exactly those messages, in order. *)
Theorem stream_roundtrip {S} `{Wire.Handler S} (es : list Wire.event) (tl : list Z) (h : S)
    (Hes : Forall wf_event es) (Htl : Wire.bytes tl) (Hstuck : Wire.next_frame tl = None) :
  let data := stream (encode_event <$> es) ++ tl in
  Wire.parse_stream data (length data) h = Ok (length es, foldl Wire.apply_event h es).
Proof.
  intros data. rewrite Wire.parse_stream_frames.
  - rewrite firstn_all. rewrite <- (length_fmap Wire.frame_event). fold (Wire.events data).
    unfold data. by rewrite events_stream.
  - apply Forall_app; split; [|done]. apply bytes_stream, Forall_fmap.
    apply Forall_true. intros e. apply bytes_encode_event.
  - lia.
Qed.

Definition sample_events : list Wire.event :=
  [Wire.EOther 83 12;
   Wire.EAdd (Wire.mkAddOrder (Wire.mkHeader 1 100) 1001 Wire.Buy 300
                [65; 65; 80; 76; 0; 0; 0; 0; 0] 1500000);
   Wire.EExecPrice (Wire.mkOrderExecutedPrice (Wire.mkHeader 1 140) 1001 300 90001 true 1500000);
   Wire.EReplace (Wire.mkOrderReplace (Wire.mkHeader 2 160) 3001 3002 800 4199500)].

Theorem stream_roundtrip_witness :
  Forall wf_event sample_events /\
  Wire.parse_stream (stream (encode_event <$> sample_events) ++ [0; 36; 65])
    (length (stream (encode_event <$> sample_events) ++ [0; 36; 65])) ([] : list Wire.event)
  = Ok (4%nat, sample_events).
Proof.
  assert (Forall wf_event sample_events) as Hes.
  { repeat apply Forall_cons_2; try apply Forall_nil_2;
      unfold wf_event, wf_header, wf_stock; simpl; unfold_words; unfold Wire.Buy; split_and!; try lia.
    - discriminate.
    - exists [65; 65; 80; 76]. simpl. split_and!; try done; try lia.
      repeat apply Forall_cons_2; try apply Forall_nil_2; lia. }
  split; [exact Hes|].
  rewrite (stream_roundtrip sample_events [0; 36; 65] [] Hes).
  - reflexivity.
  - apply (bool_decide_unpack _). vm_compute. exact I.
  - reflexivity.
Defined.

(** Nothing of the input is lost by splitting: every byte buffer is its
    frames, re-framed by the encoder's framing function, followed by the
    leftover, and the leftover starts no complete frame. *)
Theorem reframe_lossless (bs : list Z) (Hbytes : Wire.bytes bs) :
  stream (Wire.frames bs) ++ Wire.leftover bs = bs /\
  Wire.next_frame (Wire.leftover bs) = None.
Proof.
  split; [|apply Wire.leftover_stuck].
  enough (Forall (fun m => 0 < Z.of_nat (length m) < 65536) (Wire.frames bs) /\
          stream (Wire.frames bs) ++ Wire.leftover bs = bs) by tauto.
  induction bs as [bs Hn | bs f tl Hn IH] using Wire.frames_ind.
  - destruct (Wire.frames_stop bs Hn) as [-> ->]. split; [apply Forall_nil_2 | done].
  - destruct (Wire.frames_next _ _ _ Hn) as [-> ->].
    destruct (Wire.next_frame_bytes _ _ _ Hbytes Hn) as [_ Htl].
    destruct (IH Htl) as [Hfs Heq].
    destruct (Wire.next_frame_eq _ _ _ Hbytes Hn) as (b0 & b1 & Hbs & H0 & H1 & Hlen).
    destruct (Wire.next_frame_shorter _ _ _ Hn) as [_ Hpos].
    assert (Forall (fun m => 0 < Z.of_nat (length m) < 65536) (f :: Wire.frames tl)) as Hall.
    { apply Forall_cons_2; [word_lia | done]. }
    split; [done|]. rewrite stream_cons by done. rewrite <- !app_assoc, Heq, Hbs, <- Hlen.
    rewrite !be_bytes_S. change (be_bytes 0 ?x) with (@nil Z). cbn [app].
    rewrite !Z.shiftr_div_pow2 by lia. f_equal; [|f_equal].
    + change (2 ^ (8 * Z.of_nat 1)) with 256. word_lia.
    + change (2 ^ (8 * Z.of_nat 0)) with 1. word_lia.
Qed.

Theorem reframe_lossless_witness :
  Wire.bytes Wire.sample_stream /\
  stream (Wire.frames Wire.sample_stream) ++ Wire.leftover Wire.sample_stream = Wire.sample_stream.
Proof.
  assert (Wire.bytes Wire.sample_stream) as Hb.
  { apply (bool_decide_unpack _). vm_compute. exact I. }
  split; [exact Hb|]. exact (proj1 (reframe_lossless Wire.sample_stream Hb)).
Defined.

End Encode.
