(* ===== verification/Book.v ===== *)
(** * Book: what an order book promises

    The data shared by the two books of include/book (price level, quote,
    resting order), the abstract specification of a book as its set of resting
    orders, and the interface ([BookOps], [BookLaws]) through which the rest
    of the pipeline uses a book.  [OrderBook] and [LadderBook] discharge the
    laws; [Builder], [Gzip], [Threaded] and [Snapshot] are proved against
    them. *)

From S2P Require Import Prelude Wire.

Module Book.

(** ** Data (order_book.hpp) *)

Record Level := mkLevel { lvl_shares : Z; lvl_orders : Z }.
Record Quote := mkQuote { q_price : Z; q_shares : Z }.
Record Order := mkOrder { ord_shares : Z; ord_price : Z; ord_side : Wire.Side }.

#[global] Instance Level_eq_dec : EqDecision Level.
Proof. solve_decision. Defined.
#[global] Instance Quote_eq_dec : EqDecision Quote.
Proof. solve_decision. Defined.
#[global] Instance Order_eq_dec : EqDecision Order.
Proof. solve_decision. Defined.

(** A value-initialised level. *)
Definition empty_level : Level := mkLevel 0 0.

(** [side == itch::Side::Buy]: every other byte value is the ask side. *)
Definition is_buy (side : Wire.Side) : bool := side =? Wire.Buy.

(** ** The specification: a book is its resting orders *)

Definition on_side (buy : bool) (o : Order) : bool := eqb (is_buy (ord_side o)) buy.

Definition at_level (buy : bool) (price : Z) (o : Order) : bool :=
  on_side buy o && (ord_price o =? price).

(** Sum of a quantity over the resting orders. *)
Definition sum_over (f : Order -> Z) (os : gmap Z Order) : Z :=
  map_fold (fun _ o acc => f o + acc) 0 os.

Definition level_shares (buy : bool) (price : Z) : gmap Z Order -> Z :=
  sum_over (fun o => if at_level buy price o then ord_shares o else 0).

Definition level_count (buy : bool) (price : Z) : gmap Z Order -> Z :=
  sum_over (fun o => if at_level buy price o then 1 else 0).

(** The aggregate a price level must show; [None] when nobody rests there. *)
Definition spec_level (buy : bool) (price : Z) (os : gmap Z Order) : option Level :=
  if level_count buy price os =? 0 then None
  else Some (mkLevel (level_shares buy price os) (level_count buy price os)).

(** The occupied prices of one side. *)
Definition prices (buy : bool) (os : gmap Z Order) : gset Z :=
  list_to_set (ord_price <$> filter (fun o => on_side buy o = true) (map_to_list os).*2).

(** Of two prices, the one a side ranks first: the higher bid, the lower
    ask. *)
Definition better (buy : bool) (p q : Z) : Z := if buy then Z.max p q else Z.min p q.

Fixpoint best_of (buy : bool) (l : list Z) : option Z :=
  match l with
  | [] => None
  | p :: l => Some (match best_of buy l with None => p | Some q => better buy p q end)
  end.

Definition spec_best (buy : bool) (os : gmap Z Order) : option Quote :=
  p ← best_of buy (elements (prices buy os));
  Some (mkQuote p (level_shares buy p os)).

Definition spec_add (ref : Z) (side : Wire.Side) (shares price : Z) (os : gmap Z Order)
  : bool * gmap Z Order :=
  match os !! ref with
  | Some _ => (false, os)
  | None => (true, <[ref := mkOrder shares price side]> os)
  end.

Definition spec_reduce (ref shares : Z) (os : gmap Z Order) : bool * gmap Z Order :=
  match os !! ref with
  | None => (false, os)
  | Some o =>
    let left := ord_shares o - Z.min shares (ord_shares o) in
    (true, if left =? 0 then delete ref os
           else <[ref := mkOrder left (ord_price o) (ord_side o)]> os)
  end.

Definition spec_remove (ref : Z) (os : gmap Z Order) : bool * gmap Z Order :=
  match os !! ref with
  | None => (false, os)
  | Some _ => (true, delete ref os)
  end.

(** [admits] says whether the book can represent the new price. *)
Definition spec_replace (admits : bool) (orig next shares price : Z) (os : gmap Z Order)
  : bool * gmap Z Order :=
  match os !! orig with
  | None => (false, os)
  | Some o =>
    if admits then spec_add next (ord_side o) shares price (delete orig os)
    else (false, delete orig os)
  end.

(** Resting orders hold 32-bit quantities and prices, and there are fewer
    than 2^32 of them (a level counts its orders in 32 bits). *)
Definition wf_order (o : Order) : Prop := is_u32 (ord_shares o) /\ is_u32 (ord_price o).
Definition wf_orders (os : gmap Z Order) : Prop := map_Forall (fun _ o => wf_order o) os.
Definition max_orders : Z := 4294967296.

(** ** The interface *)

Class BookOps (B : Type) := {
  make : Z -> outcome B;
  add : Z -> Wire.Side -> Z -> Z -> B -> outcome (bool * B);
  execute : Z -> Z -> B -> outcome (bool * B);
  cancel : Z -> Z -> B -> outcome (bool * B);
  remove : Z -> B -> outcome (bool * B);
  replace : Z -> Z -> Z -> Z -> B -> outcome (bool * B);
  best_bid : B -> outcome (option Quote);
  best_ask : B -> outcome (option Quote);
  open_orders : B -> nat;
  bid_levels : B -> Z;
  ask_levels : B -> Z
}.

(** An operation runs without undefined behaviour, keeps the invariant, and
    acts on the resting orders as specified. *)
Definition refines {B} (inv : B -> Prop) (orders : B -> gmap Z Order)
    (r : outcome (bool * B)) (spec : bool * gmap Z Order) : Prop :=
  exists ok b', r = Ok (ok, b') /\ inv b' /\ (ok, orders b') = spec.

Class BookLaws (B : Type) `{BookOps B} := {
  inv : B -> Prop;
  orders : B -> gmap Z Order;
  admits : B -> Z -> bool;
  make_law hint : is_u32 hint ->
    exists b, make hint = Ok b /\ inv b /\ orders b = ∅;
  add_law ref side shares price b : inv b ->
    Z.of_nat (size (orders b)) + 1 < max_orders -> is_u32 shares -> is_u32 price ->
    refines inv orders (add ref side shares price b)
      (if admits b price then spec_add ref side shares price (orders b) else (false, orders b));
  execute_law ref shares b : inv b -> is_u32 shares ->
    refines inv orders (execute ref shares b) (spec_reduce ref shares (orders b));
  cancel_law ref shares b : inv b -> is_u32 shares ->
    refines inv orders (cancel ref shares b) (spec_reduce ref shares (orders b));
  remove_law ref b : inv b ->
    refines inv orders (remove ref b) (spec_remove ref (orders b));
  replace_law orig next shares price b : inv b -> is_u32 shares -> is_u32 price ->
    refines inv orders (replace orig next shares price b)
      (spec_replace (admits b price) orig next shares price (orders b));
  inv_wf b : inv b -> wf_orders (orders b) /\ Z.of_nat (size (orders b)) < max_orders;
  best_bid_law b : inv b -> best_bid b = Ok (spec_best true (orders b));
  best_ask_law b : inv b -> best_ask b = Ok (spec_best false (orders b));
  open_orders_law b : inv b -> open_orders b = size (orders b);
  bid_levels_law b : inv b -> bid_levels b = Z.of_nat (size (prices true (orders b)));
  ask_levels_law b : inv b -> ask_levels b = Z.of_nat (size (prices false (orders b)))
}.

(** ** Sums over the resting orders *)

Section Sum.
Variable f : Order -> Z.

Lemma sum_over_empty : sum_over f ∅ = 0.
Proof. apply map_fold_empty. Qed.

Lemma sum_over_insert ref o os : os !! ref = None ->
  sum_over f (<[ref := o]> os) = f o + sum_over f os.
Proof.
  intros Hn. unfold sum_over. rewrite map_fold_insert_L; [done| |done].
  intros. lia.
Qed.

Lemma sum_over_delete ref o os : os !! ref = Some o ->
  sum_over f os = f o + sum_over f (delete ref os).
Proof.
  intros Hs. rewrite <- (insert_delete_id os ref o Hs) at 1.
  apply sum_over_insert, lookup_delete_eq.
Qed.

Lemma sum_over_update ref o o' os : os !! ref = Some o ->
  sum_over f (<[ref := o']> os) = sum_over f os - f o + f o'.
Proof.
  intros Hs. rewrite (sum_over_delete _ _ _ Hs), <- insert_delete_eq.
  rewrite sum_over_insert by apply lookup_delete_eq. lia.
Qed.

Lemma sum_over_bounds k os : (forall ref o, os !! ref = Some o -> 0 <= f o <= k) ->
  0 <= sum_over f os <= k * Z.of_nat (size os).
Proof.
  induction os as [|ref o os Hn IH] using map_ind; intros Hf.
  - rewrite sum_over_empty, map_size_empty. lia.
  - rewrite sum_over_insert, map_size_insert_None by done.
    assert (0 <= f o <= k) by (apply (Hf ref); apply lookup_insert_eq).
    assert (0 <= sum_over f os <= k * Z.of_nat (size os)).
    { apply IH. intros r o' Hr. apply (Hf r).
      rewrite lookup_insert_ne; [done|]. intros ->. congruence. }
    lia.
Qed.

Lemma sum_over_pos os : (forall ref o, os !! ref = Some o -> 0 <= f o) ->
  sum_over f os <> 0 <-> exists ref o, os !! ref = Some o /\ f o <> 0.
Proof.
  induction os as [|ref o os Hn IH] using map_ind; intros Hf.
  - rewrite sum_over_empty. split; [done|]. intros (r & o & Hr & _). by rewrite lookup_empty in Hr.
  - assert (0 <= f o) by (apply (Hf ref); apply lookup_insert_eq).
    assert (forall r o', os !! r = Some o' -> 0 <= f o') as Hf'.
    { intros r o' Hr. apply (Hf r). rewrite lookup_insert_ne; [done|]. intros ->. congruence. }
    rewrite sum_over_insert by done.
    assert (0 <= sum_over f os).
    { clear -Hf'. induction os as [|r o os Hn IH] using map_ind; [by rewrite sum_over_empty|].
      rewrite sum_over_insert by done.
      pose proof (Hf' r o (lookup_insert_eq _ _ _)).
      enough (0 <= sum_over f os) by lia. apply IH. intros r' o' Hr. apply (Hf' r').
      rewrite lookup_insert_ne; [done|]. intros ->. congruence. }
    split.
    + intros Hs. destruct (decide (f o = 0)) as [E|E].
      * destruct (proj1 (IH Hf')) as (r & o' & Hr & Ho'); [lia|].
        exists r, o'. split; [|done]. rewrite lookup_insert_ne; [done|]. intros ->. congruence.
      * exists ref, o. by rewrite lookup_insert_eq.
    + intros (r & o' & Hr & Ho'). apply lookup_insert_Some in Hr as [[-> ->] | [_ Hr]]; [lia|].
      enough (sum_over f os <> 0) by lia. apply IH; eauto.
Qed.

End Sum.

(** ** Levels *)

(** The aggregate of a level, occupied or not. *)
Definition aggregate (buy : bool) (price : Z) (os : gmap Z Order) : Level :=
  mkLevel (level_shares buy price os) (level_count buy price os).

Section Levels.
Variables (buy : bool) (price : Z).

Lemma level_count_occupied os :
  level_count buy price os <> 0 <-> exists ref o, os !! ref = Some o /\ at_level buy price o = true.
Proof.
  unfold level_count. rewrite sum_over_pos by (intros; case_match; lia).
  split; intros (ref & o & Hr & Ho); exists ref, o; split; try done; destruct (at_level buy price o); done.
Qed.

Lemma level_count_bounds os : 0 <= level_count buy price os <= Z.of_nat (size os).
Proof.
  unfold level_count. pose proof (sum_over_bounds (fun o => if at_level buy price o then 1 else 0) 1 os) as H.
  rewrite Z.mul_1_l in H. apply H. intros; case_match; lia.
Qed.

Lemma level_shares_bounds os : wf_orders os ->
  0 <= level_shares buy price os <= 4294967295 * Z.of_nat (size os).
Proof.
  intros Hwf. apply sum_over_bounds. intros ref o Hr. specialize (Hwf ref o Hr).
  destruct Hwf as [Hsh _]. unfold is_u32 in Hsh. case_match; lia.
Qed.

Lemma level_shares_empty os : wf_orders os -> level_count buy price os = 0 -> level_shares buy price os = 0.
Proof.
  intros Hwf Hc. destruct (decide (level_shares buy price os = 0)) as [|Hs]; [done|].
  unfold level_shares in Hs. apply sum_over_pos in Hs.
  - destruct Hs as (ref & o & Hr & Ho).
    exfalso. apply (proj2 (level_count_occupied os)); [|done].
    exists ref, o. split; [done|]. by destruct (at_level buy price o).
  - intros ref o Hr. destruct (Hwf ref o Hr) as [Hsh _]. unfold is_u32 in Hsh. case_match; lia.
Qed.

Lemma default_spec_level os : wf_orders os ->
  default empty_level (spec_level buy price os) = aggregate buy price os.
Proof.
  intros Hwf. unfold spec_level, aggregate. destruct (Z.eqb_spec (level_count buy price os) 0) as [E|E]; [|done].
  simpl. by rewrite level_shares_empty, E.
Qed.

Lemma spec_level_aggregate os : level_count buy price os <> 0 ->
  spec_level buy price os = Some (aggregate buy price os).
Proof. intros. unfold spec_level. by rewrite (proj2 (Z.eqb_neq _ _)). Qed.

Lemma spec_level_None os : level_count buy price os = 0 -> spec_level buy price os = None.
Proof. intros H. unfold spec_level. by rewrite H. Qed.

Lemma level_count_insert ref o os : os !! ref = None ->
  level_count buy price (<[ref := o]> os) =
    level_count buy price os + (if at_level buy price o then 1 else 0).
Proof. intros. unfold level_count. rewrite sum_over_insert by done. lia. Qed.

Lemma level_shares_insert ref o os : os !! ref = None ->
  level_shares buy price (<[ref := o]> os) =
    level_shares buy price os + (if at_level buy price o then ord_shares o else 0).
Proof. intros. unfold level_shares. rewrite sum_over_insert by done. lia. Qed.

Lemma level_count_delete ref o os : os !! ref = Some o ->
  level_count buy price (delete ref os) =
    level_count buy price os - (if at_level buy price o then 1 else 0).
Proof. intros H. unfold level_count. rewrite (sum_over_delete _ _ _ os H). lia. Qed.

Lemma level_shares_delete ref o os : os !! ref = Some o ->
  level_shares buy price (delete ref os) =
    level_shares buy price os - (if at_level buy price o then ord_shares o else 0).
Proof. intros H. unfold level_shares. rewrite (sum_over_delete _ _ _ os H). lia. Qed.

(** Reducing an order in place keeps its level's count. *)
Lemma level_count_update ref o n os : os !! ref = Some o ->
  level_count buy price (<[ref := mkOrder n (ord_price o) (ord_side o)]> os) = level_count buy price os.
Proof.
  intros H. unfold level_count. rewrite (sum_over_update _ _ _ _ os H).
  unfold at_level, on_side. cbn [ord_price ord_side]. lia.
Qed.

Lemma level_shares_update ref o n os : os !! ref = Some o ->
  level_shares buy price (<[ref := mkOrder n (ord_price o) (ord_side o)]> os) =
    level_shares buy price os - (if at_level buy price o then ord_shares o - n else 0).
Proof.
  intros H. unfold level_shares. rewrite (sum_over_update _ _ _ _ os H).
  unfold at_level, on_side. cbn [ord_price ord_side ord_shares]. case_match; lia.
Qed.

(** An order's own quantity is part of its level's. *)
Lemma level_shares_ge ref o os : wf_orders os -> os !! ref = Some o ->
  at_level buy price o = true -> ord_shares o <= level_shares buy price os.
Proof.
  intros Hwf Hr Ho. pose proof (level_shares_delete ref o os Hr) as H. rewrite Ho in H.
  assert (0 <= level_shares buy price (delete ref os)); [|lia].
  apply level_shares_bounds. apply map_Forall_delete. done.
Qed.

End Levels.

Lemma at_level_self o : at_level (is_buy (ord_side o)) (ord_price o) o = true.
Proof. unfold at_level, on_side. by rewrite eqb_reflx, Z.eqb_refl. Qed.

Lemma at_level_spec buy price o :
  at_level buy price o = true <-> is_buy (ord_side o) = buy /\ ord_price o = price.
Proof. unfold at_level, on_side. by rewrite andb_true_iff, eqb_true_iff, Z.eqb_eq. Qed.

(** ** Occupied prices and the best one *)

Lemma elem_of_prices buy os p :
  p ∈ prices buy os <-> exists ref o, os !! ref = Some o /\ at_level buy p o = true.
Proof.
  unfold prices. rewrite elem_of_list_to_set, list_elem_of_fmap. split.
  - intros (o & -> & Ho). apply list_elem_of_filter in Ho as [Hs Ho].
    apply list_elem_of_fmap in Ho as ([ref o'] & -> & Ho). apply elem_of_map_to_list in Ho.
    exists ref, o'. split; [done|]. apply at_level_spec. unfold on_side in Hs.
    by apply eqb_prop in Hs.
  - intros (ref & o & Hr & Ho). apply at_level_spec in Ho as [Hs Hp].
    exists o. split; [done|]. apply list_elem_of_filter. split.
    + unfold on_side. rewrite Hs. apply eqb_reflx.
    + apply list_elem_of_fmap. exists (ref, o). split; [done|]. by apply elem_of_map_to_list.
Qed.

Lemma elem_of_prices_count buy os p : p ∈ prices buy os <-> level_count buy p os <> 0.
Proof. rewrite elem_of_prices. symmetry. apply level_count_occupied. Qed.

Lemma prices_empty buy : prices buy ∅ = ∅.
Proof. unfold prices. by rewrite map_to_list_empty. Qed.

Lemma best_of_None buy l : best_of buy l = None <-> l = [].
Proof. by destruct l. Qed.

Lemma best_of_Some buy l p :
  best_of buy l = Some p <-> p ∈ l /\ (forall q, q ∈ l -> better buy p q = p).
Proof.
  revert p. induction l as [|x l IH]; intros p; simpl.
  - split; [done|]. intros [H _]. by apply not_elem_of_nil in H.
  - destruct (best_of buy l) as [y|] eqn:E.
    + destruct (proj1 (IH y) eq_refl) as [Hy Hmax]. split.
      * intros [= <-]. split.
        { apply elem_of_cons. unfold better.
          destruct buy; [destruct (Z.max_spec x y) as [[_ ->]|[_ ->]]
                        |destruct (Z.min_spec x y) as [[_ ->]|[_ ->]]]; auto. }
        intros q [->|Hq]%elem_of_cons; [|specialize (Hmax q Hq)]; unfold better in *; destruct buy; lia.
      * intros [Hp Hbest]. f_equal.
        pose proof (Hbest x ltac:(apply elem_of_cons; auto)) as H1.
        pose proof (Hbest y ltac:(apply elem_of_cons; auto)) as H2.
        apply elem_of_cons in Hp as [->|Hp]; [|specialize (Hmax p Hp)];
          unfold better in *; destruct buy; lia.
    + apply best_of_None in E as ->. split.
      * intros [= ->]. split; [apply list_elem_of_here|].
        intros q Hq%list_elem_of_singleton. subst. unfold better. destruct buy; lia.
      * intros [Hp%list_elem_of_singleton _]. congruence.
Qed.

(** The best price depends only on which prices are there. *)
Lemma best_of_ext buy l k : (forall p, p ∈ l <-> p ∈ k) -> best_of buy l = best_of buy k.
Proof.
  intros Hlk. destruct (best_of buy k) as [p|] eqn:E.
  - apply best_of_Some in E as [Hp Hbest]. apply best_of_Some. split; [by apply Hlk|].
    intros q Hq. by apply Hbest, Hlk.
  - apply best_of_None in E as ->. apply best_of_None. destruct l as [|x l]; [done|].
    exfalso. apply (not_elem_of_nil x), Hlk, list_elem_of_here.
Qed.

Lemma spec_best_Some buy os q :
  spec_best buy os = Some q <->
    q_price q ∈ prices buy os /\ (forall p, p ∈ prices buy os -> better buy (q_price q) p = q_price q) /\
    q_shares q = level_shares buy (q_price q) os.
Proof.
  unfold spec_best. destruct (best_of buy (elements (prices buy os))) as [p|] eqn:E; simpl.
  - apply best_of_Some in E as [Hp Hbest]. rewrite elem_of_elements in Hp. split.
    + intros [= <-]. simpl. split_and!; try done. intros p' Hp'. apply Hbest. by apply elem_of_elements.
    + intros (Hq & Hqbest & Hsh). f_equal. destruct q as [qp qs]. simpl in *.
      assert (p = qp) as ->; [|by subst].
      pose proof (Hqbest p Hp). pose proof (Hbest qp (proj2 (elem_of_elements _ _) Hq)).
      unfold better in *. destruct buy; lia.
  - apply best_of_None in E. apply elements_empty_inv in E. split; [done|].
    intros (Hq & _). exfalso. apply E in Hq. by apply not_elem_of_empty in Hq.
Qed.

Lemma spec_best_None buy os : spec_best buy os = None <-> prices buy os = ∅.
Proof.
  unfold spec_best. destruct (best_of buy (elements (prices buy os))) as [p|] eqn:E; simpl.
  - split; [done|]. intros Hp. rewrite Hp, elements_empty in E. done.
  - apply best_of_None, elements_empty_inv in E. split; [|done]. intros _. by apply leibniz_equiv.
Qed.

(** ** The specification keeps the orders well-formed *)

Lemma wf_orders_insert ref o os : wf_orders os -> wf_order o -> wf_orders (<[ref := o]> os).
Proof. intros. by apply map_Forall_insert_2. Qed.

Lemma wf_orders_delete ref os : wf_orders os -> wf_orders (delete ref os).
Proof. apply map_Forall_delete. Qed.

Lemma reduce_left_range o shares : wf_order o -> is_u32 shares ->
  0 <= ord_shares o - Z.min shares (ord_shares o) <= ord_shares o.
Proof. unfold wf_order, is_u32. lia. Qed.

Lemma size_delete_le {A} (ref : Z) (m : gmap Z A) : (size (delete ref m) <= size m)%nat.
Proof. rewrite map_size_delete. destruct (m !! ref); [apply Nat.le_pred_l | done]. Qed.

Lemma size_update {A} (ref : Z) (o o' : A) (m : gmap Z A) : m !! ref = Some o -> size (<[ref := o']> m) = size m.
Proof. intros. apply map_size_insert_Some. eauto. Qed.

(** ** How the occupied prices change *)

Lemma prices_same buy os os' :
  (forall p, level_count buy p os' = level_count buy p os) -> prices buy os' = prices buy os.
Proof. intros H. apply set_eq. intros p. by rewrite !elem_of_prices_count, H. Qed.

Lemma prices_insert buy ref o os : os !! ref = None -> is_buy (ord_side o) = buy ->
  prices buy (<[ref := o]> os) = {[ord_price o]} ∪ prices buy os.
Proof.
  intros Hn Hb. apply set_eq. intros p.
  rewrite elem_of_union, elem_of_singleton, !elem_of_prices_count, level_count_insert by done.
  pose proof (level_count_bounds buy p os). destruct (at_level buy p o) eqn:E.
  - apply at_level_spec in E as [_ E]. split; intros; [by left | lia].
  - split; [intros; right; lia|]. intros [->|Hp]; [|lia].
    exfalso. pose proof (at_level_self o) as Hs. rewrite Hb in Hs. congruence.
Qed.

(** A level that loses one of its orders, or only shares. *)
Lemma prices_reduce buy p (gone : bool) os os' :
  level_count buy p os <> 0 ->
  (forall p', level_count buy p' os' =
     level_count buy p' os - (if decide (p' = p) then if gone then 1 else 0 else 0)) ->
  prices buy os' = if level_count buy p os' =? 0 then prices buy os ∖ {[p]} else prices buy os.
Proof.
  intros Hc Hc'. apply set_eq. intros q. rewrite elem_of_prices_count.
  pose proof (Hc' p) as Hp. pose proof (Hc' q) as Hq. rewrite decide_True in Hp by done.
  destruct (Z.eqb_spec (level_count buy p os') 0) as [E|E].
  - rewrite elem_of_difference, elem_of_singleton, elem_of_prices_count.
    destruct (decide (q = p)) as [->|]; [|lia]. split; [done|]. intros [_ []]. done.
  - rewrite elem_of_prices_count. destruct (decide (q = p)) as [->|]; lia.
Qed.

Lemma size_prices_le buy os : (size (prices buy os) <= size os)%nat.
Proof.
  unfold prices. etrans; [apply size_list_to_set_le|]. rewrite length_fmap. etrans; [apply length_filter|].
  rewrite length_fmap. by rewrite length_map_to_list.
Qed.

End Book.
