(* ===== verification/OrderBook.v ===== *)
(** * OrderBook: the map-based book

    Models include/book/order_book.hpp.  [std::map] and [std::unordered_map]
    are finite maps; [begin()] of the bid ladder (ordered by
    [std::greater]) is its greatest key and of the ask ladder its least.
    Level quantities wrap at 64 bits and level counts at 32 bits, as in the
    code.

    The invariant says that both ladders are exactly the aggregates of the
    resting orders; the theorems show that every operation acts on the resting
    orders as specified in [Book] and keeps it, so that no phantom level and
    no lost quantity is reachable. *)

From S2P Require Import Prelude Wire Book.

Module OrderBook.

Record OrderBook := mkOrderBook {
  bids_ : gmap Z Book.Level;
  asks_ : gmap Z Book.Level;
  orders_ : gmap Z Book.Order }.

(** A default-constructed book. *)
Definition init : OrderBook := mkOrderBook ∅ ∅ ∅.

(** [lvl.shares += shares; lvl.orders += 1;] on [m[price]], which creates the
    level when it is missing. *)
Definition add_in (m : gmap Z Book.Level) (price shares : Z) : gmap Z Book.Level :=
  let lvl := default Book.empty_level (m !! price) in
  <[price := Book.mkLevel (u64 (Book.lvl_shares lvl + shares)) (u32 (Book.lvl_orders lvl + 1))]> m.

Definition add (ref : Z) (side : Wire.Side) (shares price : Z) (b : OrderBook) : bool * OrderBook :=
  match orders_ b !! ref with
  | Some _ => (false, b)
  | None =>
    let orders := <[ref := Book.mkOrder shares price side]> (orders_ b) in
    (true,
     if Book.is_buy side then mkOrderBook (add_in (bids_ b) price shares) (asks_ b) orders
     else mkOrderBook (bids_ b) (add_in (asks_ b) price shares) orders)
  end.

Definition sub_in (m : gmap Z Book.Level) (price shares : Z) (order_gone : bool) : gmap Z Book.Level :=
  match m !! price with
  | None => m
  | Some l =>
    let sh := u64 (Book.lvl_shares l -
                   (if shares <? Book.lvl_shares l then shares else Book.lvl_shares l)) in
    let n := if order_gone && (0 <? Book.lvl_orders l) then u32 (Book.lvl_orders l - 1)
             else Book.lvl_orders l in
    if n =? 0 then delete price m else <[price := Book.mkLevel sh n]> m
  end.

Definition level_sub (side : Wire.Side) (price shares : Z) (order_gone : bool) (b : OrderBook) : OrderBook :=
  if Book.is_buy side then mkOrderBook (sub_in (bids_ b) price shares order_gone) (asks_ b) (orders_ b)
  else mkOrderBook (bids_ b) (sub_in (asks_ b) price shares order_gone) (orders_ b).

Definition set_orders (orders : gmap Z Book.Order) (b : OrderBook) : OrderBook :=
  mkOrderBook (bids_ b) (asks_ b) orders.

Definition reduce (ref shares : Z) (b : OrderBook) : bool * OrderBook :=
  match orders_ b !! ref with
  | None => (false, b)
  | Some o =>
    let qty := if shares <? Book.ord_shares o then shares else Book.ord_shares o in
    let left := u32 (Book.ord_shares o - qty) in
    let gone := left =? 0 in
    let orders := if gone then delete ref (orders_ b)
                  else <[ref := Book.mkOrder left (Book.ord_price o) (Book.ord_side o)]> (orders_ b) in
    (true, level_sub (Book.ord_side o) (Book.ord_price o) qty gone (set_orders orders b))
  end.

Definition execute (ref shares : Z) (b : OrderBook) : bool * OrderBook := reduce ref shares b.
Definition cancel (ref shares : Z) (b : OrderBook) : bool * OrderBook := reduce ref shares b.

Definition remove (ref : Z) (b : OrderBook) : bool * OrderBook :=
  match orders_ b !! ref with
  | None => (false, b)
  | Some o =>
    (true, level_sub (Book.ord_side o) (Book.ord_price o) (Book.ord_shares o) true
             (set_orders (delete ref (orders_ b)) b))
  end.

Definition replace (orig next shares price : Z) (b : OrderBook) : bool * OrderBook :=
  match orders_ b !! orig with
  | None => (false, b)
  | Some o =>
    let side := Book.ord_side o in
    let '(_, b) := remove orig b in
    add next side shares price b
  end.

(** The first entry of a ladder in its own order. *)
Definition begin_ (buy : bool) (m : gmap Z Book.Level) : option (Z * Book.Level) :=
  p ← Book.best_of buy (map_to_list m).*1;
  l ← m !! p;
  Some (p, l).

Definition best_bid (b : OrderBook) : option Book.Quote :=
  '(price, lvl) ← begin_ true (bids_ b);
  Some (Book.mkQuote price (Book.lvl_shares lvl)).

Definition best_ask (b : OrderBook) : option Book.Quote :=
  '(price, lvl) ← begin_ false (asks_ b);
  Some (Book.mkQuote price (Book.lvl_shares lvl)).

Definition open_orders (b : OrderBook) : nat := size (orders_ b).
Definition bid_levels (b : OrderBook) : nat := size (bids_ b).
Definition ask_levels (b : OrderBook) : nat := size (asks_ b).

(** ** The invariant *)

Definition side_inv (buy : bool) (m : gmap Z Book.Level) (os : gmap Z Book.Order) : Prop :=
  forall p, m !! p = Book.spec_level buy p os.

Record ob_inv (b : OrderBook) : Prop := {
  ob_wf : Book.wf_orders (orders_ b);
  ob_size : Z.of_nat (size (orders_ b)) < Book.max_orders;
  ob_bids : side_inv true (bids_ b) (orders_ b);
  ob_asks : side_inv false (asks_ b) (orders_ b) }.

(** ** One ladder *)

(** Two order sets that agree on every level of a side are interchangeable
    for its ladder. *)
Lemma side_inv_same buy m os os' :
  side_inv buy m os ->
  (forall p, Book.level_count buy p os' = Book.level_count buy p os) ->
  (forall p, Book.level_shares buy p os' = Book.level_shares buy p os) ->
  side_inv buy m os'.
Proof. intros Hm Hc Hs p. rewrite (Hm p). unfold Book.spec_level. by rewrite Hc, Hs. Qed.

Lemma add_in_inv buy m os ref o :
  side_inv buy m os -> Book.wf_orders os -> Book.wf_order o ->
  Z.of_nat (size os) + 1 < Book.max_orders ->
  os !! ref = None -> Book.is_buy (Book.ord_side o) = buy ->
  side_inv buy (add_in m (Book.ord_price o) (Book.ord_shares o)) (<[ref := o]> os).
Proof.
  intros Hm Hwf [Ho _] Hsz Hn Hb p. unfold add_in. rewrite (Hm _), Book.default_spec_level by done.
  pose proof (Book.level_count_bounds buy (Book.ord_price o) os).
  pose proof (Book.level_shares_bounds buy (Book.ord_price o) os Hwf).
  unfold Book.max_orders, is_u32 in *.
  unfold Book.spec_level. rewrite Book.level_count_insert, Book.level_shares_insert by done.
  destruct (decide (Book.ord_price o = p)) as [<-|Hp].
  - rewrite lookup_insert_eq. rewrite <- Hb, Book.at_level_self, Hb. simpl.
    rewrite (proj2 (Z.eqb_neq _ _)) by lia. rewrite u64_id, u32_id by word_lia. done.
  - rewrite lookup_insert_ne by done. rewrite (Hm p). unfold Book.spec_level.
    destruct (Book.at_level buy p o) eqn:E; [by apply Book.at_level_spec in E as [_ E]|].
    by rewrite !Z.add_0_r.
Qed.

Lemma sub_in_inv buy m os os' p qty (gone : bool) :
  side_inv buy m os ->
  0 <= qty <= Book.level_shares buy p os ->
  Book.level_shares buy p os < 18446744073709551616 ->
  0 < Book.level_count buy p os < 4294967296 ->
  (forall p', Book.level_count buy p' os' =
     Book.level_count buy p' os - (if decide (p' = p) then if gone then 1 else 0 else 0)) ->
  (forall p', Book.level_shares buy p' os' =
     Book.level_shares buy p' os - (if decide (p' = p) then qty else 0)) ->
  side_inv buy (sub_in m p qty gone) os'.
Proof.
  intros Hm Hq Hmax Hc Hc' Hs' p'. unfold sub_in.
  rewrite (Hm p), Book.spec_level_aggregate by lia.
  unfold Book.aggregate. cbn [Book.lvl_shares Book.lvl_orders].
  replace (if qty <? _ then qty else _) with qty by (destruct (Z.ltb_spec qty (Book.level_shares buy p os)); lia).
  rewrite (proj2 (Z.ltb_lt 0 _)) by lia. rewrite andb_true_r, u64_id by word_lia.
  replace (if gone then u32 _ else _) with (Book.level_count buy p os - if gone then 1 else 0)
    by (destruct gone; [rewrite u32_id by word_lia|]; lia).
  unfold Book.spec_level. rewrite Hc', Hs'.
  destruct (decide (p' = p)) as [->|Hp].
  - destruct (Z.eqb_spec (Book.level_count buy p os - if gone then 1 else 0) 0) as [E|E].
    + apply lookup_delete_eq.
    + apply lookup_insert_eq.
  - rewrite !Z.sub_0_r. destruct (Book.level_count buy p os - _ =? 0);
      [rewrite lookup_delete_ne by done | rewrite lookup_insert_ne by done]; apply (Hm p').
Qed.

(** The effect of [level_sub] after the locator went from [orders_ b] to
    [os'], where [o] lost [qty] shares and possibly its place. *)
Lemma level_sub_inv b o ref os' qty (gone : bool) :
  ob_inv b -> orders_ b !! ref = Some o ->
  Book.wf_orders os' -> (size os' <= size (orders_ b))%nat ->
  0 <= qty <= Book.ord_shares o ->
  (forall buy p, Book.level_count buy p os' =
     Book.level_count buy p (orders_ b) - (if Book.at_level buy p o then if gone then 1 else 0 else 0)) ->
  (forall buy p, Book.level_shares buy p os' =
     Book.level_shares buy p (orders_ b) - (if Book.at_level buy p o then qty else 0)) ->
  ob_inv (level_sub (Book.ord_side o) (Book.ord_price o) qty gone (set_orders os' b)) /\
  orders_ (level_sub (Book.ord_side o) (Book.ord_price o) qty gone (set_orders os' b)) = os'.
Proof.
  intros [Hwf Hsz Hbids Hasks] Ho Hwf' Hsz' Hq Hc Hs.
  assert (forall buy, buy <> Book.is_buy (Book.ord_side o) -> forall m,
            side_inv buy m (orders_ b) -> side_inv buy m os') as Hother.
  { intros buy Hbuy m Hm. assert (forall p, Book.at_level buy p o = false) as Hat.
    { intros p. destruct (Book.at_level buy p o) eqn:E; [|done].
      apply Book.at_level_spec in E as [E _]. congruence. }
    eapply side_inv_same; [exact Hm| |]; intros p; rewrite ?Hc, ?Hs, Hat; lia. }
  assert (forall buy, buy = Book.is_buy (Book.ord_side o) -> forall m,
            side_inv buy m (orders_ b) -> side_inv buy (sub_in m (Book.ord_price o) qty gone) os') as Hthis.
  { intros buy Hbuy m Hm. pose proof (Book.at_level_self o) as Hself. rewrite <- Hbuy in Hself.
    pose proof (Book.level_shares_ge _ _ ref o _ Hwf Ho Hself).
    pose proof (Book.level_shares_bounds buy (Book.ord_price o) _ Hwf).
    pose proof (Book.level_count_bounds buy (Book.ord_price o) (orders_ b)).
    pose proof (proj2 (Book.level_count_occupied buy (Book.ord_price o) (orders_ b)) ltac:(eauto)).
    unfold Book.max_orders in Hsz.
    apply (sub_in_inv _ _ (orders_ b)); try done; try lia; intros p'; rewrite ?Hc, ?Hs;
      (destruct (decide (p' = Book.ord_price o)) as [->|Hp]; [by rewrite Hself|]);
      (destruct (Book.at_level buy p' o) eqn:E; [apply Book.at_level_spec in E as [_ E]; congruence | done]). }
  unfold level_sub, set_orders. destruct (Book.is_buy (Book.ord_side o)); simpl;
    (split; [constructor; simpl; [done | lia | auto | auto] | done]).
Qed.

(** ** Operations act as specified and keep the invariant *)

Definition acts (r : bool * OrderBook) (spec : bool * gmap Z Book.Order) : Prop :=
  ob_inv r.2 /\ (r.1, orders_ r.2) = spec.

Lemma init_inv : ob_inv init.
Proof.
  constructor; simpl.
  - apply map_Forall_empty.
  - by rewrite map_size_empty.
  - intros p. by rewrite lookup_empty.
  - intros p. by rewrite lookup_empty.
Qed.

(** An order that is not there yet goes to exactly one ladder. *)
Lemma other_side_insert buy m os ref o :
  side_inv buy m os -> os !! ref = None -> buy <> Book.is_buy (Book.ord_side o) ->
  side_inv buy m (<[ref := o]> os).
Proof.
  intros Hm Hn Hb.
  assert (forall p, Book.at_level buy p o = false) as Hat.
  { intros p. destruct (Book.at_level buy p o) eqn:E; [|done].
    apply Book.at_level_spec in E as [E _]. congruence. }
  eapply side_inv_same; [exact Hm| |]; intros p;
    rewrite ?Book.level_count_insert, ?Book.level_shares_insert, Hat by done; lia.
Qed.

Lemma add_acts ref side shares price b :
  ob_inv b -> Z.of_nat (size (orders_ b)) + 1 < Book.max_orders -> is_u32 shares -> is_u32 price ->
  acts (add ref side shares price b) (Book.spec_add ref side shares price (orders_ b)).
Proof.
  intros Hinv Hroom Hsh Hpr. pose proof Hinv as [Hwf Hsz Hbids Hasks].
  unfold acts, add, Book.spec_add. destruct (orders_ b !! ref) as [o|] eqn:E; [done|].
  set (o := Book.mkOrder shares price side).
  assert (Book.wf_order o) as Ho by done.
  assert (Z.of_nat (size (<[ref:=o]> (orders_ b))) < Book.max_orders) as Hsz'.
  { rewrite map_size_insert_None by done. lia. }
  split; [|by destruct (Book.is_buy side)].
  destruct (Book.is_buy side) eqn:Hb; constructor; simpl; try done;
    try (by apply Book.wf_orders_insert).
  - by apply (add_in_inv true (bids_ b) (orders_ b) ref o).
  - apply other_side_insert; [done..|]. simpl. by rewrite Hb.
  - apply other_side_insert; [done..|]. simpl. by rewrite Hb.
  - by apply (add_in_inv false (asks_ b) (orders_ b) ref o).
Qed.

Lemma reduce_acts ref shares b :
  ob_inv b -> is_u32 shares -> acts (reduce ref shares b) (Book.spec_reduce ref shares (orders_ b)).
Proof.
  intros Hinv Hsh. pose proof (ob_wf b Hinv) as Hwf. unfold acts, reduce, Book.spec_reduce.
  destruct (orders_ b !! ref) as [o|] eqn:E; [|done].
  pose proof (Hwf ref o E) as Ho. pose proof (Book.reduce_left_range o shares Ho Hsh) as Hleft.
  replace (if shares <? _ then _ else _) with (Z.min shares (Book.ord_shares o))
    by (destruct (Z.ltb_spec shares (Book.ord_shares o)); lia).
  destruct Ho as [Ho Hp]. unfold is_u32 in *. rewrite u32_id by word_lia.
  set (qty := Z.min shares (Book.ord_shares o)) in *. cbv zeta.
  destruct (Z.eqb_spec (Book.ord_shares o - qty) 0) as [Hgone|Hgone]; cbn [fst snd].
  - destruct (level_sub_inv b o ref (delete ref (orders_ b)) qty true) as [H1 H2]; try done.
    + by apply Book.wf_orders_delete.
    + apply Book.size_delete_le.
    + lia.
    + intros buy p. by rewrite (Book.level_count_delete _ _ ref o).
    + intros buy p. rewrite (Book.level_shares_delete _ _ ref o) by done. case_match; lia.
    + by rewrite H2.
  - set (o' := Book.mkOrder (Book.ord_shares o - qty) (Book.ord_price o) (Book.ord_side o)).
    destruct (level_sub_inv b o ref (<[ref:=o']> (orders_ b)) qty false) as [H1 H2]; try done.
    + apply Book.wf_orders_insert; [done|]. split; unfold is_u32; simpl; lia.
    + by rewrite (Book.size_update _ o).
    + lia.
    + intros buy p. unfold o'. rewrite (Book.level_count_update _ _ ref o) by done. case_match; lia.
    + intros buy p. unfold o'. rewrite (Book.level_shares_update _ _ ref o) by done. case_match; lia.
    + by rewrite H2.
Qed.

Lemma remove_acts ref b : ob_inv b -> acts (remove ref b) (Book.spec_remove ref (orders_ b)).
Proof.
  intros Hinv. pose proof (ob_wf b Hinv) as Hwf. unfold acts, remove, Book.spec_remove.
  destruct (orders_ b !! ref) as [o|] eqn:E; [|done]. cbn [fst snd].
  destruct (Hwf ref o E) as [Ho _]. unfold is_u32 in Ho.
  destruct (level_sub_inv b o ref (delete ref (orders_ b)) (Book.ord_shares o) true) as [H1 H2]; try done.
  - by apply Book.wf_orders_delete.
  - apply Book.size_delete_le.
  - lia.
  - intros buy p. by rewrite (Book.level_count_delete _ _ ref o).
  - intros buy p. by rewrite (Book.level_shares_delete _ _ ref o).
  - by rewrite H2.
Qed.

Lemma replace_acts orig next shares price b :
  ob_inv b -> is_u32 shares -> is_u32 price ->
  acts (replace orig next shares price b) (Book.spec_replace true orig next shares price (orders_ b)).
Proof.
  intros Hinv Hsh Hpr. unfold replace, Book.spec_replace.
  pose proof (remove_acts orig b Hinv) as [Hinv' Heq]. unfold Book.spec_remove in Heq.
  destruct (orders_ b !! orig) as [o|] eqn:E; [|done].
  destruct (remove orig b) as [ok b'] eqn:Hr. cbn [fst snd] in *. injection Heq as -> Hos.
  rewrite <- Hos. apply add_acts; try done.
  rewrite Hos, map_size_delete, E. pose proof (ob_size b Hinv).
  assert (size (orders_ b) <> 0)%nat.
  { intros H0. apply map_size_empty_iff in H0. rewrite H0 in E. done. }
  unfold Book.max_orders in *. lia.
Qed.

(** ** Observers *)

Lemma begin_spec buy m os : side_inv buy m os ->
  begin_ buy m = p ← Book.best_of buy (elements (Book.prices buy os));
                 Some (p, Book.aggregate buy p os).
Proof.
  intros Hm. unfold begin_.
  assert (forall p, p ∈ (map_to_list m).*1 <-> p ∈ elements (Book.prices buy os)) as Hkeys.
  { intros p. rewrite elem_of_elements, Book.elem_of_prices_count, list_elem_of_fmap. split.
    - intros ([p' l] & -> & Hl). apply elem_of_map_to_list in Hl. simpl. rewrite (Hm p') in Hl.
      intros Hc. by rewrite Book.spec_level_None in Hl.
    - intros Hc. exists (p, Book.aggregate buy p os). split; [done|].
      apply elem_of_map_to_list. rewrite (Hm p). by apply Book.spec_level_aggregate. }
  rewrite (Book.best_of_ext buy _ _ Hkeys).
  destruct (Book.best_of buy (elements _)) as [p|] eqn:E; [|done]. simpl.
  apply Book.best_of_Some in E as [Hp _]. apply elem_of_elements, Book.elem_of_prices_count in Hp.
  by rewrite (Hm p), Book.spec_level_aggregate.
Qed.

Lemma best_bid_spec b : ob_inv b -> best_bid b = Book.spec_best true (orders_ b).
Proof.
  intros Hinv. unfold best_bid. rewrite (begin_spec true _ _ (ob_bids b Hinv)).
  unfold Book.spec_best. by destruct (Book.best_of _ _).
Qed.

Lemma best_ask_spec b : ob_inv b -> best_ask b = Book.spec_best false (orders_ b).
Proof.
  intros Hinv. unfold best_ask. rewrite (begin_spec false _ _ (ob_asks b Hinv)).
  unfold Book.spec_best. by destruct (Book.best_of _ _).
Qed.

Lemma levels_spec buy m os : side_inv buy m os -> size m = size (Book.prices buy os).
Proof.
  intros Hm. rewrite <- size_dom. f_equal. apply leibniz_equiv. intros p.
  rewrite elem_of_dom, Book.elem_of_prices_count, (Hm p). split.
  - intros [l Hl] Hc. by rewrite Book.spec_level_None in Hl.
  - intros Hc. rewrite Book.spec_level_aggregate by done. eauto.
Qed.

(** ** The interface *)

#[global] Instance ob_ops : Book.BookOps OrderBook := {
  make _ := Ok init;
  add ref side shares price b := Ok (add ref side shares price b);
  execute ref shares b := Ok (execute ref shares b);
  cancel ref shares b := Ok (cancel ref shares b);
  remove ref b := Ok (remove ref b);
  replace orig next shares price b := Ok (replace orig next shares price b);
  best_bid b := Ok (best_bid b);
  best_ask b := Ok (best_ask b);
  open_orders := open_orders;
  bid_levels b := Z.of_nat (bid_levels b);
  ask_levels b := Z.of_nat (ask_levels b)
}.

Lemma acts_refines r spec : acts r spec -> Book.refines ob_inv orders_ (Ok r) spec.
Proof. destruct r as [ok b']. intros [Hinv Heq]. by exists ok, b'. Qed.

#[global, refine] Instance ob_laws : Book.BookLaws OrderBook := {
  inv := ob_inv;
  orders := orders_;
  admits _ _ := true
}.
Proof.
  - intros. exists init. split_and!; [done | apply init_inv | done].
  - intros. by apply acts_refines, add_acts.
  - intros. by apply acts_refines, reduce_acts.
  - intros. by apply acts_refines, reduce_acts.
  - intros. by apply acts_refines, remove_acts.
  - intros. by apply acts_refines, replace_acts.
  - intros b Hinv. split; [apply (ob_wf b Hinv) | apply (ob_size b Hinv)].
  - intros b Hinv. simpl. by rewrite best_bid_spec.
  - intros b Hinv. simpl. by rewrite best_ask_spec.
  - done.
  - intros b Hinv. simpl. unfold bid_levels. by rewrite (levels_spec true _ _ (ob_bids b Hinv)).
  - intros b Hinv. simpl. unfold ask_levels. by rewrite (levels_spec false _ _ (ob_asks b Hinv)).
Defined.

(** ** Properties *)

(** C27: on a book that satisfies the invariant (both ladders are exactly the
    aggregates of the resting orders), each of the five mutators keeps the
    invariant, returns what the abstract book returns and leaves exactly the
    abstract book's resting orders, on every branch (duplicate reference,
    unknown reference, partial and full reduction, over-sized execution).  An
    added order needs room for one more 32-bit level count. *)
Theorem ob_mutators_refine (b : OrderBook) (ref orig next shares price : Z) (side : Wire.Side)
  (Hinv : ob_inv b) (Hsh : is_u32 shares) (Hpr : is_u32 price)
  (Hroom : Z.of_nat (size (orders_ b)) + 1 < Book.max_orders) :
  acts (add ref side shares price b) (Book.spec_add ref side shares price (orders_ b)) /\
  acts (execute ref shares b) (Book.spec_reduce ref shares (orders_ b)) /\
  acts (cancel ref shares b) (Book.spec_reduce ref shares (orders_ b)) /\
  acts (remove ref b) (Book.spec_remove ref (orders_ b)) /\
  acts (replace orig next shares price b) (Book.spec_replace true orig next shares price (orders_ b)).
Proof.
  split_and!; [by apply add_acts | by apply reduce_acts | by apply reduce_acts | by apply remove_acts
              | by apply replace_acts].
Qed.

(** Two bids at different prices and an ask. *)
Definition sample : OrderBook :=
  (add 3 83 70 10100 (add 2 Wire.Buy 50 9900 (add 1 Wire.Buy 100 10000 init).2).2).2.

Lemma sample_inv : ob_inv sample.
Proof. repeat (apply add_acts; [|done..]). apply init_inv. Qed.

Lemma ob_mutators_refine_witness :
  orders_ (replace 1 4 20 9800 sample).2 = <[4 := Book.mkOrder 20 9800 Wire.Buy]> (delete 1 (orders_ sample)).
Proof.
  destruct (ob_mutators_refine sample 1 1 4 20 9800 Wire.Buy sample_inv) as (_ & _ & _ & _ & H); [done..|].
  apply proj2 in H. exact (f_equal snd H).
Defined.

(** Every query of a well-formed book is exact: the best bid is the highest
    price with a resting bid, at the sum of that level's quantities, the best
    ask the lowest with a resting ask; the level counts are the numbers of
    distinct occupied prices (no phantom level) and [open_orders] the number of
    resting orders. *)
Theorem ob_observers_exact (b : OrderBook) (Hinv : ob_inv b) :
  best_bid b = Book.spec_best true (orders_ b) /\
  best_ask b = Book.spec_best false (orders_ b) /\
  bid_levels b = size (Book.prices true (orders_ b)) /\
  ask_levels b = size (Book.prices false (orders_ b)) /\
  open_orders b = size (orders_ b).
Proof.
  split_and!; [by apply best_bid_spec | by apply best_ask_spec | | | done].
  - apply (levels_spec true), ob_bids, Hinv.
  - apply (levels_spec false), ob_asks, Hinv.
Qed.

Lemma ob_observers_exact_witness :
  Book.spec_best true (orders_ sample) = Some (Book.mkQuote 10000 100) /\
  size (Book.prices true (orders_ sample)) = 2%nat.
Proof.
  destruct (ob_observers_exact sample sample_inv) as (H1 & _ & H2 & _).
  split; [rewrite <- H1 | rewrite <- H2]; vm_compute; reflexivity.
Defined.

End OrderBook.
