(* ===== verification/Doubles.v ===== *)
(** * Doubles: the IEEE-754 arithmetic the code relies on

    [double] is the Standard Library's executable specification of binary64
    ([SpecFloat] at precision 53, maximal exponent 1024), so that a product or
    a quotient is the correctly rounded one the C++ program computes.  No
    axiom about primitive floats is used.

    The lemmas bound the truncated product of a 32-bit integer and a fraction
    between 0 and 1: that is all the ladder's price window needs. *)

From Stdlib Require Import SpecFloat.
From S2P Require Import Prelude.

Module Doubles.

Definition double := spec_float.
Definition prec : Z := 53.
Definition emax : Z := 1024.

(** [static_cast<double>(n)] for an integer [n]. *)
Definition of_Z (n : Z) : double := binary_normalize prec emax n 0 false.
Definition mul (x y : double) : double := SFmul prec emax x y.
Definition div (x y : double) : double := SFdiv prec emax x y.
Definition add (x y : double) : double := SFadd prec emax x y.
Definition sub (x y : double) : double := SFsub prec emax x y.
Definition ltb (x y : double) : bool := SFltb x y.
Definition leb (x y : double) : bool := SFleb x y.

(** The decimal literal [num/den]: both are exact doubles, so their rounded
    quotient is the double nearest to the literal. *)
Definition literal (num den : Z) : double := div (of_Z num) (of_Z den).

(** Truncation towards zero; [None] for an infinity or a NaN. *)
Definition trunc (x : double) : option Z :=
  match x with
  | S754_zero _ => Some 0
  | S754_finite s m e =>
      let a := if 0 <=? e then Zpos m * 2 ^ e else Zpos m / 2 ^ (- e) in
      Some (if s then - a else a)
  | _ => None
  end.

(** [static_cast<std::uint64_t>(x)]: undefined when the truncated value does
    not fit. *)
Definition to_u64 (x : double) : outcome Z :=
  match trunc x with
  | Some v => if (0 <=? v) && (v <? 18446744073709551616) then Ok v else UB
  | None => UB
  end.

(** [std::llround]: to the nearest integer, halves away from zero; [None] when
    the C library leaves the result unspecified. *)
Definition llround (x : double) : option Z :=
  match x with
  | S754_zero _ => Some 0
  | S754_finite s m e =>
      let a := if 0 <=? e then Zpos m * 2 ^ e
               else let d := 2 ^ (- e) in Zpos m / d + (if d <=? 2 * (Zpos m mod d) then 1 else 0) in
      let v := if s then - a else a in
      if (-9223372036854775808 <=? v) && (v <? 9223372036854775808) then Some v else None
  | _ => None
  end.

(** A fraction between 0 and 1. *)
Definition unit_fraction (x : double) : Prop :=
  match x with
  | S754_zero false => True
  | S754_finite false m e => e <= 0 /\ Zpos m <= 2 ^ (- e)
  | _ => False
  end.

#[global] Instance unit_fraction_dec x : Decision (unit_fraction x).
Proof. destruct x as [[]|?| |[] m e]; simpl; apply _. Defined.

(** ** Digits and shifts *)

Lemma digits_bounds p :
  2 ^ (Zpos (digits2_pos p) - 1) <= Zpos p < 2 ^ Zpos (digits2_pos p).
Proof.
  induction p as [p IH|p IH|]; cbn [digits2_pos]; rewrite ?Pos2Z.inj_succ; [| |simpl; lia].
  all: replace (Z.succ (Zpos (digits2_pos p)) - 1) with (Z.succ (Zpos (digits2_pos p) - 1)) by lia.
  all: rewrite !Z.pow_succ_r by lia; lia.
Qed.

Lemma digits_le m k : 0 <= m < 2 ^ k -> 0 <= k -> Zdigits2 m <= k.
Proof.
  intros Hm Hk. destruct m as [|p|p]; simpl; [lia| |lia].
  destruct (digits_bounds p) as [Hp _].
  destruct (Z.le_gt_cases (Zpos (digits2_pos p)) k) as [|Hgt]; [done|].
  assert (2 ^ k <= 2 ^ (Zpos (digits2_pos p) - 1)) by (apply Z.pow_le_mono_r; lia). lia.
Qed.

Lemma shr_1_m r : 0 <= shr_m r -> shr_m (shr_1 r) = shr_m r / 2.
Proof.
  destruct r as [[|[p|p|]|p] ? ?]; simpl; intros; try lia; try done.
  - apply (Z.div_unique _ _ _ 1); lia.
  - apply (Z.div_unique _ _ _ 0); lia.
Qed.

Lemma iter_pos_shr n r : 0 <= shr_m r -> shr_m (SpecFloat.iter_pos shr_1 n r) = shr_m r / 2 ^ Zpos n.
Proof.
  revert r. induction n as [n IH|n IH|]; intros r Hr; cbn [SpecFloat.iter_pos].
  - assert (0 <= shr_m (shr_1 r)) by (rewrite shr_1_m by done; apply Z.div_pos; lia).
    rewrite IH, IH, shr_1_m; try done; [|rewrite IH by done; apply Z.div_pos; lia].
    rewrite !Z.div_div by lia. f_equal.
    replace (Zpos n~1) with (1 + (Zpos n + Zpos n)) by lia. rewrite !Z.pow_add_r by lia. lia.
  - rewrite IH, IH; try done; [|rewrite IH by done; apply Z.div_pos; lia].
    rewrite !Z.div_div by lia. f_equal.
    replace (Zpos n~0) with (Zpos n + Zpos n) by lia. by rewrite Z.pow_add_r by lia.
  - rewrite shr_1_m by done. done.
Qed.

(** How far [shr_fexp] shifts. *)
Definition shift_of (m e : Z) : Z := Z.max 0 (fexp prec emax (Zdigits2 m + e) - e).

Lemma shr_fexp_spec m e : 0 <= m ->
  shr_m (shr_fexp prec emax m e loc_Exact).1 = m / 2 ^ shift_of m e /\
  (shr_fexp prec emax m e loc_Exact).2 = e + shift_of m e.
Proof.
  intros Hm. unfold shr_fexp, shr, shift_of. simpl shr_record_of_loc.
  destruct (fexp prec emax (Zdigits2 m + e) - e) as [|p|p] eqn:E; cbn [fst snd shr_m].
  - rewrite Z.div_1_r. lia.
  - rewrite Z.max_r by lia. split; [|lia]. by apply (iter_pos_shr p (Build_shr_record m false false)).
  - rewrite Z.max_l by lia. rewrite Z.div_1_r. lia.
Qed.

Lemma shr_fexp_exact m e : shift_of m e = 0 -> shr_fexp prec emax m e loc_Exact =
  (Build_shr_record m false false, e).
Proof.
  unfold shift_of, shr_fexp, shr. simpl shr_record_of_loc.
  destruct (fexp prec emax (Zdigits2 m + e) - e); intros; done.
Qed.

Lemma round_nearest_even_bounds m l : m <= round_nearest_even m l <= m + 1.
Proof. destruct l as [|[]]; simpl; repeat case_match; lia. Qed.

Lemma fexp_eq x : fexp prec emax x = Z.max (x - 53) (-1074).
Proof. done. Qed.

Lemma iter_xO n p : Zpos (Pos.iter xO p n) = Zpos p * 2 ^ Zpos n /\
  Zpos (digits2_pos (Pos.iter xO p n)) = Zpos (digits2_pos p) + Zpos n.
Proof.
  induction n as [|n [IH1 IH2]] using Pos.peano_ind; [simpl; lia|].
  rewrite Pos.iter_succ. split.
  - rewrite Pos2Z.inj_succ, Z.pow_succ_r by lia. lia.
  - cbn [digits2_pos]. rewrite !Pos2Z.inj_succ. lia.
Qed.

(** ** Integers below 2^53 are exact *)

Lemma of_Z_exact p : Zpos p < 2 ^ 52 ->
  exists m e, of_Z (Zpos p) = S754_finite false m e /\ e < 0 /\ Zpos m = Zpos p * 2 ^ (- e).
Proof.
  intros Hp. pose proof (digits_le (Zpos p) 52 ltac:(lia) ltac:(lia)) as Hd. simpl in Hd.
  unfold of_Z, binary_normalize, binary_round. rewrite Z.add_0_r, fexp_eq.
  set (d := Zpos (digits2_pos p)) in *. assert (0 < d) by done.
  rewrite Z.max_l by lia. unfold shl_align. rewrite Z.sub_0_r.
  destruct (d - 53) as [|n|n] eqn:E; [lia..|].
  destruct (iter_xO n p) as [Hv Hdig].
  unfold binary_round_aux. rewrite shr_fexp_exact; cbn [shr_m loc_of_shr_record round_nearest_even].
  2: { unfold shift_of. rewrite fexp_eq. simpl Zdigits2. lia. }
  rewrite shr_fexp_exact; cbn [shr_m].
  2: { unfold shift_of. rewrite fexp_eq. simpl Zdigits2. lia. }
  rewrite (proj2 (Z.leb_le _ _)) by (unfold emax, prec; lia).
  exists (Pos.iter xO p n), (Zneg n). split_and!; [done|lia|exact Hv].
Qed.

(** ** Rounding a value of at most [N] and truncating it gives at most [N] *)

Lemma to_u64_Ok x v : trunc x = Some v -> is_u64 v -> to_u64 x = Ok v.
Proof.
  intros Hx [H1 H2]. unfold to_u64. rewrite Hx.
  rewrite (proj2 (Z.leb_le _ _)), (proj2 (Z.ltb_lt _ _)) by lia. done.
Qed.

Lemma trunc_neg_exp m e : e <= 0 -> trunc (S754_finite false m e) = Some (Zpos m / 2 ^ (- e)).
Proof.
  intros He. unfold trunc. destruct (Z.leb_spec 0 e); [|done].
  assert (e = 0) as -> by lia. simpl. by rewrite Z.mul_1_r, Z.div_1_r.
Qed.

Lemma div_pow_le m N k : 0 <= k -> 0 <= m <= N * 2 ^ k -> 0 <= m / 2 ^ k <= N.
Proof.
  intros Hk Hm. assert (0 < 2 ^ k) by (apply Z.pow_pos_nonneg; lia). split; [apply Z.div_pos; lia|].
  rewrite <- (Z.div_mul N (2 ^ k)) by lia. apply Z.div_le_mono; lia.
Qed.

(** The second normalisation of a rounding, once the value is below the
    precision. *)
Lemma round_trunc r e N : 0 <= r <= N * 2 ^ (- e) + 1 -> e < 0 -> 0 <= N < 2 ^ 40 ->
  exists v, trunc (match shr_m (shr_fexp prec emax r e loc_Exact).1 with
    | Z0 => S754_zero false
    | Zpos m => if (shr_fexp prec emax r e loc_Exact).2 <=? emax - prec
                then S754_finite false m (shr_fexp prec emax r e loc_Exact).2 else S754_infinity false
    | _ => S754_nan
    end) = Some v /\ 0 <= v <= N.
Proof.
  intros Hr He HN. destruct (shr_fexp_spec r e ltac:(lia)) as [Hm He'].
  rewrite Hm, He'. clear Hm He'. set (k := shift_of r e).
  assert (0 <= k /\ e + k < 0) as [Hk Hek].
  { unfold k, shift_of. rewrite fexp_eq. split; [lia|].
    assert (0 < 2 ^ (- e)) by (apply Z.pow_pos_nonneg; lia).
    enough (Zdigits2 r <= 41 - e) by lia.
    apply digits_le; [|lia]. split; [lia|].
    replace (41 - e) with (1 + (40 + - e)) by lia. rewrite !Z.pow_add_r by lia.
    nia. }
  assert (0 < 2 ^ k) by (apply Z.pow_pos_nonneg; lia).
  assert (r / 2 ^ k / 2 ^ (- (e + k)) = r / 2 ^ (- e)) as Hdiv.
  { rewrite Z.div_div by lia. rewrite <- Z.pow_add_r by lia. do 2 f_equal. lia. }
  assert (0 <= r / 2 ^ (- e) <= N) as Hv.
  { assert (2 <= 2 ^ (- e)) by (apply (Z.pow_le_mono_r 2 1); lia).
    split; [apply Z.div_pos; lia|]. apply Z.lt_succ_r, Z.div_lt_upper_bound; lia. }
  assert (0 <= r / 2 ^ k) by (apply Z.div_pos; lia).
  destruct (r / 2 ^ k) as [|m|m] eqn:E; [exists 0; split; [done|lia]| |lia].
  rewrite (proj2 (Z.leb_le _ _)) by (unfold emax, prec; lia).
  rewrite trunc_neg_exp, Hdiv by lia. eauto.
Qed.

Lemma round_aux_trunc m e N : e <= 0 -> Zpos m <= N * 2 ^ (- e) -> 0 <= N < 2 ^ 40 ->
  exists v, trunc (binary_round_aux prec emax false (Zpos m) e loc_Exact) = Some v /\ 0 <= v <= N.
Proof.
  intros He Hm HN. unfold binary_round_aux.
  destruct (decide (shift_of (Zpos m) e = 0)) as [Hk|Hk].
  { rewrite shr_fexp_exact by done. cbn [shr_m loc_of_shr_record round_nearest_even].
    rewrite shr_fexp_exact by done. cbn [shr_m].
    rewrite (proj2 (Z.leb_le _ _)) by (unfold emax, prec; lia). rewrite trunc_neg_exp by done.
    exists (Zpos m / 2 ^ (- e)). split; [done|]. apply div_pow_le; lia. }
  destruct (shr_fexp_spec (Zpos m) e ltac:(lia)) as [Hm1 He1].
  destruct (shr_fexp prec emax (Zpos m) e loc_Exact) as [mrs e1]. cbn [fst snd] in Hm1, He1.
  pose proof (round_nearest_even_bounds (shr_m mrs) (loc_of_shr_record mrs)) as Hr.
  set (r := round_nearest_even _ _) in *.
  assert (Zdigits2 (Zpos m) <= 40 - e) as Hdig.
  { apply digits_le; [|lia]. split; [lia|]. replace (40 - e) with (40 + - e) by lia.
    rewrite Z.pow_add_r by lia. assert (0 < 2 ^ (- e)) by (apply Z.pow_pos_nonneg; lia). nia. }
  assert (e1 < 0 /\ 0 < shift_of (Zpos m) e) as [He1' Hk'].
  { subst e1. unfold shift_of in *. rewrite fexp_eq in *. lia. }
  set (k := shift_of (Zpos m) e) in *. rewrite Hm1 in Hr.
  destruct (round_trunc r e1 N) as (v & Hv & Hvr); [|done|done|].
  2: { exists v. split; [|done]. revert Hv. by destruct (shr_fexp prec emax r e1 loc_Exact). }
  assert (0 <= Zpos m / 2 ^ k <= N * 2 ^ (- e1)); [|lia].
  apply div_pow_le; [lia|]. split; [lia|]. rewrite <- Z.mul_assoc, <- Z.pow_add_r by lia.
  by replace (- e1 + k) with (- e) by lia.
Qed.

(** [static_cast<std::uint64_t>(static_cast<double>(n) * x)] of a 32-bit [n]
    and a fraction: defined, and at most [n]. *)
Lemma scaled_range n x : is_u32 n -> unit_fraction x ->
  exists v, to_u64 (mul (of_Z n) x) = Ok v /\ 0 <= v <= n.
Proof.
  intros [Hn0 Hn] Hx.
  assert (exists v, trunc (mul (of_Z n) x) = Some v /\ 0 <= v <= n) as (v & Hv & Hvn).
  { destruct n as [|p|p]; [| |lia].
    - destruct x as [[]|?| |[] m e]; simpl in Hx; try done; by exists 0.
    - destruct (of_Z_exact p) as (m & e & -> & He & Hm); [lia|].
      destruct x as [[]|?| |[] mx ex]; simpl in Hx; try done; [by exists 0|].
      destruct Hx as [Hex Hmx]. apply round_aux_trunc; [lia| |lia].
      replace (- (e + ex)) with (- e + - ex) by lia. rewrite Z.pow_add_r by lia.
      assert (0 < 2 ^ (- e)) by (apply Z.pow_pos_nonneg; lia). rewrite Pos2Z.inj_mul. nia. }
  exists v. split; [|done]. apply to_u64_Ok; [done|]. unfold is_u64. lia.
Qed.

Lemma mul_comm x y : mul x y = mul y x.
Proof.
  unfold mul. destruct x as [sx|sx| |sx mx ex], y as [sy|sy| |sy my ey]; cbn; try done; rewrite ?(xorb_comm sx sy); try done.
  by rewrite (Pos.mul_comm mx), (Z.add_comm ex).
Qed.

End Doubles.
