(* ===== verification/LadderBook.v ===== *)
(** * LadderBook: the flat price-ladder book

    Models include/book/ladder_book.hpp: two arrays of levels indexed by
    [(price - min_price_) / tick_size_], the incrementally tracked best index
    of each side, and the growth of the price range ([grow_to_include],
    [resize_range]).  Array accesses go through [rd] and [wr], so that an
    index outside the ladder is undefined behaviour of the model.  The three
    fields of each side ([bids_], [bid_level_count_], [best_bid_idx_] and
    their ask counterparts) are one record, [Ladder], because every method
    touches them together; the loops that walk to the next best level are
    structural in the number of slots they may still visit.

    The file ends with the instance of [Book.BookLaws]: no operation is
    undefined, and on prices the ladder admits it acts as specified. *)

From S2P Require Import Prelude Wire Book Doubles.

Module LadderBook.

Record Ladder := mkLadder {
  levels : list Book.Level;
  level_count : Z;
  best_idx : option nat }.

Record LadderBook := mkLadderBook {
  tick_size_ : Z;
  min_price_ : Z;
  max_price_ : Z;
  window_pct_ : Doubles.double;
  num_ticks_ : nat;
  bid : Ladder;
  ask : Ladder;
  orders_ : gmap Z Book.Order }.

Definition set_bid (s : Ladder) (b : LadderBook) : LadderBook :=
  mkLadderBook (tick_size_ b) (min_price_ b) (max_price_ b) (window_pct_ b) (num_ticks_ b) s (ask b) (orders_ b).
Definition set_ask (s : Ladder) (b : LadderBook) : LadderBook :=
  mkLadderBook (tick_size_ b) (min_price_ b) (max_price_ b) (window_pct_ b) (num_ticks_ b) (bid b) s (orders_ b).
Definition set_orders (os : gmap Z Book.Order) (b : LadderBook) : LadderBook :=
  mkLadderBook (tick_size_ b) (min_price_ b) (max_price_ b) (window_pct_ b) (num_ticks_ b) (bid b) (ask b) os.

(** ** The price range *)

Definition snap_to_tick (price tick_size : Z) : Z := u32 ((price / tick_size) * tick_size).

Definition window (base_price : Z) (window_pct : Doubles.double) : outcome Z :=
  Doubles.to_u64 (Doubles.mul (Doubles.of_Z base_price) window_pct).

Definition window_low (base_price : Z) (window_pct : Doubles.double) : outcome Z :=
  w ← window base_price window_pct;
  Ok (if w <? base_price then u32 (base_price - w) else 0).

Definition window_high (base_price : Z) (window_pct : Doubles.double) : outcome Z :=
  w ← window base_price window_pct;
  let high := u64 (base_price + w) in
  Ok (u32 (Z.min high 4294967295)).

Definition check_range (min_price max_price : Z) : outcome Z :=
  if max_price <? min_price
  then Throw "LadderBook: max_price must be >= min_price"
  else Ok max_price.

(** A value-initialised side of [n] slots. *)
Definition empty_ladder (n : nat) : Ladder := mkLadder (replicate n Book.empty_level) 0 None.

Definition ticks (tick_size min_price max_price : Z) : nat :=
  Z.to_nat (u32 (max_price - min_price) / tick_size + 1).

(** The private constructor. *)
Definition make_range (tick_size min_price max_price : Z) (window_pct : Doubles.double) : outcome LadderBook :=
  max_price ← check_range min_price max_price;
  let n := ticks tick_size min_price max_price in
  Ok (mkLadderBook tick_size min_price max_price window_pct n (empty_ladder n) (empty_ladder n) ∅).

(** The public constructor. *)
Definition construct (base_price tick_size : Z) (window_pct : Doubles.double) : outcome LadderBook :=
  let tick := if tick_size =? 0 then 1 else tick_size in
  lo ← window_low base_price window_pct;
  hi ← window_high base_price window_pct;
  make_range tick (snap_to_tick lo tick) hi window_pct.

Definition in_range (price : Z) (b : LadderBook) : bool :=
  (min_price_ b <=? price) && (price <=? max_price_ b).

Definition idx (price : Z) (b : LadderBook) : nat :=
  Z.to_nat (u32 (price - min_price_ b) / tick_size_ b).

Definition price_at (i : nat) (b : LadderBook) : Z :=
  u32 (min_price_ b + u32 (u32 (Z.of_nat i) * tick_size_ b)).

(** ** Growth *)

Definition kMaxTicks : Z := 8000000.

(** The loop of [resize_range], from index [i] with [k] iterations left. *)
Fixpoint copy_levels (bids asks new_bids new_asks : list Book.Level) (offset i k : nat)
  : outcome (list Book.Level * list Book.Level) :=
  match k with
  | O => Ok (new_bids, new_asks)
  | S k =>
    lb ← rd bids i;
    new_bids ← wr new_bids (i + offset) lb;
    la ← rd asks i;
    new_asks ← wr new_asks (i + offset) la;
    copy_levels bids asks new_bids new_asks offset (S i) k
  end.

Definition resize_range (new_min new_max : Z) (new_num_ticks : nat) (b : LadderBook) : outcome LadderBook :=
  let offset := Z.to_nat (u32 (min_price_ b - new_min) / tick_size_ b) in
  let fresh := replicate new_num_ticks Book.empty_level in
  '(new_bids, new_asks) ←
     copy_levels (levels (bid b)) (levels (ask b)) fresh fresh offset 0 (num_ticks_ b);
  Ok (mkLadderBook (tick_size_ b) new_min new_max (window_pct_ b) new_num_ticks
        (mkLadder new_bids (level_count (bid b)) ((fun i => i + offset)%nat <$> best_idx (bid b)))
        (mkLadder new_asks (level_count (ask b)) ((fun i => i + offset)%nat <$> best_idx (ask b)))
        (orders_ b)).

(** The bounds [grow_to_include] computes before it decides. *)
Definition grow_bounds (price : Z) (b : LadderBook) : outcome (Z * Z) :=
  new_min ← (if price <? min_price_ b
             then lo ← window_low price (window_pct_ b);
                  Ok (Z.min (min_price_ b) (snap_to_tick lo (tick_size_ b)))
             else Ok (min_price_ b));
  new_max ← (if max_price_ b <? price
             then hi ← window_high price (window_pct_ b); Ok (Z.max (max_price_ b) hi)
             else Ok (max_price_ b));
  Ok (new_min, new_max).

Definition grow_to_include (price : Z) (b : LadderBook) : outcome (bool * LadderBook) :=
  '(new_min, new_max) ← grow_bounds price b;
  if (new_min =? min_price_ b) && (new_max =? max_price_ b) then Ok (true, b)
  else
    let new_num_ticks := ticks (tick_size_ b) new_min new_max in
    if kMaxTicks <? Z.of_nat new_num_ticks then Ok (false, b)
    else b ← resize_range new_min new_max new_num_ticks b; Ok (true, b).

(** ** Levels of one side *)

(** The body of [add] on one side. *)
Definition side_add (buy : bool) (i : nat) (shares : Z) (s : Ladder) : outcome Ladder :=
  lvl ← rd (levels s) i;
  let count := if Book.lvl_orders lvl =? 0 then u64 (level_count s + 1) else level_count s in
  lvls ← wr (levels s) i (Book.mkLevel (u64 (Book.lvl_shares lvl + shares)) (u32 (Book.lvl_orders lvl + 1)));
  let best := match best_idx s with
              | None => Some i
              | Some j => if if buy then (j <? i)%nat else (i <? j)%nat then Some i else Some j
              end in
  Ok (mkLadder lvls count best).

(** [retreat_best_bid]: the slots below [i], downwards. *)
Fixpoint retreat_best_bid (lvls : list Book.Level) (i : nat) : outcome (option nat) :=
  match i with
  | O => Ok None
  | S i =>
    l ← rd lvls i;
    if 0 <? Book.lvl_orders l then Ok (Some i) else retreat_best_bid lvls i
  end.

(** [advance_best_ask]: the [k] slots from [i], upwards. *)
Fixpoint advance_best_ask (lvls : list Book.Level) (i k : nat) : outcome (option nat) :=
  match k with
  | O => Ok None
  | S k =>
    l ← rd lvls i;
    if 0 <? Book.lvl_orders l then Ok (Some i) else advance_best_ask lvls (S i) k
  end.

(** The body of [level_sub] on one side. *)
Definition side_sub (buy : bool) (num_ticks i : nat) (shares : Z) (order_gone : bool) (s : Ladder) : outcome Ladder :=
  l ← rd (levels s) i;
  let sh := u64 (Book.lvl_shares l - (if shares <? Book.lvl_shares l then shares else Book.lvl_shares l)) in
  let n := if order_gone && (0 <? Book.lvl_orders l) then u32 (Book.lvl_orders l - 1) else Book.lvl_orders l in
  lvls ← wr (levels s) i (Book.mkLevel sh n);
  if n =? 0 then
    let count := u64 (level_count s - 1) in
    if decide (best_idx s = Some i) then
      best ← (if buy then retreat_best_bid lvls i
              else advance_best_ask lvls (S i) (num_ticks - S i));
      Ok (mkLadder lvls count best)
    else Ok (mkLadder lvls count (best_idx s))
  else Ok (mkLadder lvls (level_count s) (best_idx s)).

Definition level_sub (side : Wire.Side) (price shares : Z) (order_gone : bool) (b : LadderBook) : outcome LadderBook :=
  let i := idx price b in
  if Book.is_buy side then s ← side_sub true (num_ticks_ b) i shares order_gone (bid b); Ok (set_bid s b)
  else s ← side_sub false (num_ticks_ b) i shares order_gone (ask b); Ok (set_ask s b).

(** ** The book's operations *)

Definition add (ref : Z) (side : Wire.Side) (shares price : Z) (b : LadderBook) : outcome (bool * LadderBook) :=
  '(covered, b) ← (if in_range price b then Ok (true, b) else grow_to_include price b);
  if negb covered then Ok (false, b) else
  if negb (u32 (price - min_price_ b) mod tick_size_ b =? 0) then Ok (false, b) else
  match orders_ b !! ref with
  | Some _ => Ok (false, b)
  | None =>
    let b := set_orders (<[ref := Book.mkOrder shares price side]> (orders_ b)) b in
    let i := idx price b in
    if Book.is_buy side then s ← side_add true i shares (bid b); Ok (true, set_bid s b)
    else s ← side_add false i shares (ask b); Ok (true, set_ask s b)
  end.

Definition reduce (ref shares : Z) (b : LadderBook) : outcome (bool * LadderBook) :=
  match orders_ b !! ref with
  | None => Ok (false, b)
  | Some o =>
    let qty := if shares <? Book.ord_shares o then shares else Book.ord_shares o in
    let left := u32 (Book.ord_shares o - qty) in
    let gone := left =? 0 in
    let orders := if gone then delete ref (orders_ b)
                  else <[ref := Book.mkOrder left (Book.ord_price o) (Book.ord_side o)]> (orders_ b) in
    b ← level_sub (Book.ord_side o) (Book.ord_price o) qty gone (set_orders orders b);
    Ok (true, b)
  end.

Definition execute (ref shares : Z) (b : LadderBook) : outcome (bool * LadderBook) := reduce ref shares b.
Definition cancel (ref shares : Z) (b : LadderBook) : outcome (bool * LadderBook) := reduce ref shares b.

Definition remove (ref : Z) (b : LadderBook) : outcome (bool * LadderBook) :=
  match orders_ b !! ref with
  | None => Ok (false, b)
  | Some o =>
    b ← level_sub (Book.ord_side o) (Book.ord_price o) (Book.ord_shares o) true
          (set_orders (delete ref (orders_ b)) b);
    Ok (true, b)
  end.

Definition replace (orig next shares price : Z) (b : LadderBook) : outcome (bool * LadderBook) :=
  match orders_ b !! orig with
  | None => Ok (false, b)
  | Some o =>
    let side := Book.ord_side o in
    '(_, b) ← remove orig b;
    add next side shares price b
  end.

Definition best_bid (b : LadderBook) : outcome (option Book.Quote) :=
  match best_idx (bid b) with
  | None => Ok None
  | Some i => l ← rd (levels (bid b)) i; Ok (Some (Book.mkQuote (price_at i b) (Book.lvl_shares l)))
  end.

Definition best_ask (b : LadderBook) : outcome (option Book.Quote) :=
  match best_idx (ask b) with
  | None => Ok None
  | Some i => l ← rd (levels (ask b)) i; Ok (Some (Book.mkQuote (price_at i b) (Book.lvl_shares l)))
  end.

Definition open_orders (b : LadderBook) : nat := size (orders_ b).
Definition bid_levels (b : LadderBook) : Z := level_count (bid b).
Definition ask_levels (b : LadderBook) : Z := level_count (ask b).

(** ** [pipeline::BookTraits<book::LadderBook>] (dispatch_to_book.hpp) *)

Definition kFallbackBase : Z := 500000.
Definition kTickSize : Z := 100.
Definition kWindowPct : Doubles.double := Doubles.literal 3 10.
Definition kMaxSanePrice : Z := 100000000.

Definition make (price_hint : Z) : outcome LadderBook :=
  let base := if negb (price_hint =? 0) && (price_hint <=? kMaxSanePrice) then price_hint else kFallbackBase in
  construct base kTickSize kWindowPct.

#[global] Instance lb_ops : Book.BookOps LadderBook := {
  make := make; add := add; execute := execute; cancel := cancel; remove := remove; replace := replace;
  best_bid := best_bid; best_ask := best_ask; open_orders := open_orders;
  bid_levels := bid_levels; ask_levels := ask_levels
}.

(** ** The invariant *)

(** The price of slot [i]. *)
Definition slot (min tick : Z) (i : nat) : Z := min + Z.of_nat i * tick.

(** The tracked index points at the best occupied price. *)
Definition best_ok (buy : bool) (min tick : Z) (X : gset Z) (best : option nat) : Prop :=
  match best with
  | None => X = ∅
  | Some i => slot min tick i ∈ X /\
              forall p, p ∈ X -> Book.better buy (slot min tick i) p = slot min tick i
  end.

Record side_inv (buy : bool) (min tick : Z) (n : nat) (os : gmap Z Book.Order) (s : Ladder) : Prop := {
  si_length : length (levels s) = n;
  si_levels : forall i, (i < n)%nat -> levels s !! i = Some (Book.aggregate buy (slot min tick i) os);
  si_count : level_count s = Z.of_nat (size (Book.prices buy os));
  si_best : best_ok buy min tick (Book.prices buy os) (best_idx s) }.

(** Every resting order sits on a slot of the ladder. *)
Definition on_grid (min tick : Z) (n : nat) (os : gmap Z Book.Order) : Prop :=
  map_Forall (fun _ o => exists i, (i < n)%nat /\ Book.ord_price o = slot min tick i) os.

(** The range of a ladder: well-formed whatever orders rest. *)
Record geom (b : LadderBook) : Prop := {
  g_tick : 0 < tick_size_ b < 4294967296;
  g_min : 0 <= min_price_ b <= max_price_ b;
  g_max : max_price_ b < 4294967296;
  g_aligned : min_price_ b mod tick_size_ b = 0;
  g_pct : Doubles.unit_fraction (window_pct_ b);
  g_ticks : num_ticks_ b = ticks (tick_size_ b) (min_price_ b) (max_price_ b) }.

Record lb_inv (b : LadderBook) : Prop := {
  lb_geom : geom b;
  lb_wf : Book.wf_orders (orders_ b);
  lb_size : Z.of_nat (size (orders_ b)) < Book.max_orders;
  lb_grid : on_grid (min_price_ b) (tick_size_ b) (num_ticks_ b) (orders_ b);
  lb_bid : side_inv true (min_price_ b) (tick_size_ b) (num_ticks_ b) (orders_ b) (bid b);
  lb_ask : side_inv false (min_price_ b) (tick_size_ b) (num_ticks_ b) (orders_ b) (ask b) }.

(** Does the ladder take this price, growing if it must? *)
Definition admits (b : LadderBook) (price : Z) : bool :=
  (price mod tick_size_ b =? 0) &&
  (in_range price b ||
   match grow_bounds price b with
   | Ok (lo, hi) => Z.of_nat (ticks (tick_size_ b) lo hi) <=? kMaxTicks
   | _ => false
   end).

Definition same_range (b b' : LadderBook) : Prop :=
  tick_size_ b' = tick_size_ b /\ min_price_ b' = min_price_ b /\ max_price_ b' = max_price_ b /\
  window_pct_ b' = window_pct_ b /\ num_ticks_ b' = num_ticks_ b.

(** ** One side of the ladder *)

Section Side.
Context (buy : bool) (min tick : Z) (n : nat).
Hypothesis Htick : 0 < tick.
#[local] Abbreviation slot := (slot min tick).

Lemma slot_inj i j : slot i = slot j -> i = j.
Proof. unfold LadderBook.slot. nia. Qed.

Lemma slot_lt i j : slot i < slot j <-> (i < j)%nat.
Proof. unfold LadderBook.slot. nia. Qed.

Lemma prices_slot os p : on_grid min tick n os -> p ∈ Book.prices buy os -> exists i, (i < n)%nat /\ p = slot i.
Proof.
  intros Hg Hp. apply Book.elem_of_prices in Hp as (ref & o & Ho & Hat).
  apply Book.at_level_spec in Hat as [_ <-]. exact (Hg ref o Ho).
Qed.

Lemma slot_lookup s os i : side_inv buy min tick n os s -> (i < n)%nat ->
  rd (levels s) i = Ok (Book.aggregate buy (slot i) os).
Proof. intros Hs Hi. apply rd_lookup, (si_levels _ _ _ _ _ _ Hs i Hi). Qed.

Lemma wr_ok (lvls : list Book.Level) i x : (i < length lvls)%nat -> wr lvls i x = Ok (<[i := x]> lvls).
Proof. intros. unfold wr. by rewrite decide_True. Qed.

(** A ladder depends on its orders only through the levels of its side. *)
Lemma lb_side_inv_same s os os' :
  side_inv buy min tick n os s ->
  (forall p, Book.level_count buy p os' = Book.level_count buy p os) ->
  (forall p, Book.level_shares buy p os' = Book.level_shares buy p os) ->
  side_inv buy min tick n os' s.
Proof.
  intros [Hlen Hlv Hc Hb] Hc' Hs'.
  constructor; rewrite ?(Book.prices_same buy os os') by done; try done.
  intros i Hi. rewrite (Hlv i Hi). unfold Book.aggregate. by rewrite Hc', Hs'.
Qed.

Lemma side_add_ok s os ref o i :
  side_inv buy min tick n os s -> Book.wf_orders os -> Book.wf_order o ->
  Z.of_nat (size os) + 1 < Book.max_orders ->
  os !! ref = None -> Book.is_buy (Book.ord_side o) = buy ->
  (i < n)%nat -> Book.ord_price o = slot i ->
  exists s', side_add buy i (Book.ord_shares o) s = Ok s' /\ side_inv buy min tick n (<[ref := o]> os) s'.
Proof.
  intros Hs Hwf [Ho _] Hsz Hn Hb Hi Hp. unfold side_add. rewrite (slot_lookup s os i Hs Hi), bind_Ok.
  destruct Hs as [Hlen Hlv Hc Hbest].
  rewrite wr_ok by lia. rewrite bind_Ok. eexists; split; [reflexivity|].
  pose proof (Book.level_count_bounds buy (slot i) os).
  pose proof (Book.level_shares_bounds buy (slot i) os Hwf).
  pose proof (Book.size_prices_le buy os).
  unfold Book.max_orders, is_u32 in *. cbn [Book.aggregate Book.lvl_orders Book.lvl_shares].
  constructor; cbn [levels level_count best_idx].
  - by rewrite length_insert.
  - intros j Hj. unfold Book.aggregate. rewrite Book.level_count_insert, Book.level_shares_insert by done.
    destruct (decide (i = j)) as [<-|Hij].
    + rewrite list_lookup_insert_eq by lia. pose proof (Book.at_level_self o) as Hself.
      rewrite Hb, Hp in Hself. rewrite Hself. by rewrite u64_id, u32_id by word_lia.
    + rewrite list_lookup_insert_ne by done. rewrite (Hlv j Hj).
      destruct (Book.at_level buy (slot j) o) eqn:E; [|by rewrite !Z.add_0_r].
      apply Book.at_level_spec in E as [_ E]. rewrite Hp in E. by apply slot_inj in E.
  - rewrite (Book.prices_insert buy) by done. rewrite Hc, Hp.
    destruct (Z.eqb_spec (Book.level_count buy (slot i) os) 0) as [E|E].
    + rewrite u64_id by word_lia. rewrite size_union, size_singleton; [lia|].
      apply disjoint_singleton_l. rewrite Book.elem_of_prices_count. lia.
    + rewrite subseteq_union_1_L; [done|]. apply singleton_subseteq_l. by apply Book.elem_of_prices_count.
  - rewrite (Book.prices_insert buy) by done. rewrite Hp. unfold best_ok in *.
    destruct (best_idx s) as [j|].
    + destruct Hbest as [Hj Hjb].
      assert (forall k, k = i \/ k = j -> (forall p, p = slot i \/ p = slot j -> Book.better buy (slot k) p = slot k) ->
        slot k ∈ {[slot i]} ∪ Book.prices buy os /\
        forall p, p ∈ {[slot i]} ∪ Book.prices buy os -> Book.better buy (slot k) p = slot k) as Hk.
      { intros k Hk Hkb. split; [rewrite elem_of_union, elem_of_singleton; destruct Hk as [->| ->]; auto|].
        intros p [->%elem_of_singleton|Hpx]%elem_of_union; [by apply Hkb; left|].
        specialize (Hjb p Hpx). specialize (Hkb (slot j) (or_intror eq_refl)).
        unfold Book.better in *. destruct buy; lia. }
      pose proof (slot_lt i j). pose proof (slot_lt j i).
      destruct buy; [destruct (Nat.ltb_spec j i) | destruct (Nat.ltb_spec i j)];
        apply Hk; auto; intros p [->| ->]; unfold Book.better; lia.
    + rewrite Hbest. split; [apply elem_of_union_l, elem_of_singleton; done|].
      intros p [->%elem_of_singleton|[]%not_elem_of_empty]%elem_of_union.
      unfold Book.better. destruct buy; lia.
Qed.

(** The walk downwards finds the highest occupied slot below [i]. *)
Lemma retreat_ok lvls i (X : gset Z) :
  (i <= length lvls)%nat ->
  (forall j l, lvls !! j = Some l -> (0 <? Book.lvl_orders l) = true <-> slot j ∈ X) ->
  exists best, retreat_best_bid lvls i = Ok best /\
    match best with
    | None => forall j, (j < i)%nat -> slot j ∉ X
    | Some j => (j < i)%nat /\ slot j ∈ X /\ forall k, (j < k < i)%nat -> slot k ∉ X
    end.
Proof.
  intros Hi HX. induction i as [|i IH]; [exists None; split; [done|]; lia|].
  cbn [retreat_best_bid]. destruct (rd_ok lvls i ltac:(lia)) as (l & -> & Hl). rewrite bind_Ok.
  specialize (HX i l Hl) as Hocc. destruct (0 <? Book.lvl_orders l) eqn:E.
  - exists (Some i). split; [done|]. split_and!; [lia|by apply Hocc|lia].
  - assert (slot i ∉ X) as Hni by (intros Hin; apply Hocc in Hin; congruence).
    destruct (IH ltac:(lia)) as (best & -> & Hbest). exists best. split; [done|].
    destruct best as [j|]; [destruct Hbest as (? & ? & Hbest); split_and!; [lia|done|] |];
      intros k Hk; destruct (decide (k = i)) as [->|]; try done; apply Hbest; lia.
Qed.

(** The walk upwards finds the lowest occupied slot from [i] on. *)
Lemma advance_ok lvls i k (X : gset Z) :
  (i + k <= length lvls)%nat ->
  (forall j l, lvls !! j = Some l -> (0 <? Book.lvl_orders l) = true <-> slot j ∈ X) ->
  exists best, advance_best_ask lvls i k = Ok best /\
    match best with
    | None => forall j, (i <= j < i + k)%nat -> slot j ∉ X
    | Some j => (i <= j < i + k)%nat /\ slot j ∈ X /\ forall m, (i <= m < j)%nat -> slot m ∉ X
    end.
Proof.
  intros Hi HX. revert i Hi. induction k as [|k IH]; intros i Hi; [exists None; split; [done|]; lia|].
  cbn [advance_best_ask]. destruct (rd_ok lvls i ltac:(lia)) as (l & -> & Hl). rewrite bind_Ok.
  specialize (HX i l Hl) as Hocc. destruct (0 <? Book.lvl_orders l) eqn:E.
  - exists (Some i). split; [done|]. split_and!; [lia|lia|by apply Hocc|lia].
  - assert (slot i ∉ X) as Hni by (intros Hin; apply Hocc in Hin; congruence).
    destruct (IH (S i) ltac:(lia)) as (best & -> & Hbest). exists best. split; [done|].
    destruct best as [j|]; [destruct Hbest as (? & ? & Hbest); split_and!; [lia|lia|done|] |];
      intros m Hm; destruct (decide (m = i)) as [->|]; try done; apply Hbest; lia.
Qed.

(** Removing the price of slot [i] from the occupied ones moves the best
    index only when it pointed there. *)
Lemma best_after_removal lvls i best X :
  (forall p, p ∈ X -> exists j, (j < n)%nat /\ p = slot j) ->
  length lvls = n -> (i < n)%nat ->
  (forall j l, lvls !! j = Some l -> (0 <? Book.lvl_orders l) = true <-> slot j ∈ X ∖ {[slot i]}) ->
  best_ok buy min tick X best ->
  exists best', (if decide (best = Some i)
    then if buy then retreat_best_bid lvls i else advance_best_ask lvls (S i) (n - S i)
    else Ok best) = Ok best' /\ best_ok buy min tick (X ∖ {[slot i]}) best'.
Proof.
  intros HX Hlen Hi Hocc Hbest. destruct (decide (best = Some i)) as [->|Hne].
  - destruct Hbest as [Hin Hb].
    assert (forall j, slot j ∈ X ∖ {[slot i]} <-> slot j ∈ X /\ j <> i) as Hmem.
    { intros j. rewrite elem_of_difference, elem_of_singleton. split; intros [H1 H2]; (split; [done|]).
      - intros ->. done.
      - intros E%slot_inj. done. }
    assert (exists best', (if buy then retreat_best_bid lvls i else advance_best_ask lvls (S i) (n - S i)) = Ok best' /\
      match best' with
      | None => forall j, (if buy then (j < i)%nat else (i < j < n)%nat) -> slot j ∉ X ∖ {[slot i]}
      | Some j => (if buy then (j < i)%nat else (i < j < n)%nat) /\ slot j ∈ X ∖ {[slot i]} /\
          forall k, (if buy then (j < k < i)%nat else (i < k < j)%nat) -> slot k ∉ X ∖ {[slot i]}
      end) as (best' & -> & Hb').
    { destruct buy.
      - destruct (retreat_ok lvls i _ ltac:(lia) Hocc) as (b' & -> & H). by exists b'.
      - destruct (advance_ok lvls (S i) (n - S i) _ ltac:(lia) Hocc) as (b' & -> & H).
        exists b'. split; [done|]. destruct b' as [j|].
        + destruct H as (Hj & Hin' & H). split_and!; [lia|lia|done|]. intros k Hk. apply H. lia.
        + intros j Hj. apply H. lia. }
    exists best'. split; [done|].
    assert (forall j, slot j ∈ X ∖ {[slot i]} -> (j < n)%nat /\ (if buy then (j < i)%nat else (i < j)%nat)) as Hside.
    { intros j [Hj Hji]%Hmem. destruct (HX _ Hj) as (j' & Hj' & ->%slot_inj). split; [done|].
      specialize (Hb _ Hj). pose proof (slot_lt i j'). pose proof (slot_lt j' i).
      assert (slot j' <> slot i) by (intros E%slot_inj; done).
      unfold Book.better in Hb. destruct buy; lia. }
    destruct best' as [j|]; simpl.
    + destruct Hb' as (Hj & Hjin & Hno). split; [done|].
      intros p Hp. destruct (HX p) as (k & Hk & ->); [by apply elem_of_difference in Hp as [? _]|].
      pose proof (Hside k Hp) as [_ Hki]. pose proof (slot_lt j k). pose proof (slot_lt k j).
      destruct (decide (k = j)) as [->|]; [unfold Book.better; destruct buy; lia|].
      assert (~ (if buy then (j < k < i)%nat else (i < k < j)%nat)) by (intros Hbad; by apply (Hno k Hbad)).
      unfold Book.better. destruct buy; lia.
    + apply set_eq. intros p. split; [|by intros ?%not_elem_of_empty]. intros Hp.
      destruct (HX p) as (k & Hk & ->); [by apply elem_of_difference in Hp as [? _]|].
      destruct (Hside k Hp) as [Hkn Hki]. exfalso. apply (Hb' k); [|done]. destruct buy; lia.
  - exists best. split; [done|]. destruct best as [j|]; simpl in *.
    + destruct Hbest as [Hj Hb]. split.
      * rewrite elem_of_difference, elem_of_singleton. split; [done|]. intros ->%slot_inj. done.
      * intros p [Hp _]%elem_of_difference. by apply Hb.
    + rewrite Hbest. apply set_eq. intros p. rewrite elem_of_difference. split; [by intros []|by intros ?%not_elem_of_empty].
Qed.

Lemma side_sub_ok s os os' i qty (gone : bool) :
  side_inv buy min tick n os s -> on_grid min tick n os -> (i < n)%nat ->
  Book.wf_orders os -> Z.of_nat (size os) < Book.max_orders ->
  0 <= qty <= Book.level_shares buy (slot i) os ->
  Book.level_count buy (slot i) os <> 0 ->
  (forall p, Book.level_count buy p os' =
     Book.level_count buy p os - (if decide (p = slot i) then if gone then 1 else 0 else 0)) ->
  (forall p, Book.level_shares buy p os' =
     Book.level_shares buy p os - (if decide (p = slot i) then qty else 0)) ->
  exists s', side_sub buy n i qty gone s = Ok s' /\ side_inv buy min tick n os' s'.
Proof.
  intros Hs Hg Hi Hwf Hsz Hq Hocc Hc' Hs'. unfold side_sub.
  rewrite (slot_lookup s os i Hs Hi), bind_Ok. destruct Hs as [Hlen Hlv Hcnt Hbest].
  pose proof (Book.level_count_bounds buy (slot i) os).
  pose proof (Book.level_shares_bounds buy (slot i) os Hwf).
  pose proof (Book.size_prices_le buy os). unfold Book.max_orders in *.
  cbn [Book.aggregate Book.lvl_orders Book.lvl_shares].
  rewrite wr_ok, bind_Ok by lia. rewrite (proj2 (Z.ltb_lt 0 _)), andb_true_r by lia.
  set (lvl' := Book.mkLevel _ _).
  assert (lvl' = Book.aggregate buy (slot i) os') as ->.
  { unfold lvl', Book.aggregate. rewrite Hc', Hs', !decide_True by done. f_equal.
    - destruct (Z.ltb_spec qty (Book.level_shares buy (slot i) os)); rewrite u64_id by word_lia; lia.
    - destruct gone; [rewrite u32_id by word_lia|]; lia. }
  replace (if gone then u32 _ else _) with (Book.level_count buy (slot i) os')
    by (rewrite Hc', decide_True by done; destruct gone; [rewrite u32_id by word_lia|]; lia).
  set (lvls := <[i:=_]> _).
  assert (forall j, (j < n)%nat -> lvls !! j = Some (Book.aggregate buy (slot j) os')) as Hlv'.
  { intros j Hj. unfold lvls. destruct (decide (i = j)) as [<-|Hij].
    - by rewrite list_lookup_insert_eq by lia.
    - rewrite list_lookup_insert_ne, (Hlv j Hj) by done. unfold Book.aggregate.
      rewrite Hc', Hs', !decide_False, !Z.sub_0_r by (intros E%slot_inj; done). done. }
  assert (length lvls = n) as Hlen' by (unfold lvls; by rewrite length_insert).
  pose proof (Book.prices_reduce buy (slot i) gone os os' Hocc Hc') as Hp'.
  destruct (Z.eqb_spec (Book.level_count buy (slot i) os') 0) as [E|E].
  - destruct (best_after_removal lvls i (best_idx s) (Book.prices buy os)) as (best' & Hrun & Hb');
      [by intros p; apply prices_slot|done|done| |done|].
    { intros j l Hl. pose proof (lookup_lt_Some _ _ _ Hl). rewrite (Hlv' j) in Hl by lia.
      injection Hl as <-. cbn [Book.aggregate Book.lvl_orders]. rewrite <- Hp', Book.elem_of_prices_count, Z.ltb_lt.
      pose proof (Book.level_count_bounds buy (slot j) os'). lia. }
    destruct (decide (best_idx s = Some i)) as [_|_]; [rewrite Hrun, bind_Ok|injection Hrun as <-];
      (eexists; split; [reflexivity|]); constructor; cbn [levels level_count best_idx]; try done; rewrite Hp'; try done.
    all: rewrite Hcnt, size_difference, size_singleton
           by (apply singleton_subseteq_l; by apply Book.elem_of_prices_count).
    all: assert (size (Book.prices buy os) <> 0)%nat
           by (intros E0%size_empty_inv; apply (not_elem_of_empty (slot i) (C := gset Z)), E0, Book.elem_of_prices_count; done).
    all: rewrite u64_id by word_lia; lia.
  - eexists; split; [reflexivity|]. constructor; cbn [levels level_count best_idx]; try done; by rewrite Hp'.
Qed.

End Side.

(** ** Slots and prices *)

Section Geometry.
Context (b : LadderBook) (Hg : geom b).
#[local] Abbreviation slot := (slot (min_price_ b) (tick_size_ b)).

Lemma ticks_exact tick lo hi : 0 < tick -> 0 <= lo <= hi -> hi < 4294967296 ->
  Z.of_nat (ticks tick lo hi) = (hi - lo) / tick + 1.
Proof.
  intros. unfold ticks. rewrite u32_id by word_lia.
  rewrite Z2Nat.id; [done|]. assert (0 <= (hi - lo) / tick) by (apply Z.div_pos; lia). lia.
Qed.

Lemma slot_range i : (i < num_ticks_ b)%nat -> min_price_ b <= slot i <= max_price_ b.
Proof.
  destruct Hg as [? ? ? _ _ Hn]. intros Hi.
  pose proof (ticks_exact (tick_size_ b) (min_price_ b) (max_price_ b)) as Ht.
  rewrite <- Hn in Ht. specialize (Ht ltac:(lia) ltac:(lia) ltac:(lia)).
  pose proof (Z.mul_div_le (max_price_ b - min_price_ b) (tick_size_ b) ltac:(lia)).
  unfold LadderBook.slot. nia.
Qed.

Lemma idx_slot i : (i < num_ticks_ b)%nat -> idx (slot i) b = i.
Proof.
  intros Hi. pose proof (slot_range i Hi). destruct Hg as [Ht Hm HM _ _ _].
  unfold idx. rewrite u32_id by word_lia. unfold LadderBook.slot.
  rewrite Z.add_simpl_l, Z.div_mul by lia. lia.
Qed.

Lemma price_at_slot i : (i < num_ticks_ b)%nat -> price_at i b = slot i.
Proof.
  intros Hi. pose proof (slot_range i Hi). destruct Hg as [Ht Hm HM _ _ _].
  unfold price_at. unfold LadderBook.slot in *.
  assert (0 <= Z.of_nat i * tick_size_ b < 4294967296) by lia.
  assert (0 <= Z.of_nat i < 4294967296) by nia.
  rewrite (u32_id (Z.of_nat i)) by word_lia. rewrite (u32_id (_ * _)) by word_lia.
  by rewrite u32_id by word_lia.
Qed.

Lemma slot_of_price p : min_price_ b <= p <= max_price_ b -> p mod tick_size_ b = 0 ->
  exists i, (i < num_ticks_ b)%nat /\ p = slot i.
Proof.
  destruct Hg as [Ht Hm HM Hal _ Hn]. intros Hp Hmod.
  exists (Z.to_nat ((p - min_price_ b) / tick_size_ b)).
  assert (0 <= (p - min_price_ b) / tick_size_ b) by (apply Z.div_pos; lia).
  assert ((p - min_price_ b) / tick_size_ b <= (max_price_ b - min_price_ b) / tick_size_ b)
    by (apply Z.div_le_mono; lia).
  pose proof (ticks_exact (tick_size_ b) (min_price_ b) (max_price_ b) ltac:(lia) ltac:(lia) ltac:(lia)).
  split; [lia|]. unfold LadderBook.slot. rewrite Z2Nat.id by lia.
  assert ((p - min_price_ b) mod tick_size_ b = 0) as E.
  { rewrite Zminus_mod, Hmod, Hal. apply Z.mod_0_l. lia. }
  pose proof (Z.div_mod (p - min_price_ b) (tick_size_ b) ltac:(lia)). lia.
Qed.

(** [add]'s test against [min_price_] is alignment to the absolute grid. *)
Lemma align_test p : min_price_ b <= p < 4294967296 ->
  (u32 (p - min_price_ b) mod tick_size_ b =? 0) = (p mod tick_size_ b =? 0).
Proof.
  destruct Hg as [Ht Hm HM Hal _ _]. intros Hp. rewrite u32_id by word_lia. f_equal.
  rewrite Zminus_mod, Hal, Z.sub_0_r. apply Z.mod_mod. lia.
Qed.

End Geometry.

(** ** Windows *)

Lemma window_ok base pct : is_u32 base -> Doubles.unit_fraction pct ->
  exists w, window base pct = Ok w /\ 0 <= w <= base.
Proof. apply Doubles.scaled_range. Qed.

Lemma window_low_ok base pct : is_u32 base -> Doubles.unit_fraction pct ->
  exists lo, window_low base pct = Ok lo /\ 0 <= lo <= base.
Proof.
  intros Hb Hp. destruct (window_ok base pct Hb Hp) as (w & Hw & Hr).
  unfold window_low. rewrite Hw, bind_Ok. eexists; split; [reflexivity|].
  destruct (Z.ltb_spec w base); [rewrite u32_id by word_lia|unfold is_u32 in *]; lia.
Qed.

Lemma window_high_ok base pct : is_u32 base -> Doubles.unit_fraction pct ->
  exists hi, window_high base pct = Ok hi /\ base <= hi <= 2 * base /\ hi < 4294967296.
Proof.
  intros Hb Hp. destruct (window_ok base pct Hb Hp) as (w & Hw & Hr).
  unfold window_high. rewrite Hw, bind_Ok. eexists; split; [reflexivity|].
  unfold is_u32 in *. rewrite (u64_id (base + w)) by word_lia. rewrite u32_id by word_lia. lia.
Qed.

Lemma snap_ok p tick : is_u32 p -> 0 < tick ->
  0 <= snap_to_tick p tick <= p /\ snap_to_tick p tick mod tick = 0.
Proof.
  intros Hp Ht. unfold is_u32 in *.
  pose proof (Z.mul_div_le p tick Ht). assert (0 <= p / tick) by (apply Z.div_pos; lia).
  unfold snap_to_tick. rewrite u32_id by (unfold is_u32; nia).
  split; [nia|]. apply Z.mod_mul. lia.
Qed.

(** ** Growth keeps every level *)

Lemma copy_levels_ok bids asks off i k nb na :
  length bids = (i + k)%nat -> length asks = (i + k)%nat ->
  (i + k + off <= length nb)%nat -> (i + k + off <= length na)%nat ->
  exists nb' na', copy_levels bids asks nb na off i k = Ok (nb', na') /\
    length nb' = length nb /\ length na' = length na /\
    (forall j, nb' !! j = if decide (i + off <= j < i + off + k)%nat then bids !! (j - off)%nat else nb !! j) /\
    (forall j, na' !! j = if decide (i + off <= j < i + off + k)%nat then asks !! (j - off)%nat else na !! j).
Proof.
  revert i nb na. induction k as [|k IH]; intros i nb na Hb Ha Hnb Hna; cbn [copy_levels].
  { exists nb, na. split_and!; try done; intros j; rewrite decide_False by lia; done. }
  destruct (rd_ok bids i ltac:(lia)) as (lb & -> & Hlb). rewrite bind_Ok, wr_ok, bind_Ok by lia.
  destruct (rd_ok asks i ltac:(lia)) as (la & -> & Hla). rewrite bind_Ok, wr_ok, bind_Ok by lia.
  destruct (IH (S i) (<[(i + off)%nat := lb]> nb) (<[(i + off)%nat := la]> na))
    as (nb' & na' & -> & Hnb' & Hna' & Hjb & Hja); rewrite ?length_insert; try lia.
  rewrite length_insert in Hnb', Hna'. exists nb', na'. split_and!; try done.
  - intros j. rewrite Hjb. destruct (decide (j = i + off)%nat) as [->|Hj].
    + rewrite decide_False, decide_True, list_lookup_insert_eq by lia.
      by replace (i + off - off)%nat with i by lia.
    + rewrite list_lookup_insert_ne by done. repeat case_decide; try lia; done.
  - intros j. rewrite Hja. destruct (decide (j = i + off)%nat) as [->|Hj].
    + rewrite decide_False, decide_True, list_lookup_insert_eq by lia.
      by replace (i + off - off)%nat with i by lia.
    + rewrite list_lookup_insert_ne by done. repeat case_decide; try lia; done.
Qed.

(** A price off the old range carries no order, so its fresh slot is right. *)
Lemma side_inv_resize buy min tick n min' n' off os s lvls :
  0 < tick -> side_inv buy min tick n os s -> on_grid min tick n os -> Book.wf_orders os ->
  min = min' + Z.of_nat off * tick -> (n + off <= n')%nat -> length lvls = n' ->
  (forall j, lvls !! j = if decide (0 + off <= j < 0 + off + n)%nat then levels s !! (j - off)%nat
                         else replicate n' Book.empty_level !! j) ->
  side_inv buy min' tick n' os (mkLadder lvls (level_count s) ((fun i => i + off)%nat <$> best_idx s)).
Proof.
  intros Ht [Hlen Hlv Hc Hb] Hg Hwf Hmin Hn Hl Hj.
  assert (forall i, slot min' tick (i + off) = slot min tick i) as Hslot by (intros i; unfold slot; lia).
  constructor; cbn [levels level_count best_idx]; try done.
  - intros j Hjn. rewrite Hj. case_decide as D.
    + rewrite Hlv by lia. rewrite <- Hslot. by replace (j - off + off)%nat with j by lia.
    + rewrite lookup_replicate_2 by done. f_equal.
      assert (Book.level_count buy (slot min' tick j) os = 0) as E.
      { destruct (decide (Book.level_count buy (slot min' tick j) os = 0)) as [|Hne]; [done|].
        apply Book.level_count_occupied in Hne as (ref & o & Ho & [_ Hat]%Book.at_level_spec).
        destruct (Hg ref o Ho) as (i & Hi & Hp). rewrite Hp in Hat. unfold slot in Hat. nia. }
      unfold Book.aggregate. by rewrite E, Book.level_shares_empty.
  - unfold best_ok in *. destruct (best_idx s) as [i|]; simpl; [|done].
    by rewrite Hslot.
Qed.

Lemma resize_ok b lo hi : lb_inv b ->
  0 <= lo <= min_price_ b -> lo mod tick_size_ b = 0 -> max_price_ b <= hi < 4294967296 ->
  exists b', resize_range lo hi (ticks (tick_size_ b) lo hi) b = Ok b' /\ lb_inv b' /\
    orders_ b' = orders_ b /\ tick_size_ b' = tick_size_ b /\ window_pct_ b' = window_pct_ b /\
    min_price_ b' = lo /\ max_price_ b' = hi.
Proof.
  intros [Hg Hwf Hsz Hgrid Hbid Hask] Hlo Hmod Hhi. pose proof Hg as [Ht Hm HM Hal Hpct Hn].
  pose proof (ticks_exact (tick_size_ b) (min_price_ b) (max_price_ b) ltac:(lia) ltac:(lia) ltac:(lia)) as E1.
  pose proof (ticks_exact (tick_size_ b) lo hi ltac:(lia) ltac:(lia) ltac:(lia)) as E2.
  unfold resize_range. rewrite u32_id by word_lia.
  set (off := Z.to_nat ((min_price_ b - lo) / tick_size_ b)).
  assert ((min_price_ b - lo) mod tick_size_ b = 0) as Hoff.
  { rewrite Zminus_mod, Hmod, Hal. apply Z.mod_0_l. lia. }
  assert (0 <= (min_price_ b - lo) / tick_size_ b) as Hoff0 by (apply Z.div_pos; lia).
  assert (min_price_ b = lo + Z.of_nat off * tick_size_ b) as Hmin.
  { unfold off. rewrite Z2Nat.id by done.
    pose proof (Z.div_mod (min_price_ b - lo) (tick_size_ b) ltac:(lia)). lia. }
  set (n' := ticks _ lo hi) in *.
  assert (num_ticks_ b + off <= n')%nat as Hn'.
  { assert ((max_price_ b - min_price_ b) / tick_size_ b + Z.of_nat off <= (hi - lo) / tick_size_ b).
    { rewrite <- Z.div_add by lia. apply Z.div_le_mono; lia. }
    rewrite Hn. lia. }
  destruct (copy_levels_ok (levels (bid b)) (levels (ask b)) off 0 (num_ticks_ b)
              (replicate n' Book.empty_level) (replicate n' Book.empty_level))
    as (nb & na & -> & Hlb & Hla & Hjb & Hja);
    rewrite ?length_replicate, ?(si_length _ _ _ _ _ _ Hbid), ?(si_length _ _ _ _ _ _ Hask); try lia.
  rewrite length_replicate in Hlb, Hla.
  eexists. rewrite bind_Ok. split; [reflexivity|].
  split_and!; try done. constructor; cbn; try done.
  - constructor; cbn; try done; lia.
  - intros ref o Ho. destruct (Hgrid ref o Ho) as (i & Hi & Hp). exists (i + off)%nat.
    split; [lia|]. rewrite Hp. unfold slot. lia.
  - eapply (side_inv_resize true (min_price_ b) _ (num_ticks_ b)); try done; lia.
  - eapply (side_inv_resize false (min_price_ b) _ (num_ticks_ b)); try done; lia.
Qed.

Lemma grow_bounds_ok b p : geom b -> is_u32 p ->
  exists lo hi, grow_bounds p b = Ok (lo, hi) /\ 0 <= lo <= min_price_ b /\ lo mod tick_size_ b = 0 /\
    max_price_ b <= hi < 4294967296 /\ lo <= p <= hi /\ hi <= Z.max (max_price_ b) (2 * p).
Proof.
  intros [Ht Hm HM Hal Hpct Hn] Hp. unfold grow_bounds.
  destruct (window_low_ok p _ Hp Hpct) as (lo & -> & Hlo).
  destruct (window_high_ok p _ Hp Hpct) as (hi & -> & Hhi & Hhi').
  unfold is_u32 in *. destruct (snap_ok lo (tick_size_ b)) as [Hs Hsm]; [unfold is_u32; lia|lia|].
  destruct (Z.ltb_spec p (min_price_ b)); rewrite !bind_Ok;
    destruct (Z.ltb_spec (max_price_ b) p); rewrite !bind_Ok; try lia;
    do 2 eexists; (split; [reflexivity|]); split_and!; try lia.
  all: destruct (Z.min_spec (min_price_ b) (snap_to_tick lo (tick_size_ b))) as [[_ ->]|[_ ->]]; done.
Qed.

(** The price check of [add]: in range, or grown to be, or refused with the
    ladder untouched. *)
Lemma cover_ok b p : lb_inv b -> is_u32 p ->
  exists ok b', (if in_range p b then Ok (true, b) else grow_to_include p b) = Ok (ok, b') /\
    lb_inv b' /\ orders_ b' = orders_ b /\ tick_size_ b' = tick_size_ b /\
    (if ok then min_price_ b' <= p <= max_price_ b' else b' = b) /\
    max_price_ b' <= Z.max (max_price_ b) (2 * p) /\
    admits b p = (p mod tick_size_ b =? 0) && ok.
Proof.
  intros Hinv Hp. pose proof (lb_geom b Hinv) as Hg. unfold admits.
  destruct (in_range p b) eqn:E.
  - apply andb_true_iff in E as [E1 E2]. exists true, b.
    split_and!; try done; try lia.
  - destruct (grow_bounds_ok b p Hg Hp) as (lo & hi & Hbd & Hlo & Hmod & Hhi & Hcov & Hmax2).
    unfold grow_to_include. rewrite Hbd, bind_Ok.
    assert ((lo =? min_price_ b) && (hi =? max_price_ b) = false) as ->.
    { apply andb_false_iff in E. rewrite andb_false_iff. rewrite !Z.eqb_neq. lia. }
    rewrite Z.leb_antisym. destruct (kMaxTicks <? _).
    + exists false, b. split_and!; try done; lia.
    + destruct (resize_ok b lo hi Hinv Hlo Hmod Hhi) as (b' & -> & Hinv' & Ho & Htk & _ & Hmn & Hmx).
      exists true, b'. split_and!; try done; lia.
Qed.

(** Growth to a given price depends only on the range, not on the orders. *)
Lemma admits_same b b' p : same_range b b' -> admits b' p = admits b p.
Proof.
  intros (Ht & Hm & HM & Hp & _). unfold admits, in_range, grow_bounds. by rewrite Ht, Hm, HM, Hp.
Qed.

Lemma geom_same b b' : same_range b b' -> geom b -> geom b'.
Proof. intros (H1 & H2 & H3 & H4 & H5) []. constructor; rewrite ?H1, ?H2, ?H3, ?H4, ?H5; done. Qed.

Lemma same_range_trans b1 b2 b3 : same_range b1 b2 -> same_range b2 b3 -> same_range b1 b3.
Proof. unfold same_range. intros (? & ? & ? & ? & ?) (? & ? & ? & ? & ?). split_and!; congruence. Qed.

(** ** Operations act as specified *)

Lemma level_sub_ok b o ref os' qty (gone : bool) :
  lb_inv b -> orders_ b !! ref = Some o ->
  Book.wf_orders os' -> (size os' <= size (orders_ b))%nat ->
  on_grid (min_price_ b) (tick_size_ b) (num_ticks_ b) os' ->
  0 <= qty <= Book.ord_shares o ->
  (forall buy p, Book.level_count buy p os' =
     Book.level_count buy p (orders_ b) - (if Book.at_level buy p o then if gone then 1 else 0 else 0)) ->
  (forall buy p, Book.level_shares buy p os' =
     Book.level_shares buy p (orders_ b) - (if Book.at_level buy p o then qty else 0)) ->
  exists b', level_sub (Book.ord_side o) (Book.ord_price o) qty gone (set_orders os' b) = Ok b' /\
    lb_inv b' /\ orders_ b' = os' /\ same_range b b'.
Proof.
  intros [Hg Hwf Hsz Hgrid Hbid Hask] Ho Hwf' Hsz' Hgrid' Hq Hc Hs.
  destruct (Hgrid ref o Ho) as (i & Hi & Hp). pose proof Hg as [Ht _ _ _ _ _].
  assert (forall buy s, buy <> Book.is_buy (Book.ord_side o) ->
    side_inv buy (min_price_ b) (tick_size_ b) (num_ticks_ b) (orders_ b) s ->
    side_inv buy (min_price_ b) (tick_size_ b) (num_ticks_ b) os' s) as Hother.
  { intros buy s Hne Hs'. assert (forall p, Book.at_level buy p o = false) as Hat.
    { intros p. destruct (Book.at_level buy p o) eqn:E; [|done]. apply Book.at_level_spec in E as [E _]. congruence. }
    eapply lb_side_inv_same; [exact Hs'| |]; intros p; rewrite ?Hc, ?Hs, Hat; lia. }
  assert (forall buy s, buy = Book.is_buy (Book.ord_side o) ->
    side_inv buy (min_price_ b) (tick_size_ b) (num_ticks_ b) (orders_ b) s ->
    exists s', side_sub buy (num_ticks_ b) i qty gone s = Ok s' /\
      side_inv buy (min_price_ b) (tick_size_ b) (num_ticks_ b) os' s') as Hthis.
  { intros buy s -> Hs'. pose proof (Book.at_level_self o) as Hself.
    pose proof (Book.level_shares_ge _ _ ref o _ Hwf Ho Hself). rewrite Hp in *.
    eapply side_sub_ok; try done; [lia|lia|apply Book.level_count_occupied; by exists ref, o| |];
      intros p; rewrite ?Hc, ?Hs;
      (destruct (decide (p = slot (min_price_ b) (tick_size_ b) i)) as [->|Hne]; [by rewrite Hself|]);
      (destruct (Book.at_level (Book.is_buy (Book.ord_side o)) p o) eqn:E; [apply Book.at_level_spec in E as [_ E]; congruence|done]). }
  unfold level_sub. change (idx (Book.ord_price o) (set_orders os' b)) with (idx (Book.ord_price o) b).
  rewrite Hp, idx_slot by done. destruct (Book.is_buy (Book.ord_side o)) eqn:Eb.
  - destruct (Hthis true (bid b)) as (s' & Hr & Hs'); [done..|]. cbn -[side_sub]. rewrite Hr, bind_Ok.
    eexists; split; [reflexivity|]. split; [|done]. constructor; auto; [by apply (geom_same b)|cbn; lia].
  - destruct (Hthis false (ask b)) as (s' & Hr & Hs'); [done..|]. cbn -[side_sub]. rewrite Hr, bind_Ok.
    eexists; split; [reflexivity|]. split; [|done]. constructor; auto; [by apply (geom_same b)|cbn; lia].
Qed.

Definition acts (b : LadderBook) (r : outcome (bool * LadderBook)) (spec : bool * gmap Z Book.Order) : Prop :=
  exists ok b', r = Ok (ok, b') /\ lb_inv b' /\ (ok, orders_ b') = spec /\ same_range b b'.

Lemma on_grid_delete min tick n ref os : on_grid min tick n os -> on_grid min tick n (delete ref os).
Proof. apply map_Forall_delete. Qed.

Lemma on_grid_insert min tick n ref o os :
  on_grid min tick n os -> (exists i, (i < n)%nat /\ Book.ord_price o = slot min tick i) ->
  on_grid min tick n (<[ref := o]> os).
Proof. intros. by apply map_Forall_insert_2. Qed.

Lemma lb_reduce_acts ref shares b : lb_inv b -> is_u32 shares ->
  acts b (reduce ref shares b) (Book.spec_reduce ref shares (orders_ b)).
Proof.
  intros Hinv Hsh. pose proof (lb_wf b Hinv) as Hwf. pose proof (lb_grid b Hinv) as Hgrid.
  unfold acts, reduce, Book.spec_reduce. destruct (orders_ b !! ref) as [o|] eqn:E; [|by exists false, b].
  pose proof (Hwf ref o E) as Ho. pose proof (Book.reduce_left_range o shares Ho Hsh) as Hleft.
  replace (if shares <? _ then _ else _) with (Z.min shares (Book.ord_shares o))
    by (destruct (Z.ltb_spec shares (Book.ord_shares o)); lia).
  destruct Ho as [Ho Hp]. unfold is_u32 in *. rewrite u32_id by word_lia.
  set (qty := Z.min shares (Book.ord_shares o)) in *. cbv zeta.
  destruct (Z.eqb_spec (Book.ord_shares o - qty) 0) as [Hgone|Hgone].
  - destruct (level_sub_ok b o ref (delete ref (orders_ b)) qty true) as (b' & -> & Hinv' & <- & Hr); try done.
    + by apply Book.wf_orders_delete.
    + apply Book.size_delete_le.
    + by apply on_grid_delete.
    + lia.
    + intros buy p. by rewrite (Book.level_count_delete _ _ ref o).
    + intros buy p. rewrite (Book.level_shares_delete _ _ ref o) by done. case_match; lia.
    + by exists true, b'.
  - set (o' := Book.mkOrder (Book.ord_shares o - qty) (Book.ord_price o) (Book.ord_side o)).
    destruct (level_sub_ok b o ref (<[ref:=o']> (orders_ b)) qty false) as (b' & -> & Hinv' & <- & Hr); try done.
    + apply Book.wf_orders_insert; [done|]. split; unfold is_u32; simpl; lia.
    + by rewrite (Book.size_update _ o).
    + apply on_grid_insert; [done|]. apply (Hgrid ref o E).
    + lia.
    + intros buy p. unfold o'. rewrite (Book.level_count_update _ _ ref o) by done. case_match; lia.
    + intros buy p. unfold o'. rewrite (Book.level_shares_update _ _ ref o) by done. case_match; lia.
    + by exists true, b'.
Qed.

Lemma lb_remove_acts ref b : lb_inv b ->
  acts b (remove ref b) (Book.spec_remove ref (orders_ b)).
Proof.
  intros Hinv. pose proof (lb_wf b Hinv) as Hwf. unfold acts, remove, Book.spec_remove.
  destruct (orders_ b !! ref) as [o|] eqn:E; [|by exists false, b].
  destruct (Hwf ref o E) as [Ho _]. unfold is_u32 in Ho.
  destruct (level_sub_ok b o ref (delete ref (orders_ b)) (Book.ord_shares o) true) as (b' & -> & Hinv' & <- & Hr); try done.
  - by apply Book.wf_orders_delete.
  - apply Book.size_delete_le.
  - apply on_grid_delete, (lb_grid b Hinv).
  - lia.
  - intros buy p. by rewrite (Book.level_count_delete _ _ ref o).
  - intros buy p. by rewrite (Book.level_shares_delete _ _ ref o).
  - by exists true, b'.
Qed.

(** The part of [add] after the price check. *)
Lemma insert_ok ref side shares price b :
  lb_inv b -> Z.of_nat (size (orders_ b)) + 1 < Book.max_orders -> is_u32 shares -> is_u32 price ->
  orders_ b !! ref = None -> min_price_ b <= price <= max_price_ b -> price mod tick_size_ b = 0 ->
  exists b', (let b := set_orders (<[ref := Book.mkOrder shares price side]> (orders_ b)) b in
    let i := idx price b in
    if Book.is_buy side then s ← side_add true i shares (bid b); Ok (true, set_bid s b)
    else s ← side_add false i shares (ask b); Ok (true, set_ask s b)) = Ok (true, b') /\ lb_inv b' /\
    orders_ b' = <[ref := Book.mkOrder shares price side]> (orders_ b).
Proof.
  intros [Hg Hwf Hsz Hgrid Hbid Hask] Hroom Hsh Hpr Hn Hin Hmod.
  destruct (slot_of_price b Hg price Hin Hmod) as (i & Hi & Hp). pose proof Hg as [Ht _ _ _ _ _].
  set (o := Book.mkOrder shares price side). cbv zeta.
  change (idx price (set_orders _ b)) with (idx price b). rewrite Hp, idx_slot by done.
  assert (Book.wf_orders (<[ref:=o]> (orders_ b))) by (by apply Book.wf_orders_insert).
  assert (on_grid (min_price_ b) (tick_size_ b) (num_ticks_ b) (<[ref:=o]> (orders_ b)))
    by (apply on_grid_insert; eauto).
  assert (Z.of_nat (size (<[ref:=o]> (orders_ b))) < Book.max_orders)
    by (rewrite map_size_insert_None by done; lia).
  assert (forall buy s, buy = Book.is_buy side ->
    side_inv buy (min_price_ b) (tick_size_ b) (num_ticks_ b) (orders_ b) s ->
    exists s', side_add buy i shares s = Ok s' /\
      side_inv buy (min_price_ b) (tick_size_ b) (num_ticks_ b) (<[ref:=o]> (orders_ b)) s') as Hthis.
  { intros buy s Hb Hs. by apply (side_add_ok buy (min_price_ b) (tick_size_ b) (num_ticks_ b) (proj1 Ht) s (orders_ b) ref o i). }
  assert (forall buy s, buy <> Book.is_buy side ->
    side_inv buy (min_price_ b) (tick_size_ b) (num_ticks_ b) (orders_ b) s ->
    side_inv buy (min_price_ b) (tick_size_ b) (num_ticks_ b) (<[ref:=o]> (orders_ b)) s) as Hother.
  { intros buy s Hb Hs. assert (forall p, Book.at_level buy p o = false) as Hat.
    { intros p. destruct (Book.at_level buy p o) eqn:E; [|done]. apply Book.at_level_spec in E as [E _]. simpl in E. congruence. }
    eapply lb_side_inv_same; [exact Hs| |]; intros p;
      rewrite ?Book.level_count_insert, ?Book.level_shares_insert, Hat by done; lia. }
  destruct (Book.is_buy side) eqn:Eb.
  - destruct (Hthis true (bid b)) as (s' & Hr & Hs'); [done..|]. cbn -[side_add]. rewrite Hr, bind_Ok.
    eexists; split; [reflexivity|]. split; [|done]. constructor; auto. by apply (geom_same b).
  - destruct (Hthis false (ask b)) as (s' & Hr & Hs'); [done..|]. cbn -[side_add]. rewrite Hr, bind_Ok.
    eexists; split; [reflexivity|]. split; [|done]. constructor; auto. by apply (geom_same b).
Qed.

Lemma add_refines ref side shares price b :
  lb_inv b -> Z.of_nat (size (orders_ b)) + 1 < Book.max_orders -> is_u32 shares -> is_u32 price ->
  Book.refines lb_inv orders_ (add ref side shares price b)
    (if admits b price then Book.spec_add ref side shares price (orders_ b) else (false, orders_ b)).
Proof.
  intros Hinv Hroom Hsh Hpr. unfold Book.refines, add.
  destruct (cover_ok b price Hinv Hpr) as (ok & b1 & -> & Hinv1 & Ho1 & Ht1 & Hok & _ & ->). rewrite bind_Ok.
  destruct ok; [|rewrite andb_false_r; subst b1; exists false, b; done].
  unfold is_u32 in Hpr. cbn [negb]. rewrite align_test, andb_true_r by (apply lb_geom || lia; done). rewrite Ht1.
  destruct (Z.eqb_spec (price mod tick_size_ b) 0) as [E|E]; cbn [negb];
    [|exists false, b1; by rewrite Ho1].
  unfold Book.spec_add. rewrite <- Ho1. destruct (orders_ b1 !! ref) as [o|] eqn:Eo; [by exists false, b1|].
  destruct (insert_ok ref side shares price b1) as (b' & Hr & Hinv' & Ho'); try done.
  - by rewrite Ho1.
  - by rewrite Ht1.
  - cbv zeta in Hr. rewrite Hr. exists true, b'. by rewrite Ho'.
Qed.

(** What [add] may do to the range. *)
Lemma add_range ref side shares price b ok b' : lb_inv b -> is_u32 price ->
  add ref side shares price b = Ok (ok, b') ->
  tick_size_ b' = tick_size_ b /\ max_price_ b' <= Z.max (max_price_ b) (2 * price).
Proof.
  intros Hinv Hpr Hadd. unfold add in Hadd.
  destruct (cover_ok b price Hinv Hpr) as (cov & b1 & Hrun & _ & _ & Ht & _ & Hmax & _).
  rewrite Hrun, bind_Ok in Hadd. repeat case_match; invert_ok; try done.
Qed.

Lemma replace_refines orig next shares price b :
  lb_inv b -> is_u32 shares -> is_u32 price ->
  Book.refines lb_inv orders_ (replace orig next shares price b)
    (Book.spec_replace (admits b price) orig next shares price (orders_ b)).
Proof.
  intros Hinv Hsh Hpr. unfold replace, Book.spec_replace.
  destruct (lb_remove_acts orig b Hinv) as (ok & b1 & Hr & Hinv1 & Heq & Hrg). unfold Book.spec_remove in Heq.
  destruct (orders_ b !! orig) as [o|] eqn:E; [|by exists false, b].
  injection Heq as -> Ho1. rewrite Hr, bind_Ok, <- (admits_same b b1), <- Ho1 by done.
  apply add_refines; try done.
  rewrite Ho1, map_size_delete, E. pose proof (lb_size b Hinv).
  assert (size (orders_ b) <> 0)%nat.
  { intros H0. apply map_size_empty_iff in H0. rewrite H0 in E. done. }
  unfold Book.max_orders in *. lia.
Qed.

(** ** Observers *)

Lemma best_spec buy b s : geom b -> on_grid (min_price_ b) (tick_size_ b) (num_ticks_ b) (orders_ b) ->
  side_inv buy (min_price_ b) (tick_size_ b) (num_ticks_ b) (orders_ b) s ->
  match best_idx s with
  | None => Ok None
  | Some i => l ← rd (levels s) i; Ok (Some (Book.mkQuote (price_at i b) (Book.lvl_shares l)))
  end = Ok (Book.spec_best buy (orders_ b)).
Proof.
  intros Hg Hgrid Hs. pose proof (si_best _ _ _ _ _ _ Hs) as Hb. pose proof Hg as [Ht _ _ _ _ _].
  destruct (best_idx s) as [i|]; simpl in Hb.
  - destruct Hb as [Hi Hb].
    destruct (prices_slot buy _ _ (num_ticks_ b) (orders_ b) _ Hgrid Hi) as (j & Hj & E).
    apply slot_inj in E as ->; [|lia].
    rewrite (slot_lookup buy _ _ _ _ (orders_ b) j Hs Hj), bind_Ok, price_at_slot by done.
    symmetry. do 2 f_equal. by apply Book.spec_best_Some.
  - symmetry. f_equal. by apply Book.spec_best_None.
Qed.

Lemma best_bid_ok b : lb_inv b -> best_bid b = Ok (Book.spec_best true (orders_ b)).
Proof. intros [Hg _ _ Hgrid Hb _]. by apply (best_spec true). Qed.

Lemma best_ask_ok b : lb_inv b -> best_ask b = Ok (Book.spec_best false (orders_ b)).
Proof. intros [Hg _ _ Hgrid _ Ha]. by apply (best_spec false). Qed.

(** ** Construction *)

Lemma empty_side buy min tick n : side_inv buy min tick n ∅ (empty_ladder n).
Proof.
  constructor; cbn.
  - apply length_replicate.
  - intros i Hi. by rewrite lookup_replicate_2.
  - by rewrite Book.prices_empty.
  - apply Book.prices_empty.
Qed.

Lemma construct_ok base tick pct :
  is_u32 base -> is_u32 tick -> Doubles.unit_fraction pct ->
  exists b, construct base tick pct = Ok b /\ lb_inv b /\ orders_ b = ∅ /\
    min_price_ b <= base <= max_price_ b /\ max_price_ b - min_price_ b <= 2 * base /\
    tick_size_ b = (if tick =? 0 then 1 else tick) /\ window_pct_ b = pct.
Proof.
  intros Hb Ht Hpct. unfold construct. set (t := if tick =? 0 then 1 else tick).
  assert (0 < t < 4294967296) as Ht' by (unfold t, is_u32 in *; destruct (Z.eqb_spec tick 0); lia).
  destruct (window_low_ok base pct Hb Hpct) as (lo & -> & Hlo).
  destruct (window_high_ok base pct Hb Hpct) as (hi & -> & Hhi & Hhi').
  unfold is_u32 in Hb. destruct (snap_ok lo t) as [Hs Hsm]; [unfold is_u32; lia|lia|].
  rewrite !bind_Ok. unfold make_range, check_range.
  rewrite (proj2 (Z.ltb_ge _ _)), bind_Ok by lia.
  eexists; split; [reflexivity|]. cbn. split_and!; try done; try lia.
  constructor; cbn; try apply empty_side.
  - constructor; cbn; done || lia.
  - apply map_Forall_empty.
  - by rewrite map_size_empty.
  - apply map_Forall_empty.
Qed.

Lemma kWindowPct_unit : Doubles.unit_fraction kWindowPct.
Proof. apply (bool_decide_unpack _). vm_compute. exact I. Qed.

Lemma make_ok hint : is_u32 hint ->
  exists b, make hint = Ok b /\ lb_inv b /\ orders_ b = ∅ /\ tick_size_ b = kTickSize /\
    max_price_ b - min_price_ b <= 2 * kMaxSanePrice /\ max_price_ b <= 3 * kMaxSanePrice /\
    (0 < hint <= kMaxSanePrice -> min_price_ b <= hint <= max_price_ b).
Proof.
  intros Hh. unfold make. set (base := if _ : bool then hint else kFallbackBase).
  assert (0 < base <= kMaxSanePrice /\ (0 < hint <= kMaxSanePrice -> base = hint)) as [Hb Hbh].
  { unfold base, kMaxSanePrice, kFallbackBase, is_u32 in *.
    destruct (Z.eqb_spec hint 0), (Z.leb_spec hint 100000000); cbn [negb andb]; lia. }
  destruct (construct_ok base kTickSize kWindowPct) as (b & -> & Hinv & Ho & Hc & Hr & Ht & _).
  - unfold is_u32, kMaxSanePrice in *. lia.
  - done.
  - apply kWindowPct_unit.
  - exists b. split_and!; try done; [lia|lia|]. intros H. by rewrite <- (Hbh H).
Qed.

(** ** The interface *)

Lemma lb_acts_refines b r spec : acts b r spec -> Book.refines lb_inv orders_ r spec.
Proof. intros (ok & b' & -> & Hinv & Heq & _). by exists ok, b'. Qed.

#[global, refine] Instance lb_laws : Book.BookLaws LadderBook := {
  inv := lb_inv;
  orders := orders_;
  admits := admits
}.
Proof.
  - intros hint Hh. destruct (make_ok hint Hh) as (b & ? & ? & ? & _). by exists b.
  - intros. by apply add_refines.
  - intros. by eapply lb_acts_refines, lb_reduce_acts.
  - intros. by eapply lb_acts_refines, lb_reduce_acts.
  - intros. by eapply lb_acts_refines, lb_remove_acts.
  - intros. by apply replace_refines.
  - intros b Hinv. split; [apply (lb_wf b Hinv) | apply (lb_size b Hinv)].
  - apply best_bid_ok.
  - apply best_ask_ok.
  - done.
  - intros b Hinv. apply (si_count _ _ _ _ _ _ (lb_bid b Hinv)).
  - intros b Hinv. apply (si_count _ _ _ _ _ _ (lb_ask b Hinv)).
Defined.

(** ** Realistic prices *)

(** A production ladder that reaches at most $80,000, and a cent-aligned price
    below $40,000. *)
Definition realistic (b : LadderBook) : Prop := tick_size_ b = kTickSize /\ max_price_ b < 800000000.
Definition realistic_price (price : Z) : Prop := 0 <= price < 400000000 /\ price mod 100 = 0.

Lemma realistic_admitted b price : lb_inv b -> realistic b -> realistic_price price -> admits b price = true.
Proof.
  intros Hinv [Ht Hmax] [Hp Hal].
  unfold admits. rewrite Ht. unfold kTickSize. rewrite Hal. cbn [Z.eqb andb].
  destruct (in_range price b) eqn:E; [done|]. cbn [orb].
  assert (is_u32 price) as Hu by (unfold is_u32; lia).
  destruct (grow_bounds_ok b price (lb_geom b Hinv) Hu) as (lo & hi & Hbd & Hlo & Hmod & Hhi & Hcov & Hmax2).
  rewrite Hbd. assert (hi < 800000000) as Hhi'.
  { revert Hbd. unfold grow_bounds. destruct (lb_geom b Hinv) as [_ _ _ _ Hpct _].
    destruct (window_low_ok price _ Hu Hpct) as (l & -> & _).
    destruct (window_high_ok price _ Hu Hpct) as (h & -> & Hh & _).
    destruct (price <? min_price_ b), (max_price_ b <? price); rewrite !bind_Ok; intros [= _ <-]; lia. }
  apply Z.leb_le. rewrite ticks_exact by lia. unfold kMaxTicks.
  pose proof (Z.div_le_mono (hi - lo) 799999999 100 ltac:(lia) ltac:(lia)) as Hd.
  change (799999999 / 100) with 7999999 in Hd. lia.
Qed.

(** ** Properties *)

(** C4: on a ladder that satisfies the invariant no mutator reads or writes
    outside the arrays or throws, each keeps the invariant (slots are the exact
    aggregates, level counts and best indices are right, every order sits on
    the grid), and each acts on the resting orders as the abstract book does,
    where an order whose price the ladder does not admit is refused without
    touching the resting orders. *)
Theorem ladder_mutators_refine (b : LadderBook) (ref orig next shares price : Z) (side : Wire.Side)
  (Hinv : lb_inv b) (Hsh : is_u32 shares) (Hpr : is_u32 price)
  (Hroom : Z.of_nat (size (orders_ b)) + 1 < Book.max_orders) :
  Book.refines lb_inv orders_ (add ref side shares price b)
    (if admits b price then Book.spec_add ref side shares price (orders_ b) else (false, orders_ b)) /\
  Book.refines lb_inv orders_ (execute ref shares b) (Book.spec_reduce ref shares (orders_ b)) /\
  Book.refines lb_inv orders_ (cancel ref shares b) (Book.spec_reduce ref shares (orders_ b)) /\
  Book.refines lb_inv orders_ (remove ref b) (Book.spec_remove ref (orders_ b)) /\
  Book.refines lb_inv orders_ (replace orig next shares price b)
    (Book.spec_replace (admits b price) orig next shares price (orders_ b)).
Proof.
  split_and!; [by apply add_refines | | | | by apply replace_refines].
  - by eapply lb_acts_refines, lb_reduce_acts.
  - by eapply lb_acts_refines, lb_reduce_acts.
  - by eapply lb_acts_refines, lb_remove_acts.
Qed.

(** The witnesses use the ladder over prices 7000 to 13000; this evaluates a
    function of it. *)
Lemma eval_sample {A} (f : LadderBook -> A) b v :
  make 10000 = Ok b -> (x ← make 10000; Ok (f x)) = Ok v -> f b = v.
Proof. intros ->. by intros [= ->]. Qed.

Lemma ladder_mutators_refine_witness : exists b, make 10000 = Ok b /\
  Book.refines lb_inv orders_ (add 1 Wire.Buy 100 20000 b) (true, {[1 := Book.mkOrder 100 20000 Wire.Buy]}).
Proof.
  destruct (make_ok 10000) as (b & Hb & Hinv & Ho & _); [u32c|].
  exists b. split; [exact Hb|].
  destruct (ladder_mutators_refine b 1 0 0 100 20000 Wire.Buy Hinv) as (H & _); [u32c|u32c| |].
  { rewrite Ho. reflexivity. }
  assert (admits b 20000 = true) as Ha by (apply (eval_sample (fun b => admits b 20000) b (true) Hb); vm_compute; reflexivity).
  rewrite Ha, Ho in H. exact H.
Defined.

(** Every query of a well-formed ladder is in bounds and exact. *)
Theorem ladder_observers_exact (b : LadderBook) (Hinv : lb_inv b) :
  best_bid b = Ok (Book.spec_best true (orders_ b)) /\
  best_ask b = Ok (Book.spec_best false (orders_ b)) /\
  bid_levels b = Z.of_nat (size (Book.prices true (orders_ b))) /\
  ask_levels b = Z.of_nat (size (Book.prices false (orders_ b))) /\
  open_orders b = size (orders_ b).
Proof.
  split_and!; [by apply best_bid_ok | by apply best_ask_ok | | | done].
  - apply (si_count _ _ _ _ _ _ (lb_bid b Hinv)).
  - apply (si_count _ _ _ _ _ _ (lb_ask b Hinv)).
Qed.

Lemma ladder_observers_exact_witness : exists b, make 10000 = Ok b /\ best_bid b = Ok None.
Proof.
  destruct (make_ok 10000) as (b & Hb & Hinv & Ho & _); [u32c|].
  exists b. split; [exact Hb|]. destruct (ladder_observers_exact b Hinv) as (H & _).
  rewrite H, Ho. reflexivity.
Defined.

(** The public constructor, for any 32-bit base price and tick size and any
    window fraction between 0 and 1, neither throws (its range check never
    fires: the window saturates instead of wrapping) nor converts an
    out-of-range float; it yields an empty well-formed ladder whose range
    contains the base price and spans at most twice the base price. *)
Theorem construct_total (base tick : Z) (pct : Doubles.double)
  (Hb : is_u32 base) (Ht : is_u32 tick) (Hp : Doubles.unit_fraction pct) :
  exists b, construct base tick pct = Ok b /\ lb_inv b /\ orders_ b = ∅ /\
    min_price_ b <= base <= max_price_ b /\ max_price_ b - min_price_ b <= 2 * base.
Proof.
  destruct (construct_ok base tick pct Hb Ht Hp) as (b & ? & ? & ? & ? & ? & _). by exists b.
Qed.

Lemma construct_total_witness : exists b, construct 4294967295 0 (Doubles.literal 1 5) = Ok b /\ lb_inv b.
Proof.
  destruct (construct_total 4294967295 0 (Doubles.literal 1 5)) as (b & H1 & H2 & _); [u32c|u32c| |exists b; split; [exact H1|exact H2]].
  apply (bool_decide_unpack _). vm_compute. exact I.
Defined.

(** The production ladder ([BookTraits::make]) allocates at most 2,000,001
    slots per side for any 32-bit price hint, within the ceiling [kMaxTicks]
    that growth respects, and covers the hint whenever it is a sane price. *)
Theorem production_ladder_bounded (hint : Z) (Hh : is_u32 hint) :
  exists b, make hint = Ok b /\ lb_inv b /\ Z.of_nat (num_ticks_ b) <= 2000001 < kMaxTicks /\
    (0 < hint <= kMaxSanePrice -> min_price_ b <= hint <= max_price_ b).
Proof.
  destruct (make_ok hint Hh) as (b & H1 & Hinv & _ & Ht & Hr & _ & Hc). exists b. split_and!; try done.
  destruct (lb_geom b Hinv) as [Ht' Hm HM _ _ Hn].
  rewrite Hn, ticks_exact by lia. rewrite Ht. unfold kTickSize, kMaxSanePrice in *.
  pose proof (Z.div_le_mono (max_price_ b - min_price_ b) 200000000 100 ltac:(lia) ltac:(lia)) as Hd.
  change (200000000 / 100) with 2000000 in Hd. lia.
Qed.

Lemma production_ladder_bounded_witness :
  exists b, make 123400 = Ok b /\ min_price_ b <= 123400 <= max_price_ b.
Proof.
  destruct (production_ladder_bounded 123400) as (b & H1 & _ & _ & H2); [u32c|].
  exists b. split; [exact H1|]. apply H2. split; [reflexivity|discriminate].
Defined.

(** Growth loses nothing: asked for an uncovered price, [grow_to_include]
    either refuses and leaves the ladder as it was, exactly when the wider range
    would need more than [kMaxTicks] slots, or returns a well-formed ladder that
    covers the price and the whole old range with the same resting orders, so
    that every level, best quote and count is what it was. *)
Theorem growth_lossless (b : LadderBook) (price : Z)
  (Hinv : lb_inv b) (Hp : is_u32 price) (Hout : in_range price b = false) :
  exists lo hi, grow_bounds price b = Ok (lo, hi) /\
    if kMaxTicks <? Z.of_nat (ticks (tick_size_ b) lo hi)
    then grow_to_include price b = Ok (false, b)
    else exists b', grow_to_include price b = Ok (true, b') /\ lb_inv b' /\
      orders_ b' = orders_ b /\ tick_size_ b' = tick_size_ b /\
      min_price_ b' <= min_price_ b /\ max_price_ b <= max_price_ b' /\
      min_price_ b' <= price <= max_price_ b' /\
      best_bid b' = best_bid b /\ best_ask b' = best_ask b /\
      bid_levels b' = bid_levels b /\ ask_levels b' = ask_levels b.
Proof.
  destruct (grow_bounds_ok b price (lb_geom b Hinv) Hp) as (lo & hi & Hbd & Hlo & Hmod & Hhi & Hcov & Hmax2).
  exists lo, hi. split; [done|]. unfold grow_to_include. rewrite Hbd, bind_Ok.
  assert ((lo =? min_price_ b) && (hi =? max_price_ b) = false) as ->.
  { apply andb_false_iff in Hout. rewrite andb_false_iff. rewrite !Z.eqb_neq. lia. }
  destruct (kMaxTicks <? _); [done|].
  destruct (resize_ok b lo hi Hinv Hlo Hmod Hhi) as (b' & -> & Hinv' & Ho & Htk & _ & Hmn & Hmx).
  exists b'. rewrite !best_bid_ok, !best_ask_ok, Ho by done. split_and!; try done; try lia.
  - unfold bid_levels. rewrite (si_count _ _ _ _ _ _ (lb_bid b Hinv)), (si_count _ _ _ _ _ _ (lb_bid b' Hinv')).
    by rewrite Ho.
  - unfold ask_levels. rewrite (si_count _ _ _ _ _ _ (lb_ask b Hinv)), (si_count _ _ _ _ _ _ (lb_ask b' Hinv')).
    by rewrite Ho.
Qed.

Lemma growth_lossless_witness : exists b b', make 10000 = Ok b /\ grow_to_include 20000 b = Ok (true, b').
Proof.
  destruct (make_ok 10000) as (b & Hb & Hinv & _); [u32c|].
  assert (in_range 20000 b = false) as Hout by (apply (eval_sample (fun b => in_range 20000 b) b (false) Hb); vm_compute; reflexivity).
  assert (grow_bounds 20000 b = Ok (7000, 26000)) as Hbd' by (apply (eval_sample (fun b => grow_bounds 20000 b) b (Ok (7000, 26000)) Hb); vm_compute; reflexivity).
  assert (tick_size_ b = 100) as Ht by (apply (eval_sample (fun b => tick_size_ b) b (100) Hb); vm_compute; reflexivity).
  destruct (growth_lossless b 20000 Hinv) as (lo & hi & Hbd & H); [u32c|exact Hout|].
  rewrite Hbd' in Hbd. injection Hbd as <- <-. rewrite Ht in H.
  destruct H as (b' & H & _). exists b, b'. split; [exact Hb|exact H].
Defined.

(** With the production tick size, a ladder that reaches at most $80,000 takes
    every cent-aligned price below $40,000, whatever its current window:
    growth never refuses a realistic price. *)
Theorem realistic_price_admitted (b : LadderBook) (price : Z)
  (Hinv : lb_inv b) (Ht : tick_size_ b = kTickSize) (Hmax : max_price_ b < 800000000)
  (Hp : 0 <= price < 400000000) (Hal : price mod 100 = 0) :
  admits b price = true.
Proof. by apply realistic_admitted. Qed.

Lemma realistic_price_admitted_witness : exists b, make 10000 = Ok b /\ admits b 399999900 = true.
Proof.
  destruct (make_ok 10000) as (b & Hb & Hinv & _ & Ht & _); [u32c|].
  exists b. split; [exact Hb|]. apply (realistic_price_admitted b); [exact Hinv|exact Ht| |lia|reflexivity].
  assert (max_price_ b = 13000) as -> by (apply (eval_sample (fun b => max_price_ b) b (13000) Hb); vm_compute; reflexivity). reflexivity.
Defined.

(** An [add] that [grow_to_include] lets pass but the tick check refuses
    returns false with the resting orders untouched, and yet leaves the ladder
    with the wider window: the rejection is not free of state changes. *)
Theorem misaligned_add_widens (b : LadderBook) (ref : Z) (side : Wire.Side) (shares price : Z)
  (Hinv : lb_inv b) (Hp : is_u32 price) (Hout : in_range price b = false)
  (Hmis : price mod tick_size_ b <> 0)
  (Hfit : forall lo hi, grow_bounds price b = Ok (lo, hi) ->
          Z.of_nat (ticks (tick_size_ b) lo hi) <= kMaxTicks) :
  exists b', add ref side shares price b = Ok (false, b') /\ orders_ b' = orders_ b /\
    in_range price b' = true /\ b' <> b.
Proof.
  destruct (cover_ok b price Hinv Hp) as (ok & b1 & Hrun & Hinv1 & Ho1 & Ht1 & Hok & _ & Had).
  assert (ok = true) as ->.
  { destruct ok; [done|]. rewrite Hout in Hrun.
    destruct (grow_bounds_ok b price (lb_geom b Hinv) Hp) as (lo & hi & Hbd & _ & _ & Hhi & Hcov & _).
    specialize (Hfit lo hi Hbd). unfold grow_to_include in Hrun. rewrite Hbd, bind_Ok in Hrun.
    destruct (_ && _); [done|]. rewrite (proj2 (Z.ltb_ge _ _)) in Hrun by lia. by invert_ok. }
  exists b1. unfold add. rewrite Hrun, bind_Ok. cbn [negb]. unfold is_u32 in Hp.
  rewrite align_test by (apply lb_geom || lia; done). rewrite Ht1, (proj2 (Z.eqb_neq _ _)) by done.
  assert (in_range price b1 = true) as Hin.
  { apply andb_true_iff. rewrite !Z.leb_le. lia. }
  split_and!; try done. intros ->. congruence.
Qed.

Lemma misaligned_add_widens_witness : exists b b', make 10000 = Ok b /\
  add 1 Wire.Buy 10 20001 b = Ok (false, b') /\ b' <> b.
Proof.
  destruct (make_ok 10000) as (b & Hb & Hinv & _); [u32c|].
  assert (in_range 20001 b = false) as Hout by (apply (eval_sample (fun b => in_range 20001 b) b (false) Hb); vm_compute; reflexivity).
  assert (grow_bounds 20001 b = Ok (7000, 26001)) as Hbd by (apply (eval_sample (fun b => grow_bounds 20001 b) b (Ok (7000, 26001)) Hb); vm_compute; reflexivity).
  assert (tick_size_ b = 100) as Ht by (apply (eval_sample (fun b => tick_size_ b) b (100) Hb); vm_compute; reflexivity).
  destruct (misaligned_add_widens b 1 Wire.Buy 10 20001 Hinv) as (b' & H1 & _ & _ & H2); [u32c|exact Hout| | |].
  - rewrite Ht. discriminate.
  - intros lo hi. rewrite Hbd, Ht. intros [= <- <-]. vm_compute. discriminate.
  - exists b, b'. split; [exact Hb|]. split; [exact H1|exact H2].
Defined.

End LadderBook.
