(* ===== verification/Builder.v ===== *)
(** * Builder: routing decoded messages to one book per locate

    Models include/pipeline/book_table.hpp (the dense, locate-indexed table)
    and [BookBuilder] of include/pipeline/dispatch_to_book.hpp, generically
    over the book type: the proofs use [Book.BookLaws] only.

    The reference is [spec_step]: a finite map from locate to resting orders,
    the number of messages per type and the number of rejected ones. *)

From Stdlib Require Import Sorting.Sorted.
From S2P Require Import Prelude Wire Encode Book OrderBook LadderBook.

Module Builder.

Section Defs.
Context {B : Type} `{Book.BookOps B}.

(** ** BookTable *)

(** The table is [slots_], a vector of optional books indexed by locate.
    [get_or_create] returns the book and the table that now holds it. *)
Definition get_or_create (locate price_hint : Z) (slots : list (option B)) : outcome (B * list (option B)) :=
  let idx := Z.to_nat locate in
  let slots := if (length slots <=? idx)%nat then slots ++ replicate (idx + 1 - length slots) None else slots in
  slot ← rd slots idx;
  match slot with
  | Some b => Ok (b, slots)
  | None =>
    b ← Book.make price_hint;
    slots ← wr slots idx (Some b);
    Ok (b, slots)
  end.

Definition find (locate : Z) (slots : list (option B)) : outcome (option B) :=
  let idx := Z.to_nat locate in
  if (length slots <=? idx)%nat then Ok None else rd slots idx.

(** The calls [for_each] makes, in order; the loop is at index [i]. *)
Fixpoint for_each_from (i : nat) (slots : list (option B)) : list (Z * B) :=
  match slots with
  | [] => []
  | Some b :: slots => (u16 (Z.of_nat i), b) :: for_each_from (S i) slots
  | None :: slots => for_each_from (S i) slots
  end.

Definition for_each (slots : list (option B)) : list (Z * B) := for_each_from 0 slots.

Definition book_count (slots : list (option B)) : nat :=
  foldl (fun n s => match s with Some _ => S n | None => n end) 0%nat slots.

(** ** BookBuilder *)

Record BookBuilder := mkBuilder {
  books : list (option B);
  counts : list Z;
  unknown_refs : Z }.

Definition init : BookBuilder := mkBuilder [] (replicate 256 0) 0.

Definition bump (t : Z) (h : BookBuilder) : outcome BookBuilder :=
  c ← rd (counts h) (Z.to_nat (u8 t));
  cs ← wr (counts h) (Z.to_nat (u8 t)) (u64 (c + 1));
  Ok (mkBuilder (books h) cs (unknown_refs h)).

(** [if (!books.get_or_create(locate, hint).op(...)) ++unknown_refs;]: the
    book lives in its slot, so what [op] leaves of it is written back. *)
Definition at_book (locate price_hint : Z) (op : B -> outcome (bool * B)) (h : BookBuilder) : outcome BookBuilder :=
  '(b, slots) ← get_or_create locate price_hint (books h);
  '(ok, b) ← op b;
  slots ← wr slots (Z.to_nat locate) (Some b);
  Ok (mkBuilder slots (counts h) (if ok : bool then unknown_refs h else u64 (unknown_refs h + 1))).

Definition on_add (m : Wire.AddOrder) (h : BookBuilder) : outcome BookBuilder :=
  h ← bump Wire.chA h;
  at_book (Wire.locate (Wire.add_hdr m)) (Wire.add_price m)
    (Book.add (Wire.add_ref m) (Wire.add_side m) (Wire.add_shares m) (Wire.add_price m)) h.

Definition on_execute (m : Wire.OrderExecuted) (h : BookBuilder) : outcome BookBuilder :=
  h ← bump Wire.chE h;
  at_book (Wire.locate (Wire.exec_hdr m)) 0 (Book.execute (Wire.exec_ref m) (Wire.exec_shares m)) h.

Definition on_execute_price (m : Wire.OrderExecutedPrice) (h : BookBuilder) : outcome BookBuilder :=
  h ← bump Wire.chC h;
  at_book (Wire.locate (Wire.execp_hdr m)) 0 (Book.execute (Wire.execp_ref m) (Wire.execp_shares m)) h.

Definition on_cancel (m : Wire.OrderCancel) (h : BookBuilder) : outcome BookBuilder :=
  h ← bump Wire.chX h;
  at_book (Wire.locate (Wire.cancel_hdr m)) 0 (Book.cancel (Wire.cancel_ref m) (Wire.cancel_canceled m)) h.

Definition on_delete (m : Wire.OrderDelete) (h : BookBuilder) : outcome BookBuilder :=
  h ← bump Wire.chD h;
  at_book (Wire.locate (Wire.delete_hdr m)) 0 (Book.remove (Wire.delete_ref m)) h.

Definition on_replace (m : Wire.OrderReplace) (h : BookBuilder) : outcome BookBuilder :=
  h ← bump Wire.chU h;
  at_book (Wire.locate (Wire.replace_hdr m)) (Wire.replace_price m)
    (Book.replace (Wire.replace_orig_ref m) (Wire.replace_new_ref m) (Wire.replace_shares m) (Wire.replace_price m)) h.

Definition on_other (type : Z) (len : nat) (h : BookBuilder) : outcome BookBuilder := bump type h.

(** A builder is a handler of [itch::dispatch]; once a callback has thrown or
    run into undefined behaviour the replay is over. *)
#[global] Instance builder_handler : Wire.Handler (outcome BookBuilder) := {
  on_add m h := h ← h; on_add m h;
  on_execute m h := h ← h; on_execute m h;
  on_execute_price m h := h ← h; on_execute_price m h;
  on_cancel m h := h ← h; on_cancel m h;
  on_delete m h := h ← h; on_delete m h;
  on_replace m h := h ← h; on_replace m h;
  on_other t n h := h ← h; on_other t n h
}.

(** [on_event h e]: the callback [e] stands for. *)
Definition on_event (e : Wire.event) (h : BookBuilder) : outcome BookBuilder :=
  Wire.apply_event (Ok h) e.

End Defs.
Arguments BookBuilder B : clear implicits.

(** ** The reference *)

Record spec := mkSpec {
  sp_books : gmap nat (gmap Z Book.Order);
  sp_counts : Z -> Z;
  sp_rejected : Z }.

Definition spec_init : spec := mkSpec ∅ (fun _ => 0) 0.

(** The type byte a message is counted under ('F' counts as 'A'). *)
Definition event_type (e : Wire.event) : Z :=
  match e with
  | Wire.EAdd _ => Wire.chA
  | Wire.EExec _ => Wire.chE
  | Wire.EExecPrice _ => Wire.chC
  | Wire.ECancel _ => Wire.chX
  | Wire.EDelete _ => Wire.chD
  | Wire.EReplace _ => Wire.chU
  | Wire.EOther t _ => u8 t
  end.

(** The locate a message is for, and what it does to that locate's resting
    orders; [admitted] says whether the book can represent its price. *)
Definition event_op (admitted : bool) (e : Wire.event)
  : option (Z * (gmap Z Book.Order -> bool * gmap Z Book.Order)) :=
  match e with
  | Wire.EAdd m => Some (Wire.locate (Wire.add_hdr m), fun os =>
      if admitted then Book.spec_add (Wire.add_ref m) (Wire.add_side m) (Wire.add_shares m) (Wire.add_price m) os
      else (false, os))
  | Wire.EExec m => Some (Wire.locate (Wire.exec_hdr m), Book.spec_reduce (Wire.exec_ref m) (Wire.exec_shares m))
  | Wire.EExecPrice m => Some (Wire.locate (Wire.execp_hdr m), Book.spec_reduce (Wire.execp_ref m) (Wire.execp_shares m))
  | Wire.ECancel m => Some (Wire.locate (Wire.cancel_hdr m), Book.spec_reduce (Wire.cancel_ref m) (Wire.cancel_canceled m))
  | Wire.EDelete m => Some (Wire.locate (Wire.delete_hdr m), Book.spec_remove (Wire.delete_ref m))
  | Wire.EReplace m => Some (Wire.locate (Wire.replace_hdr m),
      Book.spec_replace admitted (Wire.replace_orig_ref m) (Wire.replace_new_ref m) (Wire.replace_shares m) (Wire.replace_price m))
  | Wire.EOther _ _ => None
  end.

Definition spec_step (admitted : bool) (e : Wire.event) (s : spec) : spec :=
  let counts := fun t => if t =? event_type e then sp_counts s t + 1 else sp_counts s t in
  match event_op admitted e with
  | None => mkSpec (sp_books s) counts (sp_rejected s)
  | Some (locate, op) =>
    let '(ok, os) := op (default ∅ (sp_books s !! Z.to_nat locate)) in
    mkSpec (<[Z.to_nat locate := os]> (sp_books s)) counts (sp_rejected s + (if ok : bool then 0 else 1))
  end.

(** A replay in which every price is representable. *)
Definition spec_run (es : list Wire.event) (s : spec) : spec :=
  foldl (fun s e => spec_step true e s) s es.

(** Field widths of a decoded message. *)
Definition ranged (e : Wire.event) : Prop :=
  match e with
  | Wire.EAdd m => is_u16 (Wire.locate (Wire.add_hdr m)) /\ is_u32 (Wire.add_shares m) /\ is_u32 (Wire.add_price m)
  | Wire.EExec m => is_u16 (Wire.locate (Wire.exec_hdr m)) /\ is_u32 (Wire.exec_shares m)
  | Wire.EExecPrice m => is_u16 (Wire.locate (Wire.execp_hdr m)) /\ is_u32 (Wire.execp_shares m)
  | Wire.ECancel m => is_u16 (Wire.locate (Wire.cancel_hdr m)) /\ is_u32 (Wire.cancel_canceled m)
  | Wire.EDelete m => is_u16 (Wire.locate (Wire.delete_hdr m))
  | Wire.EReplace m =>
      is_u16 (Wire.locate (Wire.replace_hdr m)) /\ is_u32 (Wire.replace_shares m) /\ is_u32 (Wire.replace_price m)
  | Wire.EOther _ _ => True
  end.

(** The new price a message brings, if any. *)
Definition event_price (e : Wire.event) : option Z :=
  match e with
  | Wire.EAdd m => Some (Wire.add_price m)
  | Wire.EReplace m => Some (Wire.replace_price m)
  | _ => None
  end.

Lemma field_range f off n : Wire.bytes f -> 0 <= Wire.field f off n < 256 ^ Z.of_nat n.
Proof.
  intros Hf. unfold Wire.field.
  pose proof (Wire.be_val_range (take n (drop off f)) (Wire.bytes_take _ _ (Wire.bytes_drop _ _ Hf))) as Hr.
  assert (256 ^ Z.of_nat (length (take n (drop off f))) <= 256 ^ Z.of_nat n); [|lia].
  apply Z.pow_le_mono_r; [lia|]. rewrite length_take. lia.
Qed.

(** Every message decoded from bytes has fields of the wire's widths. *)
Lemma frame_event_ranged f : Wire.bytes f -> ranged (Wire.frame_event f).
Proof.
  intros Hf. unfold Wire.frame_event.
  pose proof (field_range f 1 2 Hf) as H1.
  assert (forall off, is_u32 (Wire.field f off 4)) as H4 by (intros off; apply (field_range f off 4 Hf)).
  repeat (case_match; [simpl; auto; fail|]); simpl; auto.
Qed.

Lemma events_ranged bs : Wire.bytes bs -> Forall ranged (Wire.events bs).
Proof.
  unfold Wire.events. intros Hb. apply Forall_fmap.
  induction bs as [bs Hn | bs f tl Hn IH] using Wire.frames_ind.
  - destruct (Wire.frames_stop bs Hn) as [-> _]. apply Forall_nil_2.
  - destruct (Wire.frames_next _ _ _ Hn) as [-> _].
    destruct (Wire.next_frame_bytes _ _ _ Hb Hn) as [Hf Htl].
    apply Forall_cons_2; [by apply frame_event_ranged | by apply IH].
Qed.

(** Every field at its full width: a stock symbol is nine bytes, the last one
    NUL, and what is not decoded is not a message of its type's length. *)
Definition typed_header (h : Wire.Header) : Prop := is_u16 (Wire.locate h) /\ is_u48 (Wire.timestamp h).

Definition typed_stock (s : list Z) : Prop := Wire.bytes s /\ length s = 9%nat /\ s !! 8%nat = Some 0.

Definition typed_event (e : Wire.event) : Prop :=
  match e with
  | Wire.EAdd m =>
      typed_header (Wire.add_hdr m) /\ is_u64 (Wire.add_ref m) /\ is_u8 (Wire.add_side m) /\
      is_u32 (Wire.add_shares m) /\ typed_stock (Wire.add_stock m) /\ is_u32 (Wire.add_price m)
  | Wire.EExec m =>
      typed_header (Wire.exec_hdr m) /\ is_u64 (Wire.exec_ref m) /\ is_u32 (Wire.exec_shares m) /\ is_u64 (Wire.exec_match m)
  | Wire.EExecPrice m =>
      typed_header (Wire.execp_hdr m) /\ is_u64 (Wire.execp_ref m) /\ is_u32 (Wire.execp_shares m) /\
      is_u64 (Wire.execp_match m) /\ is_u32 (Wire.execp_price m)
  | Wire.ECancel m => typed_header (Wire.cancel_hdr m) /\ is_u64 (Wire.cancel_ref m) /\ is_u32 (Wire.cancel_canceled m)
  | Wire.EDelete m => typed_header (Wire.delete_hdr m) /\ is_u64 (Wire.delete_ref m)
  | Wire.EReplace m =>
      typed_header (Wire.replace_hdr m) /\ is_u64 (Wire.replace_orig_ref m) /\ is_u64 (Wire.replace_new_ref m) /\
      is_u32 (Wire.replace_shares m) /\ is_u32 (Wire.replace_price m)
  | Wire.EOther t n => is_u8 t /\ 0 < Z.of_nat n < 65536 /\ Wire.wire_size t <> Z.of_nat n
  end.

(** Trimming writes NUL bytes below [n] only. *)
Lemma trim_spaces_typed n s : (n <= 8)%nat -> typed_stock s -> typed_stock (Wire.trim_spaces n s).
Proof.
  revert s. induction n as [|n IH]; intros s Hn (Hb & Hl & H8); cbn [Wire.trim_spaces]; [done|].
  case_decide; [|done]. apply IH; [lia|]. split_and!.
  - apply Forall_insert; [done|]. unfold is_u8. lia.
  - by rewrite length_insert.
  - by rewrite list_lookup_insert_ne by lia.
Qed.

Lemma stock_at_typed f off : Wire.bytes f -> (off + 8 <= length f)%nat -> typed_stock (Wire.stock_at f off).
Proof.
  intros Hb Hl. apply trim_spaces_typed; [done|].
  assert (length (take 8 (drop off f)) = 8%nat) as H8 by (rewrite length_take, length_drop; lia). split_and!.
  - apply Forall_app. split; [by apply Wire.bytes_take, Wire.bytes_drop|]. apply Forall_singleton. unfold is_u8. lia.
  - rewrite length_app, H8. done.
  - rewrite lookup_app_r, H8 by lia. done.
Qed.

Lemma byte_at_typed f off : Wire.bytes f -> is_u8 (Wire.byte_at f off).
Proof.
  intros Hb. unfold Wire.byte_at. destruct (f !! off) as [b|] eqn:E; cbn; [by eapply Wire.bytes_lookup|]. unfold is_u8. lia.
Qed.

Lemma frame_event_typed f : Wire.wf_frame f -> typed_event (Wire.frame_event f).
Proof.
  intros [Hb Hl].
  assert (forall off, is_u64 (Wire.field f off 8)) as H8 by (intros off; apply (field_range f off 8 Hb)).
  assert (forall off, is_u32 (Wire.field f off 4)) as H4 by (intros off; apply (field_range f off 4 Hb)).
  assert (typed_header (Wire.frame_header f)) as Hh by (split; [apply (field_range f 1 2 Hb)|apply (field_range f 5 6 Hb)]).
  pose proof (byte_at_typed f 19 Hb) as Hside. unfold Wire.frame_event.
  destruct (Z.eqb_spec (Wire.wire_size (Wire.byte_at f 0)) (Z.of_nat (length f))) as [Hsize|Hsize]; cbn [negb].
  2: { split_and!; [by apply byte_at_typed|lia|lia|done]. }
  destruct (_ || _) eqn:Et.
  { assert (Wire.wire_size Wire.chA = 36 /\ Wire.wire_size Wire.chF = 40) as [HA HF] by done.
    assert (36 <= length f)%nat as H36 by (apply orb_true_iff in Et as [E%Z.eqb_eq|E%Z.eqb_eq]; rewrite E in Hsize; lia).
    assert (typed_stock (Wire.stock_at f 24)) by (apply stock_at_typed; [done|lia]). cbn. by split_and!. }
  repeat (case_match; [cbn; by split_and!|]). cbn. by split_and!.
Qed.

(** ** Growth of the order sets *)

(** Every locate holds at most [k] orders. *)
Definition at_most (k : nat) (s : spec) : Prop :=
  forall i os, sp_books s !! i = Some os -> (size os <= k)%nat.

Lemma spec_add_size ref side sh p os : (size (Book.spec_add ref side sh p os).2 <= S (size os))%nat.
Proof.
  unfold Book.spec_add. destruct (os !! ref) eqn:E; simpl; [lia|]. rewrite map_size_insert_None by done. lia.
Qed.

Lemma event_op_size adm e loc op os : event_op adm e = Some (loc, op) -> (size (op os).2 <= S (size os))%nat.
Proof.
  destruct e; simpl; intros [= <- <-].
  - destruct adm; [apply spec_add_size | simpl; lia].
  - unfold Book.spec_reduce. destruct (os !! _) eqn:E; simpl; [|lia]. case_match; [pose proof (Book.size_delete_le (Wire.exec_ref m) os); lia|].
    rewrite (Book.size_update _ o); [lia|done].
  - unfold Book.spec_reduce. destruct (os !! _) eqn:E; simpl; [|lia]. case_match; [pose proof (Book.size_delete_le (Wire.execp_ref m) os); lia|].
    rewrite (Book.size_update _ o); [lia|done].
  - unfold Book.spec_reduce. destruct (os !! _) eqn:E; simpl; [|lia]. case_match; [pose proof (Book.size_delete_le (Wire.cancel_ref m) os); lia|].
    rewrite (Book.size_update _ o); [lia|done].
  - unfold Book.spec_remove. destruct (os !! _); simpl; [|lia]. pose proof (Book.size_delete_le (Wire.delete_ref m) os). lia.
  - unfold Book.spec_replace. destruct (os !! _); simpl; [|lia].
    pose proof (Book.size_delete_le (Wire.replace_orig_ref m) os).
    destruct adm; [etrans; [apply spec_add_size|]|]; simpl; lia.
Qed.

Lemma at_most_step k adm e s : at_most k s -> at_most (S k) (spec_step adm e s).
Proof.
  intros Hk i os. unfold spec_step. destruct (event_op adm e) as [[loc op]|] eqn:E; simpl.
  - pose proof (event_op_size adm e loc op (default ∅ (sp_books s !! Z.to_nat loc)) E) as Hsz.
    destruct (op _) as [ok os'] eqn:Eop. simpl in *.
    intros [[<- <-]|[_ Hi]]%lookup_insert_Some; [|specialize (Hk _ _ Hi); lia].
    destruct (sp_books s !! Z.to_nat loc) as [os0|] eqn:E0; simpl in Hsz.
    + specialize (Hk _ _ E0). lia.
    + rewrite map_size_empty in Hsz. lia.
  - intros Hi. specialize (Hk _ _ Hi). lia.
Qed.

(** ** The builder implements the reference *)

Section Proofs.
Context {B : Type} `{L : Book.BookLaws B}.
Implicit Types (h : BookBuilder B) (s : spec) (slots : list (option B)).

Record sim h s : Prop := {
  sim_books : forall i, Book.orders <$> mjoin (books h !! i) = sp_books s !! i;
  sim_inv : forall i b, mjoin (books h !! i) = Some b -> Book.inv b;
  sim_length : length (counts h) = 256%nat;
  sim_counts : forall t, is_u8 t -> counts h !! Z.to_nat t = Some (u64 (sp_counts s t));
  sim_rejected : unknown_refs h = u64 (sp_rejected s) }.

Lemma init_sim : sim init spec_init.
Proof.
  constructor; [done|done|apply length_replicate| |done].
  intros t Ht. unfold init. cbn [counts]. rewrite lookup_replicate_2; [done|]. unfold is_u8 in Ht. lia.
Qed.

(** Growing the table adds empty slots only. *)
Lemma grow_slots idx slots :
  let slots1 := if (length slots <=? idx)%nat then slots ++ replicate (idx + 1 - length slots) None else slots in
  (idx < length slots1)%nat /\ forall i, mjoin (slots1 !! i) = mjoin (slots !! i).
Proof.
  destruct (Nat.leb_spec (length slots) idx) as [Hle|Hlt]; [|by split].
  split; [rewrite length_app, length_replicate; lia|].
  intros i. destruct (decide (i < length slots)%nat); [by rewrite lookup_app_l|].
  rewrite (lookup_ge_None_2 slots i), lookup_app_r by lia.
  destruct (replicate _ None !! _) eqn:E; [|done]. by apply lookup_replicate in E as [-> _].
Qed.

(** [get_or_create] finds the locate's book or makes one, and touches no
    other slot. *)
Lemma get_or_create_ok locate hint slots : is_u32 hint ->
  exists b slots', get_or_create locate hint slots = Ok (b, slots') /\
    match mjoin (slots !! Z.to_nat locate) with
    | Some b0 => b = b0
    | None => Book.make hint = Ok b /\ Book.inv b /\ Book.orders b = ∅
    end /\
    (Z.to_nat locate < length slots')%nat /\
    (forall i, mjoin (slots' !! i) = if decide (i = Z.to_nat locate) then Some b else mjoin (slots !! i)).
Proof.
  intros Hh. unfold get_or_create. set (idx := Z.to_nat locate).
  set (slots1 := if (length slots <=? idx)%nat then slots ++ replicate (idx + 1 - length slots) None else slots).
  destruct (grow_slots idx slots) as [Hlen Hsame]. fold slots1 in Hlen, Hsame.
  destruct (rd_ok slots1 idx Hlen) as (slot & -> & Hslot). rewrite bind_Ok.
  rewrite <- Hsame, Hslot. destruct slot as [b|]; simpl.
  - exists b, slots1. split_and!; try done. intros i. case_decide as E; [subst i; by rewrite Hslot|]. apply Hsame.
  - destruct (Book.make_law hint Hh) as (b & Hm & Hinv & Ho). rewrite Hm, bind_Ok.
    unfold wr. rewrite decide_True by done. rewrite bind_Ok.
    exists b, (<[idx := Some b]> slots1). split_and!; try done; [by rewrite length_insert|].
    intros i. case_decide as E.
    + subst i. by rewrite list_lookup_insert_eq.
    + by rewrite list_lookup_insert_ne.
Qed.

(** The book an operation on [locate] runs against. *)
Lemma current_book locate hint h s : sim h s -> is_u32 hint ->
  exists b slots', get_or_create locate hint (books h) = Ok (b, slots') /\ Book.inv b /\
    Book.orders b = default ∅ (sp_books s !! Z.to_nat locate) /\
    (Z.to_nat locate < length slots')%nat /\
    (forall i, mjoin (slots' !! i) = if decide (i = Z.to_nat locate) then Some b else mjoin (books h !! i)).
Proof.
  intros Hs Hh. destruct (get_or_create_ok locate hint (books h) Hh) as (b & slots' & Hg & Hb & Hlen & Hsame).
  exists b, slots'. rewrite <- (sim_books h s Hs).
  destruct (mjoin (books h !! Z.to_nat locate)) as [b0|] eqn:E.
  - subst b0. split_and!; try done. by apply (sim_inv h s Hs _ _ E).
  - destruct Hb as (_ & Hinv & Ho). by split_and!.
Qed.

Lemma at_book_ok locate hint op r h bk cn rj b slots' :
  sim h (mkSpec bk cn rj) -> get_or_create locate hint (books h) = Ok (b, slots') ->
  (Z.to_nat locate < length slots')%nat ->
  (forall i, mjoin (slots' !! i) = if decide (i = Z.to_nat locate) then Some b else mjoin (books h !! i)) ->
  Book.refines Book.inv Book.orders (op b) r ->
  exists h', at_book locate hint op h = Ok h' /\
    sim h' (let '(ok, os) := r in
            mkSpec (<[Z.to_nat locate := os]> bk) cn (rj + (if ok : bool then 0 else 1))).
Proof.
  intros Hs Hg Hlen Hsame (ok & b' & Hop & Hinv & Heq). unfold at_book. rewrite Hg, bind_Ok, Hop, bind_Ok.
  unfold wr. rewrite decide_True, bind_Ok by done. eexists; split; [reflexivity|].
  rewrite <- Heq. destruct Hs as [Hb Hi Hl Hc Hr]. cbn in *. constructor; cbn; try done.
  - intros i. destruct (decide (i = Z.to_nat locate)) as [->|Hne].
    + by rewrite list_lookup_insert_eq, lookup_insert_eq.
    + rewrite list_lookup_insert_ne, lookup_insert_ne, Hsame, decide_False by done. apply Hb.
  - intros i b1. destruct (decide (i = Z.to_nat locate)) as [->|Hne].
    + rewrite list_lookup_insert_eq by done. by intros [= <-].
    + rewrite list_lookup_insert_ne, Hsame, decide_False by done. apply Hi.
  - rewrite Hr. destruct ok; [by rewrite Z.add_0_r|]. word_lia.
Qed.

Lemma bump_ok t h s : sim h s ->
  exists h', bump t h = Ok h' /\ books h' = books h /\
    sim h' (mkSpec (sp_books s) (fun t' => if t' =? u8 t then sp_counts s t' + 1 else sp_counts s t') (sp_rejected s)).
Proof.
  intros [Hb Hi Hl Hc Hr]. unfold bump. pose proof (u8_range t) as Ht.
  rewrite (rd_lookup _ _ _ (Hc (u8 t) Ht)), bind_Ok.
  unfold wr. rewrite decide_True, bind_Ok by (unfold is_u8 in Ht; lia).
  eexists; split; [reflexivity|]. split; [done|]. constructor; cbn; try done; [by rewrite length_insert|].
  intros t' Ht'. destruct (Z.eqb_spec t' (u8 t)) as [->|Hne].
  - rewrite list_lookup_insert_eq by (unfold is_u8 in Ht; lia). f_equal. word_lia.
  - rewrite list_lookup_insert_ne; [by apply Hc|]. unfold is_u8 in *. lia.
Qed.

(** Does the book this message is for admit its price? *)
Definition admitted h (e : Wire.event) : bool :=
  match event_price e, event_op true e with
  | Some price, Some (locate, _) =>
    match get_or_create locate price (books h) with
    | Ok (b, _) => Book.admits b price
    | _ => true
    end
  | _, _ => true
  end.

(** One message: never undefined, and as the reference says. *)
Lemma step_ok h s e k : sim h s -> ranged e -> at_most k s -> Z.of_nat (S k) < Book.max_orders ->
  exists h', on_event e h = Ok h' /\ sim h' (spec_step (admitted h e) e s).
Proof.
  intros Hs Hr Hk Hroom. unfold on_event, spec_step.
  destruct (bump_ok (event_type e) h s Hs) as (h1 & Hbump & Hbooks & Hs1).
  assert (u8 (event_type e) = event_type e) as Ht by (destruct e; try reflexivity; apply u8_id, u8_range).
  rewrite Ht in Hs1.
  assert (0 < Book.max_orders) by done.
  assert (forall b locate, Book.orders b = default ∅ (sp_books s !! Z.to_nat locate) ->
            Z.of_nat (size (Book.orders b)) + 1 < Book.max_orders) as Hsz.
  { intros b locate ->. destruct (sp_books s !! Z.to_nat locate) as [os|] eqn:E; simpl.
    - specialize (Hk _ _ E). lia.
    - rewrite map_size_empty. lia. }
  destruct e as [m|m|m|m|m|m|t n]; cbn [Wire.apply_event builder_handler Wire.on_add Wire.on_execute
    Wire.on_execute_price Wire.on_cancel Wire.on_delete Wire.on_replace Wire.on_other];
    rewrite bind_Ok; cbn [event_op event_type ranged admitted event_price] in *.
  all: try (unfold on_add, on_execute, on_execute_price, on_cancel, on_delete, on_replace; rewrite Hbump, bind_Ok).
  7: { unfold on_other. destruct (bump_ok t h s Hs) as (h2 & -> & _ & Hs2). by exists h2. }
  all: rewrite <- ?Hbooks.
  1,6: match goal with |- context [at_book ?l ?p _ _] =>
      destruct (current_book l p h1 _ Hs1) as (b & slots' & Hg & Hinv & Ho & Hlen & Hsame); [tauto|] end;
    rewrite Hg;
    eapply (at_book_ok _ _ _ _ h1 _ _ _ b slots' Hs1 Hg Hlen Hsame); cbn [sp_books] in *; rewrite <- Ho.
  all: try match goal with |- context [at_book ?l 0 _ _] =>
      destruct (current_book l 0 h1 _ Hs1) as (b & slots' & Hg & Hinv & Ho & Hlen & Hsame); [done|];
    eapply (at_book_ok _ _ _ _ h1 _ _ _ b slots' Hs1 Hg Hlen Hsame); cbn [sp_books] in *; rewrite <- Ho end.
  - apply Book.add_law; try tauto. by apply (Hsz b _ Ho).
  - apply Book.replace_law; tauto.
  - apply Book.execute_law; tauto.
  - apply Book.execute_law; tauto.
  - apply Book.cancel_law; tauto.
  - apply Book.remove_law; tauto.
Qed.

(** A whole replay from a builder that simulates the reference. *)
Lemma replay_total es h s k : sim h s -> Forall ranged es -> at_most k s ->
  Z.of_nat (k + length es) < Book.max_orders ->
  exists h' s', foldl Wire.apply_event (Ok h) es = Ok h' /\ sim h' s' /\
    (forall t, sp_counts s' t = sp_counts s t + Z.of_nat (length (filter (fun e => event_type e = t) es))) /\
    sp_rejected s <= sp_rejected s' <= sp_rejected s + Z.of_nat (length es).
Proof.
  revert h s k. induction es as [|e es IH]; intros h s k Hs Hr Hk Hroom; simpl.
  { exists h, s. split_and!; try done; [|lia..]. intros t. lia. }
  apply Forall_cons_1 in Hr as [He Hr]. simpl in Hroom.
  destruct (step_ok h s e k Hs He Hk ltac:(lia)) as (h1 & Hrun & Hs1). unfold on_event in Hrun.
  destruct (IH h1 _ (S k) Hs1 Hr (at_most_step _ _ _ _ Hk) ltac:(lia)) as (h' & s' & Hf & Hs' & Hc & Hrej).
  exists h', s'. rewrite Hrun. split_and!; try done.
  - intros t. rewrite Hc, filter_cons.
    assert (sp_counts (spec_step (admitted h e) e s) t = sp_counts s t + (if decide (event_type e = t) then 1 else 0)) as ->.
    { unfold spec_step. destruct (event_op _ e) as [[loc op]|]; [destruct (op _)|]; simpl;
        destruct (Z.eqb_spec t (event_type e)); case_decide; congruence || lia. }
    case_decide; simpl; lia.
  - assert (sp_rejected s <= sp_rejected (spec_step (admitted h e) e s) <= sp_rejected s + 1); [|lia].
    unfold spec_step. destruct (event_op _ e) as [[loc op]|]; [destruct (op _) as [[] os]|]; simpl; lia.
  - assert (sp_rejected s <= sp_rejected (spec_step (admitted h e) e s) <= sp_rejected s + 1); [|lia].
    unfold spec_step. destruct (event_op _ e) as [[loc op]|]; [destruct (op _) as [[] os]|]; simpl; lia.
Qed.

End Proofs.

(** ** Replays in which every price is representable *)

(** A class of books closed under the operations, and a class of prices that
    books of the class admit. *)
Class Admitting (B : Type) `{L : Book.BookLaws B} := {
  good : B -> Prop;
  good_price : Z -> Prop;
  good_make hint b : is_u32 hint -> hint = 0 \/ good_price hint -> Book.make hint = Ok b -> good b;
  good_add ref side shares price b ok b' : Book.inv b -> good b -> is_u32 shares -> is_u32 price ->
    good_price price -> Book.add ref side shares price b = Ok (ok, b') -> good b';
  good_execute ref shares b ok b' : Book.inv b -> good b -> is_u32 shares ->
    Book.execute ref shares b = Ok (ok, b') -> good b';
  good_cancel ref shares b ok b' : Book.inv b -> good b -> is_u32 shares ->
    Book.cancel ref shares b = Ok (ok, b') -> good b';
  good_remove ref b ok b' : Book.inv b -> good b -> Book.remove ref b = Ok (ok, b') -> good b';
  good_replace orig next shares price b ok b' : Book.inv b -> good b -> is_u32 shares -> is_u32 price ->
    good_price price -> Book.replace orig next shares price b = Ok (ok, b') -> good b';
  good_admits b price : Book.inv b -> good b -> good_price price -> Book.admits b price = true
}.

Section Exact.
Context {B : Type} `{A : Admitting B}.
Implicit Types (h : BookBuilder B) (s : spec).

Definition good_slots h : Prop := forall i b, mjoin (books h !! i) = Some b -> good b.

Definition good_event (e : Wire.event) : Prop :=
  match event_price e with Some price => good_price price | None => True end.

Lemma current_good locate hint h s b slots' :
  sim h s -> good_slots h -> is_u32 hint -> hint = 0 \/ good_price hint ->
  get_or_create locate hint (books h) = Ok (b, slots') ->
  Book.inv b /\ good b /\ forall i b', mjoin (slots' !! i) = Some b' -> good b'.
Proof.
  intros Hs Hg Hh Hhint Hrun.
  destruct (get_or_create_ok locate hint (books h) Hh) as (b0 & slots0 & Hrun0 & Hb & _ & Hsame).
  rewrite Hrun in Hrun0. injection Hrun0 as <- <-.
  assert (Book.inv b /\ good b) as [Hinv Hgb].
  { destruct (mjoin (books h !! Z.to_nat locate)) as [b1|] eqn:E.
    - subst b1. split; [by apply (sim_inv h s Hs _ _ E)|by apply (Hg _ _ E)].
    - destruct Hb as (Hm & Hinv & _). split; [done|]. by apply (good_make hint). }
  split_and!; try done. intros i b'. rewrite Hsame. case_decide; [by intros [= <-]|apply Hg].
Qed.

Lemma at_book_good locate hint op h s h' :
  sim h s -> good_slots h -> is_u32 hint -> hint = 0 \/ good_price hint ->
  (forall b ok b', Book.inv b -> good b -> op b = Ok (ok, b') -> good b') ->
  at_book locate hint op h = Ok h' -> good_slots h'.
Proof.
  intros Hs Hg Hh Hhint Hop Hrun. unfold at_book in Hrun.
  destruct (get_or_create locate hint (books h)) as [[b slots']| | |] eqn:E; try discriminate.
  destruct (current_good _ _ _ _ _ _ Hs Hg Hh Hhint E) as (Hinv & Hgb & Hslots). cbn in Hrun.
  destruct (op b) as [[ok b']| | |] eqn:Eop; try discriminate. cbn in Hrun.
  unfold wr in Hrun. case_decide; [|discriminate]. cbn in Hrun. injection Hrun as <-.
  intros i b1. cbn. destruct (decide (i = Z.to_nat locate)) as [->|Hne].
  - rewrite list_lookup_insert_eq by done. intros [= <-]. eapply Hop; eauto.
  - rewrite list_lookup_insert_ne by done. apply Hslots.
Qed.

Lemma step_good h s e h' : sim h s -> good_slots h -> ranged e -> good_event e ->
  on_event e h = Ok h' -> good_slots h'.
Proof.
  intros Hs Hg Hr He. unfold on_event.
  destruct (bump_ok (event_type e) h s Hs) as (h1 & Hbump & Hbooks & Hs1).
  assert (good_slots h1) as Hg1 by (intros i b; rewrite Hbooks; apply Hg).
  unfold good_event in He.
  destruct e as [m|m|m|m|m|m|t n]; cbn [Wire.apply_event builder_handler Wire.on_add Wire.on_execute
    Wire.on_execute_price Wire.on_cancel Wire.on_delete Wire.on_replace Wire.on_other];
    rewrite bind_Ok; cbn [event_op event_type ranged event_price] in *;
    unfold on_add, on_execute, on_execute_price, on_cancel, on_delete, on_replace;
    rewrite ?Hbump, ?bind_Ok.
  7: { unfold on_other. destruct (bump_ok t h s Hs) as (h2 & -> & Hb2 & _). intros [= <-] i b.
       rewrite Hb2. apply Hg. }
  all: apply (at_book_good _ _ _ h1 _ h' Hs1 Hg1); try tauto; try (unfold is_u32; lia); intros b ok b' Hinv Hgb Hop.
  - by eapply good_add in Hop; [|tauto..].
  - by eapply good_execute in Hop; [|tauto..].
  - by eapply good_execute in Hop; [|tauto..].
  - by eapply good_cancel in Hop; [|tauto..].
  - by eapply good_remove in Hop; [|tauto..].
  - by eapply good_replace in Hop; [|tauto..].
Qed.

Lemma good_admitted h s e : sim h s -> good_slots h -> ranged e -> good_event e -> admitted h e = true.
Proof.
  intros Hs Hg Hr He. unfold admitted, good_event in *. destruct e as [m|m|m|m|m|m|t n]; try done; simpl in *.
  - destruct (get_or_create _ _ _) as [[b slots']| | |] eqn:E; try done.
    destruct (current_good _ _ _ _ _ _ Hs Hg (proj2 (proj2 Hr)) (or_intror He) E) as (Hinv & Hgb & _).
    by apply good_admits.
  - destruct (get_or_create _ _ _) as [[b slots']| | |] eqn:E; try done.
    destruct (current_good _ _ _ _ _ _ Hs Hg (proj2 (proj2 Hr)) (or_intror He) E) as (Hinv & Hgb & _).
    by apply good_admits.
Qed.

Lemma replay_exact_from es h s k : sim h s -> good_slots h -> Forall ranged es -> Forall good_event es ->
  at_most k s -> Z.of_nat (k + length es) < Book.max_orders ->
  exists h', foldl Wire.apply_event (Ok h) es = Ok h' /\ sim h' (spec_run es s) /\ good_slots h'.
Proof.
  revert h s k. induction es as [|e es IH]; intros h s k Hs Hg Hr He Hk Hroom; simpl.
  { by exists h. }
  apply Forall_cons_1 in Hr as [Hr1 Hr], He as [He1 He]. simpl in Hroom.
  destruct (step_ok h s e k Hs Hr1 Hk ltac:(lia)) as (h1 & Hrun & Hs1).
  rewrite (good_admitted h s e Hs Hg Hr1 He1) in Hs1.
  pose proof (step_good h s e h1 Hs Hg Hr1 He1 Hrun) as Hg1. unfold on_event in Hrun. rewrite Hrun.
  apply (IH h1 _ (S k)); try done; [by apply at_most_step | lia].
Qed.

(** Replaying a buffer. *)
Lemma parse_exact data : Wire.bytes data -> Forall good_event (Wire.events data) ->
  Z.of_nat (length (Wire.frames data)) < Book.max_orders ->
  exists h, Wire.parse_stream data (length data) (Ok init) = Ok (length (Wire.frames data), Ok h) /\
    sim h (spec_run (Wire.events data) spec_init) /\ good_slots h.
Proof.
  intros Hb Hg Hn. rewrite Wire.parse_stream_frames by done. rewrite firstn_all.
  destruct (replay_exact_from (Wire.events data) init spec_init 0 init_sim) as (h & Hrun & Hs & Hgs).
  - intros [|i] b Hi; discriminate Hi.
  - by apply events_ranged.
  - done.
  - intros i os. simpl. by rewrite lookup_empty.
  - unfold Wire.events. rewrite length_fmap. done.
  - exists h. rewrite Hrun. done.
Qed.

End Exact.

(** Every price is fine for the map-based book. *)
#[global, refine] Instance ob_admitting : Admitting OrderBook.OrderBook := {
  good _ := True;
  good_price _ := True
}.
Proof. all: done. Defined.

#[global, refine] Instance lb_admitting : Admitting LadderBook.LadderBook := {
  good := LadderBook.realistic;
  good_price := LadderBook.realistic_price
}.
Proof.
  - intros hint b Hh _ Hm. destruct (LadderBook.make_ok hint Hh) as (b' & Hm' & _ & _ & Ht & _ & Hmax & _).
    simpl in Hm. rewrite Hm in Hm'. injection Hm' as <-. split; [done|].
    unfold LadderBook.kMaxSanePrice in Hmax. lia.
  - intros ref side sh p b ok b' Hinv [Ht Hmax] _ Hp [Hp' _] Hadd.
    destruct (LadderBook.add_range _ _ _ _ _ _ _ Hinv Hp Hadd) as [Ht' Hmax']. split; [congruence|lia].
  - intros ref sh b ok b' Hinv [Ht Hmax] Hsh Hop.
    destruct (LadderBook.lb_reduce_acts ref sh b Hinv Hsh) as (? & ? & Hr & _ & _ & Ht' & _ & Hmax' & _).
    simpl in Hop. unfold LadderBook.execute in Hop. rewrite Hop in Hr. injection Hr as <- <-.
    split; [congruence|lia].
  - intros ref sh b ok b' Hinv [Ht Hmax] Hsh Hop.
    destruct (LadderBook.lb_reduce_acts ref sh b Hinv Hsh) as (? & ? & Hr & _ & _ & Ht' & _ & Hmax' & _).
    simpl in Hop. unfold LadderBook.cancel in Hop. rewrite Hop in Hr. injection Hr as <- <-.
    split; [congruence|lia].
  - intros ref b ok b' Hinv [Ht Hmax] Hop.
    destruct (LadderBook.lb_remove_acts ref b Hinv) as (? & ? & Hr & _ & _ & Ht' & _ & Hmax' & _).
    simpl in Hop. rewrite Hop in Hr. injection Hr as <- <-. split; [congruence|lia].
  - intros orig next sh p b ok b' Hinv [Ht Hmax] _ Hp [Hp' _] Hop. simpl in Hop. unfold LadderBook.replace in Hop.
    destruct (LadderBook.lb_remove_acts orig b Hinv) as (ok1 & b1 & Hr & Hinv1 & _ & Ht' & _ & Hmax' & _).
    destruct (LadderBook.orders_ b !! orig); [|injection Hop as <- <-; split; [done|lia]].
    rewrite Hr, bind_Ok in Hop.
    destruct (LadderBook.add_range _ _ _ _ _ _ _ Hinv1 Hp Hop) as [Ht2 Hmax2]. split; [congruence|lia].
  - intros b p. apply LadderBook.realistic_admitted.
Defined.

(** A message whose new price, if it brings one, is cent-aligned and below
    $40,000. *)
Definition realistic_event (e : Wire.event) : Prop :=
  match event_price e with Some price => LadderBook.realistic_price price | None => True end.

#[global] Instance realistic_event_dec e : Decision (realistic_event e).
Proof. unfold realistic_event, LadderBook.realistic_price. destruct (event_price e); apply _. Defined.

(** ** The table's length *)

Section Length.
Context {B : Type} `{Book.BookOps B}.

Lemma wr_length {A} (m m' : list A) i x : wr m i x = Ok m' -> length m' = length m.
Proof. unfold wr. case_decide; [|done]. intros [= <-]. apply length_insert. Qed.

Lemma get_or_create_length locate hint slots (b : B) slots' :
  get_or_create locate hint slots = Ok (b, slots') ->
  (length slots' <= Nat.max (length slots) (S (Z.to_nat locate)))%nat.
Proof.
  unfold get_or_create. set (idx := Z.to_nat locate).
  set (slots1 := if (length slots <=? idx)%nat then _ else _).
  assert (length slots1 <= Nat.max (length slots) (S idx))%nat as Hlen.
  { unfold slots1. destruct (Nat.leb_spec (length slots) idx); [|lia]. rewrite length_app, length_replicate. lia. }
  destruct (rd slots1 idx) as [[b0|]| | |]; try done; rewrite bind_Ok; [by intros [= <- <-]|].
  destruct (Book.make hint) as [b1| | |]; try done. rewrite bind_Ok.
  destruct (wr slots1 idx (Some b1)) as [s| | |] eqn:E; try done. intros [= <- <-].
  by rewrite (wr_length _ _ _ _ E).
Qed.

Lemma at_book_length locate hint op (h h' : BookBuilder B) : at_book locate hint op h = Ok h' ->
  (length (books h') <= Nat.max (length (books h)) (S (Z.to_nat locate)))%nat.
Proof.
  unfold at_book. destruct (get_or_create _ _ _) as [[b slots]| | |] eqn:Eg; try done. rewrite bind_Ok.
  destruct (op b) as [[ok b']| | |]; try done. rewrite bind_Ok.
  destruct (wr slots _ _) as [slots'| | |] eqn:Ew; try done. intros [= <-]. cbn [books].
  rewrite (wr_length _ _ _ _ Ew). by apply get_or_create_length in Eg.
Qed.

Lemma bump_books t (h h' : BookBuilder B) : bump t h = Ok h' -> books h' = books h.
Proof.
  unfold bump. destruct (rd _ _) as [c| | |]; try done. rewrite bind_Ok.
  destruct (wr _ _ _) as [cs| | |]; try done. by intros [= <-].
Qed.

(** Once a callback has failed the replay stays where it is. *)
Lemma stuck (o : outcome (BookBuilder B)) es : (forall h, o <> Ok h) -> foldl Wire.apply_event o es = o.
Proof.
  intros Ho. induction es as [|e es IH]; cbn [foldl]; [done|].
  assert (Wire.apply_event o e = o) as ->; [|done]. destruct o as [h| | |]; [by destruct (Ho h)|by destruct e..].
Qed.

(** Locates are 16-bit, so the table never has more than 65536 slots. *)
Lemma step_length e (h h' : BookBuilder B) : ranged e -> on_event e h = Ok h' ->
  Z.of_nat (length (books h)) <= 65536 -> Z.of_nat (length (books h')) <= 65536.
Proof.
  intros Hr Hrun Hlen. unfold on_event in Hrun.
  destruct e as [m|m|m|m|m|m|t n]; cbn [Wire.apply_event builder_handler Wire.on_add Wire.on_execute
    Wire.on_execute_price Wire.on_cancel Wire.on_delete Wire.on_replace Wire.on_other ranged] in *;
    rewrite bind_Ok in Hrun;
    unfold on_add, on_execute, on_execute_price, on_cancel, on_delete, on_replace, on_other in Hrun;
    try (destruct (bump _ h) as [h1| | |] eqn:Eb; try done; rewrite bind_Ok in Hrun; apply at_book_length in Hrun;
         rewrite (bump_books _ _ _ Eb) in Hrun; unfold is_u16 in Hr; lia).
  by rewrite (bump_books _ _ _ Hrun).
Qed.

End Length.

(** ** Reporting queries *)

Section Reporting.
Context {B : Type}.
Implicit Types slots : list (option B).

Lemma book_count_for_each k slots : book_count slots = length (for_each_from k slots).
Proof.
  unfold book_count. enough (forall n, foldl (fun n s => match s with Some _ => S n | None => n end) n slots =
    (n + length (for_each_from k slots))%nat) as H by apply H.
  revert k. induction slots as [|[b|] slots IH]; intros k n; cbn [foldl for_each_from length]; [lia| |].
  - rewrite (IH (S k)). lia.
  - apply IH.
Qed.

Lemma elem_of_for_each k slots l b : Z.of_nat (k + length slots) <= 65536 ->
  (l, b) ∈ for_each_from k slots <-> exists i, slots !! i = Some (Some b) /\ l = Z.of_nat (k + i).
Proof.
  revert k. induction slots as [|[b0|] slots IH]; intros k Hk; cbn [for_each_from length] in *.
  - split; [by intros ?%not_elem_of_nil|]. intros (i & Hi & _). by destruct i.
  - rewrite elem_of_cons, (IH (S k)) by lia. split.
    + intros [[= -> ->]|(i & Hi & ->)]; [exists 0%nat; split; [done|]; word_lia|].
      exists (S i). split; [done|lia].
    + intros ([|i] & Hi & ->); simpl in Hi; [left; injection Hi as ->; f_equal; word_lia|].
      right. exists i. split; [done|lia].
  - rewrite (IH (S k)) by lia. split.
    + intros (i & Hi & ->). exists (S i). split; [done|lia].
    + intros ([|i] & Hi & ->); simpl in Hi; [done|]. exists i. split; [done|lia].
Qed.

Lemma for_each_sorted k slots : Z.of_nat (k + length slots) <= 65536 ->
  Sorted.StronglySorted Z.lt (for_each_from k slots).*1.
Proof.
  revert k. induction slots as [|[b|] slots IH]; intros k Hk; cbn [for_each_from length fmap list_fmap fst] in *.
  - constructor.
  - constructor; [apply IH; lia|]. apply List.Forall_forall. intros x Hx.
    apply list_elem_of_In, list_elem_of_fmap in Hx as ([l b'] & -> & Hl).
    apply elem_of_for_each in Hl as (i & _ & ->); [|lia]. simpl. word_lia.
  - apply IH. lia.
Qed.

(** [find] never reads past the table and never creates a book. *)
Lemma find_lookup locate slots : find locate slots = Ok (mjoin (slots !! Z.to_nat locate)).
Proof.
  unfold find. destruct (Nat.leb_spec (length slots) (Z.to_nat locate)).
  - by rewrite lookup_ge_None_2.
  - destruct (rd_ok slots (Z.to_nat locate) ltac:(lia)) as (x & -> & ->). done.
Qed.

End Reporting.

(** Two builders that follow the same reference count alike. *)
Lemma sim_counts_eq {A B} `{Book.BookLaws A} `{Book.BookLaws B} (h1 : BookBuilder A) (h2 : BookBuilder B) s :
  sim h1 s -> sim h2 s -> counts h1 = counts h2 /\ unknown_refs h1 = unknown_refs h2.
Proof.
  intros Hs1 Hs2. split; [|by rewrite (sim_rejected h1 s Hs1), (sim_rejected h2 s Hs2)].
  apply list_eq. intros i. destruct (decide (i < 256)%nat) as [Hi|Hi].
  - assert (is_u8 (Z.of_nat i)) as Hu by (unfold is_u8; lia).
    rewrite <- (Nat2Z.id i). by rewrite (sim_counts h1 s Hs1 _ Hu), (sim_counts h2 s Hs2 _ Hu).
  - rewrite !lookup_ge_None_2; [done|rewrite (sim_length h2 s Hs2); lia|rewrite (sim_length h1 s Hs1); lia].
Qed.

(** A stream with every message type: two adds, an execution, a replacement,
    a cancel of an unknown reference, a delete and an undecoded message. *)
Definition sample_data : list Z :=
  Encode.stream
    [Encode.add_order 3 100 1 Wire.Buy 300 [65; 66] 1500000;
     Encode.add_order 3 101 2 Wire.Sell 200 [65; 66] 1500100;
     Encode.executed 3 102 1 100 9;
     Encode.replace 3 103 2 5 50 1600000;
     Encode.cancel 3 104 77 10;
     Encode.del 1 105 1;
     83 :: replicate 11 0].

Lemma sample_data_bytes : Wire.bytes sample_data.
Proof. apply (bool_decide_unpack _). vm_compute. exact I. Qed.

(** ** Properties *)

(** C33: the decoder is type-safe: whatever bytes arrive, every message
    [parse_stream] hands to a handler has each field within its C++ type (48-bit
    timestamps included), a stock symbol that is a NUL-terminated string of nine
    bytes, and a frame reported as undecoded carries its true type byte and
    length, which is not the length of that type. *)
Theorem decoded_messages_typed (data : list Z) (n : nat) (es : list Wire.event) (Hb : Wire.bytes data)
  (Hrun : Wire.parse_stream data (length data) ([] : list Wire.event) = Ok (n, es)) :
  Forall typed_event es /\ length es = n.
Proof.
  rewrite Wire.parse_stream_frames, firstn_all, Wire.log_events in Hrun by done. injection Hrun as <- <-. cbn. split.
  - unfold Wire.events. apply Forall_fmap. eapply Forall_impl; [by apply Wire.frames_wf|]. apply frame_event_typed.
  - unfold Wire.events. by rewrite length_fmap.
Qed.

Lemma decoded_messages_typed_witness : Forall typed_event (Wire.events sample_data) /\ length (Wire.events sample_data) = 7%nat.
Proof.
  apply (decoded_messages_typed sample_data 7 (Wire.events sample_data) sample_data_bytes). vm_compute. reflexivity.
Defined.

(** C1: whatever bytes the input holds, a replay through [parse_stream] into a
    builder, with either book, returns: no message reaches undefined behaviour
    or an exception, every book ends well-formed, each type counter holds the
    number of frames of that type ('A' counts both add types, and a frame whose
    length does not match its type counts under its type byte), and
    [unknown_refs] is at most the number of frames. *)
Theorem replay_never_fails {B} `{L : Book.BookLaws B} (data : list Z)
  (Hbytes : Wire.bytes data) (Hn : Z.of_nat (length (Wire.frames data)) < Book.max_orders) :
  exists h, Wire.parse_stream data (length data) (Ok (init (B := B))) =
      Ok (length (Wire.frames data), Ok h) /\
    (forall i b, mjoin (books h !! i) = Some b -> Book.inv b) /\
    (forall t, is_u8 t -> counts h !! Z.to_nat t =
       Some (Z.of_nat (length (filter (fun e => event_type e = t) (Wire.events data))))) /\
    0 <= unknown_refs h <= Z.of_nat (length (Wire.frames data)).
Proof.
  rewrite Wire.parse_stream_frames by done. rewrite firstn_all.
  assert (length (Wire.events data) = length (Wire.frames data)) as Hlen
    by (unfold Wire.events; by rewrite length_fmap).
  destruct (replay_total (Wire.events data) init spec_init 0 init_sim) as (h & s & Hrun & Hs & Hc & Hrej).
  - by apply events_ranged.
  - intros i os. simpl. by rewrite lookup_empty.
  - by rewrite Hlen.
  - exists h. rewrite Hrun. split; [done|]. split; [exact (sim_inv h s Hs)|].
    unfold Book.max_orders in Hn. simpl in Hrej. split.
    + intros t Ht. rewrite (sim_counts h s Hs t Ht), Hc. f_equal. simpl. rewrite Z.add_0_l. apply u64_id.
      pose proof (length_filter (fun e => event_type e = t) (Wire.events data)). unfold is_u64. lia.
    + rewrite (sim_rejected h s Hs), u64_id by (unfold is_u64; lia). lia.
Qed.

Lemma replay_never_fails_witness : exists h,
  Wire.parse_stream sample_data (length sample_data) (Ok (init (B := LadderBook.LadderBook))) = Ok (7%nat, Ok h) /\
  counts h !! 65%nat = Some 2.
Proof.
  destruct (replay_never_fails (L := LadderBook.lb_laws) sample_data) as (h & H1 & _ & H2 & _).
  - exact sample_data_bytes.
  - vm_compute. reflexivity.
  - exists h. split; [exact H1|]. exact (H2 65 ltac:(u32c)).
Defined.

(** C22: on an input whose new prices are all cent-aligned and below $40,000 the
    replay is the reference replay: per locate the resting orders are exactly
    those of adding, reducing, deleting and replacing in message order, a
    message is counted as unknown exactly when the reference rejects it, and
    no locate without a message has a book. *)
Theorem replay_exact (data : list Z) (Hbytes : Wire.bytes data)
  (Hreal : Forall realistic_event (Wire.events data))
  (Hn : Z.of_nat (length (Wire.frames data)) < Book.max_orders) :
  exists h, Wire.parse_stream data (length data) (Ok (init (B := LadderBook.LadderBook))) =
      Ok (length (Wire.frames data), Ok h) /\
    (forall i, LadderBook.orders_ <$> mjoin (books h !! i) =
               sp_books (spec_run (Wire.events data) spec_init) !! i) /\
    unknown_refs h = u64 (sp_rejected (spec_run (Wire.events data) spec_init)).
Proof.
  destruct (parse_exact (A := lb_admitting) data Hbytes Hreal Hn) as (h & Hrun & Hs & _).
  exists h. split; [exact Hrun|]. split; [exact (sim_books h _ Hs) | exact (sim_rejected h _ Hs)].
Qed.

(** The prices of the sample are realistic. *)
Lemma sample_data_real : Forall realistic_event (Wire.events sample_data).
Proof. apply (bool_decide_unpack _). vm_compute. exact I. Qed.

Lemma replay_exact_witness : exists h,
  Wire.parse_stream sample_data (length sample_data) (Ok (init (B := LadderBook.LadderBook))) = Ok (7%nat, Ok h) /\
  unknown_refs h = 2.
Proof.
  destruct (replay_exact sample_data sample_data_bytes sample_data_real) as (h & H1 & _ & H2).
  - vm_compute. reflexivity.
  - exists h. split; [exact H1|]. rewrite H2. vm_compute. reflexivity.
Defined.

(** C2: the two books are interchangeable: on any input whose new prices are
    cent-aligned and below $40,000 the map-based and the flat-ladder replay
    report the same frames, the same type counters and unknown references, have
    books for the same locates, and each pair of books holds the same resting
    orders and answers the same best bid, best ask and level counts. *)
Theorem books_agree (data : list Z) (Hbytes : Wire.bytes data)
  (Hreal : Forall realistic_event (Wire.events data))
  (Hn : Z.of_nat (length (Wire.frames data)) < Book.max_orders) :
  exists n h1 h2,
    Wire.parse_stream data (length data) (Ok (init (B := OrderBook.OrderBook))) = Ok (n, Ok h1) /\
    Wire.parse_stream data (length data) (Ok (init (B := LadderBook.LadderBook))) = Ok (n, Ok h2) /\
    counts h1 = counts h2 /\ unknown_refs h1 = unknown_refs h2 /\
    forall i, match mjoin (books h1 !! i), mjoin (books h2 !! i) with
      | None, None => True
      | Some b1, Some b2 =>
        OrderBook.orders_ b1 = LadderBook.orders_ b2 /\
        LadderBook.best_bid b2 = Ok (OrderBook.best_bid b1) /\
        LadderBook.best_ask b2 = Ok (OrderBook.best_ask b1) /\
        LadderBook.bid_levels b2 = Z.of_nat (OrderBook.bid_levels b1) /\
        LadderBook.ask_levels b2 = Z.of_nat (OrderBook.ask_levels b1)
      | _, _ => False
      end.
Proof.
  destruct (parse_exact (A := ob_admitting) data Hbytes) as (h1 & Hr1 & Hs1 & _); [|done|].
  { apply Forall_true. intros e. unfold good_event. by destruct (event_price e). }
  destruct (parse_exact (A := lb_admitting) data Hbytes Hreal Hn) as (h2 & Hr2 & Hs2 & _).
  exists (length (Wire.frames data)), h1, h2. split; [done|]. split; [done|].
  destruct (sim_counts_eq h1 h2 _ Hs1 Hs2) as [Hc Hu]. split; [done|]. split; [done|]. intros i.
  pose proof (sim_books h1 _ Hs1 i) as E1. pose proof (sim_books h2 _ Hs2 i) as E2. rewrite <- E1 in E2.
  pose proof (sim_inv h1 _ Hs1 i) as I1. pose proof (sim_inv h2 _ Hs2 i) as I2.
  destruct (mjoin (books h1 !! i)) as [b1|], (mjoin (books h2 !! i)) as [b2|]; simpl in E2; try discriminate; [|done].
  injection E2 as E2. specialize (I1 b1 eq_refl). specialize (I2 b2 eq_refl).
  pose proof (Book.best_bid_law b1 I1) as B1. pose proof (Book.best_ask_law b1 I1) as A1.
  pose proof (Book.bid_levels_law b1 I1) as L1. pose proof (Book.ask_levels_law b1 I1) as M1.
  pose proof (Book.best_bid_law b2 I2) as B2. pose proof (Book.best_ask_law b2 I2) as A2.
  pose proof (Book.bid_levels_law b2 I2) as L2. pose proof (Book.ask_levels_law b2 I2) as M2.
  cbn in *. rewrite B2, A2, L2, M2, L1, M1, B1, A1. by rewrite E2.
Qed.

Lemma books_agree_witness : exists n h1 h2,
  Wire.parse_stream sample_data (length sample_data) (Ok (init (B := OrderBook.OrderBook))) = Ok (n, Ok h1) /\
  Wire.parse_stream sample_data (length sample_data) (Ok (init (B := LadderBook.LadderBook))) = Ok (n, Ok h2) /\
  unknown_refs h1 = unknown_refs h2.
Proof.
  destruct (books_agree sample_data sample_data_bytes sample_data_real) as (n & h1 & h2 & H1 & H2 & _ & H3 & _).
  - vm_compute. reflexivity.
  - exists n, h1, h2. split; [exact H1|]. split; [exact H2|exact H3].
Defined.

(** A replacement the book refuses, because the new reference is already live
    or the new price is not representable, has already dropped the original
    order: the operation reports failure, yet the resting orders lost one. *)
Theorem refused_replace_drops_order {B} `{L : Book.BookLaws B} (b : B) (orig next shares price : Z) (o : Book.Order)
  (Hinv : Book.inv b) (Hsh : is_u32 shares) (Hpr : is_u32 price)
  (Ho : Book.orders b !! orig = Some o)
  (Href : Book.admits b price = false \/ (next <> orig /\ is_Some (Book.orders b !! next))) :
  exists b', Book.replace orig next shares price b = Ok (false, b') /\
    Book.orders b' = delete orig (Book.orders b) /\ Book.inv b'.
Proof.
  destruct (Book.replace_law orig next shares price b Hinv Hsh Hpr) as (ok & b' & Hrun & Hinv' & Heq).
  unfold Book.spec_replace in Heq. rewrite Ho in Heq. exists b'.
  destruct Href as [Hadm|[Hne [o' Ho']]].
  - rewrite Hadm in Heq. injection Heq as -> Heq. done.
  - unfold Book.spec_add in Heq. rewrite lookup_delete_ne, Ho' in Heq by done.
    destruct (Book.admits b price); injection Heq as -> Heq; done.
Qed.

Lemma refused_replace_drops_order_witness : exists b',
  OrderBook.replace 1 2 20 9800 OrderBook.sample = (false, b') /\
  OrderBook.orders_ b' = delete 1 (OrderBook.orders_ OrderBook.sample).
Proof.
  destruct (refused_replace_drops_order (L := OrderBook.ob_laws) OrderBook.sample 1 2 20 9800
              (Book.mkOrder 100 10000 Wire.Buy) OrderBook.sample_inv) as (b' & H1 & H2 & _).
  - u32c.
  - u32c.
  - reflexivity.
  - right. split; [discriminate|]. exists (Book.mkOrder 50 9900 Wire.Buy). reflexivity.
  - exists b'. split; [|exact H2]. exact (f_equal (fun r => match r with Ok x => x | _ => (false, b') end) H1).
Defined.

(** The table's read-only queries agree with its slots: [find] never reads
    past the table and never creates a book, [for_each] visits exactly the
    occupied slots, each under its own locate and in increasing locate order,
    and [book_count] counts them. *)
Theorem table_queries_exact {B} (slots : list (option B)) (Hlen : Z.of_nat (length slots) <= 65536) :
  (forall locate, find locate slots = Ok (mjoin (slots !! Z.to_nat locate))) /\
  (forall locate b, (locate, b) ∈ for_each slots <->
     exists i, slots !! i = Some (Some b) /\ locate = Z.of_nat i) /\
  Sorted.StronglySorted Z.lt (for_each slots).*1 /\
  book_count slots = length (for_each slots).
Proof.
  split_and!.
  - intros locate. apply find_lookup.
  - intros locate b. by apply (elem_of_for_each 0).
  - by apply for_each_sorted.
  - apply book_count_for_each.
Qed.

Lemma table_queries_exact_witness :
  book_count [None; Some OrderBook.init; None; Some OrderBook.sample] = 2%nat /\
  for_each [None; Some OrderBook.init; None; Some OrderBook.sample] = [(1, OrderBook.init); (3, OrderBook.sample)].
Proof.
  destruct (table_queries_exact [None; Some OrderBook.init; None; Some OrderBook.sample]) as (_ & _ & _ & H).
  - simpl. lia.
  - split; [rewrite H|]; reflexivity.
Defined.

End Builder.
