(* ===== verification/Spsc.v ===== *)
(** * Spsc: the lock-free single-producer single-consumer ring

    Models include/pipeline/spsc_queue.hpp twice.

    [push], [pop] and [size] are the operations as one thread sees them, with
    the masked index arithmetic of the code; they refine a bounded FIFO.

    [step] runs one producer and one consumer at the granularity of the code's
    atomic accesses.  Each index keeps the history of the values stored to it,
    and each thread a position in the other side's history: an acquire load
    may return any value at or after that position, so that stale reads are
    possible in the model as they are under acquire/release, while a thread
    reads its own index exactly.  Accesses to the slots are plain; the theorems
    show that the slot being written is never the one being read and that what
    is read was published before the index the reader acquired, which is what
    makes plain accesses sound. *)

From S2P Require Import Prelude.

Module Spsc.

Section Ring.
Context {T : Type} (k : Z).

(** [Capacity], a power of two, and [kMask]. *)
Definition capacity : Z := 2 ^ k.
Definition kMask : Z := capacity - 1.

Definition next (i : Z) : Z := Z.land (u64 (i + 1)) kMask.

(** ** One thread *)

Record SpscQueue := mkQueue { buf_ : list T; head_ : Z; tail_ : Z }.

Definition push (v : T) (q : SpscQueue) : outcome (bool * SpscQueue) :=
  let tail := tail_ q in
  let next := next tail in
  if next =? head_ q then Ok (false, q)
  else
    buf ← wr (buf_ q) (Z.to_nat tail) v;
    Ok (true, mkQueue buf (head_ q) next).

Definition pop (q : SpscQueue) : outcome (option T * SpscQueue) :=
  let head := head_ q in
  if head =? tail_ q then Ok (None, q)
  else
    out ← rd (buf_ q) (Z.to_nat head);
    Ok (Some out, mkQueue (buf_ q) (next head) (tail_ q)).

Definition occupancy (tail head : Z) : Z := Z.land (u64 (tail - head)) kMask.

Definition size (q : SpscQueue) : Z := occupancy (tail_ q) (head_ q).

(** ** Two threads *)

(** Where the producer is inside [push]. *)
Inductive producer :=
| PIdle
| PLoaded (v : T) (tail : Z)   (** [tail_] loaded *)
| PFree (v : T) (tail : Z)     (** the slot found free *)
| PWritten (v : T) (tail : Z). (** the slot written, not published *)

(** Where the consumer is inside [pop]. *)
Inductive consumer :=
| CIdle
| CLoaded (head : Z)           (** [head_] loaded *)
| CReady (head : Z)            (** the queue found non-empty *)
| CGot (x : T) (head : Z).     (** the slot read, not released *)

(** [p_view] and [c_view] are positions in the history of the other side's
    index; [pushed] and [popped] record the values published and released. *)
Record system := mkSystem {
  buf : list T;
  head_hist : list Z;
  tail_hist : list Z;
  p_view : nat;
  p_pc : producer;
  c_view : nat;
  c_pc : consumer;
  pushed : list T;
  popped : list T }.

Inductive label :=
| PBegin (v : T) | PTau | Push (v : T) | PushFull (v : T) | Size (n : Z)
| CBegin | CTau | Pop (x : T) | PopEmpty.

(** A value the thread at position [view] may load from a history. *)
Definition can_load (hist : list Z) (view j : nat) (v : Z) : Prop :=
  (view <= j)%nat /\ hist !! j = Some v.

Inductive step : system -> label -> system -> Prop :=
| P_load v tail b hh th pv cv c pu po :
    last th = Some tail ->
    step (mkSystem b hh th pv PIdle cv c pu po) (PBegin v) (mkSystem b hh th pv (PLoaded v tail) cv c pu po)
| P_full v tail j b hh th pv cv c pu po :
    can_load hh pv j (next tail) ->
    step (mkSystem b hh th pv (PLoaded v tail) cv c pu po) (PushFull v) (mkSystem b hh th j PIdle cv c pu po)
| P_free v tail head j b hh th pv cv c pu po :
    can_load hh pv j head -> next tail <> head ->
    step (mkSystem b hh th pv (PLoaded v tail) cv c pu po) PTau (mkSystem b hh th j (PFree v tail) cv c pu po)
| P_write v tail b hh th pv cv c pu po :
    step (mkSystem b hh th pv (PFree v tail) cv c pu po) PTau
      (mkSystem (<[Z.to_nat tail := v]> b) hh th pv (PWritten v tail) cv c pu po)
| P_publish v tail b hh th pv cv c pu po :
    step (mkSystem b hh th pv (PWritten v tail) cv c pu po) (Push v)
      (mkSystem b hh (th ++ [next tail]) pv PIdle cv c (pu ++ [v]) po)
| P_size tail head j b hh th pv cv c pu po :
    last th = Some tail -> can_load hh pv j head ->
    step (mkSystem b hh th pv PIdle cv c pu po) (Size (occupancy tail head)) (mkSystem b hh th j PIdle cv c pu po)
| C_load head b hh th pv p cv pu po :
    last hh = Some head ->
    step (mkSystem b hh th pv p cv CIdle pu po) CBegin (mkSystem b hh th pv p cv (CLoaded head) pu po)
| C_empty head j b hh th pv p cv pu po :
    can_load th cv j head ->
    step (mkSystem b hh th pv p cv (CLoaded head) pu po) PopEmpty (mkSystem b hh th pv p j CIdle pu po)
| C_ready head tail j b hh th pv p cv pu po :
    can_load th cv j tail -> head <> tail ->
    step (mkSystem b hh th pv p cv (CLoaded head) pu po) CTau (mkSystem b hh th pv p j (CReady head) pu po)
| C_read head x b hh th pv p cv pu po :
    b !! Z.to_nat head = Some x ->
    step (mkSystem b hh th pv p cv (CReady head) pu po) CTau (mkSystem b hh th pv p cv (CGot x head) pu po)
| C_publish head x b hh th pv p cv pu po :
    step (mkSystem b hh th pv p cv (CGot x head) pu po) (Pop x)
      (mkSystem b (hh ++ [next head]) th pv p cv CIdle pu (po ++ [x])).

(** The queue as constructed. *)
Definition start (b : list T) : system := mkSystem b [0] [0] 0 PIdle 0 CIdle [] [].

Inductive reachable (b : list T) : system -> Prop :=
| reach_start : reachable b (start b)
| reach_step s l s' : reachable b s -> step s l s' -> reachable b s'.

(** ** Masked indices *)

Hypothesis Hk : 0 <= k <= 63.

Lemma capacity_pos : 0 < capacity <= 2 ^ 63.
Proof. unfold capacity. split; [apply Z.pow_pos_nonneg; lia | apply Z.pow_le_mono_r; lia]. Qed.

Lemma mask_mod x : Z.land x kMask = x mod capacity.
Proof.
  unfold kMask, capacity. replace (2 ^ k - 1) with (Z.ones k) by (rewrite Z.ones_equiv; lia).
  apply Z.land_ones. lia.
Qed.

Lemma next_mod i : next (i mod capacity) = (i + 1) mod capacity.
Proof.
  pose proof capacity_pos. unfold next. rewrite mask_mod.
  pose proof (Z.mod_pos_bound i capacity ltac:(lia)).
  rewrite u64_id by (unfold is_u64; lia). by rewrite Z.add_mod_idemp_l by lia.
Qed.

(** Reduction modulo the capacity divides 2^64, so the wrap of the
    subtraction is invisible. *)
Lemma occupancy_mod a b : 0 <= a - b < capacity ->
  occupancy (a mod capacity) (b mod capacity) = a - b.
Proof.
  intros Hab. pose proof capacity_pos. unfold occupancy. rewrite mask_mod.
  assert (18446744073709551616 = 2 ^ (64 - k) * capacity) as E.
  { unfold capacity. rewrite <- Z.pow_add_r by lia. by replace (64 - k + k) with 64 by lia. }
  unfold u64. rewrite E, Z.mul_comm, Z.rem_mul_r.
  - rewrite Z.mul_comm, Z.mod_add, Z.mod_mod by lia. rewrite <- Zminus_mod. apply Z.mod_small. lia.
  - lia.
  - apply Z.pow_pos_nonneg; lia.
Qed.

Lemma wrap_inj a b : 0 <= b - a < capacity -> a mod capacity = b mod capacity -> a = b.
Proof.
  intros Hab E. pose proof capacity_pos. assert ((b - a) mod capacity = 0) as E'.
  { rewrite Zminus_mod, E, Z.sub_diag. apply Z.mod_0_l. lia. }
  rewrite Z.mod_small in E' by lia. lia.
Qed.

Definition slot (i : nat) : nat := Z.to_nat (Z.of_nat i mod capacity).

Lemma ring_slot_lt i : (slot i < Z.to_nat capacity)%nat.
Proof. pose proof capacity_pos. unfold slot. pose proof (Z.mod_pos_bound (Z.of_nat i) capacity ltac:(lia)). lia. Qed.

Lemma ring_slot_inj i j : (i <= j)%nat -> Z.of_nat j - Z.of_nat i < capacity -> slot i = slot j -> i = j.
Proof.
  intros Hij Hd E. pose proof capacity_pos. unfold slot in E.
  pose proof (Z.mod_pos_bound (Z.of_nat i) capacity ltac:(lia)).
  pose proof (Z.mod_pos_bound (Z.of_nat j) capacity ltac:(lia)).
  assert (Z.of_nat i = Z.of_nat j) by (apply wrap_inj; lia). lia.
Qed.

(** ** One thread: a bounded FIFO *)

(** [items] is what the ring holds, oldest first, after [n] pops. *)
Definition holds (items : list T) (n : nat) (q : SpscQueue) : Prop :=
  length (buf_ q) = Z.to_nat capacity /\ Z.of_nat (length items) < capacity /\
  head_ q = Z.of_nat n mod capacity /\ tail_ q = Z.of_nat (n + length items) mod capacity /\
  forall i x, items !! i = Some x -> buf_ q !! slot (n + i) = Some x.

Lemma push_holds items n v q : holds items n q ->
  if Z.of_nat (length items) + 1 <? capacity
  then exists q', push v q = Ok (true, q') /\ holds (items ++ [v]) n q'
  else push v q = Ok (false, q).
Proof.
  intros (Hlen & Hcap & Hh & Ht & Hbuf). pose proof capacity_pos. unfold push. rewrite Ht, Hh, next_mod.
  destruct (Z.ltb_spec (Z.of_nat (length items) + 1) capacity) as [Hroom|Hfull].
  - destruct (Z.eqb_spec ((Z.of_nat (n + length items) + 1) mod capacity) (Z.of_nat n mod capacity)) as [E|E].
    { symmetry in E. apply wrap_inj in E; lia. }
    unfold wr. pose proof (ring_slot_lt (n + length items)). rewrite decide_True by (unfold slot in *; lia).
    rewrite bind_Ok. eexists; split; [reflexivity|]. unfold holds. cbn [buf_ head_ tail_].
    rewrite length_insert, length_app. cbn [length]. split_and!; try done; try lia.
    + f_equal. lia.
    + intros i x Hi. apply lookup_snoc_Some in Hi as [[Hi Hx]|[-> ->]].
      * rewrite list_lookup_insert_ne; [by apply Hbuf|].
        intros E'. change (slot (n + length items) = slot (n + i)) in E'.
        symmetry in E'. apply ring_slot_inj in E'; lia.
      * change (Z.to_nat _) with (slot (n + length items)). apply list_lookup_insert_eq. lia.
  - rewrite (proj2 (Z.eqb_eq _ _)); [done|].
    replace (Z.of_nat (n + length items) + 1) with (Z.of_nat n + 1 * capacity) by lia.
    apply Z.mod_add. lia.
Qed.

Lemma pop_holds items n q : holds items n q ->
  match items with
  | [] => pop q = Ok (None, q)
  | x :: items => exists q', pop q = Ok (Some x, q') /\ holds items (S n) q'
  end.
Proof.
  intros (Hlen & Hcap & Hh & Ht & Hbuf). pose proof capacity_pos. unfold pop. rewrite Ht, Hh.
  destruct items as [|x items]; cbn [length] in *.
  - rewrite Nat.add_0_r, Z.eqb_refl. done.
  - rewrite (proj2 (Z.eqb_neq _ _)) by (intros E; apply wrap_inj in E; lia).
    rewrite (rd_lookup _ _ x), bind_Ok.
    2: { specialize (Hbuf 0%nat x eq_refl). by rewrite Nat.add_0_r in Hbuf. }
    eexists; split; [reflexivity|]. unfold holds. cbn [buf_ head_ tail_]. split_and!; try done; try lia.
    + rewrite next_mod. f_equal. lia.
    + f_equal. lia.
    + intros i y Hi. specialize (Hbuf (S i) y Hi). by replace (S n + i)%nat with (n + S i)%nat by lia.
Qed.

Lemma size_holds items n q : holds items n q -> size q = Z.of_nat (length items).
Proof.
  intros (_ & Hcap & Hh & Ht & _). unfold size. rewrite Ht, Hh, occupancy_mod; lia.
Qed.

(** ** Two threads: the invariant *)

Definition p_inv (s : system) : Prop :=
  let t := length (pushed s) in
  match p_pc s with
  | PIdle => True
  | PLoaded v tail => tail = Z.of_nat t mod capacity
  | PFree v tail => tail = Z.of_nat t mod capacity /\ Z.of_nat t + 1 < Z.of_nat (p_view s) + capacity
  | PWritten v tail => tail = Z.of_nat t mod capacity /\ Z.of_nat t + 1 < Z.of_nat (p_view s) + capacity /\
                       buf s !! slot t = Some v
  end.

Definition c_inv (s : system) : Prop :=
  let h := length (popped s) in
  match c_pc s with
  | CIdle => True
  | CLoaded head => head = Z.of_nat h mod capacity
  | CReady head => head = Z.of_nat h mod capacity /\ (h < c_view s)%nat
  | CGot x head => head = Z.of_nat h mod capacity /\ (h < c_view s)%nat /\ pushed s !! h = Some x
  end.

Definition indices (hist : list Z) (n : nat) : Prop :=
  length hist = S n /\ forall i v, hist !! i = Some v -> v = Z.of_nat i mod capacity.

Record ring_inv (s : system) : Prop := {
  r_buf : length (buf s) = Z.to_nat capacity;
  r_head : indices (head_hist s) (length (popped s));
  r_tail : indices (tail_hist s) (length (pushed s));
  r_pview : (p_view s <= length (popped s))%nat;
  r_cview : (length (popped s) <= c_view s <= length (pushed s))%nat;
  r_room : Z.of_nat (length (pushed s)) < Z.of_nat (p_view s) + capacity;
  r_data : forall i, (length (popped s) <= i < length (pushed s))%nat -> buf s !! slot i = pushed s !! i;
  r_fifo : popped s = take (length (popped s)) (pushed s);
  r_p : p_inv s;
  r_c : c_inv s }.

Lemma indices_last hist n v : indices hist n -> last hist = Some v -> v = Z.of_nat n mod capacity.
Proof. intros [Hl Hi] Hv. rewrite last_lookup, Hl in Hv. by apply Hi in Hv. Qed.

Lemma indices_load hist n view j v : indices hist n -> can_load hist view j v ->
  v = Z.of_nat j mod capacity /\ (view <= j <= n)%nat.
Proof.
  intros [Hl Hi] [Hj Hv]. pose proof (lookup_lt_Some _ _ _ Hv). split; [by apply Hi|lia].
Qed.

Lemma indices_snoc hist n v : indices hist n -> v = Z.of_nat n mod capacity -> indices (hist ++ [next v]) (S n).
Proof.
  intros [Hl Hi] ->. split; [rewrite length_app, Hl; simpl; lia|].
  intros i w Hw. apply lookup_snoc_Some in Hw as [[Hw Hv]|[-> <-]]; [by apply Hi|].
  rewrite Hl, next_mod. f_equal. lia.
Qed.

Lemma start_inv b : length b = Z.to_nat capacity -> ring_inv (start b).
Proof.
  intros Hb. pose proof capacity_pos. constructor; simpl; try done; try lia.
  - split; [done|]. intros [|[|i]] v; simpl; try done. intros [= <-]. by rewrite Z.mod_0_l by lia.
  - split; [done|]. intros [|[|i]] v; simpl; try done. intros [= <-]. by rewrite Z.mod_0_l by lia.
Qed.

(** The producer's write goes to a slot no unconsumed value is in. *)
Lemma write_free (b : list T) (h t pv i : nat) v :
  (pv <= h)%nat -> Z.of_nat t + 1 < Z.of_nat pv + capacity -> (h <= i < t)%nat ->
  (<[slot t := v]> b) !! slot i = b !! slot i.
Proof.
  intros Hpv Hroom Hi. apply list_lookup_insert_ne. intros E. symmetry in E. apply ring_slot_inj in E; lia.
Qed.

Lemma step_inv s l s' : step s l s' -> ring_inv s -> ring_inv s'.
Proof.
  pose proof capacity_pos as Hcap.
  intros Hstep [Hb Hh Ht Hpv Hcv Hroom Hdata Hfifo Hp Hc]. destruct Hstep; unfold p_inv, c_inv in *; cbn in *.
  - constructor; cbn; try done. unfold p_inv. cbn. by eapply indices_last.
  - destruct (indices_load _ _ _ _ _ Hh H) as [_ Hj]. constructor; cbn; try done; lia.
  - destruct (indices_load _ _ _ _ _ Hh H) as [-> Hj]. subst tail.
    assert (Z.of_nat (length pu) + 1 < Z.of_nat j + capacity) as Hlt.
    { rewrite next_mod in H0.
      destruct (decide (Z.of_nat (length pu) + 1 = Z.of_nat j + capacity)) as [E|E]; [|lia].
      exfalso. apply H0. rewrite E. replace (Z.of_nat j + capacity) with (Z.of_nat j + 1 * capacity) by lia.
      apply Z.mod_add. lia. }
    constructor; cbn; try done; try lia.
  - destruct Hp as [-> Hlt]. change (Z.to_nat _) with (slot (length pu)).
    constructor; cbn; try done.
    + by rewrite length_insert.
    + intros i Hi. rewrite (write_free b (length po) (length pu) pv i v) by done || lia. by apply Hdata.
    + unfold p_inv. cbn. split_and!; try done. apply list_lookup_insert_eq. rewrite Hb. apply ring_slot_lt.
  - destruct Hp as (-> & Hlt & Hv). constructor; cbn; rewrite ?length_app; cbn [length]; try done; try lia.
    + rewrite Nat.add_comm. by apply indices_snoc.
    + intros i Hi. destruct (decide (i = length pu)) as [->|Hne].
      * by rewrite Hv, lookup_app_r, Nat.sub_diag.
      * rewrite lookup_app_l by lia. apply Hdata. lia.
    + rewrite take_app_le by lia. done.
    + unfold c_inv. cbn. destruct c; try done; try tauto. destruct Hc as (-> & Hlt' & Hx).
      split_and!; try done. by apply lookup_app_l_Some.
  - destruct (indices_load _ _ _ _ _ Hh H0) as [_ Hj]. constructor; cbn; try done; lia.
  - constructor; cbn; try done. unfold c_inv. cbn. by eapply indices_last.
  - destruct (indices_load _ _ _ _ _ Ht H) as [_ Hj]. constructor; cbn; try done; lia.
  - destruct (indices_load _ _ _ _ _ Ht H) as [-> Hj]. subst head. constructor; cbn; try done; try lia.
    unfold c_inv. cbn. split; [done|]. destruct (decide (length po = j)) as [<-|]; [done|lia].
  - destruct Hc as [-> Hlt]. constructor; cbn; try done. unfold c_inv. cbn. split_and!; try done.
    rewrite <- Hdata by lia. done.
  - destruct Hc as (-> & Hlt & Hx). constructor; cbn; rewrite ?length_app; cbn [length]; try done; try lia.
    + rewrite Nat.add_comm. by apply indices_snoc.
    + intros i Hi. apply Hdata. lia.
    + rewrite Nat.add_comm. rewrite (take_S_r _ _ x) by done. by rewrite <- Hfifo.
Qed.

Lemma reachable_inv b s : length b = Z.to_nat capacity -> reachable b s -> ring_inv s.
Proof. intros Hb. induction 1 as [|s l s' _ IH Hstep]; [by apply start_inv | by eapply step_inv]. Qed.

(** What the last step says about the queue. *)
Lemma step_facts s l s' : step s l s' -> ring_inv s ->
  match l with
  | Size n => 0 <= n < capacity /\ n = Z.of_nat (length (pushed s')) - Z.of_nat (p_view s')
  | PushFull _ => Z.of_nat (length (pushed s')) + 1 = Z.of_nat (p_view s') + capacity
  | PopEmpty => length (popped s') = c_view s'
  | _ => True
  end.
Proof.
  pose proof capacity_pos as Hcap.
  intros Hstep [Hb Hh Ht Hpv Hcv Hroom Hdata Hfifo Hp Hc]. destruct Hstep; unfold p_inv, c_inv in *; cbn in *; try done.
  - destruct (indices_load _ _ _ _ _ Hh H) as [E Hj]. subst tail. rewrite next_mod in E.
    destruct (decide (Z.of_nat (length pu) + 1 = Z.of_nat j + capacity)) as [|Hne]; [lia|].
    symmetry in E. apply wrap_inj in E; lia.
  - destruct (indices_load _ _ _ _ _ Hh H0) as [-> Hj]. rewrite (indices_last _ _ _ Ht H).
    rewrite occupancy_mod by lia. lia.
  - destruct (indices_load _ _ _ _ _ Ht H) as [E Hj]. subst head. apply wrap_inj in E; lia.
Qed.

(** ** Properties *)

(** Used by one thread the ring is a FIFO of capacity [Capacity - 1]: [push]
    appends exactly when there is room and otherwise changes nothing, [pop]
    removes the oldest value or reports an empty queue, [size] is the number of
    values held, and no slot access is out of bounds, however often the masked
    indices have wrapped around. *)
Theorem ring_is_bounded_fifo (items : list T) (n : nat) (v : T) (q : SpscQueue) (Hq : holds items n q) :
  (if Z.of_nat (length items) + 1 <? capacity
   then exists q', push v q = Ok (true, q') /\ holds (items ++ [v]) n q'
   else push v q = Ok (false, q)) /\
  match items with
  | [] => pop q = Ok (None, q)
  | x :: items => exists q', pop q = Ok (Some x, q') /\ holds items (S n) q'
  end /\
  size q = Z.of_nat (length items).
Proof.
  split_and!; [by apply push_holds | by apply pop_holds | by eapply size_holds].
Qed.

(** C15: with a producer and a consumer thread interleaved at every atomic access,
    and each allowed to see stale values of the other's index, what has been
    popped is always a prefix of what has been pushed, at most [Capacity - 1]
    values are in flight, an empty pop means everything published up to the
    acquired index was consumed, a full push means the acquired index leaves no
    room, and [size] polled by the producer stays below [Capacity]. *)
Theorem spsc_fifo (b : list T) (s : system) (Hb : length b = Z.to_nat capacity) (Hs : reachable b s) :
  popped s = take (length (popped s)) (pushed s) /\
  (length (popped s) <= length (pushed s))%nat /\
  Z.of_nat (length (pushed s)) - Z.of_nat (length (popped s)) < capacity /\
  forall l s', step s l s' ->
    match l with
    | Size n => 0 <= n < capacity
    | PushFull _ => Z.of_nat (length (pushed s')) + 1 = Z.of_nat (p_view s') + capacity
    | PopEmpty => length (popped s') = c_view s'
    | Pop x => pushed s !! length (popped s) = Some x
    | _ => True
    end.
Proof.
  pose proof (reachable_inv b s Hb Hs) as Hinv. pose proof Hinv as [_ _ _ Hpv Hcv Hroom _ Hfifo _ Hc].
  split_and!; [done|lia|lia|].
  intros l s' Hstep. pose proof (step_facts s l s' Hstep Hinv) as Hf.
  destruct Hstep; try done; [exact (proj1 Hf)|]. unfold c_inv in Hc. cbn in *. tauto.
Qed.

(** C16: the plain slot accesses are free of data races: when the producer is
    about to write its slot and the consumer about to read its own, the two
    slots differ; the slot the consumer reads was published at or before the
    tail it acquired; and the value the producer overwrites was released at or
    before the head it acquired. *)
Theorem spsc_race_free (b : list T) (s : system) (v : T) (tail : Z)
  (Hb : length b = Z.to_nat capacity) (Hs : reachable b s) (Hp : p_pc s = PFree v tail) :
  (Z.of_nat (length (pushed s)) < Z.of_nat (p_view s) + capacity - 1) /\
  (forall head, c_pc s = CReady head ->
     Z.to_nat tail <> Z.to_nat head /\ (length (popped s) < c_view s <= length (pushed s))%nat).
Proof.
  pose proof (reachable_inv b s Hb Hs) as [_ _ _ Hpv Hcv _ _ _ Hpi Hci]. unfold p_inv, c_inv in *. rewrite Hp in Hpi.
  destruct Hpi as [-> Hroom]. split; [lia|]. intros head Hc. rewrite Hc in Hci. destruct Hci as [-> Hlt].
  split; [|lia]. intros E. change (slot (length (pushed s)) = slot (length (popped s))) in E.
  symmetry in E. apply ring_slot_inj in E; lia.
Qed.

End Ring.
Arguments SpscQueue T : clear implicits.
Arguments producer T : clear implicits.
Arguments consumer T : clear implicits.
Arguments system T : clear implicits.
Arguments label T : clear implicits.

Lemma ring_is_bounded_fifo_witness :
  holds 2 [7; 8; 9] 5 (mkQueue [0; 7; 8; 9] 1 0) /\
  push 2 10 (mkQueue [0; 7; 8; 9] 1 0) = Ok (false, mkQueue [0; 7; 8; 9] 1 0).
Proof.
  assert (holds 2 [7; 8; 9] 5 (mkQueue [0; 7; 8; 9] 1 0)) as Hq.
  { split; [reflexivity|]. split; [reflexivity|]. split; [reflexivity|]. split; [reflexivity|].
    intros [|[|[|i]]] x; cbn; intros H; try discriminate H; injection H as <-; reflexivity. }
  split; [exact Hq|].
  exact (proj1 (ring_is_bounded_fifo 2 ltac:(lia) [7; 8; 9] 5 10 _ Hq)).
Defined.

(** A producer about to write its second value while the consumer is about to
    read the first. *)
Definition sample_system : system Z :=
  mkSystem [7; 0; 0; 0] [0] [0; 1] 0 (PFree 8 1) 1 (CReady 0) [7] [].

Lemma sample_reachable : reachable 2 [0; 0; 0; 0] sample_system.
Proof.
  pose proof (reach_start 2 [0; 0; 0; 0]) as H. unfold start in H.
  eapply reach_step in H; [|by apply (P_load 2 7 0)].
  eapply reach_step in H; [|by apply (P_free 2 7 0 0 0); [split|]].
  eapply reach_step in H; [|apply P_write].
  eapply reach_step in H; [|apply P_publish]. cbn in H.
  eapply reach_step in H; [|by apply (C_load 2 0)].
  eapply reach_step in H; [|by apply (C_ready 2 0 1 1); [split; [lia|]|]].
  eapply reach_step in H; [|by apply (P_load 2 8 1)].
  eapply reach_step in H; [|by apply (P_free 2 8 1 0 0); [split|]].
  exact H.
Qed.

Lemma spsc_fifo_witness : reachable 2 [0; 0; 0; 0] sample_system /\
  popped sample_system = take (length (popped sample_system)) (pushed sample_system).
Proof.
  split; [exact sample_reachable|].
  exact (proj1 (spsc_fifo 2 ltac:(lia) [0; 0; 0; 0] sample_system eq_refl sample_reachable)).
Defined.

Lemma spsc_race_free_witness : reachable 2 [0; 0; 0; 0] sample_system /\ Z.to_nat 1 <> Z.to_nat 0.
Proof.
  split; [exact sample_reachable|].
  destruct (spsc_race_free 2 ltac:(lia) [0; 0; 0; 0] sample_system 8 1 eq_refl sample_reachable eq_refl) as [_ H].
  exact (proj1 (H 0 eq_refl)).
Defined.

End Spsc.
