(* ===== verification/Threaded.v ===== *)
(** * Threaded: the two-thread replay

    Models include/pipeline/message.hpp (the tagged union that crosses the
    queue), [dispatch_to_book] of include/pipeline/dispatch_to_book.hpp and the
    producer, consumer and [run_pipeline] of include/pipeline/threaded_replay.hpp
    on top of the two-thread ring of [Spsc].

    [step] interleaves the parser thread and the book-builder thread at every
    atomic access: the parser works through the callbacks its input makes
    ([todo]), spinning on a full queue, sampling the occupancy after each push
    and raising [producer_done] at the end; the book builder polls, re-checks
    [producer_done] when a pop comes up empty, and drains once it has seen it.
    Reading [producer_done] as true synchronises with everything the parser
    did before storing it.  Thread pinning has no effect on the state; it
    is in [Affinity]. *)

From S2P Require Import Prelude Wire Book OrderBook LadderBook Builder Spsc.

Module Threaded.

(** ** Envelope (message.hpp) *)

(** The union, tagged by its active member. *)
Inductive payload :=
| UAdd (m : Wire.AddOrder)
| UExec (m : Wire.OrderExecuted)
| UExecPrice (m : Wire.OrderExecutedPrice)
| UCancel (m : Wire.OrderCancel)
| UDel (m : Wire.OrderDelete)
| UReplace (m : Wire.OrderReplace).

Record Envelope := mkEnvelope { env_type : Z; env_payload : payload }.

(** [itch::AddOrder{}]. *)
Definition zero_add : Wire.AddOrder := Wire.mkAddOrder (Wire.mkHeader 0 0) 0 0 0 (replicate 9 0) 0.

(** The envelopes [QueueProducer]'s callbacks push. *)
Definition envelope (e : Wire.event) : Envelope :=
  match e with
  | Wire.EAdd m => mkEnvelope Wire.chA (UAdd m)
  | Wire.EExec m => mkEnvelope Wire.chE (UExec m)
  | Wire.EExecPrice m => mkEnvelope Wire.chC (UExecPrice m)
  | Wire.ECancel m => mkEnvelope Wire.chX (UCancel m)
  | Wire.EDelete m => mkEnvelope Wire.chD (UDel m)
  | Wire.EReplace m => mkEnvelope Wire.chU (UReplace m)
  | Wire.EOther t _ => mkEnvelope t (UAdd zero_add)
  end.

Section Consumer.
Context {B : Type} `{Book.BookOps B}.

(** Reading a member of the union that is not the active one is undefined. *)
Definition dispatch_to_book (env : Envelope) (h : Builder.BookBuilder B) : outcome (Builder.BookBuilder B) :=
  let t := env_type env in
  if (t =? Wire.chA) || (t =? Wire.chF) then
    match env_payload env with UAdd m => Builder.on_add m h | _ => UB end
  else if t =? Wire.chE then
    match env_payload env with UExec m => Builder.on_execute m h | _ => UB end
  else if t =? Wire.chC then
    match env_payload env with UExecPrice m => Builder.on_execute_price m h | _ => UB end
  else if t =? Wire.chX then
    match env_payload env with UCancel m => Builder.on_cancel m h | _ => UB end
  else if t =? Wire.chD then
    match env_payload env with UDel m => Builder.on_delete m h | _ => UB end
  else if t =? Wire.chU then
    match env_payload env with UReplace m => Builder.on_replace m h | _ => UB end
  else Builder.on_other t 0 h.

(** ** The two threads (threaded_replay.hpp) *)

Inductive p_phase :=
| Feeding      (** inside [decode]: about to make, or making, a push *)
| Measuring    (** pushed, about to poll [queue.size()] *)
| Stopped.     (** stored [producer_done] *)

Inductive c_phase :=
| Poll         (** the outer loop's [queue.pop] *)
| CheckDone    (** popped nothing, about to load [producer_done] *)
| Drain        (** the inner loop's [queue.pop] *)
| Finished.

Record pipeline := mkPipeline {
  ring : Spsc.system Envelope;
  todo : list Wire.event;
  p_at : p_phase;
  frames : nat;              (** [QueueProducer::frames] *)
  max_occupancy : Z;
  producer_done : bool;
  c_at : c_phase;
  builder : outcome (Builder.BookBuilder B);
  c_frames : nat }.          (** [ConsumerResult::frames] *)

(** The acquire load of [producer_done] makes every store of the parser
    thread, the last one to [tail_] included, visible. *)
Definition synchronise (s : Spsc.system Envelope) : Spsc.system Envelope :=
  Spsc.mkSystem (Spsc.buf s) (Spsc.head_hist s) (Spsc.tail_hist s) (Spsc.p_view s) (Spsc.p_pc s)
    (length (Spsc.tail_hist s) - 1) (Spsc.c_pc s) (Spsc.pushed s) (Spsc.popped s).

Definition popping (c : c_phase) : Prop := c = Poll \/ c = Drain.

Context (k : Z).

Inductive step : pipeline -> pipeline -> Prop :=
(** parser thread: [push_spin] on the next callback *)
| T_begin e es r r' n m d c b cf :
    Spsc.step k r (Spsc.PBegin (envelope e)) r' ->
    step (mkPipeline r (e :: es) Feeding n m d c b cf) (mkPipeline r' (e :: es) Feeding n m d c b cf)
| T_push_step es r r' n m d c b cf :
    Spsc.step k r Spsc.PTau r' ->
    step (mkPipeline r es Feeding n m d c b cf) (mkPipeline r' es Feeding n m d c b cf)
| T_full v es r r' n m d c b cf :
    Spsc.step k r (Spsc.PushFull v) r' ->
    step (mkPipeline r es Feeding n m d c b cf) (mkPipeline r' es Feeding n m d c b cf)
| T_push v e es r r' n m d c b cf :
    Spsc.step k r (Spsc.Push v) r' ->
    step (mkPipeline r (e :: es) Feeding n m d c b cf) (mkPipeline r' es Measuring n m d c b cf)
| T_size occ es r r' n m d c b cf :
    Spsc.step k r (Spsc.Size occ) r' ->
    step (mkPipeline r es Measuring n m d c b cf)
         (mkPipeline r' es Feeding (S n) (if m <? occ then occ else m) d c b cf)
| T_done r n m d c b cf :
    step (mkPipeline r [] Feeding n m d c b cf) (mkPipeline r [] Stopped n m true c b cf)
(** book-builder thread: [consume] *)
| T_pop_begin es p r r' n m d c b cf :
    popping c -> Spsc.step k r Spsc.CBegin r' ->
    step (mkPipeline r es p n m d c b cf) (mkPipeline r' es p n m d c b cf)
| T_pop_step es p r r' n m d c b cf :
    popping c -> Spsc.step k r Spsc.CTau r' ->
    step (mkPipeline r es p n m d c b cf) (mkPipeline r' es p n m d c b cf)
| T_pop env es p r r' n m d c b cf :
    popping c -> Spsc.step k r (Spsc.Pop env) r' ->
    step (mkPipeline r es p n m d c b cf) (mkPipeline r' es p n m d c (b ≫= dispatch_to_book env) (S cf))
| T_poll_empty es p r r' n m d b cf :
    Spsc.step k r Spsc.PopEmpty r' ->
    step (mkPipeline r es p n m d Poll b cf) (mkPipeline r' es p n m d CheckDone b cf)
| T_not_done es p r n m d b cf :
    step (mkPipeline r es p n m d CheckDone b cf) (mkPipeline r es p n m d Poll b cf)
| T_see_done es p r n m b cf :
    step (mkPipeline r es p n m true CheckDone b cf) (mkPipeline (synchronise r) es p n m true Drain b cf)
| T_drained es p r r' n m d b cf :
    Spsc.step k r Spsc.PopEmpty r' ->
    step (mkPipeline r es p n m d Drain b cf) (mkPipeline r' es p n m d Finished b cf).

(** [run_pipeline] as it starts, for an input that makes the callbacks [es]. *)
Definition start (buf : list Envelope) (es : list Wire.event) : pipeline :=
  mkPipeline (Spsc.start buf) es Feeding 0 0 false Poll (Ok Builder.init) 0.

Inductive reachable (buf : list Envelope) (es : list Wire.event) : pipeline -> Prop :=
| reach_start : reachable buf es (start buf es)
| reach_step s s' : reachable buf es s -> step s s' -> reachable buf es s'.

(** ** The invariant *)

Hypothesis Hk : 0 <= k <= 63.

Definition replay (envs : list Envelope) : outcome (Builder.BookBuilder B) :=
  foldl (fun b env => b ≫= dispatch_to_book env) (Ok Builder.init) envs.

(** The value inside an unfinished push is the next callback's. *)
Definition pending (s : pipeline) : Prop :=
  match Spsc.p_pc (ring s) with
  | Spsc.PIdle => True
  | Spsc.PLoaded v _ | Spsc.PFree v _ | Spsc.PWritten v _ =>
      p_at s = Feeding /\ exists e es, todo s = e :: es /\ v = envelope e
  end.

Record pipe_inv (es : list Wire.event) (s : pipeline) : Prop := {
  t_ring : Spsc.ring_inv k (ring s);
  t_pushed : exists sent, es = sent ++ todo s /\ Spsc.pushed (ring s) = envelope <$> sent;
  t_pending : pending s;
  t_builder : builder s = replay (Spsc.popped (ring s));
  t_c_frames : c_frames s = length (Spsc.popped (ring s));
  t_frames : (frames s + (if p_at s is Measuring then 1 else 0) = length (Spsc.pushed (ring s)))%nat;
  t_max : 0 <= max_occupancy s < Spsc.capacity k;
  t_stopped : producer_done s = true <-> p_at s = Stopped;
  t_done : p_at s = Stopped -> todo s = [];
  t_drain : c_at s = Drain \/ c_at s = Finished ->
    producer_done s = true /\ Spsc.c_view (ring s) = length (Spsc.pushed (ring s));
  t_finished : c_at s = Finished -> Spsc.popped (ring s) = Spsc.pushed (ring s) }.

Lemma synchronise_inv (r : Spsc.system Envelope) : Spsc.ring_inv k r -> Spsc.ring_inv k (synchronise r) /\
  Spsc.c_view (synchronise r) = length (Spsc.pushed r).
Proof.
  intros [Hb Hh Ht Hpv Hcv Hroom Hdata Hfifo Hp Hc]. pose proof Ht as [Hlen Hv].
  assert (Spsc.c_view (synchronise r) = length (Spsc.pushed r)) as Hview by (unfold synchronise; cbn; lia).
  split; [|done]. constructor; cbn [synchronise Spsc.buf Spsc.head_hist Spsc.tail_hist Spsc.p_view Spsc.pushed Spsc.popped];
    try done; [rewrite Hview; lia|].
  unfold Spsc.c_inv in *. rewrite Hview. cbn. destruct (Spsc.c_pc r); try done; destruct Hc as [-> Hc]; split; try done.
  - lia.
  - destruct Hc as [? ?]. split; [lia|done].
Qed.

(** What a ring step by the consumer leaves alone, and by the producer. *)
Lemma ring_frame (r : Spsc.system Envelope) l r' : Spsc.step k r l r' ->
  match l with
  | Spsc.PBegin v => Spsc.pushed r' = Spsc.pushed r /\ Spsc.popped r' = Spsc.popped r /\ Spsc.c_view r' = Spsc.c_view r /\
      exists tail, Spsc.p_pc r' = Spsc.PLoaded v tail
  | Spsc.PTau => Spsc.pushed r' = Spsc.pushed r /\ Spsc.popped r' = Spsc.popped r /\ Spsc.c_view r' = Spsc.c_view r /\
      exists v tail, (Spsc.p_pc r = Spsc.PLoaded v tail /\ Spsc.p_pc r' = Spsc.PFree v tail) \/
                     (Spsc.p_pc r = Spsc.PFree v tail /\ Spsc.p_pc r' = Spsc.PWritten v tail)
  | Spsc.PushFull _ | Spsc.Size _ =>
      Spsc.pushed r' = Spsc.pushed r /\ Spsc.popped r' = Spsc.popped r /\ Spsc.c_view r' = Spsc.c_view r /\ Spsc.p_pc r' = Spsc.PIdle
  | Spsc.Push v => Spsc.pushed r' = Spsc.pushed r ++ [v] /\ Spsc.popped r' = Spsc.popped r /\ Spsc.c_view r' = Spsc.c_view r /\
      Spsc.p_pc r' = Spsc.PIdle /\ exists tail, Spsc.p_pc r = Spsc.PWritten v tail
  | Spsc.Pop x => Spsc.pushed r' = Spsc.pushed r /\ Spsc.popped r' = Spsc.popped r ++ [x] /\ Spsc.p_pc r' = Spsc.p_pc r /\ Spsc.c_view r' = Spsc.c_view r
  | _ => Spsc.pushed r' = Spsc.pushed r /\ Spsc.popped r' = Spsc.popped r /\ Spsc.p_pc r' = Spsc.p_pc r /\ (Spsc.c_view r <= Spsc.c_view r')%nat
  end.
Proof. destruct 1; cbn; split_and!; eauto 6; match goal with H : Spsc.can_load _ _ _ _ |- _ => apply H end. Qed.

Lemma replay_snoc envs env : replay (envs ++ [env]) = replay envs ≫= dispatch_to_book env.
Proof. unfold replay. by rewrite foldl_app. Qed.

Lemma pipe_start_inv buf es : length buf = Z.to_nat (Spsc.capacity k) -> pipe_inv es (start buf es).
Proof.
  intros Hb. pose proof (Spsc.capacity_pos k Hk). constructor; cbn; try done; try lia.
  - by apply Spsc.start_inv.
  - by exists [].
  - by intros [|].
Qed.

(** The parser's push reaches the ring: the callback is sent. *)
Lemma push_published v all e es r r' n m d c b cf : Spsc.step k r (Spsc.Push v) r' ->
  pipe_inv all (mkPipeline r (e :: es) Feeding n m d c b cf) -> pipe_inv all (mkPipeline r' es Measuring n m d c b cf).
Proof.
  intros Hs0 [Hr Hpu Hpe Hb Hcf Hf Hm Hst Hdn Hdr Hfin]. cbn in *.
  pose proof (ring_frame _ _ _ Hs0) as (Ep & Eo & Ev & Epc & tail & Epc0). pose proof (Spsc.step_inv k Hk _ _ _ Hs0 Hr) as Hr'.
  unfold pending in Hpe. cbn in Hpe. rewrite Epc0 in Hpe.
  destruct Hpe as (_ & e' & es' & [= <- <-] & ->). destruct Hpu as (sent & -> & Hsent).
  assert (d = false) as -> by (destruct d; [apply proj1 in Hst; discriminate Hst; done|done]).
  constructor; cbn; rewrite ?Ep, ?Eo, ?Ev; try done.
  - exists (sent ++ [e]). rewrite <- app_assoc. split; [done|]. by rewrite fmap_app, Hsent.
  - unfold pending. cbn. by rewrite Epc.
  - rewrite length_app. cbn. lia.
  - intros Hc. destruct (Hdr Hc) as [Hc' _]. discriminate Hc'.
  - intros Hc. destruct (Hdr (or_intror Hc)) as [Hc' _]. discriminate Hc'.
Qed.

(** The consumer finds the ring empty after the parser is done: everything
    sent has been dispatched. *)
Lemma drained_all es p r r' todo n m d b cf : Spsc.step k r Spsc.PopEmpty r' ->
  pipe_inv es (mkPipeline r todo p n m d Drain b cf) -> pipe_inv es (mkPipeline r' todo p n m d Finished b cf).
Proof.
  intros Hs0 [Hr Hpu Hpe Hb Hcf Hf Hm Hst Hdn Hdr Hfin]. cbn in *. pose proof (ring_frame _ _ _ Hs0) as (Ep & Eo & Epc & Ev).
  pose proof (Spsc.step_inv k Hk _ _ _ Hs0 Hr) as Hr'. pose proof (Spsc.step_facts k Hk _ _ _ Hs0 Hr) as Hfacts. cbn in Hfacts.
  destruct (Hdr (or_introl eq_refl)) as [-> Hv]. pose proof (Spsc.r_cview k _ Hr') as Hcv. rewrite Ep in Hcv.
  constructor; cbn; rewrite ?Ep, ?Eo; try done.
  - unfold pending in *. cbn in *. by rewrite Epc.
  - intros _. split; [done|lia].
  - intros _. pose proof (Spsc.r_fifo k _ Hr') as Hfifo. rewrite Eo, Ep in Hfifo.
    rewrite Hfifo. apply take_ge. rewrite Eo in Hfacts. lia.
Qed.

(** A step of the consumer's pop that takes nothing yet. *)
Lemma consumer_quiet l es p r r' todo n m d c b cf : l = Spsc.CBegin \/ l = Spsc.CTau -> Spsc.step k r l r' ->
  pipe_inv es (mkPipeline r todo p n m d c b cf) -> pipe_inv es (mkPipeline r' todo p n m d c b cf).
Proof.
  intros Hl Hs0 [Hr Hpu Hpe Hb Hcf Hf Hm Hst Hdn Hdr Hfin]. cbn in *. pose proof (Spsc.step_inv k Hk _ _ _ Hs0 Hr) as Hr'.
  assert (Spsc.pushed r' = Spsc.pushed r /\ Spsc.popped r' = Spsc.popped r /\ Spsc.p_pc r' = Spsc.p_pc r /\
    (Spsc.c_view r <= Spsc.c_view r')%nat) as (Ep & Eo & Epc & Ev) by (pose proof (ring_frame _ _ _ Hs0); by destruct Hl as [-> | ->]).
  pose proof (Spsc.r_cview k _ Hr') as Hcv. constructor; cbn; rewrite ?Ep, ?Eo; try done.
  - unfold pending in *. cbn in *. by rewrite Epc.
  - intros Hc. destruct (Hdr Hc) as [-> Hv]. rewrite Ep in Hcv. split; [done|lia].
Qed.

Lemma pipe_step_inv es s s' : step s s' -> pipe_inv es s -> pipe_inv es s'.
Proof.
  intros Hstep Hinv. destruct Hstep; [| | |by eapply push_published| | |by eapply consumer_quiet; [left|..]
    |by eapply consumer_quiet; [right|..]| | | | |by eapply drained_all].
  all: destruct Hinv as [Hr Hpu Hpe Hb Hcf Hf Hm Hst Hdn Hdr Hfin]; cbn in *;
    try (match goal with H : Spsc.step _ _ _ _ |- _ =>
      pose proof (ring_frame _ _ _ H) as Hfr; pose proof (Spsc.step_inv k Hk _ _ _ H Hr) as Hr';
      pose proof (Spsc.step_facts k Hk _ _ _ H Hr) as Hfacts; cbn in Hfr, Hfacts end).
  - destruct Hfr as (Ep & Eo & Ev & tail & Epc). constructor; cbn; rewrite ?Ep, ?Eo, ?Ev; try done.
    unfold pending. cbn. rewrite Epc. eauto.
  - destruct Hfr as (Ep & Eo & Ev & v & tail & Epc). constructor; cbn; rewrite ?Ep, ?Eo, ?Ev; try done.
    unfold pending in *. cbn in *. destruct Epc as [[E1 E2]|[E1 E2]]; rewrite E1 in Hpe; by rewrite E2.
  - destruct Hfr as (Ep & Eo & Ev & Epc). constructor; cbn; rewrite ?Ep, ?Eo, ?Ev; try done.
    unfold pending. cbn. by rewrite Epc.
  - destruct Hfr as (Ep & Eo & Ev & Epc). constructor; cbn; rewrite ?Ep, ?Eo, ?Ev; try done; try lia.
    + unfold pending. cbn. by rewrite Epc.
    + destruct (Z.ltb_spec m occ); lia.
    + destruct d; [apply proj1 in Hst; discriminate Hst; done|]. done.
  - constructor; cbn; try done.
    + unfold pending in *. cbn in *. destruct (Spsc.p_pc r); try done; by destruct Hpe as (_ & ? & ? & ? & _).
    + intros Hc. destruct (Hdr Hc) as [-> Hc']. by destruct (proj1 Hst eq_refl).
  - destruct Hfr as (Ep & Eo & Epc & Ev). constructor; cbn; rewrite ?Ep, ?Eo, ?Ev; try done.
    + unfold pending in *. cbn in *. by rewrite Epc.
    + by rewrite replay_snoc, Hb.
    + rewrite length_app, Hcf. cbn. lia.
    + intros ->. match goal with H : popping Finished |- _ => destruct H; discriminate end.
  - destruct Hfr as (Ep & Eo & Epc & Ev). constructor; cbn; rewrite ?Ep, ?Eo; try done.
    + unfold pending in *. cbn in *. by rewrite Epc.
    + by intros [|].
  - constructor; cbn; try done. by intros [|].
  - destruct (synchronise_inv r Hr) as [Hs Hv]. constructor; cbn; try done.
Qed.

Lemma pipe_reachable_inv buf es s : length buf = Z.to_nat (Spsc.capacity k) -> reachable buf es s -> pipe_inv es s.
Proof. intros Hb. induction 1 as [|s s' _ IH Hstep]; [by apply pipe_start_inv | by eapply pipe_step_inv]. Qed.

(** ** The pipeline can always run to its end *)

Lemma indices_latest hist n : Spsc.indices k hist n ->
  hist !! n = Some (Z.of_nat n mod Spsc.capacity k) /\ last hist = Some (Z.of_nat n mod Spsc.capacity k).
Proof.
  intros [Hl Hi]. destruct (lookup_lt_is_Some_2 hist n ltac:(lia)) as [v Hv].
  rewrite last_lookup, Hl. cbn [pred]. by rewrite Hv, <- (Hi n v Hv).
Qed.

(** Consumer steps inside one [pop] do not look at the rest of the state. *)
Definition consumer_path (r r' : Spsc.system Envelope) : Prop :=
  forall es p n m d c b cf, popping c ->
    exists b' cf', rtc step (mkPipeline r es p n m d c b cf) (mkPipeline r' es p n m d c b' cf').

Lemma consumer_path_step r l r' r'' : Spsc.step k r l r' ->
  match l with Spsc.CBegin | Spsc.CTau | Spsc.Pop _ => True | _ => False end ->
  consumer_path r' r'' -> consumer_path r r''.
Proof.
  intros Hstep Hl Hpath es p n m d c b cf Hc. destruct l as [v| |v|v|v| | |x|]; try done.
  - destruct (Hpath es p n m d c b cf Hc) as (b' & cf' & Hs). exists b', cf'.
    eapply rtc_l; [by eapply T_pop_begin|done].
  - destruct (Hpath es p n m d c b cf Hc) as (b' & cf' & Hs). exists b', cf'.
    eapply rtc_l; [by eapply T_pop_step|done].
  - destruct (Hpath es p n m d c (b ≫= dispatch_to_book x) (S cf) Hc) as (b' & cf' & Hs). exists b', cf'.
    eapply rtc_l; [by eapply T_pop|done].
Qed.

Lemma consumer_path_refl r : consumer_path r r.
Proof. intros es p n m d c b cf _. exists b, cf. apply rtc_refl. Qed.

(** A non-empty ring lets the consumer complete a pop, wherever it is. *)
Lemma pop_one (r : Spsc.system Envelope) : Spsc.ring_inv k r ->
  (length (Spsc.popped r) < length (Spsc.pushed r))%nat ->
  exists r', consumer_path r r' /\ Spsc.pushed r' = Spsc.pushed r /\
    length (Spsc.popped r') = S (length (Spsc.popped r)) /\ Spsc.p_pc r' = Spsc.p_pc r /\ Spsc.ring_inv k r'.
Proof.
  remember (match Spsc.c_pc r with Spsc.CIdle => 3 | Spsc.CLoaded _ => 2 | Spsc.CReady _ => 1 | Spsc.CGot _ _ => 0 end)%nat as w.
  revert r Heqw. induction w as [w IH] using lt_wf_ind. intros r -> Hr Hlt. pose proof Hr as [Hb Hh Ht Hpv Hcv Hroom Hdata Hfifo Hp Hc].
  destruct (indices_latest _ _ Hh) as [Hh1 Hh2], (indices_latest _ _ Ht) as [Ht1 Ht2].
  assert (forall l r', Spsc.step k r l r' -> match l with Spsc.CBegin | Spsc.CTau => True | _ => False end ->
    (match Spsc.c_pc r' with Spsc.CIdle => 3 | Spsc.CLoaded _ => 2 | Spsc.CReady _ => 1 | Spsc.CGot _ _ => 0 end <
     match Spsc.c_pc r with Spsc.CIdle => 3 | Spsc.CLoaded _ => 2 | Spsc.CReady _ => 1 | Spsc.CGot _ _ => 0 end)%nat ->
    exists r'', consumer_path r r'' /\ Spsc.pushed r'' = Spsc.pushed r /\
      length (Spsc.popped r'') = S (length (Spsc.popped r)) /\ Spsc.p_pc r'' = Spsc.p_pc r /\ Spsc.ring_inv k r'') as Hnext.
  { intros l r' Hstep Hl Hw. pose proof (ring_frame _ _ _ Hstep) as Hf.
    assert (Spsc.pushed r' = Spsc.pushed r /\ Spsc.popped r' = Spsc.popped r /\ Spsc.p_pc r' = Spsc.p_pc r) as (Ep & Eo & Epc)
      by (destruct l; done || tauto).
    destruct (IH _ Hw r' eq_refl) as (r'' & Hpath & H1 & H2 & H3 & H4).
    - by eapply Spsc.step_inv.
    - by rewrite Ep, Eo.
    - exists r''. split; [eapply consumer_path_step; [done|by destruct l|done]|]. rewrite H1, H2, H3, Ep, Eo, Epc. done. }
  destruct r as [b hh th pv pp cv [|head|head|x head] pu po]; unfold Spsc.c_inv in Hc; cbn in *.
  - eapply Hnext; [by eapply Spsc.C_load| done|cbn; lia].
  - subst head. eapply Hnext; [eapply (Spsc.C_ready k _ _ (length pu)); [split; [lia|done]|]|done|cbn; lia].
    intros E. apply Spsc.wrap_inj in E; lia.
  - destruct Hc as [-> Hc]. destruct (lookup_lt_is_Some_2 pu (length po) ltac:(lia)) as [x Hx].
    eapply Hnext; [eapply (Spsc.C_read k _ x)|done|cbn; lia].
    change (b !! Spsc.slot k (length po) = Some x). rewrite Hdata by lia. done.
  - eexists. split; [eapply consumer_path_step; [apply Spsc.C_publish|done|apply consumer_path_refl]|].
    cbn. rewrite length_app. cbn. split_and!; try done; [lia|].
    refine (Spsc.step_inv k Hk _ _ _ (Spsc.C_publish k head x b hh th pv pp cv pu po) Hr).
Qed.

Lemma drain_ring (r : Spsc.system Envelope) : Spsc.ring_inv k r ->
  exists r', (forall es p n m d c b cf, popping c ->
      exists b' cf', rtc step (mkPipeline r es p n m d c b cf) (mkPipeline r' es p n m d c b' cf')) /\
    length (Spsc.popped r') = length (Spsc.pushed r') /\ Spsc.ring_inv k r'.
Proof.
  remember (length (Spsc.pushed r) - length (Spsc.popped r))%nat as w. revert r Heqw.
  induction w as [|w IH]; intros r Hw Hr; pose proof (Spsc.r_cview k r Hr) as Hcv.
  - exists r. split; [apply consumer_path_refl|]. split; [lia|done].
  - destruct (pop_one r Hr ltac:(lia)) as (r1 & Hpath & Hpu & Hpo & _ & Hr1).
    destruct (IH r1 ltac:(rewrite Hpu; lia) Hr1) as (r' & Hpath' & Heq & Hr').
    exists r'. split; [|done]. intros es p n m d c b cf Hc.
    destruct (Hpath es p n m d c b cf Hc) as (b1 & cf1 & H1).
    destruct (Hpath' es p n m d c b1 cf1 Hc) as (b2 & cf2 & H2). exists b2, cf2. by etrans.
Qed.

(** The parser advances past the next callback when the ring is empty. *)
Lemma push_one es e s : 1 <= k -> pipe_inv es s -> p_at s = Feeding -> hd_error (todo s) = Some e ->
  length (Spsc.popped (ring s)) = length (Spsc.pushed (ring s)) ->
  exists s', rtc step s s' /\ pipe_inv es s' /\ length (todo s) = S (length (todo s')) /\
    p_at s' = Feeding /\ c_at s' = c_at s.
Proof.
  intros Hk1 Hinv Hp He Hempty.
  assert (2 <= Spsc.capacity k) as Hcap2 by (unfold Spsc.capacity; apply (Z.pow_le_mono_r 2 1); lia).
  remember (match Spsc.p_pc (ring s) with Spsc.PIdle => 3 | Spsc.PLoaded _ _ => 2 | Spsc.PFree _ _ => 1 | Spsc.PWritten _ _ => 0 end)%nat as w.
  revert s Heqw Hinv Hp He Hempty. induction w as [w IH] using lt_wf_ind. intros s -> Hinv Hp He Hempty.
  assert (forall s', step s s' -> todo s' = todo s -> p_at s' = Feeding -> c_at s' = c_at s ->
    length (Spsc.popped (ring s')) = length (Spsc.pushed (ring s')) ->
    (match Spsc.p_pc (ring s') with Spsc.PIdle => 3 | Spsc.PLoaded _ _ => 2 | Spsc.PFree _ _ => 1 | Spsc.PWritten _ _ => 0 end <
     match Spsc.p_pc (ring s) with Spsc.PIdle => 3 | Spsc.PLoaded _ _ => 2 | Spsc.PFree _ _ => 1 | Spsc.PWritten _ _ => 0 end)%nat ->
    exists s'', rtc step s s'' /\ pipe_inv es s'' /\ length (todo s) = S (length (todo s'')) /\
      p_at s'' = Feeding /\ c_at s'' = c_at s) as Hnext.
  { intros s' Hstep Htd Hp' Hca Hemp Hw.
    destruct (IH _ Hw s' eq_refl) as (s'' & H1 & H2 & H3 & H4 & H5); try done; [by eapply pipe_step_inv|by rewrite Htd|].
    exists s''. rewrite <- Htd, <- Hca. split_and!; try done. by eapply rtc_l. }
  pose proof Hinv as [Hr _ Hpe _ _ _ _ _ _ _ _]. pose proof Hr as [_ Hh Ht Hpv _ _ _ _ Hpi _].
  destruct (indices_latest _ _ Hh) as [Hh1 Hh2], (indices_latest _ _ Ht) as [Ht1 Ht2].
  destruct s as [r [|e' td] p n m d c b cf]; [done|]. cbn in *. subst p. injection He as ->.
  unfold pending in Hpe. cbn in Hpe.
  destruct r as [bf hh th pv [|v tail|v tail|v tail] cv cc pu po]; unfold Spsc.p_inv in Hpi; cbn in *.
  - eapply (Hnext (mkPipeline _ _ _ _ _ _ _ _ _)); [eapply T_begin; by eapply Spsc.P_load|done..|cbn; lia].
  - subst tail. eapply (Hnext (mkPipeline _ _ _ _ _ _ _ _ _));
      [eapply T_push_step; eapply (Spsc.P_free k v _ _ (length po)); [split; [lia|done]|]|done..|cbn; lia].
    rewrite Spsc.next_mod by done. intros E. symmetry in E. apply Spsc.wrap_inj in E; lia.
  - eapply (Hnext (mkPipeline _ _ _ _ _ _ _ _ _)); [eapply T_push_step; by eapply Spsc.P_write|done..|cbn; lia].
  - pose proof (T_push v e td _ _ n m d c b cf (Spsc.P_publish k v tail bf hh th pv cv cc pu po)) as Hstep.
    pose proof (pipe_step_inv es _ _ Hstep Hinv) as Hinv1. pose proof (t_ring _ _ Hinv1) as [_ Hh' Ht' Hpv' _ _ _ _ _ _]. cbn in Hh', Ht', Hpv'.
    destruct (indices_latest _ _ Hh') as [Hh1' _], (indices_latest _ _ Ht') as [_ Ht2'].
    pose proof (T_size _ td _ _ n m d c b cf (Spsc.P_size k _ _ (length po) bf hh _ pv cv cc (pu ++ [v]) po Ht2' (conj Hpv' Hh1'))) as Hstep2.
    eexists. split; [eapply rtc_l; [exact Hstep|]; eapply rtc_l; [exact Hstep2|apply rtc_refl]|].
    split_and!; try done. by eapply pipe_step_inv.
Qed.

(** A feeding parser and a popping consumer get through the whole input. *)
Lemma feed_all es s : 1 <= k -> pipe_inv es s -> p_at s = Feeding -> popping (c_at s) ->
  exists s', rtc step s s' /\ pipe_inv es s' /\ todo s' = [] /\ p_at s' = Feeding /\ c_at s' = c_at s.
Proof.
  intros Hk1. remember (length (todo s)) as w. revert s Heqw. induction w as [|w IH]; intros s Hw Hinv Hp Hc.
  { exists s. split; [apply rtc_refl|]. split_and!; try done. by destruct (todo s). }
  destruct (drain_ring (ring s) (t_ring es s Hinv)) as (r' & Hpath & Hempty & _).
  destruct s as [r [|e td] p n m d c b cf]; cbn in *; [done|]. subst p.
  destruct (Hpath (e :: td) Feeding n m d c b cf Hc) as (b1 & cf1 & H1).
  assert (pipe_inv es (mkPipeline r' (e :: td) Feeding n m d c b1 cf1)) as Hinv1
    by (clear -H1 Hinv Hk; induction H1; [done|]; eauto using pipe_step_inv).
  destruct (push_one es e _ Hk1 Hinv1 eq_refl eq_refl Hempty) as (s2 & H2 & Hinv2 & Hlen & Hp2 & Hc2). cbn in Hlen, Hc2.
  destruct (IH s2 ltac:(lia) Hinv2 Hp2 ltac:(by rewrite Hc2)) as (s3 & H3 & Hinv3 & Ht3 & Hp3 & Hc3).
  exists s3. split; [etrans; [exact H1|]; by etrans|]. split_and!; try done. congruence.
Qed.

(** With the ring empty the consumer reports it, wherever it is in a pop. *)
Lemma pop_empty (r : Spsc.system Envelope) : Spsc.ring_inv k r ->
  length (Spsc.popped r) = length (Spsc.pushed r) ->
  exists r1 r2, Spsc.step k r1 Spsc.PopEmpty r2 /\ (r1 = r \/ Spsc.step k r Spsc.CBegin r1).
Proof.
  intros Hr Heq. pose proof Hr as [_ Hh Ht _ Hcv _ _ _ _ Hc].
  destruct (indices_latest _ _ Hh) as [Hh1 Hh2], (indices_latest _ _ Ht) as [Ht1 Ht2].
  destruct r as [b hh th pv pp cv cc pu po]. cbn in *. rewrite Heq in *.
  assert (forall pc, exists r2, Spsc.step k (Spsc.mkSystem b hh th pv pp cv (Spsc.CLoaded (Z.of_nat (length pu) mod Spsc.capacity k)) pu pc) Spsc.PopEmpty r2) as Hemp.
  { intros pc. eexists. eapply (Spsc.C_empty k _ (length pu)). split; [lia|done]. }
  unfold Spsc.c_inv in Hc. cbn in Hc. rewrite ?Heq in Hc. destruct cc as [|head|head|x head].
  - destruct (Hemp po) as [r2 H2]. eexists _, r2. split; [exact H2|]. right. by apply Spsc.C_load.
  - subst head. destruct (Hemp po) as [r2 H2]. eexists _, r2. split; [exact H2|]. by left.
  - lia.
  - lia.
Qed.

(** One report of an empty ring moves the consumer on. *)
Lemma empty_moves es s : pipe_inv es s -> popping (c_at s) -> p_at s = Stopped ->
  length (Spsc.popped (ring s)) = length (Spsc.pushed (ring s)) ->
  exists s', rtc step s s' /\ pipe_inv es s' /\ p_at s' = Stopped /\
    length (Spsc.popped (ring s')) = length (Spsc.pushed (ring s')) /\
    c_at s' = match c_at s with Poll => Drain | _ => Finished end.
Proof.
  intros Hinv Hc Hp Heq. destruct (pop_empty _ (t_ring _ _ Hinv) Heq) as (r1 & r2 & Hemp & Hbeg).
  pose proof (ring_frame _ _ _ Hemp) as (Ep & Eo & _).
  assert (length (Spsc.popped r2) = length (Spsc.pushed r2)) as Heq2.
  { rewrite Ep, Eo. destruct Hbeg as [->|Hbeg]; [done|]. apply ring_frame in Hbeg as (-> & -> & _). done. }
  pose proof (proj2 (t_stopped _ _ Hinv) Hp) as Hd.
  destruct s as [r td p n m d c b cf]; cbn in *. subst p d.
  assert (rtc step (mkPipeline r td Stopped n m true c b cf) (mkPipeline r1 td Stopped n m true c b cf)) as H1.
  { destruct Hbeg as [->|Hbeg]; [apply rtc_refl|]. eapply rtc_once. by eapply T_pop_begin. }
  assert (forall s', rtc step (mkPipeline r td Stopped n m true c b cf) s' -> pipe_inv es s') as Hall
    by (intros s'; revert Hinv; clear -Hk; intros Hinv; induction 1; eauto using pipe_step_inv).
  destruct Hc as [->| ->].
  - eexists. assert (rtc step (mkPipeline r td Stopped n m true Poll b cf)
      (mkPipeline (synchronise r2) td Stopped n m true Drain b cf)) as H2.
    { etrans; [exact H1|]. eapply rtc_l; [by eapply T_poll_empty|]. eapply rtc_once, T_see_done. }
    split; [exact H2|]. split; [by apply Hall|]. done.
  - eexists. assert (rtc step (mkPipeline r td Stopped n m true Drain b cf)
      (mkPipeline r2 td Stopped n m true Finished b cf)) as H2.
    { etrans; [exact H1|]. eapply rtc_once. by eapply T_drained. }
    split; [exact H2|]. split; [by apply Hall|]. done.
Qed.

Lemma rtc_inv es s s' : rtc step s s' -> pipe_inv es s -> pipe_inv es s'.
Proof. induction 1; eauto using pipe_step_inv. Qed.

(** Once the parser has stopped the consumer can finish. *)
Lemma finish_stopped es s : pipe_inv es s -> popping (c_at s) -> p_at s = Stopped ->
  exists s', rtc step s s' /\ c_at s' = Finished.
Proof.
  intros Hinv Hc Hp. destruct (drain_ring (ring s) (t_ring es s Hinv)) as (r' & Hpath & Hempty & _).
  destruct s as [r td p n m d c b cf]; cbn in *. subst p.
  destruct (Hpath td Stopped n m d c b cf Hc) as (b1 & cf1 & H1).
  destruct (empty_moves es _ (rtc_inv es _ _ H1 Hinv) Hc eq_refl Hempty) as (s2 & H2 & Hinv2 & Hp2 & Heq2 & Hc2).
  cbn in Hc2. destruct Hc as [->| ->].
  - destruct (empty_moves es s2 Hinv2 ltac:(rewrite Hc2; by right) Hp2 Heq2) as (s3 & H3 & _ & _ & _ & Hc3).
    exists s3. rewrite Hc2 in Hc3. split; [|done]. etrans; [exact H1|]. by etrans.
  - exists s2. split; [by etrans|done].
Qed.

Lemma can_finish es s : 1 <= k -> pipe_inv es s -> exists s', rtc step s s' /\ c_at s' = Finished.
Proof.
  intros Hk1 Hinv.
  (* bring the consumer to a pop *)
  assert (c_at s = Finished \/ exists s1, rtc step s s1 /\ popping (c_at s1) /\ p_at s1 = p_at s) as [?|(s1 & H1 & Hc1 & Hp1)].
  { destruct s as [r td p n m d [] b cf]; cbn; [|right..|by left].
    - right. eexists. split; [apply rtc_refl|]. split; [by left|done].
    - eexists. split; [eapply rtc_once, T_not_done|]. split; [by left|done].
    - eexists. split; [apply rtc_refl|]. split; [by right|done]. }
  { by exists s. }
  pose proof (rtc_inv es _ _ H1 Hinv) as Hinv1.
  (* bring the parser to its end *)
  assert (p_at s1 = Stopped \/ exists s2, rtc step s1 s2 /\ popping (c_at s2) /\ p_at s2 = Feeding) as [Hstop|(s2 & H2 & Hc2 & Hp2)].
  { destruct (p_at s1) eqn:Ep; [right; exists s1; split; [apply rtc_refl|done]| |by left]. right.
    pose proof Hinv1 as [Hr _ Hpe _ _ _ _ _ _ _ _]. pose proof Hr as [_ Hh Ht Hpv _ _ _ _ _ _].
    destruct (indices_latest _ _ Hh) as [Hh1 _], (indices_latest _ _ Ht) as [_ Ht2].
    destruct s1 as [[bf hh th pv pp cv cc pu po] td p n m d c b cf]; unfold pending in Hpe; cbn in *. subst p.
    destruct pp; [|by destruct Hpe as [? _]..].
    eexists. split; [eapply rtc_once, T_size, (Spsc.P_size k _ _ (length po)); [done|split; done]|]. done. }
  - destruct (finish_stopped es s1 Hinv1 Hc1 Hstop) as (s' & H' & Hf). exists s'. split; [by etrans|done].
  - pose proof (rtc_inv es _ _ H2 Hinv1) as Hinv2.
    destruct (feed_all es s2 Hk1 Hinv2 Hp2 Hc2) as (s3 & H3 & Hinv3 & Ht3 & Hp3 & Hc3).
    assert (exists s4, step s3 s4 /\ p_at s4 = Stopped /\ c_at s4 = c_at s3) as (s4 & H4 & Hp4 & Hc4).
    { destruct s3 as [r td p n m d c b cf]; cbn in *. subst. eexists. split; [apply T_done|done]. }
    destruct (finish_stopped es s4) as (s' & H' & Hf); [by eapply pipe_step_inv|by rewrite Hc4, Hc3|done|].
    exists s'. split; [|done]. etrans; [exact H1|]. etrans; [exact H2|]. etrans; [exact H3|]. by eapply rtc_l.
Qed.

(** A frame the decoder skips is handed over faithfully only when its type
    byte is not one of the decoded types. *)
Definition clean (e : Wire.event) : Prop :=
  match e with Wire.EOther t _ => Wire.wire_size t = -1 | _ => True end.

Lemma dispatch_envelope e h : clean e -> dispatch_to_book (envelope e) h = Builder.on_event e h.
Proof.
  destruct e as [m|m|m|m|m|m|t n]; try reflexivity. intros Ht. unfold dispatch_to_book. cbn [envelope env_type env_payload].
  destruct ((t =? Wire.chA) || (t =? Wire.chF)) eqn:E1.
  { apply orb_true_iff in E1 as [->%Z.eqb_eq| ->%Z.eqb_eq]; discriminate Ht. }
  repeat (case_match; [match goal with E : (t =? _) = true |- _ => apply Z.eqb_eq in E as ->; discriminate Ht end|]).
  reflexivity.
Qed.

Lemma replay_events es : Forall clean es ->
  replay (envelope <$> es) = foldl Wire.apply_event (Ok Builder.init) es.
Proof.
  intros Hes. unfold replay. generalize (Ok (Builder.init (B := B))) as h.
  induction Hes as [|e es He _ IH]; intros h; [done|]. cbn [fmap list_fmap foldl]. rewrite IH. f_equal.
  destruct h as [h| | |]; [|by destruct e..]. cbn [mbind outcome_bind]. by rewrite dispatch_envelope.
Qed.

(** What a finished run leaves. *)
Lemma finished_ok (buf : list Envelope) (es : list Wire.event) (s : pipeline) :
  length buf = Z.to_nat (Spsc.capacity k) -> reachable buf es s -> c_at s = Finished ->
  builder s = replay (envelope <$> es) /\ c_frames s = length es /\ frames s = length es /\
  p_at s = Stopped /\ 0 <= max_occupancy s < Spsc.capacity k.
Proof.
  intros Hbuf Hs Hfin.
  destruct (pipe_reachable_inv buf es s Hbuf Hs) as [Hr (sent & Hes & Hsent) _ Hb Hcf Hf Hm Hst Hdn Hdr Hfi].
  destruct (Hdr (or_intror Hfin)) as [Hd _]. apply Hst in Hd. specialize (Hdn Hd). specialize (Hfi Hfin).
  rewrite Hdn, app_nil_r in Hes. subst sent. rewrite Hb, Hcf, Hfi, Hsent, length_fmap.
  rewrite Hd, Hsent, length_fmap in Hf. split_and!; try done; lia.
Qed.

(** ** Properties *)

(** C7: whatever the interleaving, when the book-builder thread has finished,
    every callback of the parser has been pushed, popped and dispatched exactly
    once and in order: the builder is the sequential fold of [dispatch_to_book]
    over the envelopes, both threads counted every frame, and the sampled
    occupancy stayed below the queue's capacity. *)
Theorem pipeline_result (buf : list Envelope) (es : list Wire.event) (s : pipeline)
  (Hbuf : length buf = Z.to_nat (Spsc.capacity k)) (Hs : reachable buf es s) (Hfin : c_at s = Finished) :
  builder s = replay (envelope <$> es) /\ c_frames s = length es /\ frames s = length es /\
  p_at s = Stopped /\ 0 <= max_occupancy s < Spsc.capacity k.
Proof.
  by apply (finished_ok buf).
Qed.

(** C6: the two-thread replay of an input equals the single-threaded one: when
    the pipeline has finished, its builder and frame count are those of
    [parse_stream] into a builder, provided no skipped frame carries a decoded
    type byte. *)
Theorem threaded_equals_single (data : list Z) (buf : list Envelope) (s : pipeline)
  (Hbytes : Wire.bytes data) (Hclean : Forall clean (Wire.events data))
  (Hbuf : length buf = Z.to_nat (Spsc.capacity k)) (Hs : reachable buf (Wire.events data) s) (Hfin : c_at s = Finished) :
  Wire.parse_stream data (length data) (Ok Builder.init) = Ok (frames s, builder s).
Proof.
  rewrite Wire.parse_stream_frames by done. rewrite firstn_all.
  destruct (finished_ok buf _ s Hbuf Hs Hfin) as (-> & _ & -> & _). rewrite replay_events by done.
  unfold Wire.events. by rewrite length_fmap.
Qed.

(** The pipeline never wedges: from every state it can reach, with a queue of
    capacity at least two, some continuation finishes, although both threads may
    spin on stale indices in between. *)
Theorem pipeline_can_finish (buf : list Envelope) (es : list Wire.event) (s : pipeline)
  (Hk1 : 1 <= k) (Hbuf : length buf = Z.to_nat (Spsc.capacity k)) (Hs : reachable buf es s) :
  exists s', reachable buf es s' /\ rtc step s s' /\ c_at s' = Finished.
Proof.
  destruct (can_finish es s Hk1 (pipe_reachable_inv buf es s Hbuf Hs)) as (s' & H1 & H2).
  exists s'. split; [|done]. clear H2 Hbuf. induction H1; eauto using reach_step.
Qed.

End Consumer.

(** A queue of four envelopes. *)
Definition sample_buf : list Envelope := replicate 4 (envelope (Wire.EOther 0 0)).

Definition sample_start : pipeline := start (B := OrderBook.OrderBook) sample_buf (Wire.events Builder.sample_data).

Lemma sample_finishes : exists s, reachable 2 sample_buf (Wire.events Builder.sample_data) s /\ c_at (B := OrderBook.OrderBook) s = Finished.
Proof.
  destruct (can_finish 2 ltac:(lia) _ sample_start ltac:(lia) (pipe_start_inv 2 ltac:(lia) sample_buf _ eq_refl)) as (s & Hs & Hf).
  exists s. split; [|done]. clear Hf. assert (reachable 2 sample_buf (Wire.events Builder.sample_data) sample_start) as H0 by constructor.
  induction Hs; eauto using reach_step.
Qed.

Lemma pipeline_result_witness : exists s, reachable (B := OrderBook.OrderBook) 2 sample_buf (Wire.events Builder.sample_data) s /\
  frames s = 7%nat /\ 0 <= max_occupancy s < 4.
Proof.
  destruct sample_finishes as (s & Hs & Hf). exists s. split; [exact Hs|].
  destruct (pipeline_result 2 ltac:(lia) sample_buf _ s eq_refl Hs Hf) as (_ & _ & H1 & _ & H2).
  split; [rewrite H1; vm_compute; reflexivity|exact H2].
Defined.

Lemma threaded_equals_single_witness : exists s, reachable (B := OrderBook.OrderBook) 2 sample_buf (Wire.events Builder.sample_data) s /\
  Wire.parse_stream Builder.sample_data (length Builder.sample_data) (Ok Builder.init) = Ok (frames s, builder s).
Proof.
  destruct sample_finishes as (s & Hs & Hf). exists s. split; [exact Hs|].
  apply (threaded_equals_single 2 ltac:(lia) Builder.sample_data sample_buf s); [exact Builder.sample_data_bytes| |reflexivity|exact Hs|exact Hf].
  vm_compute. repeat constructor.
Defined.

Lemma pipeline_can_finish_witness : exists s, rtc (step 2) sample_start s /\ c_at s = Finished.
Proof.
  destruct (pipeline_can_finish 2 ltac:(lia) sample_buf (Wire.events Builder.sample_data) sample_start) as (s & _ & H1 & H2).
  - lia.
  - reflexivity.
  - apply reach_start.
  - exists s. split; [exact H1|exact H2].
Defined.

(** How many books a builder has, and how many orders rest for locate 0. *)
Definition summary (r : outcome (Builder.BookBuilder LadderBook.LadderBook)) : outcome (nat * option nat) :=
  match r with
  | Ok h =>
    match Builder.find 0 (Builder.books h) with
    | Ok b => Ok (Builder.book_count (Builder.books h), LadderBook.open_orders <$> b)
    | _ => UB
    end
  | _ => UB
  end.

(** A skipped frame whose type byte is a decoded type breaks the equality: the
    one-byte frame 'A' is only counted by the single-threaded replay, while its
    envelope carries a zeroed add-order that the consumer thread applies, which
    creates a book for locate 0 with a phantom order; for the types 'E', 'C', 'X',
    'D' and 'U' the consumer reads an inactive member of the union. *)
Theorem malformed_frame_diverges :
  Wire.events [0; 1; 65] = [Wire.EOther Wire.chA 1] /\
  summary (Builder.on_event (Wire.EOther Wire.chA 1) Builder.init) = Ok (0%nat, None) /\
  summary (dispatch_to_book (envelope (Wire.EOther Wire.chA 1)) Builder.init) = Ok (1%nat, Some 1%nat) /\
  forall t n (h : Builder.BookBuilder LadderBook.LadderBook),
    t ∈ [Wire.chE; Wire.chC; Wire.chX; Wire.chD; Wire.chU] ->
    dispatch_to_book (envelope (Wire.EOther t n)) h = UB.
Proof.
  split; [reflexivity|]. split; [reflexivity|]. split; [vm_compute; reflexivity|].
  intros t n h Ht. repeat (apply elem_of_cons in Ht as [->|Ht]; [reflexivity|]).
  by apply not_elem_of_nil in Ht.
Qed.

End Threaded.
