(* ===== verification/Fairness.v ===== *)
(** * Fairness: the two-thread replay always ends

    [Threaded] shows that the pipeline of include/pipeline/threaded_replay.hpp
    can finish from wherever it is; here it does, in every run in which the
    scheduler lets each thread move again until it ends and a store does not stay
    invisible to the other thread's loads for ever, which is what the C++
    standard asks of an implementation (concurrent forward progress, and
    visibility of atomic stores within a finite time).  Both are needed:
    [push_spin] and [consume] spin.

    The proof measures the work left.  A step either lowers it or leaves
    everything shared as it is; while it stays, the thread that can make
    progress comes closer to lowering it with each of its own steps. *)

From S2P Require Import Prelude Wire Book OrderBook LadderBook Builder Spsc Threaded.
Import Threaded.

Module Fairness.

(** ** Descent along a run *)

(** Work [W] is done if, while it stays, every event [E] brings a rank [r] down
    and nothing brings it up. *)
Lemma descends (W r : nat -> nat) (E : nat -> Prop) N :
  (forall n, (N <= n)%nat -> W n = W N -> exists m, (n <= m)%nat /\ E m) ->
  (forall m, (N <= m)%nat -> W m = W N ->
     (W (S m) < W m)%nat \/ W (S m) = W m /\ (r (S m) <= r m)%nat /\ (E m -> (r (S m) < r m)%nat)) ->
  exists m, (N <= m)%nat /\ (W m < W N)%nat.
Proof.
  intros Hev Hstep.
  enough (forall b n, (N <= n)%nat -> W n = W N -> (r n < b)%nat -> exists m, (N <= m)%nat /\ (W m < W N)%nat) as Hall
    by (apply (Hall (S (r N)) N); lia).
  induction b as [|b IH]; intros n Hn Hw Hr; [lia|].
  destruct (Hev n Hn Hw) as (m & Hm & Hem).
  (* from [n] up to the event *)
  assert (forall j, (exists i, (N <= i)%nat /\ (W i < W N)%nat) \/ W (n + j)%nat = W N /\ (r (n + j) <= r n)%nat) as Hwalk.
  { induction j as [|j [?|[Hj1 Hj2]]]; [right; by rewrite Nat.add_0_r|by left|].
    destruct (Hstep (n + j)%nat ltac:(lia) Hj1) as [Hlt|(Heq & Hle & _)]; rewrite Nat.add_succ_r;
      [left; exists (S (n + j)); lia|right; lia]. }
  destruct (Hwalk (m - n)%nat) as [?|[Hm1 Hm2]]; [done|]. replace (n + (m - n))%nat with m in * by lia.
  destruct (Hstep m ltac:(lia) Hm1) as [Hlt|(Heq & _ & Hlt)]; [exists (S m); lia|].
  apply (IH (S m)); [lia..|]. specialize (Hlt Hem). lia.
Qed.

#[local] Instance p_phase_eq_dec : EqDecision p_phase.
Proof. solve_decision. Defined.
#[local] Instance c_phase_eq_dec : EqDecision c_phase.
Proof. solve_decision. Defined.

Section Run.
Context {B : Type} `{Book.BookOps B}.
Context (k : Z).
#[local] Abbreviation pipeline := (@pipeline B).
#[local] Abbreviation step := (step k).

(** ** Fair runs *)

Inductive thread := Parser | BookBuilder.

(** Where a thread stands in its code. *)
Definition p_place (s : pipeline) : p_phase * Spsc.producer Envelope := (p_at s, Spsc.p_pc (ring s)).
Definition c_place (s : pipeline) : c_phase * Spsc.consumer Envelope := (c_at s, Spsc.c_pc (ring s)).

(** A step of one thread leaves the other where it is. *)
Definition moves (t : thread) (s s' : pipeline) : Prop :=
  step s s' /\ match t with Parser => c_place s' = c_place s | BookBuilder => p_place s' = p_place s end.

(** The thread's function has not returned. *)
Definition live (t : thread) (s : pipeline) : Prop :=
  match t with Parser => p_at s <> Stopped | BookBuilder => c_at s <> Finished end.

(** The next step is [push]'s acquire load of [head_], [pop]'s of [tail_]. *)
Definition p_loads (s : pipeline) : bool := match Spsc.p_pc (ring s) with Spsc.PLoaded _ _ => true | _ => false end.
Definition c_loads (s : pipeline) : bool := match Spsc.c_pc (ring s) with Spsc.CLoaded _ => true | _ => false end.

(** The load of the step, if it makes one, sees the stores made before [old]. *)
Record sees (old s s' : pipeline) : Prop := {
  sees_head : moves Parser s s' -> p_loads s = true -> (length (Spsc.popped (ring old)) <= Spsc.p_view (ring s'))%nat;
  sees_tail : moves BookBuilder s s' -> c_loads s = true -> (length (Spsc.pushed (ring old)) <= Spsc.c_view (ring s'))%nat;
  sees_done : moves BookBuilder s s' -> c_at s = CheckDone -> producer_done old = true -> c_at s' = Drain }.

(** A run of [run_pipeline]: time may pass without a step. *)
Record fair_run (buf : list Envelope) (es : list Wire.event) (f : nat -> pipeline) : Prop := {
  run_start : f 0%nat = start buf es;
  run_steps : forall n, step (f n) (f (S n)) \/ f (S n) = f n;
  run_fair : forall t n, live t (f n) -> exists m, (n <= m)%nat /\ moves t (f m) (f (S m));
  run_visible : forall n, exists N, (n <= N)%nat /\ forall m, (N <= m)%nat -> sees (f n) (f m) (f (S m)) }.

(** ** The work left *)

Definition phases (c : c_phase) : nat := match c with Poll | CheckDone => 2 | Drain => 1 | Finished => 0 end.

Definition work (es : list Wire.event) (s : pipeline) : nat :=
  2 * length (todo s) + match p_at s with Feeding => 1 | Measuring => 2 | Stopped => 0 end +
    (length es - length (Spsc.popped (ring s))) + phases (c_at s).

(** What the two threads share, and how far each has come. *)
Record same (s s' : pipeline) : Prop := {
  same_todo : todo s' = todo s;
  same_at : p_at s' = p_at s;
  same_pushed : Spsc.pushed (ring s') = Spsc.pushed (ring s);
  same_popped : Spsc.popped (ring s') = Spsc.popped (ring s);
  same_done : producer_done s' = producer_done s;
  same_phases : phases (c_at s') = phases (c_at s) }.

#[global] Instance same_preorder : PreOrder same.
Proof. split; [by constructor|]. intros s1 s2 s3 [] []. constructor; congruence. Qed.

Hypothesis Hk : 1 <= k <= 63.

Lemma pushed_length es (s : pipeline) : pipe_inv k es s ->
  (length (Spsc.pushed (ring s)) + length (todo s) = length es /\ length (Spsc.popped (ring s)) <= length (Spsc.pushed (ring s)))%nat.
Proof.
  intros Hinv. destruct (t_pushed _ _ _ Hinv) as (sent & Hes & Hp). pose proof (Spsc.r_cview k _ (t_ring _ _ _ Hinv)) as Hc.
  apply (f_equal length) in Hes. rewrite length_app in Hes. rewrite Hp, length_fmap in Hc |- *. lia.
Qed.

Lemma work_step es s s' : pipe_inv k es s -> step s s' ->
  (work es s' < work es s)%nat \/ work es s' = work es s /\ same s s'.
Proof.
  intros Hinv Hstep. pose proof (pipe_step_inv k ltac:(lia) es s s' Hstep Hinv) as Hinv'.
  pose proof (pushed_length es s Hinv) as [Hl1 Hl2]. pose proof (pushed_length es s' Hinv') as [Hl1' Hl2'].
  destruct Hstep; unfold work in *; cbn in *;
    try match goal with Hs : Spsc.step _ _ _ _ |- _ => pose proof (ring_frame k _ _ _ Hs) as Hf; cbn in Hf end.
  all: try (left; lia).
  all: try (right; destruct Hf as (Ep & Eo & _); rewrite Eo; split; [lia|by constructor]).
  all: try (left; destruct Hf as (Ep & Eo & _); rewrite ?Eo, ?length_app in *; cbn in *; lia).
  right. split; [done|by constructor].
Qed.

(** ** Each step is one thread's *)

Lemma one_moves s s' : step s s' ->
  (c_place s' = c_place s /\ p_place s' <> p_place s) \/ (p_place s' = p_place s /\ c_place s' <> c_place s).
Proof.
  destruct 1; try match goal with Hs : Spsc.step _ _ _ _ |- _ => inversion Hs; subst; clear Hs end;
    unfold p_place, c_place; cbn; first [left; split; [done|discriminate]|right; split; [done|discriminate]].
Qed.

(** A thread that has a rank of its own: only its steps lower it. *)
Definition approaches (es : list Wire.event) (r : pipeline -> nat) (t : thread) (s s' : pipeline) : Prop :=
  (work es s' < work es s)%nat \/
  work es s' = work es s /\ (r s' <= r s)%nat /\ (moves t s s' -> (r s' < r s)%nat).

Lemma still_approaches es r t s : approaches es r t s s.
Proof.
  right. do 2 (split; [done|]). intros [Hs%one_moves _]. by destruct Hs as [[_ Hs]|[_ Hs]].
Qed.

(** The parser inside [push]. *)
Definition p_rank (s : pipeline) : nat :=
  match Spsc.p_pc (ring s) with Spsc.PIdle => 3 | Spsc.PLoaded _ _ => 2 | Spsc.PFree _ _ => 1 | Spsc.PWritten _ _ => 0 end.

Definition c_pc_rank (c : Spsc.consumer Envelope) : nat :=
  match c with Spsc.CIdle => 3 | Spsc.CLoaded _ => 2 | Spsc.CReady _ => 1 | Spsc.CGot _ _ => 0 end.

(** The book builder on its way to a value. *)
Definition c_rank (s : pipeline) : nat :=
  c_pc_rank (Spsc.c_pc (ring s)) + match c_at s with CheckDone => 4 | _ => 0 end.

(** The book builder on its way out. *)
Definition e_rank (s : pipeline) : nat :=
  match c_at s with CheckDone => 0 | _ => S (c_pc_rank (Spsc.c_pc (ring s))) end.

(** With an empty ring a push goes through. *)
Lemma parser_approaches es old s s' : pipe_inv k es s -> sees old s s' -> step s s' -> same old s ->
  length (Spsc.popped (ring s)) = length (Spsc.pushed (ring s)) -> p_at s <> Stopped ->
  approaches es p_rank Parser s s'.
Proof.
  intros Hinv Hsees Hstep Hsame Hempty Hlive. unfold approaches.
  destruct (work_step es s s' Hinv Hstep) as [Hw|[Hw _]]; [by left|]. right. split; [done|].
  destruct (one_moves _ _ Hstep) as [[Hc Hp]|[Hp Hc]].
  2: { unfold p_rank. injection Hp as _ ->. split; [done|]. intros [_ Hm]. done. }
  assert (moves Parser s s') as Hmove by done. pose proof (sees_head _ _ _ Hsees Hmove) as Hfresh.
  rewrite <- (same_popped _ _ Hsame) in Hfresh. clear Hsees Hsame Hmove Hp.
  enough (p_rank s' < p_rank s)%nat by lia.
  pose proof (pipe_step_inv k ltac:(lia) es s s' Hstep Hinv) as Hinv'.
  assert (2 <= Spsc.capacity k) as Hcap by (unfold Spsc.capacity; apply (Z.pow_le_mono_r 2 1); lia).
  destruct Hstep; unfold p_rank, work, p_loads in *; cbn in *; try lia;
    try match goal with Hs : Spsc.step _ _ _ _ |- _ =>
      pose proof (Spsc.step_facts k ltac:(lia) _ _ _ Hs (t_ring _ _ _ Hinv)) as Hfacts; inversion Hs; subst; clear Hs end;
    unfold c_place in Hc; cbn in *; try discriminate Hc; lia.
Qed.

(** A pop takes a value that is there. *)
Lemma consumer_approaches es old s s' : pipe_inv k es s -> sees old s s' -> step s s' -> same old s ->
  (length (Spsc.popped (ring s)) < length (Spsc.pushed (ring s)))%nat ->
  approaches es c_rank BookBuilder s s'.
Proof.
  intros Hinv Hsees Hstep Hsame Hfull. unfold approaches.
  destruct (work_step es s s' Hinv Hstep) as [Hw|[Hw _]]; [by left|]. right. split; [done|].
  destruct (one_moves _ _ Hstep) as [[Hc Hp]|[Hp Hc]].
  { unfold c_rank. injection Hc as -> ->. split; [done|]. intros [_ Hm]. done. }
  assert (moves BookBuilder s s') as Hmove by done. pose proof (sees_tail _ _ _ Hsees Hmove) as Hfresh.
  rewrite <- (same_pushed _ _ Hsame) in Hfresh. clear Hsees Hsame Hmove Hc.
  enough (c_rank s' < c_rank s)%nat by lia.
  pose proof (pipe_step_inv k ltac:(lia) es s s' Hstep Hinv) as Hinv'. pose proof (pushed_length es s' Hinv') as [Hl1 Hl2].
  destruct Hstep; unfold c_rank, work, c_loads in *; cbn in *; try lia;
    try match goal with Hs : Spsc.step _ _ _ _ |- _ =>
      pose proof (Spsc.step_facts k ltac:(lia) _ _ _ Hs (t_ring _ _ _ Hinv)) as Hfacts; inversion Hs; subst; clear Hs end;
    unfold p_place in Hp; cbn in *; try discriminate Hp; rewrite ?length_app in *; cbn in *; lia.
Qed.

(** The ring is empty for good: the book builder leaves its loops. *)
Lemma leaving_approaches es old s s' : pipe_inv k es s -> sees old s s' -> step s s' -> same old s ->
  length (Spsc.popped (ring s)) = length (Spsc.pushed (ring s)) -> p_at s = Stopped ->
  approaches es e_rank BookBuilder s s'.
Proof.
  intros Hinv Hsees Hstep Hsame Hempty Hstop. unfold approaches.
  destruct (work_step es s s' Hinv Hstep) as [Hw|[Hw _]]; [by left|]. right. split; [done|].
  destruct (one_moves _ _ Hstep) as [[Hc Hp]|[Hp Hc]].
  { unfold e_rank. injection Hc as -> ->. split; [done|]. intros [_ Hm]. done. }
  pose proof (sees_done _ _ _ Hsees (conj Hstep Hp)) as Hfresh.
  rewrite <- (same_done _ _ Hsame), (proj2 (t_stopped _ _ _ Hinv) Hstop) in Hfresh. clear Hsees Hsame Hc.
  enough (e_rank s' < e_rank s)%nat by lia.
  pose proof (Spsc.r_c k _ (t_ring _ _ _ Hinv)) as Hci. pose proof (Spsc.r_cview k _ (t_ring _ _ _ Hinv)) as Hcv.
  destruct Hstep; unfold e_rank, work, Spsc.c_inv, popping in *; cbn in *; try lia;
    try match goal with Hs : Spsc.step _ _ _ _ |- _ => inversion Hs; subst; clear Hs end;
    unfold p_place in Hp; cbn in *; try discriminate Hp; try lia.
  all: try match goal with Hc : _ = Poll \/ _ = Drain |- _ => destruct Hc as [-> | ->] end; cbn in *; try lia.
  discriminate (Hfresh eq_refl eq_refl).
Qed.

(** ** Every fair run ends *)

Section Fair.
Variables (buf : list Envelope) (es : list Wire.event) (f : nat -> pipeline).
Hypothesis Hbuf : length buf = Z.to_nat (Spsc.capacity k).
Hypothesis Hf : fair_run buf es f.

Lemma run_reachable n : reachable k buf es (f n).
Proof.
  induction n as [|n IH]; [rewrite (run_start _ _ _ Hf); constructor|].
  destruct (run_steps _ _ _ Hf n) as [Hs| ->]; [by eapply reach_step|done].
Qed.

Lemma fair_run_inv n : pipe_inv k es (f n).
Proof. apply (pipe_reachable_inv k ltac:(lia) buf); [done|apply run_reachable]. Qed.

Lemma run_work n j : (work es (f (n + j)) < work es (f n))%nat \/ work es (f (n + j)) = work es (f n) /\ same (f n) (f (n + j)).
Proof.
  induction j as [|j IH]; [right; rewrite Nat.add_0_r; by split|]. rewrite Nat.add_succ_r.
  destruct (run_steps _ _ _ Hf (n + j)) as [Hs| ->]; [|done].
  destruct (work_step es _ _ (fair_run_inv _) Hs) as [Hw|[Hw Hsame]]; [left; lia|].
  destruct IH as [IH|[IH1 IH2]]; [left; lia|right]. split; [lia|by etrans].
Qed.

Lemma run_same n m : (n <= m)%nat -> work es (f m) = work es (f n) -> same (f n) (f m).
Proof. intros Hm Hw. destruct (run_work n (m - n)) as [Hlt|[_ Hs]]; replace (n + (m - n))%nat with m in * by lia; [lia|done]. Qed.

(** While the work stays, thread [t] approaches lowering it. *)
Lemma run_lowers n r t : live t (f n) ->
  (forall s s', pipe_inv k es s -> sees (f n) s s' -> step s s' -> same (f n) s -> approaches es r t s s') ->
  exists m, (n <= m)%nat /\ (work es (f m) < work es (f n))%nat.
Proof.
  intros Hlive Happ. destruct (run_visible _ _ _ Hf n) as (N & HnN & Hsees).
  destruct (run_work n (N - n)) as [Hlt|[Hw _]]; replace (n + (N - n))%nat with N in * by lia; [by exists N|]. rewrite <- Hw.
  destruct (descends (fun m => work es (f m)) (fun m => r (f m)) (fun m => moves t (f m) (f (S m))) N) as (m & Hm & Hlt).
  - intros m Hm Hwm. apply (run_fair _ _ _ Hf). pose proof (run_same n m ltac:(lia) ltac:(lia)) as [_ Hp _ _ _ Hph].
    destruct t; cbn in *; [by rewrite Hp|]. intros Hc. rewrite Hc in Hph. destruct (c_at (f n)); done.
  - intros m Hm Hwm. change (approaches es r t (f m) (f (S m))).
    destruct (run_steps _ _ _ Hf m) as [Hs| ->]; [|apply still_approaches].
    apply Happ; [apply fair_run_inv|by apply Hsees|done|]. apply run_same; lia.
  - exists m. split; [lia|done].
Qed.

Lemma run_progress n : c_at (f n) = Finished \/ exists m, (n <= m)%nat /\ (work es (f m) < work es (f n))%nat.
Proof.
  destruct (decide (c_at (f n) = Finished)) as [|Hrun]; [by left|]. right.
  pose proof (pushed_length es _ (fair_run_inv n)) as [_ Hle].
  destruct (decide (length (Spsc.popped (ring (f n))) = length (Spsc.pushed (ring (f n))))) as [Hempty|Hne].
  - destruct (decide (p_at (f n) = Stopped)) as [Hstop|Hlive].
    + apply (run_lowers n e_rank BookBuilder Hrun). intros s s' Hinv Hsees Hstep Hsame. apply (leaving_approaches es (f n)); try done.
      * by rewrite (same_popped _ _ Hsame), (same_pushed _ _ Hsame).
      * by rewrite (same_at _ _ Hsame).
    + apply (run_lowers n p_rank Parser Hlive). intros s s' Hinv Hsees Hstep Hsame. apply (parser_approaches es (f n)); try done.
      * by rewrite (same_popped _ _ Hsame), (same_pushed _ _ Hsame).
      * by rewrite (same_at _ _ Hsame).
  - apply (run_lowers n c_rank BookBuilder Hrun). intros s s' Hinv Hsees Hstep Hsame. apply (consumer_approaches es (f n)); try done.
    rewrite (same_popped _ _ Hsame), (same_pushed _ _ Hsame). lia.
Qed.

Lemma run_ends : exists n, c_at (f n) = Finished.
Proof.
  enough (forall w n, (work es (f n) < w)%nat -> exists m, c_at (f m) = Finished) as Hall by (eapply (Hall _ 0%nat), Nat.lt_succ_diag_r).
  induction w as [|w IH]; intros n Hw; [lia|].
  destruct (run_progress n) as [?|(m & _ & Hm)]; [by exists n|]. apply (IH m). lia.
Qed.

(** Nothing moves after that. *)
Lemma run_stays n m : c_at (f n) = Finished -> (n <= m)%nat -> f m = f n.
Proof.
  intros Hfin. induction 1 as [|m Hm IH]; [done|]. rewrite <- IH in Hfin |- *.
  destruct (run_steps _ _ _ Hf m) as [Hs|]; [|done]. exfalso.
  pose proof (finished_ok k ltac:(lia) buf es _ Hbuf (run_reachable m) Hfin) as (_ & _ & _ & Hstop & _).
  destruct Hs; cbn in *; try done. all: subst; match goal with Hc : popping Finished |- _ => by destruct Hc end.
Qed.

End Fair.

(** ** Properties *)

(** C17: the two-thread replay always ends, with the right result: in every run of
    [run_pipeline] over a queue of capacity at least two in which each thread
    that has not returned moves again, and every store is seen by the other
    thread's loads from some moment on, however late and however stale the loads
    before, both threads return, every callback of the input has been
    dispatched once and in order, and the state no longer changes. *)
Theorem fair_pipeline_finishes (buf : list Envelope) (es : list Wire.event) (f : nat -> pipeline)
  (Hbuf : length buf = Z.to_nat (Spsc.capacity k)) (Hf : fair_run buf es f) :
  exists n, c_at (f n) = Finished /\ p_at (f n) = Stopped /\ builder (f n) = replay (envelope <$> es) /\
    c_frames (f n) = length es /\ forall m, (n <= m)%nat -> f m = f n.
Proof.
  destruct (run_ends buf es f Hbuf Hf) as (n & Hn). exists n.
  destruct (finished_ok k ltac:(lia) buf es _ Hbuf (run_reachable buf es f Hf n) Hn) as (H1 & H2 & _ & H4 & _).
  split_and!; try done. intros m Hm. by apply (run_stays buf es f Hbuf Hf).
Qed.

End Run.

(** ** A run *)

(** One message through a queue of two, with loads as stale as they can be. *)
Definition sample_event : Wire.event := Wire.EOther 83 1.
Definition sample_env : Envelope := envelope sample_event.
Definition sample_slots : list Envelope := replicate 2 (envelope (Wire.EOther 0 0)).

Definition sample_states : list (@pipeline OrderBook.OrderBook) :=
  let b0 := Ok Builder.init in
  let b1 := b0 ≫= dispatch_to_book sample_env in
  let e := sample_event in let v := sample_env in let z := envelope (Wire.EOther 0 0) in
  [start sample_slots [e];
   mkPipeline (Spsc.mkSystem [z; z] [0] [0] 0 (Spsc.PLoaded v 0) 0 Spsc.CIdle [] []) [e] Feeding 0 0 false Poll b0 0;
   mkPipeline (Spsc.mkSystem [z; z] [0] [0] 0 (Spsc.PFree v 0) 0 Spsc.CIdle [] []) [e] Feeding 0 0 false Poll b0 0;
   mkPipeline (Spsc.mkSystem [z; z] [0] [0] 0 (Spsc.PFree v 0) 0 (Spsc.CLoaded 0) [] []) [e] Feeding 0 0 false Poll b0 0;
   mkPipeline (Spsc.mkSystem [v; z] [0] [0] 0 (Spsc.PWritten v 0) 0 (Spsc.CLoaded 0) [] []) [e] Feeding 0 0 false Poll b0 0;
   mkPipeline (Spsc.mkSystem [v; z] [0] [0; 1] 0 Spsc.PIdle 0 (Spsc.CLoaded 0) [v] []) [] Measuring 0 0 false Poll b0 0;
   mkPipeline (Spsc.mkSystem [v; z] [0] [0; 1] 0 Spsc.PIdle 0 Spsc.CIdle [v] []) [] Measuring 0 0 false CheckDone b0 0;
   mkPipeline (Spsc.mkSystem [v; z] [0] [0; 1] 0 Spsc.PIdle 0 Spsc.CIdle [v] []) [] Measuring 0 0 false Poll b0 0;
   mkPipeline (Spsc.mkSystem [v; z] [0] [0; 1] 0 Spsc.PIdle 0 Spsc.CIdle [v] []) [] Feeding 1 1 false Poll b0 0;
   mkPipeline (Spsc.mkSystem [v; z] [0] [0; 1] 0 Spsc.PIdle 0 Spsc.CIdle [v] []) [] Stopped 1 1 true Poll b0 0;
   mkPipeline (Spsc.mkSystem [v; z] [0] [0; 1] 0 Spsc.PIdle 0 (Spsc.CLoaded 0) [v] []) [] Stopped 1 1 true Poll b0 0;
   mkPipeline (Spsc.mkSystem [v; z] [0] [0; 1] 0 Spsc.PIdle 1 (Spsc.CReady 0) [v] []) [] Stopped 1 1 true Poll b0 0;
   mkPipeline (Spsc.mkSystem [v; z] [0] [0; 1] 0 Spsc.PIdle 1 (Spsc.CGot v 0) [v] []) [] Stopped 1 1 true Poll b0 0;
   mkPipeline (Spsc.mkSystem [v; z] [0; 1] [0; 1] 0 Spsc.PIdle 1 Spsc.CIdle [v] [v]) [] Stopped 1 1 true Poll b1 1;
   mkPipeline (Spsc.mkSystem [v; z] [0; 1] [0; 1] 0 Spsc.PIdle 1 (Spsc.CLoaded 1) [v] [v]) [] Stopped 1 1 true Poll b1 1;
   mkPipeline (Spsc.mkSystem [v; z] [0; 1] [0; 1] 0 Spsc.PIdle 1 Spsc.CIdle [v] [v]) [] Stopped 1 1 true CheckDone b1 1;
   mkPipeline (Spsc.mkSystem [v; z] [0; 1] [0; 1] 0 Spsc.PIdle 1 Spsc.CIdle [v] [v]) [] Stopped 1 1 true Drain b1 1;
   mkPipeline (Spsc.mkSystem [v; z] [0; 1] [0; 1] 0 Spsc.PIdle 1 (Spsc.CLoaded 1) [v] [v]) [] Stopped 1 1 true Drain b1 1;
   mkPipeline (Spsc.mkSystem [v; z] [0; 1] [0; 1] 0 Spsc.PIdle 1 Spsc.CIdle [v] [v]) [] Stopped 1 1 true Finished b1 1].

Definition sample_run (n : nat) : @pipeline OrderBook.OrderBook :=
  nth n sample_states (List.last sample_states (start sample_slots [])).

Lemma sample_run_end n : sample_run (18 + n) = sample_run 18.
Proof. by destruct n as [|[|n]]. Qed.

(** The side conditions of a load at given positions. *)
#[local] Ltac load := first [done|split; [lia|done]].

Lemma sample_run_steps n : (n < 18)%nat -> step 1 (sample_run n) (sample_run (S n)).
Proof.
  intros Hn. do 18 (try (destruct n as [|n]; [clear Hn|])); [..|lia].
  - apply T_begin. by apply (Spsc.P_load 1 sample_env 0).
  - apply T_push_step. apply (Spsc.P_free 1 sample_env 0 0 0); load.
  - apply T_pop_begin; [by left|]. by apply (Spsc.C_load 1 0).
  - apply T_push_step. apply (Spsc.P_write 1 sample_env 0).
  - apply (T_push 1 sample_env). apply (Spsc.P_publish 1 sample_env 0).
  - apply T_poll_empty. apply (Spsc.C_empty 1 0 0); load.
  - apply T_not_done.
  - apply (T_size 1 1). apply (Spsc.P_size 1 1 0 0); load.
  - apply T_done.
  - apply T_pop_begin; [by left|]. by apply (Spsc.C_load 1 0).
  - apply T_pop_step; [by left|]. apply (Spsc.C_ready 1 0 1 1); load.
  - apply T_pop_step; [by left|]. by apply (Spsc.C_read 1 0).
  - apply T_pop; [by left|]. exact (Spsc.C_publish 1 0 sample_env _ [0] _ _ _ _ _ []).
  - apply T_pop_begin; [by left|]. by apply (Spsc.C_load 1 1).
  - apply T_poll_empty. apply (Spsc.C_empty 1 1 1); load.
  - apply (T_see_done 1).
  - apply T_pop_begin; [by right|]. by apply (Spsc.C_load 1 1).
  - apply T_drained. apply (Spsc.C_empty 1 1 1); load.
Qed.

Lemma sample_fair : fair_run 1 sample_slots [sample_event] sample_run.
Proof.
  assert (forall n, (18 <= n)%nat -> sample_run n = sample_run 18) as Hend
    by (intros n Hn; replace n with (18 + (n - 18))%nat by lia; apply sample_run_end).
  constructor; [done| | |].
  - intros n. destruct (decide (n < 18)%nat) as [Hn|Hn]; [left; by apply sample_run_steps|right].
    by rewrite (Hend n), (Hend (S n)) by lia.
  - intros [|] n Hl.
    + exists 8%nat. split; [|split; [apply sample_run_steps; lia|done]].
      destruct (decide (n < 9)%nat); [lia|]. exfalso. do 9 (try (destruct n as [|n]; [lia|])).
      do 11 (try (destruct n as [|n]; [by apply Hl|])). by apply Hl.
    + exists 17%nat. split; [|split; [apply sample_run_steps; lia|done]].
      destruct (decide (n < 18)%nat); [lia|]. exfalso. apply Hl. by rewrite (Hend n) by lia.
  - intros n. exists (n `max` 18)%nat. split; [lia|]. intros m Hm. rewrite (Hend m), (Hend (S m)) by lia.
    split; intros [Hs%one_moves _]; by destruct Hs as [[_ Hs]|[_ Hs]].
Qed.

Lemma fair_pipeline_finishes_witness : exists n, c_at (sample_run n) = Finished /\
  builder (sample_run n) = replay [sample_env] /\ c_frames (sample_run n) = 1%nat.
Proof.
  destruct (fair_pipeline_finishes 1 ltac:(lia) sample_slots [sample_event] sample_run) as (n & H1 & _ & H2 & H3 & _).
  - reflexivity.
  - exact sample_fair.
  - exists n. split; [exact H1|]. split; [exact H2|exact H3].
Defined.

(** ** Fairness is needed *)

(** A book builder whose parser is never scheduled polls for ever. *)
Fixpoint starved (es : list Wire.event) (n : nat) : @pipeline OrderBook.OrderBook :=
  match n with
  | O => start sample_slots es
  | S O => mkPipeline (Spsc.mkSystem sample_slots [0] [0] 0 Spsc.PIdle 0 (Spsc.CLoaded 0) [] []) es Feeding 0 0 false Poll (Ok Builder.init) 0
  | S (S O) => mkPipeline (Spsc.mkSystem sample_slots [0] [0] 0 Spsc.PIdle 0 Spsc.CIdle [] []) es Feeding 0 0 false CheckDone (Ok Builder.init) 0
  | S (S (S n)) => starved es n
  end.

Theorem unscheduled_parser_starves (es : list Wire.event) (n : nat) :
  step 1 (starved es n) (starved es (S n)) /\ c_at (starved es n) <> Finished.
Proof.
  enough (forall n, let P n := step 1 (starved es n) (starved es (S n)) /\ c_at (starved es n) <> Finished in P n /\ P (S n) /\ P (S (S n)))
    as Hall by apply (Hall n).
  clear n. intros n P. induction n as [|n (IH1 & IH2 & IH3)]; [|split_and!; [done..|exact IH1]]. split_and!; (split; [|done]).
  - apply T_pop_begin; [by left|]. by apply (Spsc.C_load 1 0).
  - apply T_poll_empty. apply (Spsc.C_empty 1 0 0); load.
  - apply T_not_done.
Qed.

End Fairness.
