(* ===== verification/Roundtrip.v ===== *)
(** * Roundtrip: the ring's round-trip measurement

    Models [measure_spsc_roundtrip_saturated] and
    [measure_spsc_roundtrip_isolated] of bench/bench_threaded_main.cpp: a
    producer that stamps the time of each message before pushing its number,
    and a consumer that subtracts that stamp from the time of the pop, over
    the two-thread ring of [Spsc].  The two functions differ in one line (the
    isolated one first waits for an empty queue), so they are one model with a
    flag.  The steady clock is monotonic across the threads; each reading may
    be any time not before the last. *)

From S2P Require Import Prelude Wire Spsc Threaded.

Module Roundtrip.

(** What crosses the ring: an add order whose [ref] is the number. *)
Definition numbered (i : nat) : Threaded.Envelope :=
  Threaded.mkEnvelope Wire.chA
    (Threaded.UAdd (Wire.mkAddOrder (Wire.mkHeader 0 0) (u64 (Z.of_nat i)) 0 0 (replicate 9 0) 0)).

(** [env.add.ref] *)
Definition number_of (env : Threaded.Envelope) : outcome nat :=
  match Threaded.env_payload env with Threaded.UAdd m => Ok (Z.to_nat (Wire.add_ref m)) | _ => UB end.

Section Measure.
Context (k : Z) (n : nat) (isolated : bool).

(** [kRoundtripMessages] is [n]. *)
Inductive p_phase :=
| Waiting   (** isolated: polling [queue.size()] *)
| Stamping  (** about to read the clock *)
| Pushing   (** in [while (!queue.push(env)) yield();] *)
| Joining.  (** past the loop, in [consumer.join()] *)

Record state := mkState {
  ring : Spsc.system Threaded.Envelope;
  p_at : p_phase;
  i : nat;
  send_time : list Z;
  got : option Threaded.Envelope;   (** popped, its time not yet read *)
  received : nat;
  latency_ns : list Z;
  clock : Z;
  p_reads : list Z;    (** what the clock said to the producer, *)
  c_reads : list Z }.  (** and to the consumer, one reading per message *)

(** Where the producer's loop continues at index [i]. *)
Definition loop_at (i : nat) : p_phase :=
  if (i <? n)%nat then (if isolated then Waiting else Stamping) else Joining.

Definition start (buf : list Threaded.Envelope) (now : Z) : state :=
  mkState (Spsc.start buf) (loop_at 0) 0 (replicate n 0) None 0 (replicate n 0) now [] [].

Inductive step : state -> state -> Prop :=
(** the producer *)
| R_occupied z r r' j st g rc lt c pr cr :
    Spsc.step k r (Spsc.Size z) r' -> z <> 0 ->
    step (mkState r Waiting j st g rc lt c pr cr) (mkState r' Waiting j st g rc lt c pr cr)
| R_empty r r' j st g rc lt c pr cr :
    Spsc.step k r (Spsc.Size 0) r' ->
    step (mkState r Waiting j st g rc lt c pr cr) (mkState r' Stamping j st g rc lt c pr cr)
| R_stamp now st' r j st g rc lt c pr cr :
    c <= now -> wr st j now = Ok st' ->
    step (mkState r Stamping j st g rc lt c pr cr) (mkState r Pushing j st' g rc lt now (pr ++ [now]) cr)
| R_push_begin r r' j st g rc lt c pr cr :
    Spsc.step k r (Spsc.PBegin (numbered j)) r' ->
    step (mkState r Pushing j st g rc lt c pr cr) (mkState r' Pushing j st g rc lt c pr cr)
| R_push_step r r' j st g rc lt c pr cr :
    Spsc.step k r Spsc.PTau r' ->
    step (mkState r Pushing j st g rc lt c pr cr) (mkState r' Pushing j st g rc lt c pr cr)
| R_full v r r' j st g rc lt c pr cr :
    Spsc.step k r (Spsc.PushFull v) r' ->
    step (mkState r Pushing j st g rc lt c pr cr) (mkState r' Pushing j st g rc lt c pr cr)
| R_push v r r' j st g rc lt c pr cr :
    Spsc.step k r (Spsc.Push v) r' ->
    step (mkState r Pushing j st g rc lt c pr cr) (mkState r' (loop_at (S j)) (S j) st g rc lt c pr cr)
(** the consumer *)
| R_pop_begin r r' p j st rc lt c pr cr :
    (rc < n)%nat -> Spsc.step k r Spsc.CBegin r' ->
    step (mkState r p j st None rc lt c pr cr) (mkState r' p j st None rc lt c pr cr)
| R_pop_step r r' p j st rc lt c pr cr :
    Spsc.step k r Spsc.CTau r' ->
    step (mkState r p j st None rc lt c pr cr) (mkState r' p j st None rc lt c pr cr)
| R_pop_empty r r' p j st rc lt c pr cr :
    Spsc.step k r Spsc.PopEmpty r' ->
    step (mkState r p j st None rc lt c pr cr) (mkState r' p j st None rc lt c pr cr)
| R_pop env r r' p j st rc lt c pr cr :
    Spsc.step k r (Spsc.Pop env) r' ->
    step (mkState r p j st None rc lt c pr cr) (mkState r' p j st (Some env) rc lt c pr cr)
| R_record env seq sent now lt' r p j st rc lt c pr cr :
    number_of env = Ok seq -> c <= now -> rd st seq = Ok sent -> wr lt seq (u64 (now - sent)) = Ok lt' ->
    step (mkState r p j st (Some env) rc lt c pr cr) (mkState r p j st None (S rc) lt' now pr (cr ++ [now])).

Inductive reachable (buf : list Threaded.Envelope) (now : Z) : state -> Prop :=
| reach_start : reachable buf now (start buf now)
| reach_step s s' : reachable buf now s -> step s s' -> reachable buf now s'.

(** The consumer's thread has ended and been joined: [latency_ns] is
    returned. *)
Definition finished (s : state) : Prop := p_at s = Joining /\ received s = n.

(** ** The invariant *)

Hypothesis Hk : 1 <= k <= 63.
Hypothesis Hn : Z.of_nat n < 18446744073709551616.

Lemma number_numbered j : (j < n)%nat -> number_of (numbered j) = Ok j.
Proof. intros Hj. unfold number_of, numbered. cbn. rewrite u64_id by (unfold is_u64; lia). by rewrite Nat2Z.id. Qed.

(** The value inside an unfinished push is the current number. *)
Definition pushing (s : state) : Prop :=
  match Spsc.p_pc (ring s) with
  | Spsc.PIdle => True
  | Spsc.PLoaded v _ | Spsc.PFree v _ | Spsc.PWritten v _ => p_at s = Pushing /\ v = numbered (i s)
  end.

(** How many stamps have been taken. *)
Definition stamped (s : state) : nat := match p_at s with Pushing => S (i s) | _ => i s end.

Definition popped_only (s : state) : nat := match got s with Some _ => 1 | None => 0 end.

Record rt_inv (s : state) : Prop := {
  rt_ring : Spsc.ring_inv k (ring s);
  rt_pushed : Spsc.pushed (ring s) = numbered <$> List.seq 0 (i s);
  rt_pushing : pushing s;
  rt_phase : match p_at s with Joining => i s = n | Waiting => isolated = true /\ (i s < n)%nat | _ => (i s < n)%nat end;
  rt_popped : length (Spsc.popped (ring s)) = (received s + popped_only s)%nat;
  rt_got : forall env, got s = Some env -> env = numbered (received s);
  rt_sends : length (send_time s) = n;
  rt_lats : length (latency_ns s) = n;
  rt_preads : length (p_reads s) = stamped s;
  rt_creads : length (c_reads s) = received s;
  rt_stamps : forall j, (j < stamped s)%nat -> exists t, p_reads s !! j = Some t /\ send_time s !! j = Some t /\ t <= clock s;
  rt_samples : forall j, (j < received s)%nat -> exists t0 t1, p_reads s !! j = Some t0 /\ c_reads s !! j = Some t1 /\
    send_time s !! j = Some t0 /\ latency_ns s !! j = Some (u64 (t1 - t0)) /\ t0 <= t1 <= clock s;
  rt_isolated : isolated = true -> match p_at s with
    | Stamping | Pushing => Spsc.p_view (ring s) = length (Spsc.pushed (ring s)) /\
                            length (Spsc.popped (ring s)) = length (Spsc.pushed (ring s))
    | _ => True end }.

(** What is popped is numbered by its place. *)
Lemma popped_numbered s j env : rt_inv s -> Spsc.popped (ring s) !! j = Some env -> env = numbered j.
Proof.
  intros Hs Hj. rewrite (Spsc.r_fifo k _ (rt_ring s Hs)), (rt_pushed s Hs) in Hj.
  apply lookup_take_Some in Hj as [Hj _]. rewrite list_lookup_fmap in Hj.
  destruct (List.seq 0 (i s) !! j) as [x|] eqn:E; [|done]. injection Hj as <-.
  apply lookup_seq in E as [-> _]. done.
Qed.

Lemma rt_start_inv buf now : length buf = Z.to_nat (Spsc.capacity k) -> rt_inv (start buf now).
Proof.
  intros Hb. constructor; cbn; try done; try lia.
  - apply Spsc.start_inv; [lia|done].
  - unfold loop_at. destruct (Nat.ltb_spec 0 n); [destruct isolated; [by split|done]|lia].
  - apply length_replicate.
  - apply length_replicate.
  - unfold stamped. cbn. unfold loop_at. by destruct (0 <? n)%nat, isolated.
  - unfold stamped. cbn. unfold loop_at. destruct (0 <? n)%nat, isolated; cbn; lia.
  - intros _. by destruct (loop_at 0).
Qed.

(** Each side's view of the other only advances. *)
Lemma view_mono (r : Spsc.system Threaded.Envelope) l r' : Spsc.step k r l r' -> (Spsc.p_view r <= Spsc.p_view r')%nat.
Proof. destruct 1; cbn; try lia; match goal with H : Spsc.can_load _ _ _ _ |- _ => destruct H; lia end. Qed.

Definition with_ring (r : Spsc.system Threaded.Envelope) (s : state) : state :=
  mkState r (p_at s) (i s) (send_time s) (got s) (received s) (latency_ns s) (clock s) (p_reads s) (c_reads s).

(** A step of the ring that neither publishes nor releases a value. *)
Lemma quiet_inv s l r' : rt_inv s -> Spsc.step k (ring s) l r' ->
  Spsc.pushed r' = Spsc.pushed (ring s) -> Spsc.popped r' = Spsc.popped (ring s) -> pushing (with_ring r' s) ->
  rt_inv (with_ring r' s).
Proof.
  intros [Hr Hpu Hpe Hph Hpo Hg Hs Hl Hpr Hcr Hst Hsa His] Hstep Ep Eo Hpe'.
  pose proof (Spsc.step_inv k ltac:(lia) _ _ _ Hstep Hr) as Hr'. pose proof (view_mono _ _ _ Hstep) as Hv.
  constructor; cbn; rewrite ?Ep, ?Eo; try done.
  intros Hi. specialize (His Hi). pose proof (Spsc.r_pview k _ Hr') as Hpv. rewrite Eo in Hpv.
  destruct (p_at s); try done; destruct His as [H1 H2]; (split; [lia|done]).
Qed.

Lemma loop_at_phase j : (S j <= n)%nat ->
  match loop_at (S j) with Joining => S j = n | Waiting => isolated = true /\ (S j < n)%nat | _ => (S j < n)%nat end.
Proof.
  intros Hj. unfold loop_at. destruct (Nat.ltb_spec (S j) n); [|lia]. by destruct isolated.
Qed.

(** The steps that are not quiet, one lemma each. *)
Lemma empty_inv r r' j st g rc lt c pr cr : Spsc.step k r (Spsc.Size 0) r' ->
  rt_inv (mkState r Waiting j st g rc lt c pr cr) -> rt_inv (mkState r' Stamping j st g rc lt c pr cr).
Proof.
  intros H Hinv. pose proof (Threaded.ring_frame _ _ _ _ H) as (Ep & Eo & _ & Epc).
  assert (rt_inv (with_ring r' (mkState r Waiting j st g rc lt c pr cr))) as [Hr1 Hpu1 _ Hph1 Hpo1 Hg1 Hs1 Hl1 Hpr1 Hcr1 Hst1 Hsa1 _]
    by (apply (quiet_inv _ _ _ Hinv H Ep Eo); unfold pushing; cbn; by rewrite Epc).
  constructor; try done; [unfold pushing; cbn; by rewrite Epc|exact (proj2 Hph1)|].
  intros _. cbn in *. pose proof (Spsc.step_facts k ltac:(lia) _ _ _ H (rt_ring _ Hinv)) as [_ Hz]. cbn in Hz.
  pose proof (Spsc.r_pview k _ Hr1). pose proof (Spsc.r_cview k _ Hr1). lia.
Qed.

Lemma stamp_inv now st' r j st g rc lt c pr cr : c <= now -> wr st j now = Ok st' ->
  rt_inv (mkState r Stamping j st g rc lt c pr cr) -> rt_inv (mkState r Pushing j st' g rc lt now (pr ++ [now]) cr).
Proof.
  intros Hc Hw [Hr Hpu Hpe Hph Hpo Hg Hs Hl Hpr Hcr Hst Hsa His]. cbn in *.
  unfold wr in Hw. case_decide as Hj; [|done]. injection Hw as <-. constructor; cbn; try done.
  - unfold pushing in *. cbn in *. destruct (Spsc.p_pc r); [done|..]; by destruct Hpe as [? _].
  - by rewrite length_insert.
  - rewrite length_app. unfold stamped in *. cbn in *. lia.
  - intros q Hq. unfold stamped in *. cbn in *. destruct (decide (q = j)) as [->|Hne].
    + rewrite list_lookup_insert_eq by done. exists now. rewrite <- Hpr. split_and!; [by apply list_lookup_middle|done|lia].
    + rewrite list_lookup_insert_ne by done. destruct (Hst q ltac:(lia)) as (t & Hp & Ht & Hle). exists t. split_and!; [by apply lookup_app_l_Some|done|lia].
  - intros q Hq. destruct (Hsa q Hq) as (t0 & t1 & P0 & P1 & E0 & E1 & Hle). exists t0, t1.
    rewrite list_lookup_insert_ne; [split_and!; try done; [by apply lookup_app_l_Some|lia..]|].
    intros <-. pose proof (Spsc.r_cview k _ Hr) as Hcv. rewrite Hpu, length_fmap, length_seq in Hcv. lia.
Qed.

Lemma push_inv v r r' j st g rc lt c pr cr : Spsc.step k r (Spsc.Push v) r' ->
  rt_inv (mkState r Pushing j st g rc lt c pr cr) -> rt_inv (mkState r' (loop_at (S j)) (S j) st g rc lt c pr cr).
Proof.
  intros H [Hr Hpu Hpe Hph Hpo Hg Hs Hl Hpr Hcr Hst Hsa His]. cbn in *.
  pose proof (Threaded.ring_frame _ _ _ _ H) as (Ep & Eo & _ & Epc & tail & Epc0). unfold pushing in Hpe. cbn in Hpe. rewrite Epc0 in Hpe.
  destruct Hpe as [_ ->]. pose proof (Spsc.step_inv k ltac:(lia) _ _ _ H Hr) as Hr'.
  assert (numbered <$> List.seq 0 (S j) = (numbered <$> List.seq 0 j) ++ [numbered j]) as Hseq by (by rewrite seq_S, fmap_app).
  pose proof (loop_at_phase j Hph) as Hla.
  assert (loop_at (S j) <> Pushing) as Hnp by (unfold loop_at; by destruct (S j <? n)%nat, isolated). constructor; cbn; rewrite ?Ep, ?Eo; try done.
  - rewrite Hpu. symmetry. exact Hseq.
  - unfold pushing. cbn. by rewrite Epc.
  - unfold stamped in *. cbn in *. by destruct (loop_at (S j)).
  - intros q Hq. apply Hst. unfold stamped in *. cbn in *. by destruct (loop_at (S j)).
  - intros Hi. unfold loop_at. rewrite Hi. by destruct (S j <? n)%nat.
Qed.

Lemma pop_inv env r r' p j st rc lt c pr cr : Spsc.step k r (Spsc.Pop env) r' ->
  rt_inv (mkState r p j st None rc lt c pr cr) -> rt_inv (mkState r' p j st (Some env) rc lt c pr cr).
Proof.
  intros H [Hr Hpu Hpe Hph Hpo Hg Hs Hl Hpr Hcr Hst Hsa His]. cbn in *. pose proof (Threaded.ring_frame _ _ _ _ H) as (Ep & Eo & Epc & _).
  pose proof (Spsc.step_inv k ltac:(lia) _ _ _ H Hr) as Hr'.
  pose proof (Spsc.r_cview k _ Hr') as Hcv. pose proof (view_mono _ _ _ H) as Hv. pose proof (Spsc.r_pview k _ Hr') as Hpv.
  rewrite Ep, Eo, length_app in Hcv. cbn in Hcv. rewrite Eo, length_app in Hpv. cbn in Hpv.
  constructor; cbn; rewrite ?Ep, ?Eo, ?length_app; cbn; try done; try lia.
  - unfold pushing in *. cbn in *. by rewrite Epc.
  - intros env' [= <-]. pose proof (Spsc.r_fifo k _ Hr') as Hfifo. rewrite Ep, Eo, Hpu in Hfifo.
    assert ((Spsc.popped r ++ [env]) !! length (Spsc.popped r) = Some env) as Hlast by (rewrite lookup_app_r, Nat.sub_diag by lia; done).
    rewrite Hfifo in Hlast. apply lookup_take_Some in Hlast as [Hlast _]. rewrite list_lookup_fmap in Hlast.
    destruct (List.seq 0 j !! length (Spsc.popped r)) as [x|] eqn:E; [|done]. injection Hlast as <-.
    apply lookup_seq in E as [-> _]. unfold popped_only in Hpo. cbn in Hpo. f_equal. lia.
  - intros Hi. specialize (His Hi). destruct p; try done; lia.
Qed.

Lemma measured_inv env seq sent now lt' r p j st rc lt c pr cr :
  number_of env = Ok seq -> c <= now -> rd st seq = Ok sent -> wr lt seq (u64 (now - sent)) = Ok lt' ->
  rt_inv (mkState r p j st (Some env) rc lt c pr cr) -> rt_inv (mkState r p j st None (S rc) lt' now pr (cr ++ [now])).
Proof.
  intros He Hc Hsd Hw [Hr Hpu Hpe Hph Hpo Hg Hs Hl Hpr Hcr Hst Hsa His]. cbn in *.
  specialize (Hg env eq_refl). subst env. unfold popped_only in Hpo. cbn in Hpo.
  pose proof (Spsc.r_cview k _ Hr) as Hcv. rewrite Hpu, length_fmap, length_seq in Hcv.
  assert (j <= n)%nat as Hjn by (destruct p; lia).
  rewrite number_numbered in He by lia. injection He as <-.
  assert (rc < stamped (mkState r p j st (Some (numbered rc)) rc lt c pr cr))%nat as Hlt by (unfold stamped; cbn; destruct p; lia).
  destruct (Hst rc Hlt) as (t & Hp & Ht & Hle). cbn in Ht, Hp. rewrite (rd_lookup _ _ _ Ht) in Hsd. injection Hsd as <-.
  unfold wr in Hw. case_decide as Hrl; [|done]. injection Hw as <-. constructor; cbn; try done.
  - unfold popped_only. cbn. lia.
  - by rewrite length_insert.
  - rewrite length_app. cbn. lia.
  - intros q Hq. destruct (Hst q Hq) as (t' & Hp' & Ht' & Hle'). exists t'. split_and!; [done..|lia].
  - intros q Hq. destruct (decide (q = rc)) as [->|Hne].
    + rewrite list_lookup_insert_eq by done. exists t, now. split_and!; try done; [by apply list_lookup_middle|lia].
    + rewrite list_lookup_insert_ne by done. destruct (Hsa q ltac:(lia)) as (t0 & t1 & P0 & P1 & E0 & E1 & Hle').
      exists t0, t1. split_and!; try done; [by apply lookup_app_l_Some|lia..].
Qed.

Lemma rt_step_inv s s' : rt_inv s -> step s s' -> rt_inv s'.
Proof.
  intros Hinv Hstep. destruct Hstep; [|by eapply empty_inv|by eapply stamp_inv| | | |by eapply push_inv| | | |by eapply pop_inv
    |by eapply measured_inv].
  all: match goal with H : Spsc.step _ ?r _ ?r' |- rt_inv (mkState ?r' ?p ?j ?st ?g ?rc ?lt ?c ?pr ?cr) =>
    pose proof (Threaded.ring_frame _ _ _ _ H) as (Ep & Eo & Hf); apply (quiet_inv (mkState r p j st g rc lt c pr cr) _ _ Hinv H Ep Eo);
    pose proof (rt_pushing _ Hinv) as Hpe; unfold pushing in *; cbn in * end.
  - destruct Hf as [_ Epc]. by rewrite Epc.
  - destruct Hf as (_ & tail & Epc). by rewrite Epc.
  - destruct Hf as (_ & v & tail & [[E1 E2]|[E1 E2]]); rewrite E1 in Hpe; by rewrite E2.
  - destruct Hf as [_ Epc]. by rewrite Epc.
  - destruct Hf as [Epc _]. by rewrite Epc.
  - destruct Hf as [Epc _]. by rewrite Epc.
  - destruct Hf as [Epc _]. by rewrite Epc.
Qed.

Lemma rt_reachable_inv buf now s : length buf = Z.to_nat (Spsc.capacity k) -> reachable buf now s -> rt_inv s.
Proof. intros Hb. induction 1 as [|s s' _ IH Hstep]; [by apply rt_start_inv|by eapply rt_step_inv]. Qed.

(** ** A finish is always in reach *)

(** Steps left for the producer and for the consumer when both read fresh
    values. *)
Definition producer_work (s : state) : nat :=
  (n - i s) * 20 + match p_at s with
    | Waiting => 7 | Stamping => 6 | Joining => 0
    | Pushing => match Spsc.p_pc (ring s) with Spsc.PIdle => 5 | Spsc.PLoaded _ _ => 4 | Spsc.PFree _ _ => 3 | Spsc.PWritten _ _ => 2 end
    end.

Definition consumer_work (s : state) : nat :=
  (n - received s) * 20 + match got s with
    | Some _ => 1
    | None => match Spsc.c_pc (ring s) with Spsc.CIdle => 5 | Spsc.CLoaded _ => 4 | Spsc.CReady _ => 3 | Spsc.CGot _ _ => 2 end
    end.

Definition work (s : state) : nat := producer_work s + consumer_work s.

Lemma counts s : rt_inv s -> (length (Spsc.popped (ring s)) <= i s)%nat /\ (i s <= n)%nat.
Proof.
  intros [Hr Hpu _ Hph _ _ _ _ _ _ _ _ _]. pose proof (Spsc.r_cview k _ Hr) as Hcv.
  rewrite Hpu, length_fmap, length_seq in Hcv. split; [lia|]. destruct (p_at s); lia.
Qed.

(** The consumer, once something is popped or there is something to pop. *)
Lemma consumer_progress s : rt_inv s -> got s <> None \/ (length (Spsc.popped (ring s)) < i s)%nat ->
  exists s', step s s' /\ (work s' < work s)%nat.
Proof.
  intros Hinv Hdo. destruct (counts s Hinv) as [Hle Hin]. pose proof Hinv as [Hr Hpu _ Hph Hpo Hg Hs Hl _ _ Hst _ _].
  destruct s as [r p j st [env|] rc lt c pr cr]; unfold popped_only, work, producer_work, consumer_work in *; cbn in *.
  - specialize (Hg env eq_refl). subst env.
    destruct (Hst rc ltac:(unfold stamped; cbn; destruct p; lia)) as (t & _ & Ht & _).
    eexists. split; [eapply (R_record _ rc t c); [by apply number_numbered; lia|done|by apply rd_lookup|]|].
    + unfold wr. by rewrite decide_True by lia.
    + cbn. destruct (Spsc.c_pc r); lia.
  - destruct Hdo as [?|Hlt]; [done|]. pose proof Hr as [_ Hh Ht Hpv Hcv Hroom Hdata _ _ Hc].
    assert (length (Spsc.pushed r) = j) as Hpl by (rewrite Hpu, length_fmap, length_seq; done).
    destruct (Threaded.indices_latest k _ _ Hh) as [_ Hh2], (Threaded.indices_latest k _ _ Ht) as [Ht1 _].
    destruct r as [b hh th pv pp cv [|head|head|x head] pu po]; unfold Spsc.c_inv in Hc; cbn in *.
    + eexists. split; [eapply R_pop_begin; [lia|by eapply Spsc.C_load]|cbn; lia].
    + subst head. eexists. split; [eapply R_pop_step, (Spsc.C_ready k _ _ (length pu)); [split; [lia|done]|]|cbn; lia].
      intros E. apply Spsc.wrap_inj in E; lia.
    + destruct Hc as [-> Hc]. destruct (lookup_lt_is_Some_2 pu (length po) ltac:(lia)) as [x Hx].
      eexists. split; [eapply R_pop_step, (Spsc.C_read k _ x)|cbn; lia].
      change (b !! Spsc.slot k (length po) = Some x). rewrite Hdata by lia. done.
    + eexists. split; [apply R_pop, Spsc.C_publish|cbn; lia].
Qed.

(** The producer, when the ring is empty. *)
Lemma producer_progress s : rt_inv s -> (i s < n)%nat -> length (Spsc.popped (ring s)) = i s ->
  exists s', step s s' /\ (work s' < work s)%nat.
Proof.
  intros [Hr Hpu Hpe Hph _ _ Hs _ _ _ _ _ _] Hi Hempty.
  assert (2 <= Spsc.capacity k) as Hcap by (unfold Spsc.capacity; apply (Z.pow_le_mono_r 2 1); lia).
  pose proof Hr as [_ Hh Ht Hpv _ _ _ _ Hpi _].
  assert (length (Spsc.pushed (ring s)) = i s) as Hpl by (rewrite Hpu, length_fmap, length_seq; done).
  destruct (Threaded.indices_latest k _ _ Hh) as [Hh1 _], (Threaded.indices_latest k _ _ Ht) as [_ Ht2].
  destruct s as [[b hh th pv pp cv cc pu po] p j st g rc lt c pr cr]; unfold pushing, work, producer_work, consumer_work in *; cbn in *.
  destruct p.
  - destruct pp; [|by destruct Hpe..].
    assert (Spsc.occupancy k (Z.of_nat (length pu) mod Spsc.capacity k) (Z.of_nat (length po) mod Spsc.capacity k) = 0) as Hocc
      by (rewrite Spsc.occupancy_mod; lia).
    eexists. split; [eapply R_empty; rewrite <- Hocc; eapply (Spsc.P_size k _ _ (length po)); [done|by split]|cbn; lia].
  - eexists. split; [eapply (R_stamp c); [done|]|].
    + unfold wr. by rewrite decide_True by lia.
    + cbn. destruct pp; [lia|by destruct Hpe..].
  - unfold Spsc.p_inv in Hpi. cbn in Hpi. destruct pp as [|v tail|v tail|v tail].
    + eexists. split; [eapply R_push_begin; by eapply Spsc.P_load|cbn; lia].
    + subst tail. eexists. split; [eapply R_push_step, (Spsc.P_free k v _ _ (length po)); [split; [lia|done]|]|cbn; lia].
      rewrite Spsc.next_mod by lia. intros E. symmetry in E. apply Spsc.wrap_inj in E; lia.
    + eexists. split; [eapply R_push_step, Spsc.P_write|cbn; lia].
    + eexists. split; [eapply R_push, Spsc.P_publish|]. cbn. destruct (loop_at (S j)) eqn:E; try lia.
  - lia.
Qed.

Lemma progress s : rt_inv s -> finished s \/ exists s', step s s' /\ (work s' < work s)%nat.
Proof.
  intros Hinv. destruct (counts s Hinv) as [Hle Hin].
  destruct (decide (got s = None)) as [Hgot|Hgot]; [|right; apply consumer_progress; auto].
  destruct (decide (length (Spsc.popped (ring s)) = i s)) as [He|He]; [|right; apply consumer_progress; [done|right; lia]].
  destruct (decide (i s = n)) as [Hi|Hi]; [left|right; apply producer_progress; [done|lia|done]].
  pose proof (rt_popped _ Hinv) as Hpo. unfold popped_only in Hpo. rewrite Hgot in Hpo.
  pose proof (rt_phase _ Hinv) as Hph. split; [destruct (p_at s); lia || done|lia].
Qed.

Lemma roundtrip_can_finish s : rt_inv s -> exists s', rtc step s s' /\ finished s'.
Proof.
  remember (work s) as w. revert s Heqw. induction w as [w IH] using lt_wf_ind. intros s -> Hinv.
  destruct (progress s Hinv) as [Hf|(s1 & Hstep & Hw)]; [by exists s; split; [apply rtc_refl|]|].
  destruct (IH _ Hw s1 eq_refl) as (s' & Hr & Hf); [by eapply rt_step_inv|]. exists s'. split; [by eapply rtc_l|done].
Qed.

Lemma rtc_reachable buf now s s' : reachable buf now s -> rtc step s s' -> reachable buf now s'.
Proof. intros Hs. induction 1 as [|s s1 s2 H1 _ IH]; [done|]. apply IH. by eapply reach_step. Qed.

(** ** Properties *)

(** C18: the round-trip measurement takes every sample exactly once and takes it
    right: under any interleaving of the two threads, when it ends slot [j] holds
    the difference of the two clock readings made for message [j], the
    producer's before it pushes the message and the consumer's after it pops
    it, the second not before the first, so that the subtraction never wraps; no
    index is out of bounds on the way, and the consumer never reads a stamp the
    producer may still write.  The isolated variant stamps only when the queue is
    empty, and its pushes never fail, so no sample includes a wait for room.
    The end can be reached from every state. *)
Theorem roundtrip_exact (buf : list Threaded.Envelope) (now : Z) (s : state)
  (Hb : length buf = Z.to_nat (Spsc.capacity k)) (Hs : reachable buf now s) :
  (finished s -> length (p_reads s) = n /\ length (c_reads s) = n /\
     forall j, (j < n)%nat -> exists t0 t1, p_reads s !! j = Some t0 /\ c_reads s !! j = Some t1 /\
       send_time s !! j = Some t0 /\ latency_ns s !! j = Some (u64 (t1 - t0)) /\ t0 <= t1 <= clock s) /\
  (p_at s = Stamping -> (i s < length (send_time s))%nat /\ forall env, got s = Some env -> number_of env <> Ok (i s)) /\
  (forall env, got s = Some env -> exists seq, number_of env = Ok seq /\
     (seq < length (send_time s))%nat /\ (seq < length (latency_ns s))%nat) /\
  (isolated = true -> (p_at s = Stamping -> length (Spsc.popped (ring s)) = length (Spsc.pushed (ring s))) /\
     forall v r', p_at s = Pushing -> ~ Spsc.step k (ring s) (Spsc.PushFull v) r') /\
  exists s', rtc step s s' /\ finished s'.
Proof.
  pose proof (rt_reachable_inv buf now s Hb Hs) as Hinv. destruct (counts s Hinv) as [Hle Hin].
  pose proof Hinv as [Hr _ _ Hph Hpo Hg Hsl Hll Hpr Hcr _ Hsa His].
  assert (forall env, got s = Some env -> (received s < i s)%nat /\ number_of env = Ok (received s)) as Hgot.
  { intros env He. unfold popped_only in Hpo. rewrite He in Hpo. specialize (Hg env He). subst env.
    split; [lia|apply number_numbered; lia]. }
  split_and!.
  - intros [Hp Hf]. unfold stamped in Hpr. rewrite Hp in Hpr, Hph. split_and!; [congruence..|].
    intros j Hj. apply Hsa. lia.
  - intros Hp. rewrite Hp in Hph. split; [lia|]. intros env He Hnum. destruct (Hgot env He) as [Hlt Hnum'].
    rewrite Hnum' in Hnum. injection Hnum. lia.
  - intros env He. destruct (Hgot env He) as [Hlt Hnum]. exists (received s). split_and!; [done|lia|lia].
  - intros Hi. split; [intros Hp; specialize (His Hi); rewrite Hp in His; tauto|].
    intros v r' Hp Hfull. specialize (His Hi). rewrite Hp in His. destruct His as [Hv Hem].
    assert (2 <= Spsc.capacity k) as Hcap by (unfold Spsc.capacity; apply (Z.pow_le_mono_r 2 1); lia).
    pose proof (Threaded.ring_frame _ _ _ _ Hfull) as (Ep & Eo & _).
    pose proof (Spsc.step_facts k ltac:(lia) _ _ _ Hfull Hr) as Hfacts. cbn in Hfacts. rewrite Ep in Hfacts.
    pose proof (view_mono _ _ _ Hfull). pose proof (Spsc.r_pview k _ (Spsc.step_inv k ltac:(lia) _ _ _ Hfull Hr)) as Hpv.
    rewrite Eo in Hpv. lia.
  - by apply roundtrip_can_finish.
Qed.

End Measure.

Lemma roundtrip_exact_witness : exists s,
  rtc (step 2 3 true) (start 3 true (replicate 4 (numbered 0)) 100) s /\ finished 3 s.
Proof.
  destruct (roundtrip_exact 2 3 true ltac:(lia) ltac:(lia) (replicate 4 (numbered 0)) 100
    (start 3 true (replicate 4 (numbered 0)) 100) eq_refl (reach_start 2 3 true _ _)) as (_ & _ & _ & _ & s & H1 & H2).
  exists s. split; [exact H1|exact H2].
Defined.

End Roundtrip.
