(* ===== verification/ExecTypes.v ===== *)
(** * ExecTypes: the execution layer's data and fixed-capacity queue

    Models include/exec/types.hpp: the flat records that cross the
    strategy/book boundary and the array-backed queue.  [Fixed T] is the
    pattern [ChildOrderQueue] and [FillQueue] share: an array of
    [kMaxChildOrders] cells and a size; writes go through [wr], so that a push
    past the array would be undefined. *)

From S2P Require Import Prelude Wire.

Module ExecTypes.

Definition kMaxScheduleBins : Z := 512.
Definition kMaxChildOrders : nat := 512.

Inductive OrderType := Limit | Market.

#[global] Instance OrderType_eq_dec : EqDecision OrderType.
Proof. solve_decision. Defined.

Record Bbo := mkBbo {
  bbo_ts : Z; bid_price : Z; bid_shares : Z; ask_price : Z; ask_shares : Z }.

Record TradeTick := mkTradeTick {
  tick_ts : Z; tick_price : Z; tick_shares : Z; tick_side : Wire.Side }.

Record ChildOrder := mkChildOrder {
  co_ts : Z; co_side : Wire.Side; co_type : OrderType; co_price : Z; co_shares : Z }.

(** [ChildOrder{}] *)
Definition default_order : ChildOrder := mkChildOrder 0 Wire.Buy Limit 0 0.

(** Field widths. *)
Definition wf_child (o : ChildOrder) : Prop := is_u64 (co_ts o) /\ is_u32 (co_price o) /\ is_u32 (co_shares o).
Definition wf_tick (t : TradeTick) : Prop := is_u64 (tick_ts t) /\ is_u32 (tick_price t) /\ is_u32 (tick_shares t).

(** ** The fixed-capacity queue *)

Section Fixed.
Context {T : Type}.

Record Fixed := mkFixed { buf_ : list T; size_ : nat }.

Definition empty_queue (d : T) : Fixed := mkFixed (replicate kMaxChildOrders d) 0.

Definition push (o : T) (q : Fixed) : outcome (bool * Fixed) :=
  if (kMaxChildOrders <=? size_ q)%nat then Ok (false, q)
  else buf ← wr (buf_ q) (size_ q) o; Ok (true, mkFixed buf (S (size_ q))).

Definition clear (q : Fixed) : Fixed := mkFixed (buf_ q) 0.
Definition size (q : Fixed) : nat := size_ q.
Definition empty (q : Fixed) : bool := (size_ q =? 0)%nat.
Definition full (q : Fixed) : bool := (kMaxChildOrders <=? size_ q)%nat.

(** What [begin()] to [end()] ranges over. *)
Definition items (q : Fixed) : list T := take (size_ q) (buf_ q).

Definition queue_inv (q : Fixed) : Prop :=
  length (buf_ q) = kMaxChildOrders /\ (size_ q <= kMaxChildOrders)%nat.

Lemma empty_queue_inv d : queue_inv (empty_queue d) /\ items (empty_queue d) = [].
Proof. split; [|done]. split; [apply length_replicate|]. cbn. lia. Qed.

Lemma items_length q : queue_inv q -> length (items q) = size_ q.
Proof. intros [Hl Hs]. unfold items. rewrite length_take. lia. Qed.

(** [push] appends, or reports a full queue and leaves it alone; it never
    writes past the array. *)
Lemma push_ok o q : queue_inv q ->
  exists q', push o q = Ok (negb (full q), q') /\ queue_inv q' /\
    items q' = (if full q then items q else items q ++ [o]) /\ (full q = true -> q' = q).
Proof.
  intros [Hl Hs]. unfold push, full. destruct (Nat.leb_spec kMaxChildOrders (size_ q)) as [Hf|Hf].
  - exists q. by split_and!.
  - unfold wr. rewrite decide_True, bind_Ok by lia. eexists; split; [reflexivity|].
    split; [split; cbn [buf_ size_]; [by rewrite length_insert|lia]|]. split; [|done].
    unfold items. cbn [size_ buf_]. rewrite (take_S_r _ _ o) by (apply list_lookup_insert_eq; lia).
    by rewrite take_insert_ge by lia.
Qed.

Lemma clear_ok q : queue_inv q -> queue_inv (clear q) /\ items (clear q) = [].
Proof. intros [Hl Hs]. split; [|done]. split; [done|cbn; lia]. Qed.

Lemma full_false q : queue_inv q -> full q = false <-> (length (items q) < kMaxChildOrders)%nat.
Proof. intros Hq. rewrite (items_length q Hq). unfold full. rewrite Nat.leb_gt. done. Qed.

End Fixed.
Arguments Fixed T : clear implicits.

Definition ChildOrderQueue := Fixed ChildOrder.

(** Total shares of a list of orders. *)
Definition total_shares (l : list ChildOrder) : Z := foldr (fun o n => co_shares o + n) 0 l.

Lemma total_shares_app l1 l2 : total_shares (l1 ++ l2) = total_shares l1 + total_shares l2.
Proof. unfold total_shares. induction l1 as [|o l1 IH]; simpl; lia. Qed.

End ExecTypes.
