(* ===== verification/Twap.v ===== *)
(** * Twap: the time-sliced schedule

    Models include/exec/twap.hpp.  The schedule is an array of
    [kMaxScheduleBins] cells; timestamps wrap at 64 bits as in the code, and
    the theorems about [advance] assume that the last bin boundary does not. *)

From S2P Require Import Prelude Wire ExecTypes.

Module Twap.

Record TwapParams := mkTwapParams {
  side : Wire.Side; tot_shares : Z; start_ts : Z; end_ts : Z; bin_ns : Z;
  child_type : ExecTypes.OrderType; limit_price : Z }.

Record Twap := mkTwap {
  params_ : TwapParams;
  schedule_ : list Z;
  bin_count_ : Z;
  next_bin_ : Z;
  queue_ : ExecTypes.ChildOrderQueue }.

(** The loop that fills [schedule_], at index [i] with [k] bins left. *)
Fixpoint fill_schedule (base remainder : Z) (i k : nat) (schedule : list Z) : outcome (list Z) :=
  match k with
  | O => Ok schedule
  | S k =>
    schedule ← wr schedule i (u32 (base + (if Z.of_nat i <? remainder then 1 else 0)));
    fill_schedule base remainder (S i) k schedule
  end.

(** The constructor. *)
Definition construct (params : TwapParams) : outcome Twap :=
  if end_ts params <=? start_ts params then Throw "Twap: start_ts must be < end_ts"
  else if bin_ns params =? 0 then Throw "Twap: bin_ns must be > 0"
  else
    let span := u64 (end_ts params - start_ts params) in
    let bin_count := u64 (u64 (span + bin_ns params) - 1) / bin_ns params in
    if (bin_count =? 0) || (ExecTypes.kMaxScheduleBins <? bin_count)
    then Throw "Twap: bin_count out of range for kMaxScheduleBins"
    else
      let base := tot_shares params / u32 bin_count in
      let remainder := tot_shares params mod u32 bin_count in
      schedule ← fill_schedule base remainder 0 (Z.to_nat bin_count)
                   (replicate (Z.to_nat ExecTypes.kMaxScheduleBins) 0);
      Ok (mkTwap params schedule bin_count 0 (ExecTypes.empty_queue ExecTypes.default_order)).

Definition done (t : Twap) : bool := bin_count_ t <=? next_bin_ t.

Definition boundary (t : Twap) (bin : Z) : Z :=
  u64 (start_ts (params_ t) + u64 (u64 (bin + 1) * bin_ns (params_ t))).

(** The loop of [advance]; [fuel] bounds its iterations. *)
Fixpoint advance_loop (fuel : nat) (now pushed : Z) (t : Twap) : outcome (Z * Twap) :=
  match fuel with
  | O => NoFuel
  | S fuel =>
    if next_bin_ t <? bin_count_ t then
      if now <? boundary t (next_bin_ t) then Ok (pushed, t)
      else if ExecTypes.full (queue_ t) then Ok (pushed, t)
      else
        shares ← rd (schedule_ t) (Z.to_nat (next_bin_ t));
        '(_, q) ← ExecTypes.push
          (ExecTypes.mkChildOrder now (side (params_ t)) (child_type (params_ t))
             (if decide (child_type (params_ t) = ExecTypes.Limit) then limit_price (params_ t) else 0)
             shares) (queue_ t);
        advance_loop fuel now (u64 (pushed + 1))
          (mkTwap (params_ t) (schedule_ t) (bin_count_ t) (u64 (next_bin_ t + 1)) q)
    else Ok (pushed, t)
  end.

Definition advance (now : Z) (t : Twap) : outcome (Z * Twap) :=
  advance_loop (Z.to_nat (bin_count_ t - next_bin_ t) + 1) now 0 t.

(** [child_orders().clear()], by the caller that drained the queue. *)
Definition drain (t : Twap) : Twap :=
  mkTwap (params_ t) (schedule_ t) (bin_count_ t) (next_bin_ t) (ExecTypes.clear (queue_ t)).

(** ** The invariant *)

Definition sum (l : list Z) : Z := foldr Z.add 0 l.

Record twap_inv (t : Twap) : Prop := {
  tw_queue : ExecTypes.queue_inv (queue_ t);
  tw_len : length (schedule_ t) = 512%nat;
  tw_bins : 0 < bin_count_ t <= 512;
  tw_next : 0 <= next_bin_ t <= bin_count_ t;
  tw_ns : 0 < bin_ns (params_ t);
  tw_start : 0 <= start_ts (params_ t) }.

(** The last bin's boundary fits in 64 bits. *)
Definition no_wrap (t : Twap) : Prop :=
  start_ts (params_ t) + bin_count_ t * bin_ns (params_ t) < 18446744073709551616.

(** The child order of bin [i] when it fires at [now]. *)
Definition bin_order (t : Twap) (now : Z) (i : nat) : ExecTypes.ChildOrder :=
  ExecTypes.mkChildOrder now (side (params_ t)) (child_type (params_ t))
    (if decide (child_type (params_ t) = ExecTypes.Limit) then limit_price (params_ t) else 0)
    (nth i (schedule_ t) 0).

(** Shares scheduled from bin [i] on. *)
Definition shares_from (t : Twap) (i : Z) : Z := sum (drop (Z.to_nat i) (take (Z.to_nat (bin_count_ t)) (schedule_ t))).

Lemma sum_app l1 l2 : sum (l1 ++ l2) = sum l1 + sum l2.
Proof. unfold sum. induction l1 as [|x l1 IH]; simpl; lia. Qed.

(** ** The schedule *)

Lemma fill_schedule_ok base remainder i k sched :
  (i + k <= length sched)%nat -> 0 <= base -> base + 1 < 4294967296 ->
  exists sched', fill_schedule base remainder i k sched = Ok sched' /\ length sched' = length sched /\
    forall j, sched' !! j = if decide (i <= j < i + k)%nat
                            then Some (base + if Z.of_nat j <? remainder then 1 else 0) else sched !! j.
Proof.
  revert i sched. induction k as [|k IH]; intros i sched Hlen Hb0 Hb; cbn [fill_schedule].
  { exists sched. split_and!; try reflexivity. intros j. rewrite decide_False by lia. reflexivity. }
  unfold wr. rewrite decide_True, bind_Ok by lia.
  rewrite u32_id by (destruct (Z.of_nat i <? remainder); unfold is_u32; lia).
  destruct (IH (S i) (<[i := base + (if Z.of_nat i <? remainder then 1 else 0)]> sched)) as (s' & -> & Hl & Hj);
    [rewrite length_insert; lia|lia|lia|].
  rewrite length_insert in Hl. exists s'. split_and!; try assumption; try reflexivity.
  intros j. rewrite Hj. destruct (decide (j = i)) as [->|Hne].
  - rewrite decide_False, decide_True, list_lookup_insert_eq by lia. reflexivity.
  - rewrite list_lookup_insert_ne by congruence. repeat case_decide; try lia; reflexivity.
Qed.

(** [n] bins of [base], the first [r] of them one share larger. *)
Lemma sum_split base r n : 0 <= r <= Z.of_nat n ->
  sum (imap (fun i _ => base + if Z.of_nat i <? r then 1 else 0) (replicate n tt)) = base * Z.of_nat n + r.
Proof.
  intros Hr. enough (forall k, 0 <= r ->
    sum (imap (fun i _ => base + if Z.of_nat (k + i) <? r then 1 else 0) (replicate n tt)) =
      base * Z.of_nat n + Z.max 0 (Z.min (r - Z.of_nat k) (Z.of_nat n))) as H.
  { specialize (H 0%nat ltac:(lia)). simpl in H. rewrite H. lia. }
  clear Hr. induction n as [|n IH]; intros k Hr; [simpl; lia|].
  cbn [replicate imap]. unfold sum at 1. cbn [foldr]. fold (sum (imap ((fun i _ => base + (if Z.of_nat (k + i) <? r then 1 else 0)) ∘ S) (replicate n tt))).
  assert (imap ((fun i _ => base + (if Z.of_nat (k + i) <? r then 1 else 0)) ∘ S) (replicate n tt) =
          imap (fun i _ => base + (if Z.of_nat (S k + i) <? r then 1 else 0)) (replicate n tt)) as ->.
  { apply imap_ext. intros i x _. simpl. replace (k + S i)%nat with (S (k + i)) by lia. reflexivity. }
  rewrite IH by lia. rewrite Nat.add_0_r. destruct (Z.ltb_spec (Z.of_nat k) r); lia.
Qed.

Definition wf_params (p : TwapParams) : Prop :=
  is_u32 (tot_shares p) /\ is_u64 (start_ts p) /\ is_u64 (end_ts p) /\ is_u64 (bin_ns p) /\ is_u32 (limit_price p).

(** The number of bins the parameters ask for, [ceil(span / bin_ns)]. *)
Definition bins (p : TwapParams) : Z := (end_ts p - start_ts p + bin_ns p - 1) / bin_ns p.

Lemma twap_construct_ok p : wf_params p -> start_ts p < end_ts p -> 0 < bin_ns p ->
  end_ts p - start_ts p + bin_ns p < 18446744073709551616 -> bins p <= 512 ->
  exists t, construct p = Ok t /\ twap_inv t /\ params_ t = p /\ bin_count_ t = bins p /\ next_bin_ t = 0 /\
    ExecTypes.items (queue_ t) = [] /\
    (forall i, (i < Z.to_nat (bins p))%nat ->
       schedule_ t !! i = Some (tot_shares p / bins p + if Z.of_nat i <? tot_shares p mod bins p then 1 else 0)) /\
    sum (take (Z.to_nat (bins p)) (schedule_ t)) = tot_shares p.
Proof.
  intros (Hts & Hs & He & Hb & Hl) Hlt Hns Hfit Hbins. unfold construct.
  rewrite (proj2 (Z.leb_gt _ _)), (proj2 (Z.eqb_neq _ _)) by lia. cbv zeta.
  unfold is_u64, is_u32 in *.
  rewrite (u64_id (end_ts p - start_ts p)) by (unfold is_u64; lia).
  rewrite (u64_id (_ + _)) by (unfold is_u64; lia). rewrite u64_id by (unfold is_u64; lia).
  fold (bins p). assert (1 <= bins p) as Hpos.
  { unfold bins. apply Z.div_le_lower_bound; lia. }
  rewrite (proj2 (Z.eqb_neq _ _)) by lia. unfold ExecTypes.kMaxScheduleBins.
  rewrite (proj2 (Z.ltb_ge _ _)) by lia. cbn [orb]. rewrite u32_id by (unfold is_u32; lia).
  pose proof (Z.mod_pos_bound (tot_shares p) (bins p) ltac:(lia)) as Hrem.
  pose proof (Z.div_pos (tot_shares p) (bins p) ltac:(lia) ltac:(lia)) as Hbase.
  pose proof (Z.div_mod (tot_shares p) (bins p) ltac:(lia)) as Hdm.
  assert (tot_shares p / bins p <= tot_shares p) by (apply Z.div_le_upper_bound; nia).
  destruct (decide (tot_shares p / bins p + 1 < 4294967296)) as [Hsmall|Hbig].
  2: { assert (bins p = 1) as E1 by nia. assert (tot_shares p = 4294967295) as E2 by lia.
       rewrite E1, E2. eexists. split; [reflexivity|]. cbn. split_and!; try reflexivity.
       - constructor; cbn [queue_ schedule_ bin_count_ next_bin_ params_]; try lia; [apply ExecTypes.empty_queue_inv|reflexivity].
       - intros [|i] Hi; [reflexivity|lia]. }
  destruct (fill_schedule_ok (tot_shares p / bins p) (tot_shares p mod bins p) 0 (Z.to_nat (bins p))
              (replicate (Z.to_nat 512) 0)) as (sched & -> & Hlen & Hj); [rewrite length_replicate; lia|lia|lia|].
  rewrite bind_Ok. eexists. split; [reflexivity|]. cbn [params_ bin_count_ next_bin_ queue_ schedule_].
  rewrite length_replicate in Hlen.
  assert (forall i, (i < Z.to_nat (bins p))%nat ->
    sched !! i = Some (tot_shares p / bins p + if Z.of_nat i <? tot_shares p mod bins p then 1 else 0)) as Hsched.
  { intros i Hi. rewrite Hj, decide_True by lia. reflexivity. }
  split_and!; try reflexivity; [|exact Hsched|].
  - constructor; cbn [queue_ schedule_ bin_count_ next_bin_ params_]; try lia. apply ExecTypes.empty_queue_inv.
  - assert (take (Z.to_nat (bins p)) sched =
      imap (fun i _ => tot_shares p / bins p + if Z.of_nat i <? tot_shares p mod bins p then 1 else 0) (replicate (Z.to_nat (bins p)) tt)) as ->.
    { apply list_eq. intros i. rewrite list_lookup_imap. destruct (decide (i < Z.to_nat (bins p))%nat) as [Hi|Hi].
      - rewrite lookup_take_lt, Hsched, lookup_replicate_2 by lia. reflexivity.
      - rewrite lookup_take_ge by lia. rewrite (lookup_ge_None_2 (replicate _ _)); [reflexivity|].
        rewrite length_replicate. lia. }
    rewrite sum_split by lia. rewrite Z2Nat.id by lia. lia.
Qed.

(** ** Advancing *)

Lemma boundary_exact t i : twap_inv t -> no_wrap t -> 0 <= i < bin_count_ t ->
  boundary t i = start_ts (params_ t) + (i + 1) * bin_ns (params_ t).
Proof.
  intros [_ _ Hb Hn Hns Hs] Hw Hi. unfold boundary, no_wrap in *.
  assert ((i + 1) * bin_ns (params_ t) <= bin_count_ t * bin_ns (params_ t)) by nia.
  assert (0 <= (i + 1) * bin_ns (params_ t)) by nia.
  rewrite (u64_id (i + 1)) by (unfold is_u64; lia). rewrite (u64_id (_ * _)) by (unfold is_u64; lia).
  rewrite u64_id by (unfold is_u64; lia). reflexivity.
Qed.

(** One call of [advance]'s loop. *)
Definition advanced (now : Z) (t : Twap) (n : nat) (t' : Twap) : Prop :=
  twap_inv t' /\ params_ t' = params_ t /\ schedule_ t' = schedule_ t /\ bin_count_ t' = bin_count_ t /\
  next_bin_ t' = next_bin_ t + Z.of_nat n /\
  ExecTypes.items (queue_ t') = ExecTypes.items (queue_ t) ++ (bin_order t now <$> seq (Z.to_nat (next_bin_ t)) n) /\
  (forall i, next_bin_ t <= i < next_bin_ t' -> start_ts (params_ t) + (i + 1) * bin_ns (params_ t) <= now) /\
  (next_bin_ t' = bin_count_ t \/ now < start_ts (params_ t) + (next_bin_ t' + 1) * bin_ns (params_ t) \/
   ExecTypes.full (queue_ t') = true).

Lemma advance_loop_ok fuel now pushed t : twap_inv t -> no_wrap t -> 0 <= pushed <= next_bin_ t ->
  (Z.to_nat (bin_count_ t - next_bin_ t) < fuel)%nat ->
  exists n t', advance_loop fuel now pushed t = Ok (pushed + Z.of_nat n, t') /\ advanced now t n t'.
Proof.
  revert pushed t. induction fuel as [|fuel IH]; intros pushed t Hinv Hw Hp Hf; [lia|].
  pose proof Hinv as [Hq Hlen Hb Hn Hns Hs]. cbn [advance_loop].
  assert (forall P : Prop, P -> (next_bin_ t = bin_count_ t \/ now < start_ts (params_ t) + (next_bin_ t + 1) * bin_ns (params_ t) \/ ExecTypes.full (queue_ t) = true) ->
    exists n t', Ok (pushed, t) = Ok (pushed + Z.of_nat n, t') /\ advanced now t n t') as Hstop.
  { intros _ _ Hwhy. exists 0%nat, t. rewrite Z.add_0_r. split; [reflexivity|].
    unfold advanced. split_and!; try reflexivity; try assumption; try lia. rewrite app_nil_r. reflexivity. }
  destruct (Z.ltb_spec (next_bin_ t) (bin_count_ t)) as [Hlt|Hge]; [|apply (Hstop True I); lia].
  rewrite boundary_exact by (assumption || lia).
  destruct (Z.ltb_spec now (start_ts (params_ t) + (next_bin_ t + 1) * bin_ns (params_ t))) as [Hnow|Hnow]; [apply (Hstop True I); lia|].
  destruct (ExecTypes.full (queue_ t)) eqn:Ef; [apply (Hstop True I); auto|].
  destruct (rd_ok (schedule_ t) (Z.to_nat (next_bin_ t)) ltac:(lia)) as (sh & -> & Hsh). rewrite bind_Ok.
  set (o := ExecTypes.mkChildOrder _ _ _ _ _).
  destruct (ExecTypes.push_ok o (queue_ t) Hq) as (q' & -> & Hq' & Hitems & _). rewrite bind_Ok. rewrite Ef in Hitems.
  assert (o = bin_order t now (Z.to_nat (next_bin_ t))) as Ho.
  { unfold o, bin_order. f_equal. symmetry. by apply nth_lookup_Some. }
  rewrite !u64_id by (unfold is_u64; lia).
  set (t1 := mkTwap _ _ _ _ _).
  destruct (IH (pushed + 1) t1) as (n & t' & Hrun & Hadv).
  - constructor; cbn; try assumption; lia.
  - exact Hw.
  - cbn. lia.
  - cbn. lia.
  - exists (S n), t'. split; [rewrite Hrun; do 2 f_equal; lia|].
    destruct Hadv as (Hinv' & E1 & E2 & E3 & E4 & E5 & E6 & E7). cbn [params_ schedule_ bin_count_ next_bin_ queue_ t1] in *.
    unfold advanced. split_and!; try assumption; try lia.
    + rewrite E5, Hitems, <- app_assoc, Ho. f_equal. cbn [seq fmap list_fmap app]. f_equal.
      replace (Z.to_nat (next_bin_ t + 1)) with (S (Z.to_nat (next_bin_ t))) by lia. reflexivity.
    + intros i Hi. destruct (decide (i = next_bin_ t)) as [->|]; [lia|]. apply E6. lia.
Qed.

Lemma twap_advance_ok now t : twap_inv t -> no_wrap t ->
  exists n t', advance now t = Ok (Z.of_nat n, t') /\ advanced now t n t'.
Proof.
  intros Hinv Hw. pose proof (tw_next t Hinv). unfold advance.
  destruct (advance_loop_ok (Z.to_nat (bin_count_ t - next_bin_ t) + 1) now 0 t Hinv Hw) as (n & t' & Hrun & Hadv); [lia|lia|].
  exists n, t'. split; [exact Hrun|exact Hadv].
Qed.

(** Shares are neither created nor lost by advancing. *)
Lemma advanced_shares now t n t' : twap_inv t -> advanced now t n t' ->
  ExecTypes.total_shares (bin_order t now <$> seq (Z.to_nat (next_bin_ t)) n) + shares_from t' (next_bin_ t') =
  shares_from t (next_bin_ t).
Proof.
  intros [_ Hlen Hb Hn _ _] (Hinv' & _ & E2 & E3 & E4 & _). pose proof (tw_next t' Hinv') as Hn'. rewrite E3 in Hn'.
  unfold shares_from. rewrite E2, E3, E4.
  assert (length (take (Z.to_nat (bin_count_ t)) (schedule_ t)) = Z.to_nat (bin_count_ t)) as Hl
    by (rewrite length_take; lia).
  rewrite E4 in Hn'. clear E2 E3 E4 Hinv'.
  assert (forall i, (i < Z.to_nat (bin_count_ t))%nat ->
    take (Z.to_nat (bin_count_ t)) (schedule_ t) !! i = Some (nth i (schedule_ t) 0)) as Hnth.
  { intros i Hi. rewrite lookup_take_lt by lia.
    destruct (lookup_lt_is_Some_2 (schedule_ t) i ltac:(lia)) as [x Hx]. rewrite Hx. f_equal. symmetry. by apply nth_lookup_Some. }
  set (l := take _ _) in *. clearbody l.
  replace (Z.to_nat (next_bin_ t + Z.of_nat n)) with (Z.to_nat (next_bin_ t) + n)%nat by lia.
  assert (Z.to_nat (next_bin_ t) + n <= length l)%nat as Hle by lia. rewrite <- Hl in Hnth.
  revert Hle. generalize (Z.to_nat (next_bin_ t)) as a. clear Hn Hn' Hl.
  induction n as [|n IH]; intros a Hle.
  { cbn. rewrite Nat.add_0_r. reflexivity. }
  cbn [seq fmap list_fmap ExecTypes.total_shares foldr]. fold (ExecTypes.total_shares (bin_order t now <$> seq (S a) n)).
  replace (a + S n)%nat with (S a + n)%nat by lia.
  rewrite (drop_S l (nth a (schedule_ t) 0) a) by (apply Hnth; lia).
  unfold sum at 2. cbn [foldr]. fold (sum (drop (S a) l)). rewrite <- (IH (S a)) by lia.
  cbn [bin_order ExecTypes.co_shares]. lia.
Qed.

(** ** Driving a schedule *)

(** A caller that advances the clock along [nows] and takes the child orders
    out of the queue after every call. *)
Fixpoint drive (nows : list Z) (t : Twap) : outcome (list ExecTypes.ChildOrder * Twap) :=
  match nows with
  | [] => Ok ([], t)
  | now :: nows =>
    '(_, t) ← advance now t;
    '(orders, t') ← drive nows (drain t);
    Ok (ExecTypes.items (queue_ t) ++ orders, t')
  end.

Lemma drain_inv t : twap_inv t -> twap_inv (drain t) /\ ExecTypes.items (queue_ (drain t)) = [].
Proof.
  intros [Hq Hlen Hb Hn Hns Hs]. destruct (ExecTypes.clear_ok _ Hq) as [Hq' Hi].
  split; [constructor; assumption|exact Hi].
Qed.

(** When a boundary is crossed: the first of the clock readings at or past it. *)
Definition crossed_at (boundary : Z) (nows : list Z) : option Z := head (filter (fun now => boundary <= now) nows).

(** The orders still to fire along [nows], one for each boundary that is crossed. *)
Definition fired (t : Twap) (nows : list Z) : list ExecTypes.ChildOrder :=
  omap (fun i => (fun now => bin_order t now i) <$> crossed_at (start_ts (params_ t) + (Z.of_nat i + 1) * bin_ns (params_ t)) nows)
    (seq (Z.to_nat (next_bin_ t)) (Z.to_nat (bin_count_ t - next_bin_ t))).

Lemma omap_some {A B} (f : A -> option B) (g : A -> B) (l : list A) : (forall x, x ∈ l -> f x = Some (g x)) -> omap f l = g <$> l.
Proof.
  induction l as [|x l IH]; intros H; [done|]. cbn. rewrite H by set_solver. cbn. f_equal. apply IH. set_solver.
Qed.

Lemma omap_ext_in {A B} (f g : A -> option B) (l : list A) : (forall x, x ∈ l -> f x = g x) -> omap f l = omap g l.
Proof. induction l as [|x l IH]; intros H; [done|]. cbn. rewrite H by set_solver. rewrite IH by set_solver. done. Qed.

Lemma crossed_now b now nows : b <= now -> crossed_at b (now :: nows) = Some now.
Proof. intros Hb. unfold crossed_at. by rewrite filter_cons_True. Qed.

Lemma crossed_later b now nows : now < b -> crossed_at b (now :: nows) = crossed_at b nows.
Proof. intros Hb. unfold crossed_at. by rewrite filter_cons_False by lia. Qed.

(** A reading that fires [n] bins, then the rest. *)
Lemma fired_cons t now nows n t1 : twap_inv t -> params_ t1 = params_ t -> schedule_ t1 = schedule_ t -> bin_count_ t1 = bin_count_ t ->
  next_bin_ t1 = next_bin_ t + Z.of_nat n -> next_bin_ t1 <= bin_count_ t ->
  (forall i, next_bin_ t <= i < next_bin_ t1 -> start_ts (params_ t) + (i + 1) * bin_ns (params_ t) <= now) ->
  next_bin_ t1 = bin_count_ t \/ now < start_ts (params_ t) + (next_bin_ t1 + 1) * bin_ns (params_ t) ->
  fired t (now :: nows) = (bin_order t now <$> seq (Z.to_nat (next_bin_ t)) n) ++ fired t1 nows.
Proof.
  intros Hinv E1 E2 E3 E4 Hle Hpast Hstop. pose proof (tw_next t Hinv). pose proof (tw_ns t Hinv). unfold fired.
  replace (Z.to_nat (bin_count_ t - next_bin_ t)) with (n + Z.to_nat (bin_count_ t1 - next_bin_ t1))%nat by lia.
  rewrite seq_app, omap_app, E1. f_equal.
  - apply omap_some. intros i [Hi1 Hi2]%elem_of_seq. by rewrite crossed_now by (apply Hpast; lia).
  - replace (Z.to_nat (next_bin_ t1)) with (Z.to_nat (next_bin_ t) + n)%nat by lia. apply omap_ext_in.
    intros i [Hi1 Hi2]%elem_of_seq. rewrite crossed_later by (destruct Hstop; nia).
    destruct (crossed_at _ nows); [|done]. cbn. unfold bin_order. by rewrite E1, E2.
Qed.

Lemma drive_ok nows t : twap_inv t -> no_wrap t -> ExecTypes.items (queue_ t) = [] ->
  exists orders t', drive nows t = Ok (orders, t') /\ orders = fired t nows /\ twap_inv t' /\ params_ t' = params_ t /\
    bin_count_ t' = bin_count_ t /\ next_bin_ t <= next_bin_ t' /\
    ExecTypes.total_shares orders + shares_from t' (next_bin_ t') = shares_from t (next_bin_ t) /\
    length orders = Z.to_nat (next_bin_ t' - next_bin_ t) /\
    (Exists (fun now => start_ts (params_ t) + bin_count_ t * bin_ns (params_ t) <= now) nows -> next_bin_ t' = bin_count_ t).
Proof.
  revert t. induction nows as [|now nows IH]; intros t Hinv Hw Hq; cbn [drive].
  { exists [], t. split_and!; try reflexivity; try assumption; try lia; [|simpl; lia|intros H; by apply Exists_nil in H].
    unfold fired. induction (seq _ _) as [|i l IH]; [done|exact IH]. }
  destruct (twap_advance_ok now t Hinv Hw) as (n & t1 & -> & Hadv). rewrite bind_Ok.
  pose proof (advanced_shares now t n t1 Hinv Hadv) as Hsh.
  destruct Hadv as (Hinv1 & E1 & E2 & E3 & E4 & E5 & E6 & E7). rewrite Hq in E5. cbn [app] in E5.
  destruct (drain_inv t1 Hinv1) as [Hinv1' Hq1].
  assert (no_wrap (drain t1)) as Hw1 by (unfold no_wrap in *; cbn; rewrite E1, E3; exact Hw).
  destruct (IH (drain t1) Hinv1' Hw1 Hq1) as (orders & t' & -> & F0 & Hinv' & F1 & F2 & F3 & F4 & F5 & F6). rewrite bind_Ok.
  cbn [drain params_ bin_count_ next_bin_] in *. change (shares_from (drain t1) (next_bin_ t1)) with (shares_from t1 (next_bin_ t1)) in F4.
  assert (next_bin_ t1 = bin_count_ t \/ now < start_ts (params_ t) + (next_bin_ t1 + 1) * bin_ns (params_ t)) as Hstop.
  { destruct E7 as [E7|[E7|E7]]; [by left|by right|left].
    destruct (decide (next_bin_ t1 = bin_count_ t)) as [|Hne]; [assumption|exfalso].
    pose proof (ExecTypes.full_false (queue_ t1) (tw_queue t1 Hinv1)) as Hff. pose proof (tw_next t1 Hinv1) as Hn1.
    assert (ExecTypes.full (queue_ t1) = false) as Hf; [|congruence]. apply Hff. rewrite E5, length_fmap, length_seq.
    pose proof (tw_next t Hinv). pose proof (tw_bins t Hinv). unfold ExecTypes.kMaxChildOrders. lia. }
  pose proof (tw_next t1 Hinv1) as Hn1. rewrite E3 in Hn1.
  eexists _, t'. split; [reflexivity|]. rewrite E5. split_and!; try assumption; try congruence; try lia.
  - rewrite F0. symmetry. rewrite (fired_cons t now nows n (drain t1)) by (done || apply Hn1). done.
  - rewrite ExecTypes.total_shares_app. lia.
  - rewrite length_app, length_fmap, length_seq, F5. lia.
  - intros [Hnow|Hrest]%Exists_cons; [|rewrite <- E3; apply F6; rewrite E1, E3; exact Hrest].
    pose proof (tw_ns t Hinv). pose proof (tw_next t' Hinv') as Hn'. rewrite F2, E3 in Hn'. destruct Hstop; nia.
Qed.

(** ** Properties *)

(** For parameters with a non-empty window, a positive slice and at most 512
    slices, the constructor succeeds with [ceil(span / bin_ns)] bins that split
    the parent order exactly: every bin is the integer quotient, the first
    [total mod bins] of them one share more, and they add up to
    [total_shares]. *)
Theorem schedule_exact (p : TwapParams)
  (Hp : wf_params p) (Hlt : start_ts p < end_ts p) (Hns : 0 < bin_ns p)
  (Hfit : end_ts p - start_ts p + bin_ns p < 18446744073709551616) (Hbins : bins p <= 512) :
  exists t, construct p = Ok t /\ bin_count_ t = bins p /\ next_bin_ t = 0 /\
    (forall i, (i < Z.to_nat (bins p))%nat ->
       schedule_ t !! i = Some (tot_shares p / bins p + if Z.of_nat i <? tot_shares p mod bins p then 1 else 0)) /\
    sum (take (Z.to_nat (bins p)) (schedule_ t)) = tot_shares p.
Proof.
  destruct (twap_construct_ok p Hp Hlt Hns Hfit Hbins) as (t & ? & _ & _ & ? & ? & _ & ? & ?). exists t. auto.
Qed.

(** Ten shares over three slices of 100 ns. *)
Definition sample_params : TwapParams := mkTwapParams Wire.Buy 10 1000 1250 100 ExecTypes.Limit 5000.

Lemma sample_params_wf : wf_params sample_params.
Proof. unfold wf_params, sample_params; cbn. unfold is_u32, is_u64. lia. Qed.

Lemma schedule_exact_witness : exists t, construct sample_params = Ok t /\ take 3 (schedule_ t) = [4; 3; 3] /\
  sum (take 3 (schedule_ t)) = 10.
Proof.
  destruct (schedule_exact sample_params sample_params_wf) as (t & H1 & H2 & _ & _ & H3).
  - reflexivity.
  - reflexivity.
  - reflexivity.
  - discriminate.
  - exists t. split; [exact H1|]. split; [|exact H3].
    revert H1. vm_compute. intros [= <-]. reflexivity.
Defined.

(** What a TWAP order should do, said by its parameters alone: the slice of
    bin [i], and its child order when it is sent at [now]. *)
Definition slice (p : TwapParams) (i : nat) : Z :=
  tot_shares p / bins p + if Z.of_nat i <? tot_shares p mod bins p then 1 else 0.

Definition slice_order (p : TwapParams) (i : nat) (now : Z) : ExecTypes.ChildOrder :=
  ExecTypes.mkChildOrder now (side p) (child_type p)
    (match child_type p with ExecTypes.Limit => limit_price p | ExecTypes.Market => 0 end) (slice p i).

(** C34: a schedule driven by any sequence of clock readings, with the queue
    drained after each, sends exactly one child order for each bin whose end,
    [start_ts + (i + 1) * bin_ns], a reading reaches, in the order of the bins and
    at the first reading that reaches it (which is its timestamp), with the
    parent's side, type and limit price and the bin's share of the parent order
    (the quotient, and one more for the first [total mod bins]); the shares sent
    plus the shares of the bins still to come are always [total_shares], and once
    a reading reaches the last boundary everything has been sent. *)
Theorem schedule_executes_total (p : TwapParams) (nows : list Z)
  (Hp : wf_params p) (Hlt : start_ts p < end_ts p) (Hns : 0 < bin_ns p)
  (Hfit : end_ts p + bin_ns p < 18446744073709551616) (Hbins : bins p <= 512) :
  exists t orders t', construct p = Ok t /\ drive nows t = Ok (orders, t') /\
    orders = omap (fun i => slice_order p i <$> crossed_at (start_ts p + (Z.of_nat i + 1) * bin_ns p) nows) (seq 0 (Z.to_nat (bins p))) /\
    Z.of_nat (length orders) = next_bin_ t' /\
    ExecTypes.total_shares orders + shares_from t' (next_bin_ t') = tot_shares p /\
    (Exists (fun now => start_ts p + bins p * bin_ns p <= now) nows ->
       done t' = true /\ ExecTypes.total_shares orders = tot_shares p).
Proof.
  pose proof Hp as (Hts & Hs & He & Hb & Hl). unfold is_u64 in *.
  destruct (twap_construct_ok p Hp Hlt Hns ltac:(lia) Hbins) as (t & Hc & Hinv & Epar & Ebc & Enb & Eq & Hsched & Hsum).
  assert (bins p * bin_ns p < end_ts p - start_ts p + bin_ns p) as Hlast.
  { unfold bins. pose proof (Z.mul_div_le (end_ts p - start_ts p + bin_ns p - 1) (bin_ns p) Hns). lia. }
  assert (no_wrap t) as Hw by (unfold no_wrap; rewrite Epar, Ebc; lia).
  destruct (drive_ok nows t Hinv Hw Eq) as (orders & t' & Hd & F0 & Hinv' & F1 & F2 & F3 & F4 & F5 & F6).
  assert (shares_from t (next_bin_ t) = tot_shares p) as Htot.
  { unfold shares_from. rewrite Ebc, Enb. exact Hsum. }
  assert (orders = omap (fun i => slice_order p i <$> crossed_at (start_ts p + (Z.of_nat i + 1) * bin_ns p) nows) (seq 0 (Z.to_nat (bins p)))) as Horders.
  { rewrite F0. unfold fired. rewrite Epar, Ebc, Enb, Z.sub_0_r. apply omap_ext_in. intros i [_ Hi]%elem_of_seq.
    destruct (crossed_at _ nows); [|done]. cbn. f_equal. unfold bin_order, slice_order, slice.
    rewrite Epar, (nth_lookup_Some _ _ _ _ (Hsched i ltac:(lia))). f_equal. by destruct (child_type p). }
  exists t, orders, t'. split_and!; try assumption; [rewrite Enb in F5; pose proof (tw_next t' Hinv'); lia|lia|].
  intros Hex. assert (next_bin_ t' = bin_count_ t) as E.
  { apply F6. eapply Exists_impl; [exact Hex|]. cbn. intros now Hnow. rewrite Epar, Ebc. lia. }
  split; [unfold done; rewrite F2; apply Z.leb_le; lia|].
  assert (shares_from t' (next_bin_ t') = 0); [|lia]. unfold shares_from. rewrite F2, E.
  rewrite drop_ge; [reflexivity|]. rewrite length_take. lia.
Qed.

(** The clock may run backwards, and pass two boundaries at once. *)
Lemma schedule_executes_total_witness : exists t orders t', construct sample_params = Ok t /\
  drive [1150; 1120; 1350] t = Ok (orders, t') /\ ExecTypes.total_shares orders = 10 /\
  orders = [ExecTypes.mkChildOrder 1150 Wire.Buy ExecTypes.Limit 5000 4; ExecTypes.mkChildOrder 1350 Wire.Buy ExecTypes.Limit 5000 3;
            ExecTypes.mkChildOrder 1350 Wire.Buy ExecTypes.Limit 5000 3].
Proof.
  destruct (schedule_executes_total sample_params [1150; 1120; 1350] sample_params_wf) as (t & orders & t' & H1 & H2 & H0 & _ & _ & H3).
  - reflexivity.
  - reflexivity.
  - reflexivity.
  - discriminate.
  - exists t, orders, t'. split; [exact H1|]. split; [exact H2|]. split; [|rewrite H0; reflexivity]. apply H3.
    apply Exists_cons_tl, Exists_cons_tl, Exists_cons_hd. discriminate.
Defined.

End Twap.
