(* ===== verification/Vwap.v ===== *)
(** * Vwap: the volume-curve schedule

    Models include/exec/volume_curve.hpp and include/exec/vwap.hpp.  The curve
    is built with the binary64 arithmetic of [Doubles]; everything after
    construction is integer arithmetic, with the 128-bit intermediates of the
    code. *)

From S2P Require Import Prelude Wire Doubles ExecTypes.

Module Vwap.

(** ** VolumeCurve *)

Definition kVolumeCurveBuckets : nat := 13.
Definition kCurveScale : Z := 1000000.

Definition kRelativeWeights : list Doubles.double :=
  [Doubles.of_Z 15; Doubles.of_Z 9; Doubles.of_Z 7; Doubles.of_Z 6; Doubles.of_Z 5;
   Doubles.literal 9 2; Doubles.literal 9 2; Doubles.of_Z 5; Doubles.literal 11 2;
   Doubles.of_Z 6; Doubles.of_Z 7; Doubles.of_Z 9; Doubles.of_Z 16].

(** The second loop of the constructor: the cells it stores. *)
Fixpoint accumulate (weights : list Doubles.double) (running total : Doubles.double) : outcome (list Z) :=
  match weights with
  | [] => Ok []
  | w :: weights =>
    let running := Doubles.add running w in
    c ← Doubles.to_u64 (Doubles.add
          (Doubles.mul (Doubles.div running total) (Doubles.of_Z kCurveScale)) (Doubles.literal 1 2));
    cs ← accumulate weights running total;
    Ok (c :: cs)
  end.

(** The constructor: [cumulative_]. *)
Definition make_curve : outcome (list Z) :=
  let total := foldl Doubles.add (Doubles.of_Z 0) kRelativeWeights in
  cumulative ← accumulate kRelativeWeights (Doubles.of_Z 0) total;
  wr cumulative (kVolumeCurveBuckets - 1) kCurveScale.

Definition cumulative_weight (cumulative : list Z) (i : nat) : outcome Z :=
  rd cumulative (if (kVolumeCurveBuckets <=? i)%nat then kVolumeCurveBuckets - 1 else i)%nat.

(** ** Vwap *)

Record VwapParams := mkVwapParams {
  side : Wire.Side; tot_shares : Z; start_ts : Z; end_ts : Z;
  child_type : ExecTypes.OrderType; limit_price : Z }.

Record Vwap := mkVwap {
  params_ : VwapParams;
  curve_ : list Z;
  shares_sent_ : Z;
  market_shares_seen_ : Z;
  queue_ : ExecTypes.ChildOrderQueue }.

Definition construct (params : VwapParams) : outcome Vwap :=
  if end_ts params <=? start_ts params then Throw "Vwap: start_ts must be < end_ts"
  else
    curve ← make_curve;
    Ok (mkVwap params curve 0 0 (ExecTypes.empty_queue ExecTypes.default_order)).

Definition done (v : Vwap) : bool := tot_shares (params_ v) <=? shares_sent_ v.

(** [BucketPosition]: index and remainder.  Dividing by a zero span is
    undefined. *)
Definition bucket_position (elapsed span : Z) : outcome (nat * Z) :=
  if span <=? elapsed then Ok (kVolumeCurveBuckets - 1, span)%nat
  else if span =? 0 then UB
  else
    let scaled := u128 (elapsed * Z.of_nat kVolumeCurveBuckets) in
    let index := Z.to_nat (u64 (scaled / span)) in
    let index := if (kVolumeCurveBuckets <=? index)%nat then (kVolumeCurveBuckets - 1)%nat else index in
    Ok (index, u64 (scaled mod span)).

Definition target_shares (now : Z) (v : Vwap) : outcome Z :=
  let elapsed := u64 (now - start_ts (params_ v)) in
  let span := u64 (end_ts (params_ v) - start_ts (params_ v)) in
  '(index, remainder) ← bucket_position elapsed span;
  cum_before ← (if (index =? 0)%nat then Ok 0 else cumulative_weight (curve_ v) (index - 1));
  cum_after ← cumulative_weight (curve_ v) index;
  let bucket_weight := u64 (cum_after - cum_before) in
  if span =? 0 then UB else
  let within_bucket := u128 (bucket_weight * remainder) / span in
  let curve_fraction := u128 (cum_before + within_bucket) in
  let target := u128 (tot_shares (params_ v) * curve_fraction) / kCurveScale in
  Ok (if tot_shares (params_ v) <=? target then tot_shares (params_ v) else u32 target).

Definition set_seen (n : Z) (v : Vwap) : Vwap :=
  mkVwap (params_ v) (curve_ v) (shares_sent_ v) n (queue_ v).

Definition on_trade_tick (tick : ExecTypes.TradeTick) (v : Vwap) : outcome Vwap :=
  if (ExecTypes.tick_ts tick <? start_ts (params_ v)) || (end_ts (params_ v) <? ExecTypes.tick_ts tick) then Ok v
  else
    let v := set_seen (u32 (market_shares_seen_ v + ExecTypes.tick_shares tick)) v in
    if done v then Ok v
    else
      target ← target_shares (ExecTypes.tick_ts tick) v;
      if target <=? shares_sent_ v then Ok v
      else
        let remaining := u32 (tot_shares (params_ v) - shares_sent_ v) in
        let behind := u32 (target - shares_sent_ v) in
        let to_send := if behind <? remaining then behind else remaining in
        if to_send =? 0 then Ok v
        else
          '(pushed, q) ← ExecTypes.push
            (ExecTypes.mkChildOrder (ExecTypes.tick_ts tick) (side (params_ v)) (child_type (params_ v))
               (limit_price (params_ v)) to_send) (queue_ v);
          Ok (mkVwap (params_ v) (curve_ v)
                (if pushed : bool then u32 (shares_sent_ v + to_send) else shares_sent_ v)
                (market_shares_seen_ v) q).

Definition on_bbo_change (_ : ExecTypes.Bbo) (v : Vwap) : Vwap := v.

(** ** The curve *)

(** The table the constructor computes, in parts per million. *)
Definition curve_table : list Z :=
  [150754; 241206; 311558; 371859; 422111; 467337; 512563; 562814; 618090; 678392; 748744; 839196; 1000000].

Lemma make_curve_table : make_curve = Ok curve_table.
Proof. vm_compute. reflexivity. Qed.

(** Cumulative weight before bucket [i]. *)
Definition before (i : nat) : Z := nth i (0 :: curve_table) 0.

Lemma before_mono i j : (i <= j <= 13)%nat -> before i <= before j.
Proof.
  intros [Hij Hj]. induction Hij as [|j Hij IH]; [lia|]. etrans; [apply IH; lia|].
  do 13 (destruct j as [|j]; [discriminate|]). lia.
Qed.

Lemma before_bounds i : (i <= 13)%nat -> 0 <= before i <= kCurveScale.
Proof. intros Hi. pose proof (before_mono 0 i ltac:(lia)). pose proof (before_mono i 13 ltac:(lia)). exact (conj H H0). Qed.

Lemma cumulative_weight_before i : (i <= 12)%nat -> cumulative_weight curve_table i = Ok (before (S i)).
Proof. intros Hi. do 13 (destruct i as [|i]; [reflexivity|]). lia. Qed.

(** ** The target *)

(** Where a moment falls, without machine arithmetic. *)
Definition bucket (elapsed span : Z) : nat * Z :=
  if span <=? elapsed then (12%nat, span) else (Z.to_nat (elapsed * 13 / span), (elapsed * 13) mod span).

(** Parts per million of the day's volume expected by then. *)
Definition fraction (elapsed span : Z) : Z :=
  let '(i, r) := bucket elapsed span in before i + (before (S i) - before i) * r / span.

Definition ideal_target (v : Vwap) (now : Z) : Z :=
  tot_shares (params_ v) * fraction (now - start_ts (params_ v)) (end_ts (params_ v) - start_ts (params_ v)) / kCurveScale.

Lemma bucket_range elapsed span : 0 <= elapsed -> 0 < span ->
  let '(i, r) := bucket elapsed span in (i <= 12)%nat /\ 0 <= r <= span.
Proof.
  intros He Hs. unfold bucket. destruct (Z.leb_spec span elapsed); [lia|].
  assert (0 <= elapsed * 13 / span < 13).
  { split; [apply Z.div_pos; lia|apply Z.div_lt_upper_bound; lia]. }
  pose proof (Z.mod_pos_bound (elapsed * 13) span Hs). lia.
Qed.

Lemma slice_range w r span : 0 <= w -> 0 <= r <= span -> 0 < span -> 0 <= w * r / span <= w.
Proof.
  intros Hw Hr Hs. split; [apply Z.div_pos; nia|]. apply Z.div_le_upper_bound; [lia|]. nia.
Qed.

Lemma fraction_bounds elapsed span : 0 <= elapsed -> 0 < span ->
  let '(i, _) := bucket elapsed span in before i <= fraction elapsed span <= before (S i).
Proof.
  intros He Hs. pose proof (bucket_range elapsed span He Hs) as Hb. unfold fraction.
  destruct (bucket elapsed span) as [i r]. destruct Hb as [Hi Hr].
  pose proof (before_mono i (S i) ltac:(lia)).
  pose proof (slice_range (before (S i) - before i) r span ltac:(lia) Hr Hs). lia.
Qed.

Lemma fraction_mono e1 e2 span : 0 <= e1 <= e2 -> 0 < span -> fraction e1 span <= fraction e2 span.
Proof.
  intros He Hs.
  pose proof (fraction_bounds e1 span ltac:(lia) Hs) as F1. pose proof (fraction_bounds e2 span ltac:(lia) Hs) as F2.
  pose proof (bucket_range e1 span ltac:(lia) Hs) as B1. pose proof (bucket_range e2 span ltac:(lia) Hs) as B2.
  assert (((bucket e1 span).1 < (bucket e2 span).1)%nat \/
          ((bucket e1 span).1 = (bucket e2 span).1 /\ (bucket e1 span).2 <= (bucket e2 span).2)) as Hcmp.
  { unfold bucket. destruct (Z.leb_spec span e1), (Z.leb_spec span e2); cbn; try lia.
    - pose proof (Z.mod_pos_bound (e1 * 13) span Hs).
      assert (0 <= e1 * 13 / span < 13) by (split; [apply Z.div_pos; lia|apply Z.div_lt_upper_bound; lia]). lia.
    - assert (0 <= e1 * 13 / span) by (apply Z.div_pos; lia).
      assert (e1 * 13 / span <= e2 * 13 / span) by (apply Z.div_le_mono; lia).
      destruct (decide (e1 * 13 / span = e2 * 13 / span)) as [E|E]; [|lia]. right. split; [lia|].
      rewrite !Z.mod_eq by lia. rewrite E. nia. }
  unfold fraction in *. destruct (bucket e1 span) as [i1 r1], (bucket e2 span) as [i2 r2]. cbn [fst snd] in Hcmp.
  destruct Hcmp as [Hlt|[-> Hr]].
  - pose proof (before_mono (S i1) i2 ltac:(lia)). lia.
  - pose proof (before_mono i2 (S i2) ltac:(lia)).
    assert ((before (S i2) - before i2) * r1 / span <= (before (S i2) - before i2) * r2 / span); [|lia].
    apply Z.div_le_mono; [lia|]. nia.
Qed.

Lemma fraction_end span : 0 < span -> fraction span span = kCurveScale.
Proof.
  intros Hs. unfold fraction, bucket. rewrite (proj2 (Z.leb_le span span)) by lia.
  rewrite Z.div_mul by lia. reflexivity.
Qed.

Lemma fraction_range elapsed span : 0 <= elapsed -> 0 < span -> 0 <= fraction elapsed span <= kCurveScale.
Proof.
  intros He Hs. pose proof (fraction_bounds elapsed span He Hs) as F. pose proof (bucket_range elapsed span He Hs) as B.
  destruct (bucket elapsed span) as [i r]. pose proof (before_bounds i ltac:(lia)). pose proof (before_bounds (S i) ltac:(lia)). lia.
Qed.

(** ** The invariant *)

Record vwap_inv (v : Vwap) : Prop := {
  vw_tot : is_u32 (tot_shares (params_ v));
  vw_start : is_u64 (start_ts (params_ v));
  vw_end : is_u64 (end_ts (params_ v));
  vw_window : start_ts (params_ v) < end_ts (params_ v);
  vw_curve : curve_ v = curve_table;
  vw_sent : 0 <= shares_sent_ v <= tot_shares (params_ v);
  vw_queue : ExecTypes.queue_inv (queue_ v) }.

Lemma ideal_target_range v now : vwap_inv v -> start_ts (params_ v) <= now ->
  0 <= ideal_target v now <= tot_shares (params_ v).
Proof.
  intros [[Ht _] _ _ Hw _ _ _] Hn. unfold ideal_target.
  pose proof (fraction_range (now - start_ts (params_ v)) (end_ts (params_ v) - start_ts (params_ v)) ltac:(lia) ltac:(lia)).
  unfold kCurveScale in *. split; [apply Z.div_pos; nia|]. apply Z.div_le_upper_bound; [lia|]. nia.
Qed.

Lemma bucket_position_ok elapsed span : 0 <= elapsed < 18446744073709551616 -> 0 < span < 18446744073709551616 ->
  bucket_position elapsed span = Ok (bucket elapsed span).
Proof.
  intros He Hs. pose proof (bucket_range elapsed span ltac:(lia) ltac:(lia)) as Hb. unfold bucket_position, bucket in *.
  destruct (Z.leb_spec span elapsed); [reflexivity|]. rewrite (proj2 (Z.eqb_neq _ _)) by lia. cbv zeta.
  change (Z.of_nat kVolumeCurveBuckets) with 13. unfold u128. rewrite (Z.mod_small (elapsed * 13)) by lia.
  assert (0 <= elapsed * 13 / span < 13) by (split; [apply Z.div_pos; lia|apply Z.div_lt_upper_bound; lia]).
  rewrite !u64_id by (unfold is_u64; lia).
  destruct (Nat.leb_spec kVolumeCurveBuckets (Z.to_nat (elapsed * 13 / span))) as [Hc|Hc];
    [unfold kVolumeCurveBuckets in Hc; lia|reflexivity].
Qed.

(** The machine computation is the exact one: no 128-bit product wraps. *)
Lemma target_shares_ok v now : vwap_inv v -> is_u64 now -> start_ts (params_ v) <= now ->
  target_shares now v = Ok (ideal_target v now).
Proof.
  intros Hinv [Hn0 Hn1] Hn. pose proof (ideal_target_range v now Hinv Hn) as Hr.
  destruct Hinv as [[Ht0 Ht1] [Hs0 Hs1] [He0 He1] Hw Hc _ _]. unfold target_shares. rewrite Hc. cbv zeta.
  rewrite !u64_id by (unfold is_u64; lia). rewrite bucket_position_ok by lia.
  pose proof (bucket_range (now - start_ts (params_ v)) (end_ts (params_ v) - start_ts (params_ v)) ltac:(lia) ltac:(lia)) as Hb.
  pose proof (fraction_range (now - start_ts (params_ v)) (end_ts (params_ v) - start_ts (params_ v)) ltac:(lia) ltac:(lia)) as Hf.
  unfold ideal_target, fraction in *. destruct (bucket _ _) as [i r]. destruct Hb as [Hi Hrr]. rewrite bind_Ok.
  assert ((if (i =? 0)%nat then Ok 0 else cumulative_weight curve_table (i - 1)) = Ok (before i)) as ->.
  { destruct i as [|i]; [reflexivity|]. cbn [Nat.eqb]. rewrite cumulative_weight_before by lia.
    do 2 f_equal. lia. }
  rewrite bind_Ok, cumulative_weight_before, bind_Ok by lia.
  rewrite (proj2 (Z.eqb_neq _ _)) by lia.
  pose proof (before_mono i (S i) ltac:(lia)). pose proof (before_bounds i ltac:(lia)). pose proof (before_bounds (S i) ltac:(lia)).
  unfold kCurveScale in *. rewrite u64_id by (unfold is_u64; lia).
  set (w := before (S i) - before i) in *. set (span := end_ts (params_ v) - start_ts (params_ v)) in *.
  assert (0 <= w * r < 1000001 * 18446744073709551616) by nia.
  unfold u128. rewrite (Z.mod_small (w * r)) by lia. rewrite (Z.mod_small (before i + _)) by lia.
  rewrite Z.mod_small by nia. f_equal.
  destruct (Z.leb_spec (tot_shares (params_ v)) (tot_shares (params_ v) * (before i + w * r / span) / 1000000)); [lia|].
  apply u32_id. unfold is_u32. lia.
Qed.

Lemma vwap_construct_ok p : is_u32 (tot_shares p) -> is_u64 (start_ts p) -> is_u64 (end_ts p) -> start_ts p < end_ts p ->
  exists v, construct p = Ok v /\ vwap_inv v /\ params_ v = p /\ shares_sent_ v = 0 /\ ExecTypes.items (queue_ v) = [].
Proof.
  intros Ht Hs He Hw. unfold construct. rewrite (proj2 (Z.leb_gt _ _)) by lia.
  rewrite make_curve_table, bind_Ok. eexists; split; [reflexivity|]. split_and!; try reflexivity.
  constructor; cbn [params_ curve_ shares_sent_ queue_]; try assumption; try reflexivity.
  - unfold is_u32 in Ht. lia.
  - apply ExecTypes.empty_queue_inv.
Qed.

(** ** Properties *)

(** The participation target, as the code computes it in 64- and 128-bit
    arithmetic, is the exact volume-curve interpolation: it never exceeds the
    parent order, never decreases over time, and reaches exactly
    [total_shares] at the end of the window. *)
Theorem target_exact (v : Vwap) (now later : Z)
  (Hinv : vwap_inv v) (Hn : start_ts (params_ v) <= now) (Hl : now <= later < 18446744073709551616) :
  target_shares now v = Ok (ideal_target v now) /\
  0 <= ideal_target v now <= ideal_target v later /\ ideal_target v later <= tot_shares (params_ v) /\
  target_shares (end_ts (params_ v)) v = Ok (tot_shares (params_ v)).
Proof.
  pose proof Hinv as [[Ht0 Ht1] [Hs0 Hs1] [He0 He1] Hw _ _ _].
  pose proof (ideal_target_range v now Hinv Hn). pose proof (ideal_target_range v later Hinv ltac:(lia)).
  split_and!; try lia.
  - apply target_shares_ok; [assumption|unfold is_u64; lia|assumption].
  - unfold ideal_target. apply Z.div_le_mono; [reflexivity|]. apply Z.mul_le_mono_nonneg_l; [assumption|].
    apply fraction_mono; lia.
  - rewrite target_shares_ok; [|assumption|unfold is_u64; lia|lia]. f_equal. unfold ideal_target.
    rewrite fraction_end by lia. apply Z.div_mul. discriminate.
Qed.

Definition sample_params : VwapParams := mkVwapParams Wire.Buy 1000000 0 13000 ExecTypes.Limit 5000.

Lemma sample_vwap : exists v, construct sample_params = Ok v /\ vwap_inv v /\ params_ v = sample_params /\
  shares_sent_ v = 0 /\ ExecTypes.items (queue_ v) = [].
Proof. apply vwap_construct_ok; unfold is_u32, is_u64, sample_params; cbn; lia. Qed.

Lemma target_exact_witness : exists v, construct sample_params = Ok v /\
  target_shares 1500 v = Ok 195980 /\ target_shares 13000 v = Ok 1000000.
Proof.
  destruct sample_vwap as (v & H1 & Hinv & Hp & _). exists v. split; [exact H1|].
  destruct (target_exact v 1500 2000 Hinv) as (H2 & _ & _ & H3).
  - rewrite Hp. discriminate.
  - lia.
  - rewrite Hp in H3. split; [rewrite H2|exact H3]. unfold ideal_target. rewrite Hp. reflexivity.
Defined.

(** One print moves a VWAP exactly as described: outside the window nothing
    happens; inside it, unless the order is complete, a child order for the
    whole shortfall to the target is queued and counted as sent, if the queue
    has room; with a full queue or no shortfall nothing is sent.  [shares_sent]
    therefore always equals the shares of the orders queued, and never exceeds
    the parent order. *)
Theorem tick_catches_up (v : Vwap) (tick : ExecTypes.TradeTick) (Hinv : vwap_inv v) (Htick : ExecTypes.wf_tick tick) :
  exists v', on_trade_tick tick v = Ok v' /\ vwap_inv v' /\
    let now := ExecTypes.tick_ts tick in
    let inside := (start_ts (params_ v) <=? now) && (now <=? end_ts (params_ v)) in
    let sends := inside && (shares_sent_ v <? ideal_target v now) && negb (ExecTypes.full (queue_ v)) in
    (inside = false -> v' = v) /\
    shares_sent_ v' = (if sends then ideal_target v now else shares_sent_ v) /\
    ExecTypes.items (queue_ v') = ExecTypes.items (queue_ v) ++
      (if sends then [ExecTypes.mkChildOrder now (side (params_ v)) (child_type (params_ v))
                        (limit_price (params_ v)) (ideal_target v now - shares_sent_ v)] else []).
Proof.
  destruct Htick as (Hts & _ & _). cbv zeta. set (now := ExecTypes.tick_ts tick) in *.
  unfold on_trade_tick. fold now. rewrite (Z.ltb_antisym (start_ts (params_ v)) now), (Z.ltb_antisym now (end_ts (params_ v))).
  destruct ((start_ts (params_ v) <=? now) && (now <=? end_ts (params_ v))) eqn:Ein.
  2: { rewrite <- negb_andb, Ein. cbn [negb andb]. exists v. split_and!; try reflexivity; [assumption|]. symmetry. apply app_nil_r. }
  rewrite <- negb_andb, Ein. cbn [negb andb]. apply andb_true_iff in Ein as [Hin1%Z.leb_le Hin2%Z.leb_le].
  set (v1 := set_seen _ v). assert (vwap_inv v1) as Hinv1 by (destruct Hinv; by constructor).
  pose proof (ideal_target_range v now Hinv Hin1) as Hr. pose proof (vw_sent v Hinv) as Hsent. pose proof (vw_tot v Hinv) as Htot. unfold is_u32 in Htot.
  destruct (done v1) eqn:Ed.
  { apply Z.leb_le in Ed. cbn in Ed. rewrite (proj2 (Z.ltb_ge _ _)) by lia. cbn [andb].
    exists v1. split_and!; try assumption; try reflexivity; [discriminate|]. symmetry. apply app_nil_r. }
  rewrite (target_shares_ok v1 now Hinv1 Hts Hin1), bind_Ok. change (ideal_target v1 now) with (ideal_target v now).
  change (shares_sent_ v1) with (shares_sent_ v). change (params_ v1) with (params_ v). change (queue_ v1) with (queue_ v).
  rewrite Z.leb_antisym. destruct (Z.ltb_spec (shares_sent_ v) (ideal_target v now)) as [Hlt|Hge]; cbn [negb andb].
  2: { exists v1. split_and!; try assumption; try reflexivity; [discriminate|]. symmetry. apply app_nil_r. }
  rewrite !(u32_id (_ - _)) by (unfold is_u32; lia).
  replace (if _ <? _ then _ else _) with (ideal_target v now - shares_sent_ v)
    by (destruct (Z.ltb_spec (ideal_target v now - shares_sent_ v) (tot_shares (params_ v) - shares_sent_ v)); lia).
  rewrite (proj2 (Z.eqb_neq _ _)) by lia.
  destruct (ExecTypes.push_ok (ExecTypes.mkChildOrder now (side (params_ v)) (child_type (params_ v))
    (limit_price (params_ v)) (ideal_target v now - shares_sent_ v)) (queue_ v) (vw_queue v Hinv)) as (q' & -> & Hq' & Hi & _).
  rewrite bind_Ok. eexists. split; [reflexivity|].
  assert ((if negb (ExecTypes.full (queue_ v)) then u32 (shares_sent_ v + (ideal_target v now - shares_sent_ v)) else shares_sent_ v) =
          if negb (ExecTypes.full (queue_ v)) then ideal_target v now else shares_sent_ v) as ->.
  { destruct (negb _); [|reflexivity]. rewrite u32_id by (unfold is_u32; lia). lia. }
  cbn [shares_sent_ queue_]. rewrite Hi. split_and!; try reflexivity; [|discriminate|].
  - destruct Hinv1 as [I1 I2 I3 I4 I5 I6 I7]. constructor; cbn; try assumption. destruct (negb _); cbn in *; lia.
  - destruct (ExecTypes.full (queue_ v)); cbn [negb]; [symmetry; apply app_nil_r|reflexivity].
Qed.

Lemma tick_catches_up_witness : exists v v', construct sample_params = Ok v /\
  on_trade_tick (ExecTypes.mkTradeTick 1500 5000 10 Wire.Sell) v = Ok v' /\ shares_sent_ v' = 195980.
Proof.
  destruct sample_vwap as (v & H1 & Hinv & Hp & Hs & Hi).
  destruct (tick_catches_up v (ExecTypes.mkTradeTick 1500 5000 10 Wire.Sell) Hinv) as (v' & H2 & _ & _ & H3 & _).
  - unfold ExecTypes.wf_tick, is_u64, is_u32; cbn; lia.
  - exists v, v'. split; [exact H1|]. split; [exact H2|]. rewrite H3, Hs.
    assert (ExecTypes.full (queue_ v) = false) as ->.
    { apply ExecTypes.full_false; [apply (vw_queue v Hinv)|]. rewrite Hi. unfold ExecTypes.kMaxChildOrders. cbn. lia. }
    unfold ideal_target. rewrite Hp. reflexivity.
Defined.

End Vwap.
