(* ===== verification/Pov.v ===== *)
(** * Pov: percentage-of-volume execution

    Models include/exec/pov.hpp. *)

From S2P Require Import Prelude Wire ExecTypes.

Module Pov.

Record PovParams := mkPovParams {
  side : Wire.Side; max_shares : Z; participation_bps : Z; end_ts : Z }.

Record Pov := mkPov { params_ : PovParams; shares_sent_ : Z; queue_ : ExecTypes.ChildOrderQueue }.

Definition construct (params : PovParams) : Pov :=
  mkPov params 0 (ExecTypes.empty_queue ExecTypes.default_order).

Definition done (p : Pov) : bool := max_shares (params_ p) <=? shares_sent_ p.
Definition remaining (p : Pov) : Z := u32 (max_shares (params_ p) - shares_sent_ p).

Definition on_bbo_change (_ : ExecTypes.Bbo) (p : Pov) : Pov := p.

Definition on_trade_tick (tick : ExecTypes.TradeTick) (p : Pov) : outcome Pov :=
  if done p then Ok p
  else if negb (end_ts (params_ p) =? 0) && (end_ts (params_ p) <? ExecTypes.tick_ts tick) then Ok p
  else
    let raw := u64 (ExecTypes.tick_shares tick * participation_bps (params_ p)) / 10000 in
    let remaining := u32 (max_shares (params_ p) - shares_sent_ p) in
    let this_slice := if remaining <? raw then remaining else u32 raw in
    if this_slice =? 0 then Ok p
    else
      '(_, q) ← ExecTypes.push
        (ExecTypes.mkChildOrder (ExecTypes.tick_ts tick) (side (params_ p)) ExecTypes.Market 0 this_slice) (queue_ p);
      Ok (mkPov (params_ p) (u32 (shares_sent_ p + this_slice)) q).

Record pov_inv (p : Pov) : Prop := {
  pv_max : is_u32 (max_shares (params_ p));
  pv_bps : is_u32 (participation_bps (params_ p));
  pv_sent : 0 <= shares_sent_ p <= max_shares (params_ p);
  pv_queue : ExecTypes.queue_inv (queue_ p) }.

(** The size of the child order a print calls for: the participation share of
    the print, capped by the budget left; zero when the strategy is over. *)
Definition slice (p : Pov) (tick : ExecTypes.TradeTick) : Z :=
  if negb (end_ts (params_ p) =? 0) && (end_ts (params_ p) <? ExecTypes.tick_ts tick) then 0
  else Z.min (ExecTypes.tick_shares tick * participation_bps (params_ p) / 10000)
             (max_shares (params_ p) - shares_sent_ p).

Lemma construct_inv params : is_u32 (max_shares params) -> is_u32 (participation_bps params) -> pov_inv (construct params).
Proof.
  intros Hm Hb. constructor; cbn; try assumption; [unfold is_u32 in Hm; lia|].
  apply ExecTypes.empty_queue_inv.
Qed.

Lemma tick_ok p tick : pov_inv p -> ExecTypes.wf_tick tick ->
  exists p', on_trade_tick tick p = Ok p' /\ pov_inv p' /\ params_ p' = params_ p /\
    shares_sent_ p' = shares_sent_ p + slice p tick /\
    ExecTypes.items (queue_ p') = ExecTypes.items (queue_ p) ++
      (if (slice p tick =? 0) || ExecTypes.full (queue_ p) then []
       else [ExecTypes.mkChildOrder (ExecTypes.tick_ts tick) (side (params_ p)) ExecTypes.Market 0 (slice p tick)]).
Proof.
  intros Hinv (_ & _ & [Hs0 Hs1]). pose proof Hinv as [[Hm0 Hm1] [Hb0 Hb1] Hsent Hq].
  assert (0 <= ExecTypes.tick_shares tick * participation_bps (params_ p) < 18446744073709551616) as Hprod by nia.
  assert (0 <= ExecTypes.tick_shares tick * participation_bps (params_ p) / 10000) as Hraw by (apply Z.div_pos; lia).
  assert (forall v : Z, v = slice p tick -> v = 0 -> exists p', Ok p = Ok p' /\ pov_inv p' /\ params_ p' = params_ p /\
    shares_sent_ p' = shares_sent_ p + slice p tick /\
    ExecTypes.items (queue_ p') = ExecTypes.items (queue_ p) ++
      (if (slice p tick =? 0) || ExecTypes.full (queue_ p) then []
       else [ExecTypes.mkChildOrder (ExecTypes.tick_ts tick) (side (params_ p)) ExecTypes.Market 0 (slice p tick)])) as Hzero.
  { intros v <- ->. exists p. rewrite app_nil_r, Z.add_0_r. auto. }
  unfold on_trade_tick. destruct (done p) eqn:Ed.
  { apply Z.leb_le in Ed. apply (Hzero (slice p tick) eq_refl). unfold slice.
    destruct (negb _ && _); [reflexivity|]. lia. }
  apply Z.leb_gt in Ed.
  destruct (negb (end_ts (params_ p) =? 0) && (end_ts (params_ p) <? ExecTypes.tick_ts tick)) eqn:Ee.
  { apply (Hzero 0); [|reflexivity]. unfold slice. by rewrite Ee. }
  cbv zeta. rewrite (u64_id (_ * _)) by (unfold is_u64; lia). rewrite (u32_id (_ - _)) by (unfold is_u32; lia).
  set (raw := _ / 10000) in *.
  assert ((if max_shares (params_ p) - shares_sent_ p <? raw then max_shares (params_ p) - shares_sent_ p else u32 raw) = slice p tick) as ->.
  { unfold slice. rewrite Ee. fold raw. destruct (Z.ltb_spec (max_shares (params_ p) - shares_sent_ p) raw); [lia|].
    rewrite u32_id by (unfold is_u32; lia). lia. }
  destruct (Z.eqb_spec (slice p tick) 0) as [E|E]; [by apply (Hzero (slice p tick))|].
  assert (0 <= slice p tick <= max_shares (params_ p) - shares_sent_ p) as Hr.
  { unfold slice in *. rewrite Ee in *. fold raw in E |- *. lia. }
  destruct (ExecTypes.push_ok (ExecTypes.mkChildOrder (ExecTypes.tick_ts tick) (side (params_ p)) ExecTypes.Market 0 (slice p tick))
              (queue_ p) Hq) as (q' & -> & Hq' & Hi & _).
  rewrite bind_Ok, u32_id by (unfold is_u32; lia). eexists. split; [reflexivity|].
  cbn [params_ shares_sent_ queue_ orb]. rewrite Hi. split_and!; try reflexivity.
  - constructor; cbn; try assumption; [split; assumption|split; assumption|lia].
  - destruct (ExecTypes.full (queue_ p)); [symmetry; apply app_nil_r|reflexivity].
Qed.

(** ** Properties *)

(** While the queue has room a print produces exactly the child order it
    should: the participation share of its volume in basis points, computed
    without overflow, capped by what is left of the budget, and nothing when that
    is zero, when the budget is spent or when the print is past [end_ts]; the
    budget is never exceeded. *)
Theorem participation_exact (p : Pov) (tick : ExecTypes.TradeTick)
  (Hinv : pov_inv p) (Htick : ExecTypes.wf_tick tick) (Hroom : ExecTypes.full (queue_ p) = false) :
  exists p', on_trade_tick tick p = Ok p' /\ pov_inv p' /\
    0 <= slice p tick <= ExecTypes.tick_shares tick * participation_bps (params_ p) / 10000 /\
    shares_sent_ p' = shares_sent_ p + slice p tick /\ shares_sent_ p' <= max_shares (params_ p) /\
    ExecTypes.total_shares (ExecTypes.items (queue_ p')) = ExecTypes.total_shares (ExecTypes.items (queue_ p)) + slice p tick /\
    (length (ExecTypes.items (queue_ p')) <= S (length (ExecTypes.items (queue_ p))))%nat.
Proof.
  destruct (tick_ok p tick Hinv Htick) as (p' & Hrun & Hinv' & Hpar & Hsent & Hi). rewrite Hroom, orb_false_r in Hi.
  exists p'. pose proof (pv_sent p' Hinv') as Hs'. pose proof (pv_sent p Hinv) as Hs. rewrite Hpar in Hs'.
  assert (0 <= ExecTypes.tick_shares tick * participation_bps (params_ p) / 10000).
  { destruct Htick as (_ & _ & [? _]). pose proof (pv_bps p Hinv) as [? _]. apply Z.div_pos; nia. }
  split_and!; try assumption; try lia.
  - unfold slice. destruct (negb _ && _); lia.
  - unfold slice. destruct (negb _ && _); lia.
  - rewrite Hi, ExecTypes.total_shares_app. destruct (Z.eqb_spec (slice p tick) 0) as [->|]; cbn; lia.
  - rewrite Hi, length_app. destruct (slice p tick =? 0); cbn; lia.
Qed.

Definition sample : Pov := construct (mkPovParams Wire.Buy 1000 2500 0).

Lemma pov_sample_inv : pov_inv sample.
Proof. apply construct_inv; cbn; u32c. Qed.

Lemma participation_exact_witness : exists p',
  on_trade_tick (ExecTypes.mkTradeTick 5 100 300 Wire.Sell) sample = Ok p' /\ shares_sent_ p' = 75.
Proof.
  destruct (participation_exact sample (ExecTypes.mkTradeTick 5 100 300 Wire.Sell) pov_sample_inv) as (p' & H1 & _ & _ & H2 & _).
  - unfold ExecTypes.wf_tick, is_u64, is_u32; cbn; lia.
  - reflexivity.
  - exists p'. split; [exact H1|]. rewrite H2. reflexivity.
Defined.

(** The strategy ignores whether its child order fitted the queue: with a
    full queue a print still consumes the budget, although no order was queued,
    so the shares counted as sent are lost. *)
Theorem full_queue_loses_shares (p : Pov) (tick : ExecTypes.TradeTick)
  (Hinv : pov_inv p) (Htick : ExecTypes.wf_tick tick) (Hfull : ExecTypes.full (queue_ p) = true) (Hslice : 0 < slice p tick) :
  exists p', on_trade_tick tick p = Ok p' /\ shares_sent_ p < shares_sent_ p' /\
    ExecTypes.items (queue_ p') = ExecTypes.items (queue_ p).
Proof.
  destruct (tick_ok p tick Hinv Htick) as (p' & Hrun & Hinv' & Hpar & Hsent & Hi).
  rewrite Hfull, orb_true_r, app_nil_r in Hi. exists p'. split_and!; try assumption. lia.
Qed.

Lemma full_queue_loses_shares_witness : exists p',
  on_trade_tick (ExecTypes.mkTradeTick 5 100 300 Wire.Sell)
    (mkPov (params_ sample) 0 (ExecTypes.mkFixed (replicate 512 ExecTypes.default_order) 512)) = Ok p' /\ 0 < shares_sent_ p'.
Proof.
  destruct (full_queue_loses_shares
    (mkPov (params_ sample) 0 (ExecTypes.mkFixed (replicate 512 ExecTypes.default_order) 512))
    (ExecTypes.mkTradeTick 5 100 300 Wire.Sell)) as (p' & H1 & H2 & _).
  - constructor; cbn [params_ shares_sent_ queue_]; [cbn; u32c|cbn; u32c|cbn; lia|].
    split; [reflexivity|]. cbn. unfold ExecTypes.kMaxChildOrders. lia.
  - unfold ExecTypes.wf_tick, is_u64, is_u32; cbn; lia.
  - reflexivity.
  - reflexivity.
  - exists p'. split; [exact H1|exact H2].
Defined.

End Pov.
