(* ===== verification/RiskGate.v ===== *)
(** * RiskGate: pre-trade limits and the kill switch

    Models include/exec/risk_gate.hpp: [check], [record], [reset] and the
    [apply] loop.  [apply]'s [reasons_out] is the array it fills, when the
    caller passes one. *)

From S2P Require Import Prelude Wire ExecTypes.

Module RiskGate.

Record RiskLimits := mkRiskLimits {
  max_order_shares : Z; max_order_notional : Z; price_collar_bps : Z;
  max_cumulative_shares : Z; max_cumulative_notional : Z }.

Inductive RejectReason :=
| None_ | OrderTooLarge | NotionalTooLarge | PriceOutOfCollar
| CumulativeSharesExceeded | CumulativeNotionalExceeded | KillSwitchTripped.

#[global] Instance RejectReason_eq_dec : EqDecision RejectReason.
Proof. solve_decision. Defined.

Record RiskGate := mkRiskGate {
  limits_ : RiskLimits;
  reference_price_ : Z;
  tripped_ : bool;
  cumulative_shares_ : Z;
  cumulative_notional_ : Z }.

Definition construct (limits : RiskLimits) (reference_price : Z) : RiskGate :=
  mkRiskGate limits reference_price false 0 0.

Definition set_reference_price (p : Z) (g : RiskGate) : RiskGate :=
  mkRiskGate (limits_ g) p (tripped_ g) (cumulative_shares_ g) (cumulative_notional_ g).

Definition trip (g : RiskGate) : RiskGate :=
  mkRiskGate (limits_ g) (reference_price_ g) true (cumulative_shares_ g) (cumulative_notional_ g).

Definition check (order : ExecTypes.ChildOrder) (g : RiskGate) : RejectReason * RiskGate :=
  if tripped_ g then (KillSwitchTripped, g)
  else if max_order_shares (limits_ g) <? ExecTypes.co_shares order then (OrderTooLarge, g)
  else
    let order_notional := u64 (ExecTypes.co_price order * ExecTypes.co_shares order) in
    if max_order_notional (limits_ g) <? order_notional then (NotionalTooLarge, g)
    else
      let ref := reference_price_ g in
      let price := ExecTypes.co_price order in
      let diff := if ref <=? price then u32 (price - ref) else u32 (ref - price) in
      let allowed_deviation := u64 (ref * price_collar_bps (limits_ g)) / 10000 in
      if bool_decide (ExecTypes.co_type order = ExecTypes.Limit) && negb (ref =? 0) && (allowed_deviation <? diff)
      then (PriceOutOfCollar, g)
      else if max_cumulative_shares (limits_ g) <? u64 (cumulative_shares_ g + ExecTypes.co_shares order)
      then (CumulativeSharesExceeded, trip g)
      else if max_cumulative_notional (limits_ g) <? u128 (cumulative_notional_ g + order_notional)
      then (CumulativeNotionalExceeded, trip g)
      else (None_, g).

Definition record (order : ExecTypes.ChildOrder) (g : RiskGate) : RiskGate :=
  mkRiskGate (limits_ g) (reference_price_ g) (tripped_ g)
    (u64 (cumulative_shares_ g + ExecTypes.co_shares order))
    (u128 (cumulative_notional_ g + u128 (ExecTypes.co_price order * ExecTypes.co_shares order))).

Definition tripped (g : RiskGate) : bool := tripped_ g.

Definition reset (g : RiskGate) : RiskGate := mkRiskGate (limits_ g) (reference_price_ g) false 0 0.

(** The loop of [apply] over the orders of [in], at index [i]. *)
Fixpoint apply_loop (orders : list ExecTypes.ChildOrder) (i count : nat) (g : RiskGate)
    (accepted : ExecTypes.ChildOrderQueue) (reasons : option (list RejectReason))
  : outcome (nat * RiskGate * ExecTypes.ChildOrderQueue * option (list RejectReason)) :=
  match orders with
  | [] => Ok (count, g, accepted, reasons)
  | order :: orders =>
    let '(reason, g) := check order g in
    reasons ← match reasons with
              | Some r => r ← wr r i reason; Ok (Some r)
              | None => Ok None
              end;
    if decide (reason = None_) then
      '(pushed, accepted) ← ExecTypes.push order accepted;
      if pushed : bool then apply_loop orders (S i) (S count) (record order g) accepted reasons
      else apply_loop orders (S i) count g accepted reasons
    else apply_loop orders (S i) count g accepted reasons
  end.

Definition apply (g : RiskGate) (in_ accepted : ExecTypes.ChildOrderQueue) (reasons : option (list RejectReason)) :=
  apply_loop (ExecTypes.items in_) 0 0 g accepted reasons.

(** ** Invariant and specification *)

Definition notional (o : ExecTypes.ChildOrder) : Z := ExecTypes.co_price o * ExecTypes.co_shares o.

Definition total_notional (l : list ExecTypes.ChildOrder) : Z := foldr (fun o n => notional o + n) 0 l.

Record gate_inv (g : RiskGate) : Prop := {
  gi_shares : 0 <= cumulative_shares_ g <= max_cumulative_shares (limits_ g);
  gi_notional : 0 <= cumulative_notional_ g <= max_cumulative_notional (limits_ g);
  gi_max_shares : is_u32 (max_cumulative_shares (limits_ g));
  gi_max_notional : is_u64 (max_cumulative_notional (limits_ g));
  gi_ref : is_u32 (reference_price_ g);
  gi_bps : is_u32 (price_collar_bps (limits_ g)) }.

(** Does an order respect every per-order limit? *)
Definition order_ok (g : RiskGate) (o : ExecTypes.ChildOrder) : Prop :=
  ExecTypes.co_shares o <= max_order_shares (limits_ g) /\
  notional o <= max_order_notional (limits_ g) /\
  (ExecTypes.co_type o = ExecTypes.Limit -> reference_price_ g <> 0 ->
   Z.abs (ExecTypes.co_price o - reference_price_ g) <= reference_price_ g * price_collar_bps (limits_ g) / 10000).

(** Would recording it stay within the session's budget? *)
Definition fits (g : RiskGate) (o : ExecTypes.ChildOrder) : Prop :=
  cumulative_shares_ g + ExecTypes.co_shares o <= max_cumulative_shares (limits_ g) /\
  cumulative_notional_ g + notional o <= max_cumulative_notional (limits_ g).

Definition breach (r : RejectReason) : bool :=
  match r with CumulativeSharesExceeded | CumulativeNotionalExceeded => true | _ => false end.

(** [check], characterised. *)
Lemma check_spec o g : gate_inv g -> ExecTypes.wf_child o ->
  (check o g).2 = (if breach (check o g).1 then trip g else g) /\
  ((check o g).1 = None_ <-> tripped_ g = false /\ order_ok g o /\ fits g o) /\
  ((check o g).1 = KillSwitchTripped <-> tripped_ g = true) /\
  (breach (check o g).1 = true <-> tripped_ g = false /\ order_ok g o /\ ~ fits g o).
Proof.
  intros [Hs Hn Hms Hmn Hr Hb] (_ & [Hp0 Hp1] & [Hsh0 Hsh1]). unfold check, order_ok, fits, notional in *.
  unfold is_u32, is_u64 in *.
  destruct (tripped_ g); [cbn; split_and!; try reflexivity; split; try reflexivity; intros; try done; by destruct_and?|].
  assert (0 <= ExecTypes.co_price o * ExecTypes.co_shares o < 18446744073709551616) as Hprod by nia.
  destruct (Z.ltb_spec (max_order_shares (limits_ g)) (ExecTypes.co_shares o)) as [H1|H1];
    [cbn; split_and!; try reflexivity; split; try done; intros (_ & (? & _) & _); lia|].
  cbv zeta. rewrite (u64_id (_ * _)) by (unfold is_u64; lia).
  destruct (Z.ltb_spec (max_order_notional (limits_ g)) (ExecTypes.co_price o * ExecTypes.co_shares o)) as [H2|H2];
    [cbn; split_and!; try reflexivity; split; try done; intros (_ & (_ & ? & _) & _); lia|].
  assert (0 <= reference_price_ g * price_collar_bps (limits_ g) < 18446744073709551616) as Hcol by nia.
  rewrite (u64_id (reference_price_ g * _)) by (unfold is_u64; lia).
  assert ((if reference_price_ g <=? ExecTypes.co_price o then u32 (ExecTypes.co_price o - reference_price_ g)
           else u32 (reference_price_ g - ExecTypes.co_price o)) = Z.abs (ExecTypes.co_price o - reference_price_ g)) as ->.
  { destruct (Z.leb_spec (reference_price_ g) (ExecTypes.co_price o)); rewrite u32_id by (unfold is_u32; lia); lia. }
  set (dev := _ / 10000).
  destruct (bool_decide (ExecTypes.co_type o = ExecTypes.Limit) && negb (reference_price_ g =? 0) &&
            (dev <? Z.abs (ExecTypes.co_price o - reference_price_ g))) eqn:E3.
  { apply andb_true_iff in E3 as [[Ht Hz]%andb_true_iff Hd]. apply bool_decide_eq_true in Ht.
    apply negb_true_iff, Z.eqb_neq in Hz. apply Z.ltb_lt in Hd.
    cbn. split_and!; try reflexivity; split; try done; intros (_ & (_ & _ & Hc) & _); specialize (Hc Ht Hz); lia. }
  assert (ExecTypes.co_type o = ExecTypes.Limit -> reference_price_ g <> 0 ->
          Z.abs (ExecTypes.co_price o - reference_price_ g) <= dev) as H3.
  { intros Ht Hz. rewrite bool_decide_eq_true_2, (proj2 (Z.eqb_neq _ _)) in E3 by assumption.
    apply Z.ltb_ge in E3. exact E3. }
  rewrite (u64_id (cumulative_shares_ g + _)) by (unfold is_u64; lia).
  destruct (Z.ltb_spec (max_cumulative_shares (limits_ g)) (cumulative_shares_ g + ExecTypes.co_shares o)) as [H4|H4].
  { cbn. split_and!; try reflexivity; split; try done.
    - intros (_ & _ & ? & _). lia.
    - intros _. split_and!; try done. lia. }
  unfold u128. rewrite (Z.mod_small (cumulative_notional_ g + _)) by lia.
  destruct (Z.ltb_spec (max_cumulative_notional (limits_ g)) (cumulative_notional_ g + ExecTypes.co_price o * ExecTypes.co_shares o)) as [H5|H5].
  { cbn. split_and!; try reflexivity; split; try done.
    - intros (_ & _ & _ & ?). lia.
    - intros _. split_and!; try done. lia. }
  cbn. split_and!; try reflexivity; split; try done.
  intros (_ & _ & Hno). exfalso. apply Hno. done.
Qed.

Lemma trip_inv g : gate_inv g -> gate_inv (trip g).
Proof. intros []. by constructor. Qed.

(** [record] after a passed check stays within the budget, exactly. *)
Lemma record_inv o g : gate_inv g -> ExecTypes.wf_child o -> fits g o ->
  gate_inv (record o g) /\ cumulative_shares_ (record o g) = cumulative_shares_ g + ExecTypes.co_shares o /\
  cumulative_notional_ (record o g) = cumulative_notional_ g + notional o.
Proof.
  intros [Hs Hn Hms Hmn Hr Hb] (_ & [Hp0 Hp1] & [Hsh0 Hsh1]) [Hf1 Hf2]. unfold notional, is_u32, is_u64 in *.
  assert (0 <= ExecTypes.co_price o * ExecTypes.co_shares o < 18446744073709551616) by nia.
  unfold record. unfold u128. rewrite !(Z.mod_small (_ * _)) by lia. rewrite (Z.mod_small (cumulative_notional_ g + _)) by lia.
  rewrite u64_id by (unfold is_u64; lia). cbn. split_and!; try reflexivity. constructor; cbn; try assumption; lia.
Qed.

(** Same limits and reference price. *)
Definition same_limits (g g' : RiskGate) : Prop := limits_ g' = limits_ g /\ reference_price_ g' = reference_price_ g.

Lemma check_same o g : same_limits g (check o g).2.
Proof. unfold check, same_limits. repeat (case_match; try (split; reflexivity)); cbv zeta; repeat (case_match; try (split; reflexivity)). Qed.

Lemma total_notional_app l1 l2 : total_notional (l1 ++ l2) = total_notional l1 + total_notional l2.
Proof. unfold total_notional. induction l1 as [|o l1 IH]; simpl; lia. Qed.

(** Is the array of reasons, if any, long enough? *)
Definition reasons_fit (n : nat) (reasons : option (list RejectReason)) : Prop :=
  match reasons with Some r => (n <= length r)%nat | None => True end.

Lemma write_reason reasons i reason n : reasons_fit n reasons -> (i < n)%nat ->
  exists reasons', (match reasons with Some r => r ← wr r i reason; Ok (Some r) | None => Ok None end) = Ok reasons' /\
    reasons_fit n reasons'.
Proof.
  intros Hr Hi. destruct reasons as [r|]; [|by exists None]. cbn in Hr. unfold wr. rewrite decide_True by lia.
  eexists. split; [reflexivity|]. cbn. by rewrite length_insert.
Qed.

Lemma apply_loop_ok orders i count g acc reasons :
  gate_inv g -> Forall ExecTypes.wf_child orders -> ExecTypes.queue_inv acc ->
  reasons_fit (i + length orders) reasons ->
  exists sent g' acc' reasons', apply_loop orders i count g acc reasons = Ok ((count + length sent)%nat, g', acc', reasons') /\
    gate_inv g' /\ same_limits g g' /\ ExecTypes.queue_inv acc' /\
    ExecTypes.items acc' = ExecTypes.items acc ++ sent /\ sublist sent orders /\
    Forall (order_ok g) sent /\
    cumulative_shares_ g' = cumulative_shares_ g + ExecTypes.total_shares sent /\
    cumulative_notional_ g' = cumulative_notional_ g + total_notional sent /\
    (tripped_ g = true -> sent = [] /\ g' = g).
Proof.
  revert i count g acc reasons. induction orders as [|o orders IH]; intros i count g acc reasons Hinv Hwf Hq Hfit; cbn [apply_loop].
  { exists [], g, acc, reasons. cbn. rewrite app_nil_r, Nat.add_0_r, !Z.add_0_r. by split_and!. }
  apply Forall_cons_1 in Hwf as [Ho Hwf]. cbn [length] in Hfit.
  destruct (check_spec o g Hinv Ho) as (Hg1 & Hnone & Hkill & _).
  pose proof (check_same o g) as Hsame. destruct (check o g) as [reason g1]. cbn [fst snd] in *.
  destruct (write_reason reasons i reason _ Hfit ltac:(lia)) as (reasons1 & -> & Hfit1). rewrite bind_Ok.
  replace (i + S (length orders))%nat with (S i + length orders)%nat in Hfit1 by lia.
  assert (gate_inv g1) as Hinv1 by (rewrite Hg1; destruct (breach reason); [by apply trip_inv|done]).
  assert (forall acc', ExecTypes.queue_inv acc' -> ExecTypes.items acc' = ExecTypes.items acc -> reason <> None_ \/ reason = None_ /\ g1 = g ->
    exists sent g' acc'' reasons', apply_loop orders (S i) count g1 acc' reasons1 = Ok ((count + length sent)%nat, g', acc'', reasons') /\
    gate_inv g' /\ same_limits g g' /\ ExecTypes.queue_inv acc'' /\
    ExecTypes.items acc'' = ExecTypes.items acc ++ sent /\ sublist sent (o :: orders) /\
    Forall (order_ok g) sent /\
    cumulative_shares_ g' = cumulative_shares_ g + ExecTypes.total_shares sent /\
    cumulative_notional_ g' = cumulative_notional_ g + total_notional sent /\
    (tripped_ g = true -> sent = [] /\ g' = g)) as Hskip.
  { intros acc' Hq' Hi' _.
    destruct (IH (S i) count g1 acc' reasons1 Hinv1 Hwf Hq' Hfit1) as (sent & g' & acc'' & rs & Hrun & A1 & A2 & A3 & A4 & A5 & A6 & A7 & A8 & A9).
    exists sent, g', acc'', rs. rewrite Hrun, A4, Hi', A7, A8.
    assert (cumulative_shares_ g1 = cumulative_shares_ g /\ cumulative_notional_ g1 = cumulative_notional_ g) as [-> ->]
      by (rewrite Hg1; by destruct (breach reason)).
    destruct Hsame as [S1 S2], A2 as [S3 S4]. split_and!; try done.
    - split; congruence.
    - by apply sublist_cons.
    - eapply Forall_impl; [exact A6|]. unfold order_ok. by rewrite S1, S2.
    - intros Ht. apply Hkill in Ht. subst reason. cbn in Hg1. subst g1. apply A9, Hkill. done. }
  destruct (decide (reason = None_)) as [Hr|Hr]; [|apply (Hskip acc); auto].
  assert (g1 = g) as -> by (rewrite Hg1; by subst reason).
  destruct (proj1 Hnone Hr) as (Htr & Hok & Hfits).
  destruct (ExecTypes.push_ok o acc Hq) as (acc1 & -> & Hq1 & Hi1 & Hfull). rewrite bind_Ok.
  destruct (ExecTypes.full acc); cbn [negb].
  { apply (Hskip acc1); auto. }
  destruct (record_inv o g Hinv Ho Hfits) as (Hinv2 & Hcs & Hcn).
  destruct (IH (S i) (S count) (record o g) acc1 reasons1 Hinv2 Hwf Hq1 Hfit1) as (sent & g' & acc'' & rs & Hrun & A1 & A2 & A3 & A4 & A5 & A6 & A7 & A8 & A9).
  exists (o :: sent), g', acc'', rs. rewrite Hrun, A4, Hi1, A7, A8, Hcs, Hcn, <- app_assoc. cbn [length app ExecTypes.total_shares total_notional foldr].
  fold (ExecTypes.total_shares sent). fold (total_notional sent). split_and!; try done; try lia.
  - do 2 f_equal. do 2 f_equal. lia.
  - by apply sublist_skip.
  - apply Forall_cons_2; [done|]. exact A6.
  - congruence.
Qed.

(** ** Properties *)

(** [check] returns no objection exactly when the switch is not tripped, the
    order respects the size, notional and (for a limit order with a reference
    price) collar limits, and recording it would stay within both cumulative
    budgets; it changes the gate only by latching the kill switch, exactly when
    an otherwise acceptable order would breach a budget; and a tripped gate
    answers [KillSwitchTripped] to everything.  No sum or product in it wraps. *)
Theorem check_exact (o : ExecTypes.ChildOrder) (g : RiskGate) (Hinv : gate_inv g) (Ho : ExecTypes.wf_child o) :
  ((check o g).1 = None_ <-> tripped_ g = false /\ order_ok g o /\ fits g o) /\
  (check o g).2 = (if breach (check o g).1 then trip g else g) /\
  (breach (check o g).1 = true <-> tripped_ g = false /\ order_ok g o /\ ~ fits g o) /\
  ((check o g).1 = KillSwitchTripped <-> tripped_ g = true).
Proof. destruct (check_spec o g Hinv Ho) as (? & ? & ? & ?). auto. Qed.

(** A gate with room for 100 more shares. *)
Definition sample_gate : RiskGate :=
  mkRiskGate (mkRiskLimits 500 10000000 500 1000 10000000) 10000 false 900 9000000.

Lemma sample_gate_inv : gate_inv sample_gate.
Proof. constructor; cbn; unfold is_u32, is_u64; lia. Qed.

Definition sample_order (shares : Z) : ExecTypes.ChildOrder := ExecTypes.mkChildOrder 1 Wire.Buy ExecTypes.Limit 10000 shares.

Lemma check_exact_witness :
  tripped_ (check (sample_order 101) sample_gate).2 = true /\ fits sample_gate (sample_order 100).
Proof.
  split; [reflexivity|].
  assert (ExecTypes.wf_child (sample_order 100)) as Ho by (unfold ExecTypes.wf_child, is_u64, is_u32; cbn; lia).
  exact (proj2 (proj2 (proj1 (proj1 (check_exact (sample_order 100) sample_gate sample_gate_inv Ho)) eq_refl))).
Defined.

(** C26: draining a queue through the gate lets through a subsequence of its
    orders, in order, each within every per-order limit, and records exactly
    those: the cumulative shares and notional grow by precisely what was
    accepted and stay within the session budgets; a gate whose kill switch is
    tripped lets nothing through and does not change; the loop never writes
    outside the queue or the array of reasons. *)
Theorem apply_sound (g : RiskGate) (in_ acc : ExecTypes.ChildOrderQueue) (reasons : option (list RejectReason))
  (Hinv : gate_inv g) (Hin : ExecTypes.queue_inv in_) (Hacc : ExecTypes.queue_inv acc)
  (Hwf : Forall ExecTypes.wf_child (ExecTypes.items in_)) (Hr : reasons_fit ExecTypes.kMaxChildOrders reasons) :
  exists sent g' acc' reasons', apply g in_ acc reasons = Ok (length sent, g', acc', reasons') /\
    ExecTypes.items acc' = ExecTypes.items acc ++ sent /\ sublist sent (ExecTypes.items in_) /\
    Forall (order_ok g) sent /\
    cumulative_shares_ g' = cumulative_shares_ g + ExecTypes.total_shares sent /\
    cumulative_shares_ g' <= max_cumulative_shares (limits_ g) /\
    cumulative_notional_ g' = cumulative_notional_ g + total_notional sent /\
    cumulative_notional_ g' <= max_cumulative_notional (limits_ g) /\
    (tripped_ g = true -> sent = [] /\ g' = g).
Proof.
  assert (reasons_fit (0 + length (ExecTypes.items in_)) reasons) as Hfit.
  { rewrite (ExecTypes.items_length in_ Hin). destruct Hin as [_ Hs]. destruct reasons as [r|]; [|done]. cbn in *. lia. }
  destruct (apply_loop_ok (ExecTypes.items in_) 0 0 g acc reasons Hinv Hwf Hacc Hfit)
    as (sent & g' & acc' & rs & Hrun & A1 & [A2 _] & A3 & A4 & A5 & A6 & A7 & A8 & A9).
  exists sent, g', acc', rs. pose proof (gi_shares g' A1) as B1. pose proof (gi_notional g' A1) as B2. rewrite A2 in B1, B2.
  split_and!; try done; lia.
Qed.

Definition sample_in : ExecTypes.ChildOrderQueue :=
  ExecTypes.mkFixed (sample_order 60 :: sample_order 600 :: sample_order 50 :: replicate 509 ExecTypes.default_order) 3.

Lemma apply_sound_witness : exists sent g' acc' reasons',
  apply sample_gate sample_in (ExecTypes.empty_queue ExecTypes.default_order) None = Ok (length sent, g', acc', reasons') /\
  900 + ExecTypes.total_shares sent <= 1000.
Proof.
  destruct (apply_sound sample_gate sample_in (ExecTypes.empty_queue ExecTypes.default_order) None sample_gate_inv)
    as (sent & g' & acc' & rs & H1 & _ & _ & _ & H2 & H2' & _).
  - split; [reflexivity|]. cbn. unfold ExecTypes.kMaxChildOrders. lia.
  - apply ExecTypes.empty_queue_inv.
  - change (Forall ExecTypes.wf_child [sample_order 60; sample_order 600; sample_order 50]).
    repeat constructor; cbn; lia.
  - exact I.
  - exists sent, g', acc', rs. split; [exact H1|]. rewrite H2 in H2'. exact H2'.
Defined.

End RiskGate.
