(* ===== verification/FillSim.v ===== *)
(** * FillSim: scoring child orders against a rolling quote and tape

    Models include/exec/fill_sim.hpp: [FillSimulator] with its two feeds, the
    [fill] step and the two display ratios.  [FillQueue] is [ExecTypes.Fixed]
    at [Fill] (the header declares [kMaxFills = kMaxChildOrders] and the same
    methods).  [run] is the caller's loop the header prescribes: feed the
    event, then evaluate the child orders it produced. *)

From S2P Require Import Prelude Wire Doubles ExecTypes.

Module FillSim.

Record Fill := mkFill { fill_ts : Z; fill_side : Wire.Side; fill_price : Z; fill_shares : Z }.

Definition kMaxFills : nat := ExecTypes.kMaxChildOrders.

Definition FillQueue := ExecTypes.Fixed Fill.

(** [Fill{}] *)
Definition default_fill : Fill := mkFill 0 Wire.Buy 0 0.

Record FillSimulator := mkFillSimulator {
  bbo_ : ExecTypes.Bbo;
  last_trade_price_ : Z;
  fills_ : FillQueue;
  shares_filled_ : Z;
  shares_attempted_ : Z;
  notional_ : Z }.

Definition construct : FillSimulator :=
  mkFillSimulator (ExecTypes.mkBbo 0 0 0 0 0) 0 (ExecTypes.empty_queue default_fill) 0 0 0.

Definition on_bbo_change (bbo : ExecTypes.Bbo) (s : FillSimulator) : FillSimulator :=
  mkFillSimulator bbo (last_trade_price_ s) (fills_ s) (shares_filled_ s) (shares_attempted_ s) (notional_ s).

Definition on_trade_tick (tick : ExecTypes.TradeTick) (s : FillSimulator) : FillSimulator :=
  mkFillSimulator (bbo_ s) (ExecTypes.tick_price tick) (fills_ s) (shares_filled_ s) (shares_attempted_ s) (notional_ s).

(** The branches that set [fill_price] and [marketable]. *)
Definition marketable_at (order : ExecTypes.ChildOrder) (bbo : ExecTypes.Bbo) (last_trade_price : Z) : Z * bool :=
  match ExecTypes.co_type order with
  | ExecTypes.Market => (last_trade_price, negb (last_trade_price =? 0))
  | ExecTypes.Limit =>
    if ExecTypes.co_side order =? Wire.Buy then
      if negb (ExecTypes.ask_price bbo =? 0) && (ExecTypes.ask_price bbo <=? ExecTypes.co_price order)
      then (ExecTypes.ask_price bbo, true) else (0, false)
    else
      if negb (ExecTypes.bid_price bbo =? 0) && (ExecTypes.co_price order <=? ExecTypes.bid_price bbo)
      then (ExecTypes.bid_price bbo, true) else (0, false)
  end.

Definition fill (order : ExecTypes.ChildOrder) (s : FillSimulator) : outcome (bool * FillSimulator) :=
  let attempted := u32 (shares_attempted_ s + ExecTypes.co_shares order) in
  let '(price, marketable) := marketable_at order (bbo_ s) (last_trade_price_ s) in
  let s := mkFillSimulator (bbo_ s) (last_trade_price_ s) (fills_ s) (shares_filled_ s) attempted (notional_ s) in
  if negb marketable then Ok (false, s)
  else
    '(pushed, fills) ← ExecTypes.push (mkFill (ExecTypes.co_ts order) (ExecTypes.co_side order) price (ExecTypes.co_shares order)) (fills_ s);
    if negb (pushed : bool)
    then Ok (false, mkFillSimulator (bbo_ s) (last_trade_price_ s) fills (shares_filled_ s) attempted (notional_ s))
    else Ok (true, mkFillSimulator (bbo_ s) (last_trade_price_ s) fills
                     (u32 (shares_filled_ s + ExecTypes.co_shares order)) attempted
                     (u128 (notional_ s + u128 (price * ExecTypes.co_shares order)))).

Definition fill_rate (s : FillSimulator) : Doubles.double :=
  if shares_attempted_ s =? 0 then Doubles.of_Z 0
  else Doubles.div (Doubles.of_Z (shares_filled_ s)) (Doubles.of_Z (shares_attempted_ s)).

Definition vwap_price (s : FillSimulator) : Doubles.double :=
  if shares_filled_ s =? 0 then Doubles.of_Z 0
  else Doubles.div (Doubles.of_Z (notional_ s)) (Doubles.of_Z (shares_filled_ s)).

(** ** A scored session *)

Inductive Event := Quote (b : ExecTypes.Bbo) | Print_ (t : ExecTypes.TradeTick) | Child (o : ExecTypes.ChildOrder).

Definition step (e : Event) (s : FillSimulator) : outcome FillSimulator :=
  match e with
  | Quote b => Ok (on_bbo_change b s)
  | Print_ t => Ok (on_trade_tick t s)
  | Child o => '(_, s) ← fill o s; Ok s
  end.

Fixpoint run (events : list Event) (s : FillSimulator) : outcome FillSimulator :=
  match events with
  | [] => Ok s
  | e :: events => s ← step e s; run events s
  end.

(** ** What a session should yield: the reference *)

(** The quote and the last print in force after some events. *)
Definition quote_of (events : list Event) : ExecTypes.Bbo :=
  foldl (fun b e => match e with Quote b' => b' | _ => b end) (ExecTypes.mkBbo 0 0 0 0 0) events.

Definition print_of (events : list Event) : Z :=
  foldl (fun p e => match e with Print_ t => ExecTypes.tick_price t | _ => p end) 0 events.

(** What an order can trade at, 0 if nothing: the market order at the last
    print, a limit order at the best price of the other side. *)
Definition offered (o : ExecTypes.ChildOrder) (q : ExecTypes.Bbo) (last_print : Z) : Z :=
  if decide (ExecTypes.co_type o = ExecTypes.Market) then last_print
  else if decide (ExecTypes.co_side o = Wire.Buy) then ExecTypes.ask_price q else ExecTypes.bid_price q.

(** Its owner does not do worse than the limit asked for. *)
Definition acceptable (o : ExecTypes.ChildOrder) (price : Z) : Prop :=
  ExecTypes.co_type o = ExecTypes.Limit ->
  (ExecTypes.co_side o = Wire.Buy -> price <= ExecTypes.co_price o) /\
  (ExecTypes.co_side o <> Wire.Buy -> ExecTypes.co_price o <= price).

#[global] Instance acceptable_dec o price : Decision (acceptable o price).
Proof. unfold acceptable. apply _. Defined.

Definition trades_at (o : ExecTypes.ChildOrder) (q : ExecTypes.Bbo) (last_print : Z) : option Z :=
  let price := offered o q last_print in
  if decide (price <> 0 /\ acceptable o price) then Some price else None.

(** The fills of the orders of [events], the events [past] having happened:
    each order sees only what precedes it. *)
Fixpoint expected (past events : list Event) : list Fill :=
  match events with
  | [] => []
  | e :: events =>
    match e with
    | Child o =>
      match trades_at o (quote_of past) (print_of past) with
      | Some price => [mkFill (ExecTypes.co_ts o) (ExecTypes.co_side o) price (ExecTypes.co_shares o)]
      | None => []
      end
    | _ => []
    end ++ expected (past ++ [e]) events
  end.

Definition filled (l : list Fill) : Z := foldr (fun f n => fill_shares f + n) 0 l.
Definition worth (l : list Fill) : Z := foldr (fun f n => fill_price f * fill_shares f + n) 0 l.

Definition attempted (events : list Event) : Z :=
  foldr (fun e n => match e with Child o => ExecTypes.co_shares o | _ => 0 end + n) 0 events.

(** Field widths. *)
Definition wf_event (e : Event) : Prop :=
  match e with
  | Quote b => is_u32 (ExecTypes.bid_price b) /\ is_u32 (ExecTypes.ask_price b)
  | Print_ t => ExecTypes.wf_tick t
  | Child o => ExecTypes.wf_child o
  end.

Definition wf_fill (f : Fill) : Prop := is_u32 (fill_price f) /\ is_u32 (fill_shares f).

Lemma filled_app l1 l2 : filled (l1 ++ l2) = filled l1 + filled l2.
Proof. unfold filled. induction l1 as [|f l1 IH]; simpl; lia. Qed.

Lemma worth_app l1 l2 : worth (l1 ++ l2) = worth l1 + worth l2.
Proof. unfold worth. induction l1 as [|f l1 IH]; simpl; lia. Qed.

(** 512 fills cannot exceed the 128-bit accumulator. *)
Lemma worth_bound l : Forall wf_fill l -> 0 <= worth l <= Z.of_nat (length l) * 18446744073709551616.
Proof.
  induction 1 as [|f l [[Hp0 Hp] [Hs0 Hs]] Hl IH]; [done|].
  cbn [worth foldr length]. fold (worth l). assert (0 <= fill_price f * fill_shares f < 18446744073709551616) by nia. lia.
Qed.

(** What holds of the simulator after the events [past]. *)
Record sim_inv (past : list Event) (s : FillSimulator) : Prop := {
  si_bbo : bbo_ s = quote_of past;
  si_print : last_trade_price_ s = print_of past;
  si_queue : ExecTypes.queue_inv (fills_ s);
  si_fills : ExecTypes.items (fills_ s) = take kMaxFills (expected [] past);
  si_wf : Forall wf_fill (ExecTypes.items (fills_ s));
  si_filled : shares_filled_ s = u32 (filled (ExecTypes.items (fills_ s)));
  si_attempted : shares_attempted_ s = u32 (attempted past);
  si_notional : notional_ s = worth (ExecTypes.items (fills_ s)) }.

Lemma expected_app past l1 l2 : expected past (l1 ++ l2) = expected past l1 ++ expected (past ++ l1) l2.
Proof.
  revert past. induction l1 as [|e l1 IH]; intros past; cbn [expected app]; [by rewrite app_nil_r|].
  by rewrite IH, <- !app_assoc.
Qed.

Lemma attempted_app l1 l2 : attempted (l1 ++ l2) = attempted l1 + attempted l2.
Proof. unfold attempted. induction l1 as [|e l1 IH]; simpl; lia. Qed.

Lemma u32_add a b : u32 (u32 a + b) = u32 (a + b).
Proof. unfold u32. by rewrite Zplus_mod_idemp_l. Qed.

Lemma wf_quotes past : Forall wf_event past ->
  is_u32 (ExecTypes.bid_price (quote_of past)) /\ is_u32 (ExecTypes.ask_price (quote_of past)) /\ is_u32 (print_of past).
Proof.
  induction past as [|e past IH] using rev_ind; [intros _; cbn; unfold is_u32; lia|].
  intros [Hp He]%Forall_app. apply Forall_cons_1 in He as [He _]. apply IH in Hp as (Hb & Ha & Hl).
  unfold quote_of, print_of. rewrite !foldl_app. destruct e as [b|t|o]; cbn in *; [by destruct He| |done].
  split_and!; try done. apply He.
Qed.

Lemma acceptable_iff o price : acceptable o price <->
  match ExecTypes.co_type o with
  | ExecTypes.Market => True
  | ExecTypes.Limit => if decide (ExecTypes.co_side o = Wire.Buy) then price <= ExecTypes.co_price o else ExecTypes.co_price o <= price
  end.
Proof. unfold acceptable. destruct (ExecTypes.co_type o); [case_decide|]; split; (done || tauto). Qed.

(** The code's branches decide as the reference does. *)
Lemma marketable_trades o q last : marketable_at o q last =
  match trades_at o q last with
  | Some price => (price, true)
  | None => ((if decide (ExecTypes.co_type o = ExecTypes.Market) then last else 0), false)
  end.
Proof.
  pose proof (acceptable_iff o (offered o q last)) as Ha. revert Ha. unfold marketable_at, trades_at, offered.
  destruct (ExecTypes.co_type o); [destruct (Z.eqb_spec (ExecTypes.co_side o) Wire.Buy)|]; repeat case_decide; try done; intros Ha;
    repeat match goal with |- context [?x =? 0] => destruct (Z.eqb_spec x 0) | |- context [?x <=? ?y] => destruct (Z.leb_spec x y) end;
    cbn [negb andb]; try done; exfalso; rewrite Ha in *; lia.
Qed.

(** The price of a fill is one of the three known prices. *)
Lemma trades_wf o q last price : is_u32 (ExecTypes.bid_price q) -> is_u32 (ExecTypes.ask_price q) -> is_u32 last ->
  trades_at o q last = Some price -> is_u32 price.
Proof. intros Hb Ha Hp. unfold trades_at, offered. repeat case_decide; congruence. Qed.

Lemma construct_sim_inv : sim_inv [] construct.
Proof.
  destruct (ExecTypes.empty_queue_inv default_fill) as [Hq Hi].
  constructor; rewrite ?Hi; try done.
Qed.

(** Feeding a quote or a print keeps the fills. *)
Lemma feed_inv past s e : sim_inv past s -> (forall o, e <> Child o) ->
  exists s', step e s = Ok s' /\ sim_inv (past ++ [e]) s'.
Proof.
  intros [H1 H2 H3 H4 H5 H6 H7 H8] He.
  pose proof (expected_app [] past [e]) as Hexp. pose proof (attempted_app past [e]) as Hatt.
  destruct e as [b|t|o]; [| |by destruct (He o)]; cbn in Hexp, Hatt; rewrite app_nil_r in Hexp; rewrite Z.add_0_r in Hatt;
    eexists; (split; [reflexivity|]); constructor; cbn [on_bbo_change on_trade_tick bbo_ last_trade_price_ fills_ shares_filled_ shares_attempted_ notional_];
    rewrite ?Hexp, ?Hatt; try assumption; unfold quote_of, print_of; rewrite ?foldl_app; done.
Qed.

Lemma fill_inv past s o : sim_inv past s -> Forall wf_event past -> ExecTypes.wf_child o ->
  exists s', step (Child o) s = Ok s' /\ sim_inv (past ++ [Child o]) s'.
Proof.
  intros [H1 H2 H3 H4 H5 H6 H7 H8] Hpast (_ & _ & Hsh).
  destruct (wf_quotes past Hpast) as (Hb & Ha & Hp).
  assert (quote_of (past ++ [Child o]) = quote_of past /\ print_of (past ++ [Child o]) = print_of past) as [Hq' Hp'].
  { unfold quote_of, print_of. by rewrite !foldl_app. }
  assert (u32 (shares_attempted_ s + ExecTypes.co_shares o) = u32 (attempted (past ++ [Child o]))) as Hatt.
  { rewrite H7, u32_add, attempted_app. cbn. do 2 f_equal. lia. }
  cbn [step]. unfold fill. rewrite Hatt, H1, H2.
  pose proof (expected_app [] past [Child o]) as Hexp. cbn [expected app] in Hexp.
  rewrite marketable_trades, app_nil_r in *.
  destruct (trades_at o (quote_of past) (print_of past)) as [price|] eqn:Hm; [pose proof (trades_wf _ _ _ _ Hb Ha Hp Hm) as Hprice|];
    cbn [negb fills_].
  2: { rewrite bind_Ok. eexists; split; [reflexivity|]. rewrite app_nil_r in Hexp.
       constructor; cbn; rewrite ?Hq', ?Hp', ?Hexp; done. }
  set (f := mkFill _ _ _ _) in *.
  destruct (ExecTypes.push_ok f (fills_ s) H3) as (q' & -> & Hq & Hi & Hfull). rewrite bind_Ok.
  destruct (ExecTypes.full (fills_ s)) eqn:Ef; cbn [negb]; rewrite bind_Ok; eexists; (split; [reflexivity|]).
  - assert (length (ExecTypes.items (fills_ s)) = kMaxFills) as Hlen.
    { rewrite (ExecTypes.items_length _ H3). apply Nat.leb_le in Ef. destruct H3 as [_ ?]. unfold kMaxFills. lia. }
    constructor; cbn [bbo_ last_trade_price_ fills_ shares_filled_ shares_attempted_ notional_]; rewrite ?Hq', ?Hp', ?Hi; try done.
    rewrite Hexp, H4, take_app_le; [done|]. rewrite H4, length_take in Hlen. lia.
  - apply (proj1 (ExecTypes.full_false _ H3)) in Ef. fold kMaxFills in Ef.
    assert (length (expected [] past) < kMaxFills)%nat as Hlt by (rewrite H4, length_take in Ef; lia).
    constructor; cbn [bbo_ last_trade_price_ fills_ shares_filled_ shares_attempted_ notional_]; rewrite ?Hq', ?Hp', ?Hi; try done.
    + rewrite Hexp, H4, !take_ge by (rewrite ?length_app; cbn [length]; lia). done.
    + apply Forall_app; split; [done|]. by apply Forall_singleton.
    + rewrite H6, u32_add, filled_app. cbn. do 2 f_equal. lia.
    + rewrite H8, worth_app. cbn. pose proof (worth_bound _ H5) as Hw. unfold is_u32 in *.
      assert (0 <= price * ExecTypes.co_shares o < 18446744073709551616) by nia.
      assert (Z.of_nat (length (ExecTypes.items (fills_ s))) <= 512) by (unfold kMaxFills, ExecTypes.kMaxChildOrders in Ef; lia).
      unfold u128. rewrite (Z.mod_small (price * _)) by lia. rewrite Z.mod_small by lia. lia.
Qed.

Lemma run_inv past events s : sim_inv past s -> Forall wf_event past -> Forall wf_event events ->
  exists s', run events s = Ok s' /\ sim_inv (past ++ events) s'.
Proof.
  revert past s. induction events as [|e events IH]; intros past s Hs Hpast Hev; cbn [run].
  { exists s. by rewrite app_nil_r. }
  apply Forall_cons_1 in Hev as [He Hev].
  assert (exists s', step e s = Ok s' /\ sim_inv (past ++ [e]) s') as (s' & -> & Hs').
  { destruct e as [b|t|o]; [by apply feed_inv..|by apply fill_inv]. }
  rewrite bind_Ok. destruct (IH (past ++ [e]) s' Hs') as (s2 & Hrun & H2); [|done|].
  { apply Forall_app; split; [done|by apply Forall_singleton]. }
  exists s2. split; [done|]. by rewrite <- app_assoc in H2.
Qed.

(** ** Properties *)

(** C35: scoring a session of any length never leaves the array of fills, and
    yields exactly the first 512 of the fills the session should have: judged on
    the quote and print in force when it is evaluated, an order fills whole, a
    market order at the last print and a limit order at the best price of the
    other side when that is within its limit, and not at all when there is no
    such print or price ([trades_at], written apart from the code); the
    notional is the exact sum of price times shares (the 128-bit accumulator
    cannot wrap), and the two share counters are the true totals modulo
    2^32. *)
Theorem session_exact (events : list Event) (Hev : Forall wf_event events) :
  exists s, run events construct = Ok s /\
    ExecTypes.items (fills_ s) = take kMaxFills (expected [] events) /\
    notional_ s = worth (ExecTypes.items (fills_ s)) /\
    shares_filled_ s = u32 (filled (ExecTypes.items (fills_ s))) /\
    shares_attempted_ s = u32 (attempted events).
Proof.
  destruct (run_inv [] events construct construct_sim_inv (Forall_nil_2 _) Hev) as (s & Hrun & []).
  exists s. by split_and!.
Qed.

Definition sample_session : list Event :=
  [ Quote (ExecTypes.mkBbo 1 9990 100 10010 100);
    Child (ExecTypes.mkChildOrder 1 Wire.Buy ExecTypes.Limit 10020 50);
    Child (ExecTypes.mkChildOrder 1 Wire.Sell ExecTypes.Limit 10000 70);
    Child (ExecTypes.mkChildOrder 1 Wire.Buy ExecTypes.Market 0 5);
    Print_ (ExecTypes.mkTradeTick 2 10005 10 Wire.Buy);
    Child (ExecTypes.mkChildOrder 2 Wire.Sell ExecTypes.Market 0 5) ].

Lemma sample_session_wf : Forall wf_event sample_session.
Proof. repeat constructor; cbn; lia. Qed.

Lemma session_exact_witness : exists s, run sample_session construct = Ok s /\
  ExecTypes.items (fills_ s) = [mkFill 1 Wire.Buy 10010 50; mkFill 2 Wire.Sell 10005 5] /\
  notional_ s = 550525 /\ shares_filled_ s = 55 /\ shares_attempted_ s = 130.
Proof.
  destruct (session_exact sample_session sample_session_wf) as (s & H1 & H2 & H3 & H4 & H5).
  exists s. rewrite H3, H4, H5, H2. repeat split. exact H1.
Defined.

(** An evaluation reports a fill exactly when it records one; a limit order
    fills at the opposite best quote, never worse than its limit, and for its
    full size; a market order fills at the last print; and without a quote
    on that side, or without any print, nothing fills. *)
Theorem fill_price_fair (o : ExecTypes.ChildOrder) (s s' : FillSimulator) (ok : bool)
  (Hq : ExecTypes.queue_inv (fills_ s)) (Hrun : fill o s = Ok (ok, s')) :
  ExecTypes.items (fills_ s') = ExecTypes.items (fills_ s) ++
    (if ok then [mkFill (ExecTypes.co_ts o) (ExecTypes.co_side o)
                   (marketable_at o (bbo_ s) (last_trade_price_ s)).1 (ExecTypes.co_shares o)] else []) /\
  (ok = true ->
   match ExecTypes.co_type o, ExecTypes.co_side o =? Wire.Buy with
   | ExecTypes.Market, _ => last_trade_price_ s <> 0 /\ (marketable_at o (bbo_ s) (last_trade_price_ s)).1 = last_trade_price_ s
   | ExecTypes.Limit, true => ExecTypes.ask_price (bbo_ s) <> 0 /\
       (marketable_at o (bbo_ s) (last_trade_price_ s)).1 = ExecTypes.ask_price (bbo_ s) /\
       ExecTypes.ask_price (bbo_ s) <= ExecTypes.co_price o
   | ExecTypes.Limit, false => ExecTypes.bid_price (bbo_ s) <> 0 /\
       (marketable_at o (bbo_ s) (last_trade_price_ s)).1 = ExecTypes.bid_price (bbo_ s) /\
       ExecTypes.co_price o <= ExecTypes.bid_price (bbo_ s)
   end).
Proof.
  unfold fill in Hrun. destruct (marketable_at o (bbo_ s) (last_trade_price_ s)) as [price m] eqn:Hm. cbn [fst].
  destruct m; cbn [negb fills_] in Hrun; [|injection Hrun as <- <-; by rewrite app_nil_r].
  destruct (ExecTypes.push_ok (mkFill (ExecTypes.co_ts o) (ExecTypes.co_side o) price (ExecTypes.co_shares o)) _ Hq)
    as (q' & Hp & _ & Hi & _).
  rewrite Hp, bind_Ok in Hrun.
  destruct (ExecTypes.full (fills_ s)); cbn [negb] in Hrun; injection Hrun as <- <-; cbn [fills_]; rewrite Hi;
    [by rewrite app_nil_r|split; [done|intros _]].
  revert Hm. unfold marketable_at.
  destruct (ExecTypes.co_type o), (ExecTypes.co_side o =? Wire.Buy); intros Hm; try case_match; simplify_eq; try (apply andb_true_iff in H as [Hz Hle]); lia.
Qed.

Lemma fill_price_fair_witness : exists s',
  fill (ExecTypes.mkChildOrder 1 Wire.Buy ExecTypes.Limit 10020 50) (on_bbo_change (ExecTypes.mkBbo 1 9990 100 10010 100) construct) = Ok (true, s') /\
  ExecTypes.items (fills_ s') = [mkFill 1 Wire.Buy 10010 50].
Proof.
  eexists. split; [reflexivity|].
  exact (proj1 (fill_price_fair (ExecTypes.mkChildOrder 1 Wire.Buy ExecTypes.Limit 10020 50)
    (on_bbo_change (ExecTypes.mkBbo 1 9990 100 10010 100) construct) _ true
    (proj1 (ExecTypes.empty_queue_inv default_fill)) eq_refl)).
Defined.

End FillSim.
