(* ===== verification/Mold.v ===== *)
(** * Mold: the MoldUDP64 packet header

    Models the wire part of include/net/moldudp64.hpp: session ids, the
    big-endian accessors, [encode] and [decode], and the receive timeout.  A pointer into a buffer is
    an offset into a list of bytes; every store and load is bounds-checked. *)

From S2P Require Import Prelude Wire Encode.

Module Mold.

Definition kSessionLen : nat := 10.
Definition kHeaderLen : nat := kSessionLen + 8 + 2.
Definition kHeartbeat : Z := 0.
Definition kEndOfSession : Z := 65535.

(** [std::array<char, kSessionLen>], as the bytes [memcpy] and [memcmp] see. *)
Definition SessionId := list Z.

(** [std::memcpy] of [bs] into the buffer at [p]. *)
Definition store (m : list Z) (p : nat) (bs : list Z) : outcome (list Z) :=
  if decide (p + length bs <= length m)%nat
  then Ok (take p m ++ bs ++ drop (p + length bs) m) else UB.

Definition make_session (s : list Z) : outcome SessionId :=
  let id := replicate kSessionLen 32 in
  store id 0 (take (Nat.min (length s) kSessionLen) s).

Definition same_session (a b : SessionId) : bool :=
  bool_decide (take kSessionLen a = take kSessionLen b).

Record Header := mkHeader { session : SessionId; seq : Z; count : Z }.

(** [for (int s = 8 * (n - 1); s >= 0; s -= 8) *p++ = u8(v >> s);] *)
Fixpoint put_be (n : nat) (m : list Z) (p : nat) (v : Z) : outcome (list Z) :=
  match n with
  | O => Ok m
  | S k => m ← wr m p (u8 (Z.shiftr v (8 * Z.of_nat k))); put_be k m (S p) v
  end.

Definition put_be64 (m : list Z) (p : nat) (v : Z) : outcome (list Z) := put_be 8 m p v.

Definition put_be16 (m : list Z) (p : nat) (v : Z) : outcome (list Z) :=
  m ← wr m p (u8 (Z.shiftr v 8));
  wr m (p + 1) (u8 v).

(** [for (int i = 0; i < 8; ++i) v = (v << 8) | p[i];] *)
Fixpoint get_be (n : nat) (m : list Z) (p : nat) (v : Z) : outcome Z :=
  match n with
  | O => Ok v
  | S k => b ← rd m p; get_be k m (S p) (Z.lor (u64 (Z.shiftl v 8)) b)
  end.

Definition get_be64 (m : list Z) (p : nat) : outcome Z := get_be 8 m p 0.

Definition get_be16 (m : list Z) (p : nat) : outcome Z :=
  b0 ← rd m p; b1 ← rd m (p + 1);
  Ok (u16 (Z.lor (Z.shiftl b0 8) b1)).

Definition encode (out : list Z) (h : Header) : outcome (list Z) :=
  let base := length out in
  let out := out ++ replicate kHeaderLen 0 in
  out ← store out base (take kSessionLen (session h));
  out ← put_be64 out (base + kSessionLen) (seq h);
  put_be16 out (base + kSessionLen + 8) (count h).

Definition decode (m : list Z) (p : nat) : outcome Header :=
  s ← Wire.memcpy m p kSessionLen;
  q ← get_be64 m (p + kSessionLen);
  c ← get_be16 m (p + kSessionLen + 8);
  Ok (mkHeader s q c).

(** [timeval] *)
Record timeval := mkTimeval { tv_sec : Z; tv_usec : Z }.

(** [duration_cast] of milliseconds to microseconds, in 64 signed bits. *)
Definition microseconds (ms : Z) : outcome Z :=
  let us := ms * 1000 in
  if (- 9223372036854775808 <=? us) && (us <? 9223372036854775808) then Ok us else UB.

(** The SO_RCVTIMEO value of [set_recv_timeout]; C++ division truncates. *)
Definition set_recv_timeout (timeout : Z) : outcome timeval :=
  us ← microseconds timeout;
  Ok (mkTimeval (Z.quot us 1000000) (Z.rem us 1000000)).

(** ** What the wire holds *)

Definition wf_session (s : SessionId) : Prop := length s = kSessionLen /\ Wire.bytes s.

Definition wf_header (h : Header) : Prop :=
  wf_session (session h) /\ is_u64 (seq h) /\ is_u16 (count h).

Definition packed (h : Header) : list Z :=
  session h ++ Encode.be_bytes 8 (seq h) ++ Encode.be_bytes 2 (count h).

Lemma packed_length h : wf_session (session h) -> length (packed h) = kHeaderLen.
Proof. intros [Hl _]. unfold packed. rewrite !length_app, !Encode.length_be_bytes, Hl. done. Qed.

Lemma packed_bytes h : wf_session (session h) -> Wire.bytes (packed h).
Proof.
  intros [_ Hb]. unfold packed. apply Forall_app; split; [done|]. apply Forall_app; split; apply Encode.bytes_be_bytes.
Qed.

(** Filling the hole between what is written and what follows. *)
Lemma wr_hole (a : list Z) x b v : wr (a ++ x :: b) (length a) v = Ok (a ++ v :: b).
Proof.
  unfold wr. rewrite decide_True by (rewrite length_app; cbn [length]; lia).
  by rewrite insert_app_r_alt, Nat.sub_diag by lia.
Qed.

Lemma put_be_ok n (a hole b : list Z) v : length hole = n ->
  put_be n (a ++ hole ++ b) (length a) v = Ok (a ++ Encode.be_bytes n v ++ b).
Proof.
  revert a hole. induction n as [|n IH]; intros a hole Hn.
  - by apply nil_length_inv in Hn as ->.
  - destruct hole as [|x hole]; [done|]. injection Hn as Hn. cbn [put_be app].
    rewrite wr_hole, bind_Ok, cons_middle, app_assoc.
    replace (S (length a)) with (length (a ++ [u8 (Z.shiftr v (8 * Z.of_nat n))])) by (rewrite length_app; cbn; lia).
    rewrite (IH _ hole Hn), Encode.be_bytes_S. by rewrite <- app_assoc.
Qed.

Lemma put_be16_ok (a : list Z) x y b v :
  put_be16 (a ++ x :: y :: b) (length a) v = Ok (a ++ Encode.be_bytes 2 v ++ b).
Proof.
  unfold put_be16. rewrite wr_hole, bind_Ok. rewrite cons_middle, app_assoc.
  replace (length a + 1)%nat with (length (a ++ [u8 (Z.shiftr v 8)])) by (rewrite length_app; done).
  rewrite wr_hole, <- app_assoc. reflexivity.
Qed.

Lemma store_ok (a hole b bs : list Z) : length hole = length bs ->
  store (a ++ hole ++ b) (length a) bs = Ok (a ++ bs ++ b).
Proof.
  intros Hl. unfold store. rewrite decide_True by (rewrite !length_app; lia).
  rewrite take_app_length, <- Hl.
  by rewrite <- (drop_drop _ (length hole) (length a)), drop_app_length, drop_app_length.
Qed.

(** [encode] appends exactly the packed header. *)
Lemma encode_ok out h : wf_session (session h) -> encode out h = Ok (out ++ packed h).
Proof.
  intros [Hl _]. unfold encode. rewrite take_ge by (rewrite Hl; done).
  change (replicate kHeaderLen 0) with (replicate kSessionLen 0 ++ replicate 8 0 ++ [0; 0]).
  rewrite store_ok, bind_Ok by (rewrite length_replicate; done).
  replace (length out + kSessionLen)%nat with (length (out ++ session h)) by (rewrite length_app; lia).
  rewrite app_assoc. unfold put_be64. rewrite put_be_ok, bind_Ok by apply length_replicate.
  replace (length (out ++ session h) + 8)%nat with (length ((out ++ session h) ++ Encode.be_bytes 8 (seq h)))
    by (rewrite (length_app _ (Encode.be_bytes 8 _)), Encode.length_be_bytes; done).
  rewrite app_assoc, put_be16_ok, app_nil_r. unfold packed. by rewrite <- !app_assoc.
Qed.

(** The accumulating reader computes the big-endian value. *)
Lemma get_be_ok n m p pre : Wire.bytes m -> Wire.bytes pre -> (p + n <= length m)%nat -> (length pre + n <= 8)%nat ->
  get_be n m p (Wire.be_val pre) = Ok (Wire.be_val (pre ++ take n (drop p m))).
Proof.
  revert p pre. induction n as [|n IH]; intros p pre Hm Hpre Hp Hlen; cbn [get_be].
  { by rewrite take_0, app_nil_r. }
  destruct (lookup_lt_is_Some_2 m p) as [b Hb]; [lia|].
  pose proof (Wire.bytes_lookup _ _ _ Hm Hb) as Hb8.
  rewrite (rd_lookup m p b Hb), bind_Ok.
  pose proof (Wire.be_val_range pre Hpre) as Hv.
  assert (256 ^ Z.of_nat (length pre) <= 256 ^ 7) as Hpow by (apply Z.pow_le_mono_r; lia).
  change (256 ^ 7) with 72057594037927936 in Hpow.
  assert (Z.lor (u64 (Z.shiftl (Wire.be_val pre) 8)) b = Wire.be_val (pre ++ [b])) as ->.
  { rewrite Wire.be_val_snoc. rewrite u64_id by (rewrite Z.shiftl_mul_pow2 by lia; unfold is_u64; lia).
    rewrite lor_shiftl_add by (unfold is_u8 in Hb8; lia). done. }
  rewrite IH; [|done|apply Forall_app; split; [done|by apply Forall_singleton]|lia|rewrite length_app; cbn; lia].
  rewrite <- app_assoc. do 3 f_equal. rewrite (drop_S m b p Hb). done.
Qed.

Lemma get_be64_ok m p : Wire.bytes m -> (p + 8 <= length m)%nat ->
  get_be64 m p = Ok (Wire.field m p 8).
Proof. intros Hm Hp. unfold get_be64. change 0 with (Wire.be_val []). by rewrite get_be_ok by (first [done|apply Forall_nil_2|cbn; lia]). Qed.

Lemma get_be16_ok m p : Wire.bytes m -> (p + 2 <= length m)%nat ->
  get_be16 m p = Ok (Wire.field m p 2).
Proof. intros Hm Hp. exact (Wire.be16_val m p Hm Hp). Qed.

(** The header of a byte string that is long enough. *)
Definition header_at (m : list Z) (p : nat) : Header :=
  mkHeader (take kSessionLen (drop p m)) (Wire.field m (p + kSessionLen) 8) (Wire.field m (p + kSessionLen + 8) 2).

Lemma decode_ok m p : Wire.bytes m -> (p + kHeaderLen <= length m)%nat -> decode m p = Ok (header_at m p).
Proof.
  intros Hm Hp. change kHeaderLen with 20%nat in Hp. unfold decode, Wire.memcpy, kSessionLen in *. rewrite decide_True, bind_Ok by lia.
  rewrite get_be64_ok, bind_Ok, get_be16_ok, bind_Ok by (done || lia). done.
Qed.

Lemma header_at_wf m p : Wire.bytes m -> (p + kHeaderLen <= length m)%nat -> wf_header (header_at m p).
Proof.
  intros Hm Hp. change kHeaderLen with 20%nat in Hp. unfold wf_header, wf_session, header_at, Wire.field, kSessionLen in *. cbn [session seq count].
  split_and!; [rewrite length_take, length_drop; lia|by apply Wire.bytes_take, Wire.bytes_drop| |].
  all: unfold is_u64, is_u16.
  - pose proof (Wire.be_val_take_range m (p + 10) 8 Hm ltac:(lia)) as H. exact H.
  - pose proof (Wire.be_val_take_range m (p + 10 + 8) 2 Hm ltac:(lia)) as H. exact H.
Qed.

(** A packed header anywhere in a buffer decodes to itself. *)
Lemma header_at_packed out h tl : wf_header h -> header_at (out ++ packed h ++ tl) (length out) = h.
Proof.
  intros ([Hl Hb] & Hq & Hc). unfold header_at, packed. rewrite drop_app_length.
  rewrite (Encode.field_skip out) by lia. rewrite (Encode.field_skip out) by lia.
  rewrite <- !app_assoc, !(Encode.field_skip (session h)) by lia.
  rewrite take_app_length' by done. rewrite Hl.
  replace (length out + kSessionLen - length out - kSessionLen)%nat with 0%nat by lia.
  replace (length out + kSessionLen + 8 - length out - kSessionLen)%nat with 8%nat by lia.
  rewrite Encode.field_be by exact Hq. rewrite Encode.field_skip by (rewrite Encode.length_be_bytes; lia).
  rewrite Encode.length_be_bytes, Nat.sub_diag, Encode.field_be by exact Hc. by destruct h.
Qed.

Lemma same_session_spec a b : wf_session a -> wf_session b -> same_session a b = true <-> a = b.
Proof. intros [Ha _] [Hb _]. unfold same_session. rewrite bool_decide_eq_true, !take_ge by lia. done. Qed.

(** ** Properties *)

(** Encoding a header appends exactly twenty bytes and touches nothing
    before them, and decoding at that offset, whatever payload follows, gives
    back the session, sequence number and count; a session id is compared on
    all of its ten bytes. *)
Theorem header_roundtrip (out payload : list Z) (h : Header) (Hh : wf_header h)
  (Hout : Wire.bytes out) (Hpay : Wire.bytes payload) :
  exists pkt, encode out h = Ok (out ++ pkt) /\ length pkt = kHeaderLen /\
    decode (out ++ pkt ++ payload) (length out) = Ok h /\
    (forall s, wf_session s -> same_session (session h) s = true <-> session h = s).
Proof.
  pose proof Hh as (Hs & _ & _). exists (packed h). split; [by apply encode_ok|].
  pose proof (packed_length h Hs) as Hlen. split; [done|]. split.
  - rewrite decode_ok, header_at_packed; [done|done| |].
    + apply Forall_app; split; [done|]. apply Forall_app; split; [by apply packed_bytes|done].
    + rewrite !length_app, Hlen. lia.
  - intros s' Hs'. by apply same_session_spec.
Qed.

Definition sample_header : Header := mkHeader [68; 69; 77; 79; 32; 32; 32; 32; 32; 32] 258 1.

Lemma sample_header_wf : wf_header sample_header.
Proof.
  unfold wf_header, wf_session. split_and!; [done|apply (bool_decide_unpack _); vm_compute; exact I|cbn; u32c|cbn; u32c].
Qed.

Lemma header_roundtrip_witness : exists pkt,
  encode [7] sample_header = Ok (7 :: pkt) /\ decode (7 :: pkt ++ [1; 2]) 1 = Ok sample_header.
Proof.
  destruct (header_roundtrip [7] [1; 2] sample_header sample_header_wf) as (pkt & H1 & _ & H2 & _).
  - apply (bool_decide_unpack _). vm_compute. exact I.
  - apply (bool_decide_unpack _). vm_compute. exact I.
  - exists pkt. split; [exact H1|exact H2].
Defined.

(** [make_session] left-justifies and pads with spaces. *)
Lemma make_session_ok s : Wire.bytes s ->
  exists id, make_session s = Ok id /\ wf_session id /\ id = take kSessionLen s ++ replicate (kSessionLen - length s) 32.
Proof.
  intros Hs. unfold make_session, store.
  assert (take (length s `min` kSessionLen) s = take kSessionLen s) as ->.
  { destruct (Nat.min_spec (length s) kSessionLen) as [[? ->]|[? ->]]; [|done]. rewrite !take_ge by lia. done. }
  rewrite decide_True by (rewrite length_take, length_replicate; lia).
  eexists. split; [reflexivity|]. rewrite take_0, drop_replicate, length_take. cbn [app plus].
  replace (kSessionLen - kSessionLen `min` length s)%nat with (kSessionLen - length s)%nat by lia. split; [|done].
  split; [rewrite length_app, length_take, length_replicate; lia|].
  apply Forall_app; split; [by apply Wire.bytes_take|]. apply Forall_replicate. u32c.
Qed.

(** The receive timeout set is the one asked for, in normal form; zero is
    zero, which the socket reads as no timeout at all. *)
Lemma set_recv_timeout_exact ms : 0 <= ms < 9223372036854775 ->
  exists tv, set_recv_timeout ms = Ok tv /\ tv_sec tv * 1000000 + tv_usec tv = ms * 1000 /\
    0 <= tv_usec tv < 1000000 /\ 0 <= tv_sec tv /\ (tv = mkTimeval 0 0 <-> ms = 0).
Proof.
  intros Hms. unfold set_recv_timeout, microseconds. cbv zeta. rewrite (proj2 (Z.leb_le _ _)), (proj2 (Z.ltb_lt _ _)) by lia.
  cbn [andb]. rewrite bind_Ok. eexists. split; [reflexivity|]. cbn [tv_sec tv_usec].
  rewrite Z.quot_div_nonneg, Z.rem_mod_nonneg by lia.
  pose proof (Z.div_mod (ms * 1000) 1000000 ltac:(lia)). pose proof (Z.mod_pos_bound (ms * 1000) 1000000 ltac:(lia)).
  pose proof (Z.div_pos (ms * 1000) 1000000 ltac:(lia) ltac:(lia)).
  split_and!; try lia. split; [intros [= H2 H3]; lia|]. intros ->. reflexivity.
Qed.

(** The timeouts the programs use: a poll's 200 ms and a connection's 300 ms. *)
Example programs_timeouts : set_recv_timeout 200 = Ok (mkTimeval 0 200000) /\ set_recv_timeout 300 = Ok (mkTimeval 0 300000) /\
  set_recv_timeout 2500 = Ok (mkTimeval 2 500000).
Proof. split_and!; reflexivity. Qed.

End Mold.
