(* ===== verification/Sender.v ===== *)
(** * Sender: the MoldUDP64 sending side

    Models include/net/multicast_test_sender.hpp: [load], [send_all],
    [send_raw], [send_heartbeat] and [serve_one_request].  A [sendto] is the
    datagram handed to it: the sending operations return the datagrams in
    order.  Opening and closing the sockets is in [Handles]. *)

From S2P Require Import Prelude Wire Encode Mold.

Module Sender.

Record MoldUdp64Sender := mkSender { session_ : Mold.SessionId; messages_ : list (list Z) }.

(** The [while] loop of [load]; every iteration consumes at least three
    bytes. *)
Fixpoint load_loop (fuel : nat) (framed : list Z) (off : nat) (messages : list (list Z)) : outcome (list (list Z)) :=
  match fuel with
  | O => NoFuel
  | S fuel =>
    if decide (off + 2 <= length framed)%nat then
      mlen ← Mold.get_be16 framed off;
      let frame_len := (2 + Z.to_nat mlen)%nat in
      if (mlen =? 0) || (length framed <? off + frame_len)%nat then Ok messages
      else load_loop fuel framed (off + frame_len) (messages ++ [take frame_len (drop off framed)])
    else Ok messages
  end.

Definition load (framed : list Z) (s : MoldUdp64Sender) : outcome MoldUdp64Sender :=
  messages ← load_loop (length framed + 1) framed 0 [];
  Ok (mkSender (session_ s) messages).

(** What [send_data_packet] and [send_reply_packet] hand to [sendto]. *)
Definition packet (s : MoldUdp64Sender) (seq count : Z) (payload : list Z) : outcome (list Z) :=
  pkt ← Mold.encode [] (Mold.mkHeader (session_ s) seq count);
  Ok (pkt ++ payload).

(** The loop of [send_all] from index [i]. *)
Fixpoint send_loop (s : MoldUdp64Sender) (should_drop : Z -> bool) (i : nat) (messages : list (list Z)) : outcome (list (list Z)) :=
  match messages with
  | [] => Ok []
  | m :: messages =>
    let seq := u64 (Z.of_nat i + 1) in
    if should_drop seq then send_loop s should_drop (S i) messages
    else
      pkt ← packet s seq 1 m;
      pkts ← send_loop s should_drop (S i) messages;
      Ok (pkt :: pkts)
  end.

Definition send_end_of_session (s : MoldUdp64Sender) (final_seq : Z) : outcome (list Z) :=
  Mold.encode [] (Mold.mkHeader (session_ s) final_seq Mold.kEndOfSession).

Definition send_all (s : MoldUdp64Sender) (should_drop : Z -> bool) : outcome (list (list Z)) :=
  pkts ← send_loop s should_drop 0 (messages_ s);
  eos ← send_end_of_session s (u64 (Z.of_nat (length (messages_ s)) + 1));
  Ok (pkts ++ [eos]).

Definition send_raw (s : MoldUdp64Sender) (seq count : Z) (payload : list Z) : outcome (list Z) :=
  packet s seq count payload.

Definition send_heartbeat (s : MoldUdp64Sender) (next_seq : Z) : outcome (list Z) :=
  Mold.encode [] (Mold.mkHeader (session_ s) next_seq Mold.kHeartbeat).

(** The [for] loop of [serve_one_request]: [k] counts up to [hdr.count]. *)
Fixpoint reply_loop (s : MoldUdp64Sender) (hdr : Mold.Header) (n : nat) (k : Z) : outcome (list (list Z)) :=
  match n with
  | O => Ok []
  | S n =>
    let seq := u64 (Mold.seq hdr + k) in
    if (seq <? 1) || (Z.of_nat (length (messages_ s)) <? seq) then Ok []
    else
      m ← rd (messages_ s) (Z.to_nat (seq - 1));
      pkt ← packet s seq 1 m;
      pkts ← reply_loop s hdr n (k + 1);
      Ok (pkt :: pkts)
  end.

(** [buf] is what [recvfrom] left in the 64-byte buffer (nothing on a
    timeout). *)
Definition serve_one_request (s : MoldUdp64Sender) (buf : list Z) : outcome (bool * list (list Z)) :=
  if (length buf <? Mold.kHeaderLen)%nat then Ok (false, [])
  else
    hdr ← Mold.decode buf 0;
    if negb (Mold.same_session (Mold.session hdr) (session_ s)) then Ok (false, [])
    else
      pkts ← reply_loop s hdr (Z.to_nat (Mold.count hdr)) 0;
      Ok (true, pkts).

(** ** Reference *)

(** A message block: the two-byte length and the frame. *)
Definition block (f : list Z) : list Z := Encode.be_bytes 2 (Z.of_nat (length f)) ++ f.

(** The datagram of sequence number [seq]. *)
Definition datagram (s : Mold.SessionId) (seq : Z) (payload : list Z) : list Z :=
  Mold.packed (Mold.mkHeader s seq 1) ++ payload.

Lemma packet_ok s seq payload : Mold.wf_session (session_ s) ->
  packet s seq 1 payload = Ok (datagram (session_ s) seq payload).
Proof. intros Hs. unfold packet. by rewrite Mold.encode_ok. Qed.

Lemma be_bytes_pair b0 b1 : is_u8 b0 -> is_u8 b1 -> Encode.be_bytes 2 (b0 * 256 + b1) = [b0; b1].
Proof.
  intros H0 H1. unfold Encode.be_bytes. cbn [Encode.push_be app]. change (8 * Z.of_nat 1) with 8. change (8 * Z.of_nat 0) with 0.
  rewrite Z.shiftr_0_r, Z.shiftr_div_pow2 by lia. change (2 ^ 8) with 256. unfold is_u8 in *. f_equal; [|f_equal]; word_lia.
Qed.

(** [load] keeps exactly the complete frames, each with its own length
    prefix. *)
Lemma load_loop_ok fuel framed off acc : Wire.bytes framed -> (off <= length framed)%nat -> (length framed - off < fuel)%nat ->
  load_loop fuel framed off acc = Ok (acc ++ (block <$> Wire.frames (drop off framed))).
Proof.
  intros Hb. revert off acc. induction fuel as [|fuel IH]; intros off acc Hoff Hfuel; [lia|].
  pose proof (length_drop framed off) as Hlen. cbn [load_loop]. case_decide as H2.
  2: { destruct (Wire.frames_stop (drop off framed)) as [-> _]; [|by rewrite app_nil_r].
       destruct (drop off framed) as [|? [|??]]; try reflexivity. cbn in Hlen. lia. }
  pose proof (Wire.bytes_drop off framed Hb) as Hbd.
  rewrite Mold.get_be16_ok, bind_Ok by (done || lia). unfold Wire.field.
  destruct (drop off framed) as [|b0 [|b1 tl]] eqn:Ed; cbn in Hlen; try lia.
  assert (Wire.be_val (take 2 (b0 :: b1 :: tl)) = b0 * 256 + b1) as -> by (unfold Wire.be_val; simpl; lia).
  destruct (Wire.next_frame (b0 :: b1 :: tl)) as [[f rest]|] eqn:Hn.
  - destruct (Wire.next_frame_eq _ _ _ Hbd Hn) as (c0 & c1 & Heq & H0 & H1 & Hv). injection Heq as <- <- Htl.
    pose proof (Wire.next_frame_shorter _ _ _ Hn) as [Hl Hpos].
    rewrite (proj2 (Z.eqb_neq _ _)) by lia. rewrite Hv, Nat2Z.id. cbn [length] in Hl, Hlen.
    rewrite (proj2 (Nat.ltb_ge _ _)) by lia. cbn [orb].
    destruct (Wire.frames_next _ _ _ Hn) as [-> _]. cbn [fmap list_fmap].
    assert (drop (off + (2 + length f)) framed = rest) as Hd.
    { rewrite <- (drop_drop _ _ off), Ed, Htl. cbn [drop plus]. apply drop_app_length. }
    rewrite IH, Hd by lia. rewrite <- app_assoc. cbn [app]. do 3 f_equal.
    rewrite Htl. cbn [take plus]. rewrite take_app_length. unfold block. rewrite <- Hv, be_bytes_pair by done. done.
  - destruct (Wire.frames_stop _ Hn) as [-> _]. rewrite app_nil_r. cbn [Wire.next_frame] in Hn.
    case_decide as Hd; [|done].
    destruct (Z.eqb_spec (b0 * 256 + b1) 0); [done|]. cbn [orb].
    apply Forall_cons_1 in Hbd as [Hb0 Hbd]. apply Forall_cons_1 in Hbd as [Hb1 _]. unfold is_u8 in *.
    rewrite (proj2 (Nat.ltb_lt _ _)) by (cbn [length] in *; lia). done.
Qed.

Lemma load_ok framed s : Wire.bytes framed ->
  load framed s = Ok (mkSender (session_ s) (block <$> Wire.frames framed)).
Proof. intros Hb. unfold load. by rewrite load_loop_ok, bind_Ok by (done || lia). Qed.

(** The datagrams of the messages from index [i], less the dropped ones. *)
Fixpoint sent (s : Mold.SessionId) (should_drop : Z -> bool) (i : nat) (messages : list (list Z)) : list (list Z) :=
  match messages with
  | [] => []
  | m :: messages =>
    (if should_drop (Z.of_nat i + 1) then [] else [datagram s (Z.of_nat i + 1) m]) ++ sent s should_drop (S i) messages
  end.

Lemma send_loop_ok s should_drop i messages : Mold.wf_session (session_ s) ->
  Z.of_nat (i + length messages) < 18446744073709551615 ->
  send_loop s should_drop i messages = Ok (sent (session_ s) should_drop i messages).
Proof.
  intros Hs. revert i. induction messages as [|m messages IH]; intros i Hi; cbn [send_loop sent]; [done|].
  cbn [length] in Hi. rewrite u64_id by (unfold is_u64; lia).
  rewrite packet_ok, IH by (done || lia). by destruct (should_drop _).
Qed.

(** Messages [seq] to [seq + n - 1], as far as they exist. *)
Fixpoint replies (s : Mold.SessionId) (seq : Z) (messages : list (list Z)) : list (list Z) :=
  match messages with
  | [] => []
  | m :: messages => datagram s seq m :: replies s (seq + 1) messages
  end.

Lemma reply_loop_ok s hdr n k : Mold.wf_session (session_ s) -> 1 <= Mold.seq hdr -> 0 <= k ->
  Mold.seq hdr + k + Z.of_nat n < 18446744073709551616 ->
  reply_loop s hdr n k =
    Ok (replies (session_ s) (Mold.seq hdr + k) (take n (drop (Z.to_nat (Mold.seq hdr + k - 1)) (messages_ s)))).
Proof.
  intros Hs Hq. revert k. induction n as [|n IH]; intros k Hk Hn; cbn [reply_loop]; [by rewrite take_0|].
  rewrite u64_id by (unfold is_u64; lia). rewrite (proj2 (Z.ltb_ge _ _)) by lia. cbn [orb].
  destruct (Z.ltb_spec (Z.of_nat (length (messages_ s))) (Mold.seq hdr + k)) as [Hge|Hlt].
  { rewrite (drop_ge (messages_ s)) by lia. by rewrite take_nil. }
  destruct (lookup_lt_is_Some_2 (messages_ s) (Z.to_nat (Mold.seq hdr + k - 1))) as [m Hm]; [lia|].
  rewrite (rd_lookup _ _ _ Hm), bind_Ok, packet_ok, bind_Ok, IH, bind_Ok by (done || lia).
  rewrite (drop_S _ _ _ Hm). cbn [take replies].
  replace (Z.to_nat (Mold.seq hdr + (k + 1) - 1)) with (S (Z.to_nat (Mold.seq hdr + k - 1))) by lia.
  by replace (Mold.seq hdr + (k + 1)) with (Mold.seq hdr + k + 1) by lia.
Qed.

(** ** Properties *)

(** A sender loaded with any byte string holds exactly its complete frames;
    [send_all] puts on the wire, in sequence order from 1, exactly the
    messages the drop predicate spares, each as one packet whose payload is the
    length-prefixed frame, then an end-of-session packet; and a retransmission
    request for any range within the session is answered with the very
    datagrams of that range (dropped ones included), a request of
    another session with nothing. *)
Theorem sender_exact (framed : list Z) (s0 : MoldUdp64Sender) (should_drop : Z -> bool) (req : Mold.Header)
  (Hs : Mold.wf_session (session_ s0)) (Hf : Wire.bytes framed) (Hlen : Z.of_nat (length framed) < 9223372036854775808)
  (Hreq : Mold.wf_header req) (Hq : 1 <= Mold.seq req < 9223372036854775808) :
  exists s buf, load framed s0 = Ok s /\ messages_ s = block <$> Wire.frames framed /\
    send_all s should_drop =
      Ok (sent (session_ s) should_drop 0 (messages_ s) ++
          [Mold.packed (Mold.mkHeader (session_ s) (Z.of_nat (length (messages_ s)) + 1) Mold.kEndOfSession)]) /\
    Mold.encode [] req = Ok buf /\
    serve_one_request s buf =
      Ok (if Mold.same_session (Mold.session req) (session_ s)
          then (true, replies (session_ s) (Mold.seq req)
                        (take (Z.to_nat (Mold.count req)) (drop (Z.to_nat (Mold.seq req - 1)) (messages_ s))))
          else (false, [])).
Proof.
  pose proof Hreq as (Hrs & _ & Hc). exists (mkSender (session_ s0) (block <$> Wire.frames framed)), (Mold.packed req).
  split; [by apply load_ok|]. split; [done|].
  assert (length (Wire.frames framed) <= length framed)%nat as Hfr.
  { clear. induction framed as [bs Hn|bs f tl Hn IH] using Wire.frames_ind.
    - destruct (Wire.frames_stop bs Hn) as [-> _]. cbn. lia.
    - destruct (Wire.frames_next _ _ _ Hn) as [-> _]. apply Wire.next_frame_shorter in Hn. cbn. lia. }
  split_and!.
  - unfold send_all, send_end_of_session. cbn [messages_ session_].
    rewrite send_loop_ok, bind_Ok, Mold.encode_ok, bind_Ok by (try done; rewrite length_fmap; lia).
    rewrite u64_id by (rewrite length_fmap; unfold is_u64; lia). done.
  - by apply Mold.encode_ok.
  - pose proof (Mold.packed_length req Hrs) as Hpl. unfold serve_one_request.
    rewrite (proj2 (Nat.ltb_ge _ _)) by lia.
    rewrite Mold.decode_ok, bind_Ok by (by apply Mold.packed_bytes || lia).
    pose proof (Mold.header_at_packed [] req [] Hreq) as Hat. rewrite app_nil_r in Hat. cbn [app length] in Hat. rewrite Hat.
    cbn [session_]. destruct (Mold.same_session _ _); cbn [negb]; [|done].
    unfold is_u16 in Hc. rewrite reply_loop_ok, bind_Ok by (try done; lia). by rewrite Z.add_0_r.
Qed.

(** Three frames, of which the second is dropped. *)
Definition sample_framed : list Z := [0; 1; 65; 0; 2; 66; 66; 0; 1; 67; 0; 9].

Definition sample_sender : MoldUdp64Sender := mkSender (Mold.session Mold.sample_header) [].

Lemma sender_exact_witness : exists s buf, load sample_framed sample_sender = Ok s /\
  messages_ s = [[0; 1; 65]; [0; 2; 66; 66]; [0; 1; 67]] /\
  serve_one_request s buf = Ok (true, [datagram (session_ s) 2 [0; 2; 66; 66]; datagram (session_ s) 3 [0; 1; 67]]).
Proof.
  destruct (sender_exact sample_framed sample_sender (fun q => q =? 2)
    (Mold.mkHeader (Mold.session Mold.sample_header) 2 5)) as (s & buf & H1 & H2 & _ & _ & H3).
  - exact (proj1 Mold.sample_header_wf).
  - apply (bool_decide_unpack _). vm_compute. exact I.
  - vm_compute. reflexivity.
  - split; [exact (proj1 Mold.sample_header_wf)|]. split; cbn; u32c.
  - cbn. lia.
  - exists s, buf. split; [exact H1|]. split; [rewrite H2; vm_compute; reflexivity|].
    rewrite H3. assert (session_ s = session_ sample_sender) as Hs.
    { rewrite load_ok in H1; [by injection H1 as <-|]. apply (bool_decide_unpack _). vm_compute. exact I. }
    rewrite H2, Hs. vm_compute. reflexivity.
Defined.

End Sender.
