(* ===== verification/Receiver.v ===== *)
(** * Receiver: MoldUDP64 sequencing and gap filling

    Models [MoldUdp64Receiver] of include/net/multicast_receiver.hpp:
    [on_packet], [accept], [buffer], [resolve_gaps] with its wait on the
    request channel, [drain] and [poll].  [pending_] (a std::map) is a finite
    map whose [begin()] is its least key.

    The network and the clock are inputs: [poll] takes the datagram [recv]
    left in the buffer (the empty list for a timeout or an error) and the
    [turn]s the reply-waiting loops will see, in order: the deadline has
    passed, or a [recv] returned (with [errno] EAGAIN/EWOULDBLOCK or not).  When
    the list runs out, the deadline has passed.  What [send_request] hands to
    [sendto] is appended to [requests_].  The sockets are in [Handles]. *)

From S2P Require Import Prelude Wire Encode Mold.

Module Receiver.

Definition kMaxPendingPackets : nat := 256.
Definition kFirstSeq : Z := 1.
Definition kMaxGapFillAttempts : nat := 5.

Record PendingPacket := mkPending { pp_count : Z; pp_payload : list Z }.

Record MoldUdp64Receiver := mkReceiver {
  session_ : Mold.SessionId;
  next_seq_ : Z;
  ended_ : bool;
  requests_sent_ : Z;
  dropped_pending_ : Z;
  count_mismatches_ : Z;
  pending_ : gmap Z PendingPacket;
  requests_ : list (list Z) }.

Definition construct (session : Mold.SessionId) : MoldUdp64Receiver :=
  mkReceiver session kFirstSeq false 0 0 0 ∅ [].

(** [pending_.begin()->first] *)
Definition first_key (m : gmap Z PendingPacket) : option Z :=
  foldr (fun k acc => Some (match acc with None => k | Some q => Z.min k q end)) None (map_to_list m).*1.

Definition buffer (seq count : Z) (payload : list Z) (s : MoldUdp64Receiver) : MoldUdp64Receiver :=
  if (kMaxPendingPackets <=? size (pending_ s))%nat && bool_decide (pending_ s !! seq = None)
  then mkReceiver (session_ s) (next_seq_ s) (ended_ s) (requests_sent_ s)
         (u64 (dropped_pending_ s + 1)) (count_mismatches_ s) (pending_ s) (requests_ s)
  else mkReceiver (session_ s) (next_seq_ s) (ended_ s) (requests_sent_ s)
         (dropped_pending_ s) (count_mismatches_ s) (<[seq := mkPending count payload]> (pending_ s)) (requests_ s).

Definition send_request (seq count : Z) (s : MoldUdp64Receiver) : outcome MoldUdp64Receiver :=
  pkt ← Mold.encode [] (Mold.mkHeader (session_ s) seq count);
  Ok (mkReceiver (session_ s) (next_seq_ s) (ended_ s) (requests_sent_ s)
        (dropped_pending_ s) (count_mismatches_ s) (pending_ s) (requests_ s ++ [pkt])).

(** [++requests_sent_] *)
Definition count_request (s : MoldUdp64Receiver) : MoldUdp64Receiver :=
  mkReceiver (session_ s) (next_seq_ s) (ended_ s) (u64 (requests_sent_ s + 1))
    (dropped_pending_ s) (count_mismatches_ s) (pending_ s) (requests_ s).

Inductive turn := Expired | Recv (buf : list Z) (eagain : bool).

(** The inner [while] loop of [resolve_gaps]; what is left of the turns goes
    to the next attempt. *)
Fixpoint wait (turns : list turn) (s : MoldUdp64Receiver) : outcome (list turn * MoldUdp64Receiver) :=
  match turns with
  | [] => Ok ([], s)
  | Expired :: turns => Ok (turns, s)
  | Recv buf eagain :: turns =>
    if (length buf <? Mold.kHeaderLen)%nat then
      if eagain : bool then Ok (turns, s) else wait turns s
    else
      h ← Mold.decode buf 0;
      if negb (Mold.same_session (Mold.session h) (session_ s)) then wait turns s
      else if (Mold.count h =? Mold.kHeartbeat) || (Mold.count h =? Mold.kEndOfSession) then wait turns s
      else if Mold.seq h <? next_seq_ s then wait turns s
      else
        let s := buffer (Mold.seq h) (Mold.count h) (drop Mold.kHeaderLen buf) s in
        if bool_decide (first_key (pending_ s) = Some (next_seq_ s)) then Ok (turns, s)
        else wait turns s
  end.

(** The outer loop of [resolve_gaps] with [attempts] to go. *)
Fixpoint resolve_loop (attempts : nat) (turns : list turn) (s : MoldUdp64Receiver) : outcome (list turn * MoldUdp64Receiver) :=
  match attempts with
  | O => Ok (turns, s)
  | S attempts =>
    match first_key (pending_ s) with
    | Some first =>
      if next_seq_ s <? first then
        let gap_start := next_seq_ s in
        let missing := u64 (first - next_seq_ s) in
        let request_count := u16 (Z.min missing 65534) in
        s ← send_request gap_start request_count s;
        '(turns, s) ← wait turns (count_request s);
        resolve_loop attempts turns s
      else Ok (turns, s)
    | None => Ok (turns, s)
    end
  end.

Definition resolve_gaps (turns : list turn) (s : MoldUdp64Receiver) : outcome (list turn * MoldUdp64Receiver) :=
  resolve_loop kMaxGapFillAttempts turns s.

Section Handled.
Context {H : Type} `{Wire.Handler H}.

(** The loop of [drain]: each iteration erases a packet. *)
Fixpoint drain_loop (fuel frames : nat) (s : MoldUdp64Receiver) (h : H) : outcome (nat * MoldUdp64Receiver * H) :=
  match fuel with
  | O => NoFuel
  | S fuel =>
    if bool_decide (first_key (pending_ s) = Some (next_seq_ s)) then
      match pending_ s !! next_seq_ s with
      | None => UB
      | Some node =>
        '(parsed, h) ← Wire.parse_stream (pp_payload node) (length (pp_payload node)) h;
        let mismatches := if Z.of_nat parsed =? pp_count node then count_mismatches_ s else u64 (count_mismatches_ s + 1) in
        drain_loop fuel (frames + parsed)
          (mkReceiver (session_ s) (u64 (next_seq_ s + Z.of_nat parsed)) (ended_ s) (requests_sent_ s)
             (dropped_pending_ s) mismatches (delete (next_seq_ s) (pending_ s)) (requests_ s)) h
      end
    else Ok (frames, s, h)
  end.

Definition drain (s : MoldUdp64Receiver) (h : H) : outcome (nat * MoldUdp64Receiver * H) :=
  drain_loop (size (pending_ s) + 1) 0 s h.

Definition accept (seq count : Z) (payload : list Z) (turns : list turn) (s : MoldUdp64Receiver) (h : H)
  : outcome (nat * MoldUdp64Receiver * H) :=
  if seq <? next_seq_ s then Ok (0%nat, s, h)
  else
    let s := buffer seq count payload s in
    '(_, s) ← resolve_gaps turns s;
    drain s h.

Definition on_packet (buf : list Z) (turns : list turn) (s : MoldUdp64Receiver) (h : H)
  : outcome (nat * MoldUdp64Receiver * H) :=
  hdr ← Mold.decode buf 0;
  if negb (Mold.same_session (Mold.session hdr) (session_ s)) then Ok (0%nat, s, h)
  else if Mold.count hdr =? Mold.kEndOfSession then
    Ok (0%nat, mkReceiver (session_ s) (next_seq_ s) true (requests_sent_ s) (dropped_pending_ s)
                 (count_mismatches_ s) (pending_ s) (requests_ s), h)
  else if Mold.count hdr =? Mold.kHeartbeat then Ok (0%nat, s, h)
  else accept (Mold.seq hdr) (Mold.count hdr) (drop Mold.kHeaderLen buf) turns s h.

Definition poll (buf : list Z) (turns : list turn) (s : MoldUdp64Receiver) (h : H)
  : outcome (nat * MoldUdp64Receiver * H) :=
  if (length buf <? Mold.kHeaderLen)%nat then Ok (0%nat, s, h) else on_packet buf turns s h.

(** A caller's receive loop, over what the network will do. *)
Fixpoint run (inputs : list (list Z * list turn)) (frames : nat) (s : MoldUdp64Receiver) (h : H)
  : outcome (nat * MoldUdp64Receiver * H) :=
  match inputs with
  | [] => Ok (frames, s, h)
  | (buf, turns) :: inputs =>
    '(n, s, h) ← poll buf turns s h;
    run inputs (frames + n) s h
  end.

Lemma run_snoc inputs buf turns frames s h : run (inputs ++ [(buf, turns)]) frames s h =
  ('(k, s, h) ← run inputs frames s h; '(n, s, h) ← poll buf turns s h; Ok ((k + n)%nat, s, h)).
Proof.
  revert frames s h. induction inputs as [|[b ts] inputs IH]; intros frames s h; cbn [run app].
  { rewrite bind_Ok. by destruct (poll buf turns s h) as [[[n s1] h1]| | |]. }
  destruct (poll b ts s h) as [[[n s1] h1]| | |]; [|done..]. by rewrite !bind_Ok.
Qed.

End Handled.

(** ** The least key *)

Lemma first_key_list (l : list Z) k :
  foldr (fun k acc => Some (match acc with None => k | Some q => Z.min k q end)) None l = Some k <->
  k ∈ l /\ forall k', k' ∈ l -> k <= k'.
Proof.
  revert k. induction l as [|x l IH]; intros k; cbn [foldr].
  { split; [done|]. intros [Hk _]. by apply not_elem_of_nil in Hk. }
  destruct (foldr _ None l) as [q|] eqn:E.
  - destruct (proj1 (IH q) eq_refl) as [Hq Hmin]. split.
    + intros [= <-]. split.
      * destruct (Z.min_spec x q) as [[_ ->]|[_ ->]]; [apply list_elem_of_here|by apply list_elem_of_further].
      * intros k' [->|Hk']%elem_of_cons; [lia|]. specialize (Hmin k' Hk'). lia.
    + intros [Hk Hle]. f_equal. pose proof (Hle x ltac:(apply list_elem_of_here)).
      pose proof (Hle q ltac:(by apply list_elem_of_further)).
      apply elem_of_cons in Hk as [->|Hk]; [lia|]. specialize (Hmin k Hk). lia.
  - assert (l = []) as -> by (destruct l; [done|cbn in E; done]). split.
    + intros [= <-]. split; [apply list_elem_of_here|]. intros k' Hk'. apply list_elem_of_singleton in Hk'. lia.
    + intros [Hk _]. apply list_elem_of_singleton in Hk as ->. done.
Qed.

Lemma elem_of_keys (m : gmap Z PendingPacket) k : k ∈ (map_to_list m).*1 <-> is_Some (m !! k).
Proof.
  rewrite list_elem_of_fmap. split.
  - intros ([k' p] & -> & Hp). apply elem_of_map_to_list in Hp. by exists p.
  - intros [p Hp]. exists (k, p). split; [done|]. by apply elem_of_map_to_list.
Qed.

Lemma first_key_Some m k : first_key m = Some k <-> is_Some (m !! k) /\ forall k', is_Some (m !! k') -> k <= k'.
Proof. unfold first_key. rewrite first_key_list, elem_of_keys. by setoid_rewrite elem_of_keys. Qed.

Lemma first_key_None m : first_key m = None <-> m = ∅.
Proof.
  unfold first_key. split; [|by intros ->; rewrite map_to_list_empty].
  destruct (map_to_list m) as [|kp l] eqn:E; [|done]. intros _. by apply map_to_list_empty_iff in E.
Qed.

(** ** What a genuine network carries *)

Section Feed.

(** The session's messages, in order: sequence number [i + 1] is [feed !! i]. *)
Variable feed : list (list Z).
Variable session : Mold.SessionId.
Hypothesis wf_sess : Mold.wf_session session.
Hypothesis feed_len : Z.of_nat (length feed) < 9223372036854775808.

(** The message blocks of a packet with sequence number [seq]: any number of
    consecutive messages of the feed from there, whatever follows them. *)
Definition payload_ok (seq : Z) (payload : list Z) : Prop :=
  Wire.bytes payload /\ Wire.frames payload `prefix_of` drop (Z.to_nat (seq - 1)) feed.

(** A datagram is genuine when, if it claims to carry messages of the
    session, it carries the feed's; its count field may say anything. *)
Definition genuine (buf : list Z) : Prop :=
  Wire.bytes buf /\
  ((Mold.kHeaderLen <= length buf)%nat ->
   Mold.session (Mold.header_at buf 0) = session ->
   Mold.count (Mold.header_at buf 0) <> Mold.kHeartbeat -> Mold.count (Mold.header_at buf 0) <> Mold.kEndOfSession ->
   payload_ok (Mold.seq (Mold.header_at buf 0)) (drop Mold.kHeaderLen buf)).

Definition genuine_turn (t : turn) : Prop :=
  match t with Expired => True | Recv buf _ => genuine buf end.

Definition genuine_input (i : list Z * list turn) : Prop := genuine i.1 /\ Forall genuine_turn i.2.

Record rcv_inv (s : MoldUdp64Receiver) : Prop := {
  rc_session : session_ s = session;
  rc_next : 1 <= next_seq_ s <= Z.of_nat (length feed) + 1;
  rc_pending : map_Forall (fun k p => 1 <= k < 18446744073709551616 /\ payload_ok k (pp_payload p)) (pending_ s);
  rc_size : (size (pending_ s) <= kMaxPendingPackets)%nat }.

Lemma buffer_inv seq count payload s : rcv_inv s -> 1 <= seq < 18446744073709551616 -> payload_ok seq payload ->
  rcv_inv (buffer seq count payload s) /\ next_seq_ (buffer seq count payload s) = next_seq_ s.
Proof.
  intros [H1 H2 H3 H4] Hseq Hp. unfold buffer.
  destruct (_ && _) eqn:E; (split; [constructor; cbn; try done|done]).
  - by apply map_Forall_insert_2.
  - apply andb_false_iff in E as [E|E].
    + apply Nat.leb_gt in E. rewrite map_size_insert. destruct (pending_ s !! seq); cbn; lia.
    + apply bool_decide_eq_false in E. rewrite map_size_insert. destruct (pending_ s !! seq); [done|by destruct E].
Qed.

Lemma wait_ok turns s : rcv_inv s -> Forall genuine_turn turns ->
  exists turns' s', wait turns s = Ok (turns', s') /\ rcv_inv s' /\ next_seq_ s' = next_seq_ s /\ Forall genuine_turn turns'.
Proof.
  revert s. induction turns as [|[|buf eagain] turns IH]; intros s Hs Hg; cbn [wait]; [by exists [], s| |].
  all: apply Forall_cons_1 in Hg as [[Hb Hbuf] Hg] || apply Forall_cons_1 in Hg as [_ Hg].
  { by exists turns, s. }
  destruct (Nat.ltb_spec (length buf) Mold.kHeaderLen) as [Hl|Hl]; [destruct eagain; [by exists turns, s|by apply IH]|].
  rewrite Mold.decode_ok, bind_Ok by (done || lia).
  destruct (Mold.header_at_wf buf 0 Hb Hl) as (Hws & Hq & _).
  destruct (Mold.same_session _ (session_ s)) eqn:Es; cbn [negb]; [|by apply IH].
  apply Mold.same_session_spec in Es; [|done|by rewrite (rc_session s Hs)]. rewrite (rc_session s Hs) in Es.
  destruct (Z.eqb_spec (Mold.count (Mold.header_at buf 0)) Mold.kHeartbeat) as [|Hhb]; [by apply IH|].
  destruct (Z.eqb_spec (Mold.count (Mold.header_at buf 0)) Mold.kEndOfSession) as [|Heos]; [by apply IH|]. cbn [orb].
  destruct (Z.ltb_spec (Mold.seq (Mold.header_at buf 0)) (next_seq_ s)) as [|Hge]; [by apply IH|].
  pose proof (rc_next s Hs) as Hn.
  destruct (buffer_inv (Mold.seq (Mold.header_at buf 0)) (Mold.count (Mold.header_at buf 0)) _ s Hs
              ltac:(unfold is_u64 in Hq; lia) (Hbuf Hl Es Hhb Heos)) as [Hs' Hn'].
  cbv zeta. case_bool_decide; [by eexists _, _|].
  destruct (IH _ Hs' Hg) as (ts & s' & Hw & H1 & H2 & H3). exists ts, s'. rewrite H2, Hn'. done.
Qed.

Lemma resolve_ok n turns s : rcv_inv s -> Forall genuine_turn turns ->
  exists turns' s', resolve_loop n turns s = Ok (turns', s') /\ rcv_inv s' /\ next_seq_ s' = next_seq_ s /\ Forall genuine_turn turns'.
Proof.
  revert turns s. induction n as [|n IH]; intros turns s Hs Hg; cbn [resolve_loop]; [by exists turns, s|].
  destruct (first_key (pending_ s)) as [first|]; [|by exists turns, s].
  destruct (next_seq_ s <? first); [|by exists turns, s]. cbv zeta.
  unfold send_request. rewrite Mold.encode_ok, !bind_Ok by (cbn; by rewrite (rc_session s Hs)).
  set (s1 := count_request _).
  assert (rcv_inv s1) as Hs1 by (destruct Hs; by constructor).
  destruct (wait_ok turns s1 Hs1 Hg) as (ts & s2 & -> & H2 & Hn2 & Hg2). rewrite bind_Ok.
  destruct (IH ts s2 H2 Hg2) as (ts3 & s3 & -> & H3 & Hn3 & Hg3). exists ts3, s3. by rewrite Hn3, Hn2.
Qed.

(** The messages a receiver at [next] has yet to deliver. *)
Definition from (next : Z) : list (list Z) := drop (Z.to_nat (next - 1)) feed.

Section Handled.
Context {H : Type} `{Wire.Handler H}.

Definition deliver (h : H) (msgs : list (list Z)) : H := foldl Wire.apply_event h (Wire.frame_event <$> msgs).

Lemma deliver_app h l1 l2 : deliver h (l1 ++ l2) = deliver (deliver h l1) l2.
Proof. unfold deliver. by rewrite fmap_app, foldl_app. Qed.

(** From [s] and [h] to [s'] and [h'] exactly the next [k] messages were
    delivered. *)
Definition delivered (s : MoldUdp64Receiver) (h : H) (k : nat) (s' : MoldUdp64Receiver) (h' : H) : Prop :=
  rcv_inv s' /\ next_seq_ s' = next_seq_ s + Z.of_nat k /\ h' = deliver h (take k (from (next_seq_ s))).

Lemma delivered_trans s h k s1 h1 k' s2 h2 : rcv_inv s -> delivered s h k s1 h1 -> delivered s1 h1 k' s2 h2 ->
  delivered s h (k + k') s2 h2.
Proof.
  intros Hs (H1 & N1 & ->) (H2 & N2 & ->). split_and!; [done|lia|].
  rewrite <- take_take_drop, deliver_app. do 2 f_equal. unfold from. rewrite drop_drop, N1. f_equal.
  pose proof (rc_next s Hs). f_equal. lia.
Qed.

Lemma prefix_take {A} (l k : list A) : l `prefix_of` k -> l = take (length l) k.
Proof. intros [r ->]. by rewrite take_app_length. Qed.

(** One packet delivered out of the pending map. *)
Lemma apply_packet s p h : rcv_inv s -> pending_ s !! next_seq_ s = Some p ->
  exists k, Wire.parse_stream (pp_payload p) (length (pp_payload p)) h = Ok (k, deliver h (take k (from (next_seq_ s)))) /\
    k = length (Wire.frames (pp_payload p)) /\
    u64 (next_seq_ s + Z.of_nat k) = next_seq_ s + Z.of_nat k /\
    next_seq_ s + Z.of_nat k <= Z.of_nat (length feed) + 1.
Proof.
  intros Hs Hp. destruct (map_Forall_lookup_1 _ _ _ _ (rc_pending s Hs) Hp) as [Hk [Hb Hpre]].
  exists (length (Wire.frames (pp_payload p))).
  rewrite Wire.parse_stream_frames, take_ge by (done || lia).
  unfold Wire.events. fold (from (next_seq_ s)) in Hpre. pose proof (prefix_take _ _ Hpre) as Heq.
  pose proof (prefix_length _ _ Hpre) as Hlen. unfold from in Hlen. rewrite length_drop in Hlen.
  pose proof (rc_next s Hs). rewrite u64_id by (unfold is_u64; lia).
  split_and!; [|done..|lia]. unfold deliver. by rewrite <- Heq.
Qed.

Lemma drain_loop_ok fuel frames s h : rcv_inv s -> (size (pending_ s) < fuel)%nat ->
  exists k s' h', drain_loop fuel frames s h = Ok ((frames + k)%nat, s', h') /\ delivered s h k s' h' /\
    first_key (pending_ s') <> Some (next_seq_ s').
Proof.
  revert frames s h. induction fuel as [|fuel IH]; intros frames s h Hs Hf; [lia|]. cbn [drain_loop].
  case_bool_decide as Hfirst.
  2: { exists 0%nat, s, h. rewrite Nat.add_0_r. split; [done|]. split; [|done]. unfold delivered. rewrite take_0, Z.add_0_r. done. }
  destruct (proj1 (first_key_Some _ _) Hfirst) as [[p Hp] _]. rewrite Hp.
  destruct (apply_packet s p h Hs Hp) as (k & -> & _ & Hu & Hle). rewrite bind_Ok, Hu. cbv zeta.
  match goal with |- context [drain_loop fuel _ ?s1 ?h1] => set (s1' := s1); set (h1' := h1) end.
  assert (rcv_inv s1') as Hs1.
  { destruct Hs as [H1 H2 H3 H4]. constructor; cbn; [done|lia|by apply map_Forall_delete|].
    rewrite map_size_delete, Hp. cbn. lia. }
  destruct (IH (frames + k)%nat s1' h1' Hs1) as (k' & s' & h' & Hrun & Hd & Hend).
  { cbn. rewrite map_size_delete, Hp. cbn.
    assert (size (pending_ s) <> 0)%nat; [|lia]. rewrite map_size_non_empty_iff. intros He. by rewrite He in Hp. }
  exists (k + k')%nat, s', h'. rewrite Hrun. split; [do 3 f_equal; lia|]. split; [|done].
  eapply delivered_trans; [done| |exact Hd]. by split_and!.
Qed.

Lemma accept_ok seq count payload turns s h : rcv_inv s -> is_u64 seq -> (next_seq_ s <= seq -> payload_ok seq payload) ->
  Forall genuine_turn turns ->
  exists k s' h', accept seq count payload turns s h = Ok (k, s', h') /\ delivered s h k s' h'.
Proof.
  intros Hs Hq Hp Hg. unfold accept. pose proof (rc_next s Hs) as Hn.
  destruct (Z.ltb_spec seq (next_seq_ s)) as [Hlt|Hge].
  { exists 0%nat, s, h. split; [done|]. unfold delivered. rewrite take_0, Z.add_0_r. done. }
  destruct (buffer_inv seq count payload s Hs ltac:(unfold is_u64 in Hq; lia) (Hp Hge)) as [H1 N1]. cbv zeta.
  destruct (resolve_ok kMaxGapFillAttempts turns _ H1 Hg) as (ts & s2 & Hr & H2 & N2 & _). unfold resolve_gaps.
  rewrite Hr, bind_Ok. unfold drain.
  destruct (drain_loop_ok (size (pending_ s2) + 1) 0 s2 h H2) as (k & s' & h' & -> & (D1 & D2 & D3) & _); [lia|].
  exists k, s', h'. split; [done|]. unfold delivered. by rewrite D2, D3, N2, N1.
Qed.

Lemma poll_ok buf turns s h : rcv_inv s -> genuine buf -> Forall genuine_turn turns ->
  exists k s' h', poll buf turns s h = Ok (k, s', h') /\ delivered s h k s' h'.
Proof.
  intros Hs [Hb Hbuf] Hg. unfold poll.
  assert (forall s', rcv_inv s' -> next_seq_ s' = next_seq_ s -> delivered s h 0 s' h) as Hstay.
  { intros s' H1 N1. unfold delivered. rewrite take_0, Z.add_0_r. done. }
  destruct (Nat.ltb_spec (length buf) Mold.kHeaderLen) as [Hl|Hl]; [exists 0%nat, s, h; auto|].
  unfold on_packet. rewrite Mold.decode_ok, bind_Ok by (done || lia).
  destruct (Mold.header_at_wf buf 0 Hb Hl) as (Hws & Hq & _).
  destruct (Mold.same_session _ (session_ s)) eqn:Es; cbn [negb]; [|exists 0%nat, s, h; auto].
  apply Mold.same_session_spec in Es; [|done|by rewrite (rc_session s Hs)]. rewrite (rc_session s Hs) in Es.
  destruct (Z.eqb_spec (Mold.count (Mold.header_at buf 0)) Mold.kEndOfSession) as [|Heos].
  { eexists 0%nat, _, h. split; [reflexivity|]. apply Hstay; [|done]. destruct Hs; by constructor. }
  destruct (Z.eqb_spec (Mold.count (Mold.header_at buf 0)) Mold.kHeartbeat) as [|Hhb]; [exists 0%nat, s, h; auto|].
  apply accept_ok; auto.
Qed.

Lemma run_ok inputs frames s h : rcv_inv s -> Forall genuine_input inputs ->
  exists k s' h', run inputs frames s h = Ok ((frames + k)%nat, s', h') /\ delivered s h k s' h'.
Proof.
  revert frames s h. induction inputs as [|[buf turns] inputs IH]; intros frames s h Hs Hg; cbn [run].
  { exists 0%nat, s, h. rewrite Nat.add_0_r. split; [done|]. unfold delivered. rewrite take_0, Z.add_0_r. done. }
  apply Forall_cons_1 in Hg as [[Hb Ht] Hg].
  destruct (poll_ok buf turns s h Hs Hb Ht) as (k & s1 & h1 & -> & Hd). rewrite bind_Ok.
  destruct (IH (frames + k)%nat s1 h1 (proj1 Hd) Hg) as (k' & s2 & h2 & -> & Hd2).
  exists (k + k')%nat, s2, h2. split; [do 3 f_equal; lia|]. by eapply delivered_trans.
Qed.

End Handled.

(** What the receiver does, its handler apart, does not depend on the handler. *)
Section Control.
Context {H1 H2 : Type} `{Wire.Handler H1, Wire.Handler H2}.

Lemma drain_control fuel frames s (h1 : H1) (h2 : H2) : rcv_inv s ->
  fst <$> drain_loop fuel frames s h1 = fst <$> drain_loop fuel frames s h2.
Proof.
  revert frames s h1 h2. induction fuel as [|fuel IH]; intros frames s h1 h2 Hs; cbn [drain_loop]; [done|].
  case_bool_decide as Hfirst; [|done]. destruct (proj1 (first_key_Some _ _) Hfirst) as [[p Hp] _]. rewrite Hp.
  destruct (apply_packet s p h1 Hs Hp) as (k1 & -> & Hk1 & Hu & Hle). destruct (apply_packet s p h2 Hs Hp) as (k2 & -> & Hk2 & _).
  rewrite !bind_Ok, Hk2, <- Hk1, Hu. cbv zeta. apply IH.
  destruct Hs as [R1 R2 R3 R4]. constructor; cbn; [done|lia|by apply map_Forall_delete|]. rewrite map_size_delete, Hp. cbn. lia.
Qed.

Lemma poll_control buf turns s (h1 : H1) (h2 : H2) : rcv_inv s -> genuine buf -> Forall genuine_turn turns ->
  fst <$> poll buf turns s h1 = fst <$> poll buf turns s h2.
Proof.
  intros Hs [Hb Hbuf] Hg. unfold poll. destruct (Nat.ltb_spec (length buf) Mold.kHeaderLen) as [Hl|Hl]; [done|].
  unfold on_packet. rewrite Mold.decode_ok, !bind_Ok by (done || lia).
  destruct (Mold.header_at_wf buf 0 Hb Hl) as (Hws & Hq & _).
  destruct (Mold.same_session _ (session_ s)) eqn:Es; cbn [negb]; [|done].
  apply Mold.same_session_spec in Es; [|done|by rewrite (rc_session s Hs)]. rewrite (rc_session s Hs) in Es.
  destruct (Z.eqb_spec (Mold.count (Mold.header_at buf 0)) Mold.kEndOfSession) as [|Heos]; [done|].
  destruct (Z.eqb_spec (Mold.count (Mold.header_at buf 0)) Mold.kHeartbeat) as [|Hhb]; [done|].
  unfold accept. destruct (Z.ltb_spec (Mold.seq (Mold.header_at buf 0)) (next_seq_ s)) as [|Hge]; [done|]. cbv zeta.
  pose proof (rc_next s Hs) as Hn.
  destruct (buffer_inv (Mold.seq (Mold.header_at buf 0)) (Mold.count (Mold.header_at buf 0)) _ s Hs
              ltac:(unfold is_u64 in Hq; lia) (Hbuf Hl Es Hhb Heos)) as [Hs' _].
  destruct (resolve_ok kMaxGapFillAttempts turns _ Hs' Hg) as (ts & s2 & Hr & Hs2 & _). unfold resolve_gaps.
  rewrite Hr, !bind_Ok. by apply drain_control.
Qed.

End Control.

Lemma construct_rcv_inv : rcv_inv (construct session).
Proof. constructor; cbn; [done|unfold kFirstSeq; lia|apply map_Forall_empty|rewrite map_size_empty; lia]. Qed.

End Feed.

(** ** States that block for good *)

Section Blocked.
Context {H : Type} `{Wire.Handler H}.

(** Either a buffered packet has been passed by, or the map is full and the
    next expected packet is not in it. *)
Record blocked (s : MoldUdp64Receiver) : Prop := {
  bl_session : Mold.wf_session (session_ s);
  bl_why : (exists k, is_Some (pending_ s !! k) /\ k < next_seq_ s) \/
           ((kMaxPendingPackets <= size (pending_ s))%nat /\ pending_ s !! next_seq_ s = None) }.

Lemma blocked_first s : blocked s -> first_key (pending_ s) <> Some (next_seq_ s).
Proof.
  intros [_ [(k & Hk & Hlt)|[_ Hnone]]] Hfirst; apply first_key_Some in Hfirst as [Hn Hmin].
  - specialize (Hmin k Hk). lia.
  - destruct Hn as [p Hp]. congruence.
Qed.

Lemma buffer_blocked seq count payload s : blocked s ->
  blocked (buffer seq count payload s) /\ next_seq_ (buffer seq count payload s) = next_seq_ s.
Proof.
  intros [H1 Hwhy]. unfold buffer. destruct (_ && _) eqn:E; (split; [|done]); constructor; cbn; try done.
  destruct Hwhy as [(k & Hk & Hlt)|[Hsize Hnone]].
  - left. exists k. split; [|done]. destruct (decide (seq = k)) as [->|Hne]; [rewrite lookup_insert_eq; eauto|by rewrite lookup_insert_ne].
  - right. rewrite (proj2 (Nat.leb_le _ _)) in E by done. cbn [andb] in E. apply bool_decide_eq_false in E.
    split; [rewrite map_size_insert; destruct (pending_ s !! seq); cbn; lia|]. rewrite lookup_insert_ne; [done|]. congruence.
Qed.

Definition bytes_turn (t : turn) : Prop := match t with Expired => True | Recv buf _ => Wire.bytes buf end.

Lemma wait_blocked turns s : blocked s -> Forall bytes_turn turns ->
  exists turns' s', wait turns s = Ok (turns', s') /\ blocked s' /\ next_seq_ s' = next_seq_ s /\ Forall bytes_turn turns'.
Proof.
  revert s. induction turns as [|[|buf eagain] turns IH]; intros s Hs Hb; cbn [wait]; [by exists [], s|..];
    apply Forall_cons_1 in Hb as [Hbuf Hb]; [by exists turns, s|].
  destruct (Nat.ltb_spec (length buf) Mold.kHeaderLen) as [Hl|Hl]; [destruct eagain; [by exists turns, s|by apply IH]|].
  rewrite Mold.decode_ok, bind_Ok by (done || lia).
  destruct (negb _); [by apply IH|]. destruct (_ || _); [by apply IH|]. destruct (_ <? _); [by apply IH|]. cbv zeta.
  destruct (buffer_blocked (Mold.seq (Mold.header_at buf 0)) (Mold.count (Mold.header_at buf 0)) (drop Mold.kHeaderLen buf) s Hs) as [H1 N1].
  pose proof (blocked_first _ H1) as Hf. rewrite N1 in Hf. rewrite N1, bool_decide_eq_false_2 by done.
  destruct (IH _ H1 Hb) as (ts & s' & -> & H2 & N2 & Hts). exists ts, s'. by rewrite N2.
Qed.

Lemma resolve_blocked n turns s : blocked s -> Forall bytes_turn turns ->
  exists turns' s', resolve_loop n turns s = Ok (turns', s') /\ blocked s' /\ next_seq_ s' = next_seq_ s.
Proof.
  revert turns s. induction n as [|n IH]; intros turns s Hs Hb; cbn [resolve_loop]; [by exists turns, s|].
  destruct (first_key (pending_ s)) as [first|]; [|by exists turns, s].
  destruct (next_seq_ s <? first); [|by exists turns, s]. cbv zeta.
  unfold send_request. rewrite Mold.encode_ok, !bind_Ok by (by destruct Hs). set (s1 := count_request _).
  assert (blocked s1) as H1 by (destruct Hs; by constructor).
  destruct (wait_blocked turns s1 H1 Hb) as (ts & s2 & -> & H2 & N2 & Hts). rewrite bind_Ok.
  destruct (IH ts s2 H2 Hts) as (ts' & s3 & -> & H3 & N3). exists ts', s3. by rewrite N3, N2.
Qed.

Lemma accept_blocked seq count payload turns s (h : H) : blocked s -> Forall bytes_turn turns ->
  exists s', accept seq count payload turns s h = Ok (0%nat, s', h) /\ blocked s' /\ next_seq_ s' = next_seq_ s.
Proof.
  intros Hs Hb. unfold accept. destruct (seq <? next_seq_ s); [by exists s|]. cbv zeta.
  destruct (buffer_blocked seq count payload s Hs) as [H1 N1].
  destruct (resolve_blocked kMaxGapFillAttempts turns _ H1 Hb) as (ts & s2 & Hr & H2 & N2).
  unfold resolve_gaps. rewrite Hr, bind_Ok. unfold drain. rewrite Nat.add_1_r. cbn [drain_loop].
  rewrite bool_decide_eq_false_2 by (by apply blocked_first). exists s2. by rewrite N2, N1.
Qed.

Lemma poll_blocked buf turns s (h : H) : blocked s -> Wire.bytes buf -> Forall bytes_turn turns ->
  exists s', poll buf turns s h = Ok (0%nat, s', h) /\ blocked s' /\ next_seq_ s' = next_seq_ s.
Proof.
  intros Hs Hb Ht. unfold poll. destruct (Nat.ltb_spec (length buf) Mold.kHeaderLen) as [Hl|Hl]; [by exists s|].
  unfold on_packet. rewrite Mold.decode_ok, bind_Ok by (done || lia).
  destruct (negb _); [by exists s|]. destruct (_ =? Mold.kEndOfSession).
  { eexists; split; [reflexivity|]. split; [|done]. destruct Hs; by constructor. }
  destruct (_ =? Mold.kHeartbeat); [by exists s|]. by apply accept_blocked.
Qed.

Lemma run_blocked inputs frames s (h : H) : blocked s -> Forall (fun i => Wire.bytes i.1 /\ Forall bytes_turn i.2) inputs ->
  exists s', run inputs frames s h = Ok (frames, s', h) /\ next_seq_ s' = next_seq_ s.
Proof.
  revert s. induction inputs as [|[buf turns] inputs IH]; intros s Hs Hb; cbn [run]; [by exists s|].
  apply Forall_cons_1 in Hb as [[Hb Ht] Hbs]. destruct (poll_blocked buf turns s h Hs Hb Ht) as (s1 & -> & H1 & N1).
  rewrite bind_Ok, Nat.add_0_r. destruct (IH s1 H1 Hbs) as (s2 & -> & N2). exists s2. by rewrite N2.
Qed.

(** *** How the full map is reached

    With the first message lost and the request channel silent, every later
    packet is buffered. *)
Record gap (ss : Mold.SessionId) (n : nat) (s : MoldUdp64Receiver) : Prop := {
  gp_session : session_ s = ss;
  gp_next : next_seq_ s = 1;
  gp_keys : forall k, is_Some (pending_ s !! k) <-> 2 <= k < 2 + Z.of_nat n;
  gp_size : size (pending_ s) = n }.

Lemma gap_first ss n s : gap ss n s -> first_key (pending_ s) <> Some (next_seq_ s).
Proof. intros [_ Hn Hk _] Hf. apply first_key_Some in Hf as [Hf _]. rewrite Hn, Hk in Hf. lia. Qed.

Lemma resolve_silent n s : Mold.wf_session (session_ s) -> exists s', resolve_loop n [] s = Ok ([], s') /\
  session_ s' = session_ s /\ next_seq_ s' = next_seq_ s /\ pending_ s' = pending_ s.
Proof.
  revert s. induction n as [|n IH]; intros s Hs; cbn [resolve_loop]; [by exists s|].
  destruct (first_key (pending_ s)) as [first|]; [|by exists s]. destruct (next_seq_ s <? first); [|by exists s]. cbv zeta.
  unfold send_request. rewrite Mold.encode_ok, !bind_Ok by done. cbn [wait]. rewrite bind_Ok.
  match goal with |- context [resolve_loop n [] ?s1] => destruct (IH s1 Hs) as (s' & -> & H1 & H2 & H3) end. by exists s'.
Qed.

Lemma gap_step ss n s count payload (h : H) : Mold.wf_session ss -> gap ss n s -> (n < kMaxPendingPackets)%nat ->
  exists s', accept (2 + Z.of_nat n) count payload [] s h = Ok (0%nat, s', h) /\ gap ss (S n) s'.
Proof.
  intros Hss Hs Hn. pose proof Hs as [H1 H2 H3 H4]. unfold accept. rewrite H2, (proj2 (Z.ltb_ge _ _)) by lia. cbv zeta.
  set (s1 := buffer _ _ _ s).
  assert (gap ss (S n) s1) as Hs1.
  { unfold s1, buffer. rewrite (proj2 (Nat.leb_gt _ _)) by lia. cbn [andb]. constructor; cbn; try done.
    - intros k. destruct (decide (2 + Z.of_nat n = k)) as [<-|Hne].
      + rewrite lookup_insert_eq. split; [lia|eauto].
      + rewrite lookup_insert_ne, H3 by done. lia.
    - rewrite map_size_insert_None, H4; [done|]. apply eq_None_not_Some. rewrite H3. lia. }
  destruct (resolve_silent kMaxGapFillAttempts s1 ltac:(by rewrite (gp_session _ _ _ Hs1))) as (s2 & Hr & R1 & R2 & R3).
  unfold resolve_gaps. rewrite Hr, bind_Ok.
  assert (gap ss (S n) s2) as Hs2 by (destruct Hs1; constructor; rewrite ?R1, ?R2, ?R3; done).
  unfold drain. rewrite Nat.add_1_r. cbn [drain_loop]. rewrite bool_decide_eq_false_2 by (by eapply gap_first).
  by exists s2.
Qed.

End Blocked.

(** ** Properties *)

(** C8: whatever the network does to a session's packets (loss, reordering,
    duplication, truncation, foreign sessions, wrong count fields, any
    packetisation, any behaviour of the request channel), as long as no
    packet of the session carries other messages than the session's at its
    sequence number, the receiver never fails and the handler has seen
    exactly a prefix of the session's messages, each once, in order; that
    prefix is what [next_seq_] and the returned count say. *)
Theorem delivers_prefix {H} `{Wire.Handler H} (feed : list (list Z)) (session : Mold.SessionId)
  (inputs : list (list Z * list turn)) (h : H)
  (Hs : Mold.wf_session session) (Hlen : Z.of_nat (length feed) < 9223372036854775808)
  (Hin : Forall (genuine_input feed session) inputs) :
  exists k s, run inputs 0 (construct session) h =
      Ok (k, s, foldl Wire.apply_event h (Wire.frame_event <$> take k feed)) /\
    (k <= length feed)%nat /\ next_seq_ s = Z.of_nat k + 1 /\ (size (pending_ s) <= kMaxPendingPackets)%nat.
Proof.
  destruct (run_ok feed session Hs Hlen inputs 0 (construct session) h (construct_rcv_inv feed session) Hin)
    as (k & s & h' & Hrun & Hi & Hn & ->).
  exists k, s. rewrite Hrun. destruct (rc_next _ _ s Hi). cbn in Hn. unfold kFirstSeq in *. split_and!; [done|lia|lia|by destruct Hi].
Qed.

Definition sample_feed : list (list Z) := [[65]; [66; 66]; [67]].
Definition sample_session : Mold.SessionId := Mold.session Mold.sample_header.

Definition sample_datagram (seq : Z) (msgs : list (list Z)) : list Z :=
  Mold.packed (Mold.mkHeader sample_session seq (Z.of_nat (length msgs))) ++ Encode.stream msgs.

(** The third message first (its gap is not answered), then the first with a
    foreign reply, then a packet of two messages. *)
Definition sample_inputs : list (list Z * list turn) :=
  [(sample_datagram 3 [[67]], []);
   (sample_datagram 1 [[65]], [Recv [1; 2] true]);
   (sample_datagram 2 [[66; 66]; [67]], [])].

(** A packet that says what it carries is genuine. *)
Lemma packet_genuine feed session buf : bool_decide (Wire.bytes buf) = true ->
  bool_decide (Wire.frames (drop Mold.kHeaderLen buf) `prefix_of` drop (Z.to_nat (Mold.seq (Mold.header_at buf 0) - 1)) feed) = true ->
  genuine feed session buf.
Proof.
  intros Hb%bool_decide_eq_true Hp%bool_decide_eq_true. split; [done|]. intros _ _ _ _. split; [|done].
  by apply Forall_drop.
Qed.

Lemma sample_inputs_genuine : Forall (genuine_input sample_feed sample_session) sample_inputs.
Proof.
  repeat apply Forall_cons_2; try apply Forall_nil_2; (split; [apply packet_genuine; vm_compute; reflexivity|]);
    repeat apply Forall_cons_2; try apply Forall_nil_2. apply packet_genuine; vm_compute; reflexivity.
Qed.

Lemma delivers_prefix_witness : exists k s, run sample_inputs 0 (construct sample_session) ([] : list Wire.event) =
  Ok (k, s, foldl Wire.apply_event [] (Wire.frame_event <$> take k sample_feed)) /\ next_seq_ s = Z.of_nat k + 1.
Proof.
  destruct (delivers_prefix sample_feed sample_session sample_inputs ([] : list Wire.event) (proj1 Mold.sample_header_wf))
    as (k & s & H1 & _ & H2 & _).
  - reflexivity.
  - exact sample_inputs_genuine.
  - exists k, s. split; [exact H1|exact H2].
Defined.

(** Once a buffered packet's sequence number has been passed by [next_seq_]
    the receiver is stuck for good: no datagram and no reply, genuine or
    not, ever advances [next_seq_] or reaches the handler again.  The
    state is reachable with conforming packets of several messages (the
    witness: message 2 arrives alone, then a packet with messages 1
    and 2). *)
Theorem stale_head_stalls {H} `{Wire.Handler H} (s : MoldUdp64Receiver) (h : H) (k : Z) (inputs : list (list Z * list turn))
  (Hs : Mold.wf_session (session_ s)) (Hk : is_Some (pending_ s !! k)) (Hlt : k < next_seq_ s)
  (Hin : Forall (fun i => Wire.bytes i.1 /\ Forall bytes_turn i.2) inputs) :
  exists s', run inputs 0 s h = Ok (0%nat, s', h) /\ next_seq_ s' = next_seq_ s.
Proof. apply run_blocked; [|done]. constructor; [done|]. left. by exists k. Qed.

Definition sample_overlap : outcome (nat * MoldUdp64Receiver * list Wire.event) :=
  run [(sample_datagram 2 [[66; 66]], []); (sample_datagram 1 [[65]; [66; 66]], [])] 0 (construct sample_session) [].

(** The receiver the two packets of [sample_overlap] leave. *)
Definition sample_stuck : MoldUdp64Receiver :=
  mkReceiver sample_session 3 false 5 0 0 {[ 2 := mkPending 1 (Encode.stream [[66; 66]]) ]}
    (replicate 5 (Mold.packed (Mold.mkHeader sample_session 1 1))).

Lemma sample_overlap_stuck : sample_overlap = Ok (2%nat, sample_stuck, [Wire.EOther 65 1; Wire.EOther 66 2]).
Proof. vm_compute. reflexivity. Qed.

Lemma stale_head_stalls_witness : exists s',
  sample_overlap = Ok (2%nat, sample_stuck, [Wire.EOther 65 1; Wire.EOther 66 2]) /\
  run [(sample_datagram 3 [[67]], [])] 0 sample_stuck [Wire.EOther 65 1; Wire.EOther 66 2] =
    Ok (0%nat, s', [Wire.EOther 65 1; Wire.EOther 66 2]) /\ next_seq_ s' = 3.
Proof.
  destruct (stale_head_stalls sample_stuck [Wire.EOther 65 1; Wire.EOther 66 2] 2 [(sample_datagram 3 [[67]], [])]) as (s' & H1 & H2).
  - exact (proj1 Mold.sample_header_wf).
  - exists (mkPending 1 (Encode.stream [[66; 66]])). reflexivity.
  - reflexivity.
  - apply Forall_cons_2; [|apply Forall_nil_2]. split; [|apply Forall_nil_2]. apply (bool_decide_unpack _). vm_compute. exact I.
  - exists s'. split; [exact sample_overlap_stuck|]. split; [exact H1|exact H2].
Defined.

(** Once the map holds its 256 packets and the next expected one is not among
    them, the receiver is stuck for good: the missing packet itself, from the
    data channel or as the answer to the receiver's own requests, is refused
    for want of room, so nothing ever drains.  (The witness reaches the state
    from a fresh receiver: message 1 is lost and 2 to 257 arrive.) *)
Theorem full_map_stalls {H} `{Wire.Handler H} (s : MoldUdp64Receiver) (h : H) (inputs : list (list Z * list turn))
  (Hs : Mold.wf_session (session_ s)) (Hfull : (kMaxPendingPackets <= size (pending_ s))%nat)
  (Hmissing : pending_ s !! next_seq_ s = None)
  (Hin : Forall (fun i => Wire.bytes i.1 /\ Forall bytes_turn i.2) inputs) :
  exists s', run inputs 0 s h = Ok (0%nat, s', h) /\ next_seq_ s' = next_seq_ s.
Proof. apply run_blocked; [|done]. constructor; [done|]. by right. Qed.

(** Messages 2 to 257, each in its own packet. *)
Definition flood : list (list Z * list turn) := (fun k => (sample_datagram (2 + Z.of_nat k) [[65]], [])) <$> List.seq 0 256.

Lemma flood_reaches m n frames s (h : list Wire.event) : gap sample_session n s -> (n + m <= 256)%nat ->
  exists s', run ((fun k => (sample_datagram (2 + Z.of_nat k) [[65]], [])) <$> List.seq n m) frames s h = Ok (frames, s', h) /\
    gap sample_session (n + m) s'.
Proof.
  revert n frames s. induction m as [|m IH]; intros n frames s Hs Hm; cbn [List.seq fmap list_fmap run].
  { exists s. by rewrite Nat.add_0_r. }
  assert (Wire.bytes (sample_datagram (2 + Z.of_nat n) [[65]])) as Hb.
  { apply Forall_app; split; [apply Mold.packed_bytes, Mold.sample_header_wf|]. apply (bool_decide_unpack _). vm_compute. exact I. }
  assert (length (sample_datagram (2 + Z.of_nat n) [[65]]) = 23%nat) as Hl.
  { unfold sample_datagram. rewrite length_app, Mold.packed_length by (apply Mold.sample_header_wf). reflexivity. }
  unfold poll. rewrite (proj2 (Nat.ltb_ge _ _)) by (rewrite Hl; unfold Mold.kHeaderLen, Mold.kSessionLen; lia). unfold on_packet.
  rewrite Mold.decode_ok, bind_Ok by (try done; rewrite Hl; unfold Mold.kHeaderLen, Mold.kSessionLen; lia).
  assert (Mold.header_at (sample_datagram (2 + Z.of_nat n) [[65]]) 0 = Mold.mkHeader sample_session (2 + Z.of_nat n) 1) as ->.
  { apply (Mold.header_at_packed [] (Mold.mkHeader sample_session (2 + Z.of_nat n) 1)).
    split_and!; [apply Mold.sample_header_wf|cbn; unfold is_u64; lia|cbn; u32c]. }
  cbn [Mold.session Mold.count Mold.seq]. rewrite (gp_session _ _ _ Hs).
  change (Mold.same_session sample_session sample_session) with true. cbn [negb].
  change (1 =? Mold.kEndOfSession) with false. change (1 =? Mold.kHeartbeat) with false. cbn match.
  destruct (gap_step sample_session n s 1 (drop Mold.kHeaderLen (sample_datagram (2 + Z.of_nat n) [[65]])) h (proj1 Mold.sample_header_wf) Hs) as (s1 & Ha & H1).
  { unfold kMaxPendingPackets. lia. }
  rewrite Ha, bind_Ok, Nat.add_0_r.
  destruct (IH (S n) frames s1 H1) as (s' & Hrun & Hg); [lia|].
  exists s'. split; [exact Hrun|]. by replace (n + S m)%nat with (S n + m)%nat by lia.
Qed.

Lemma construct_gap : gap sample_session 0 (construct sample_session).
Proof.
  constructor; [done|done| |by apply map_size_empty].
  intros k. cbn [pending_ construct]. split; [intros [p Hp]; done|lia].
Qed.

Lemma full_map_stalls_witness : exists s s',
  run flood 0 (construct sample_session) ([] : list Wire.event) = Ok (0%nat, s, []) /\ next_seq_ s = 1 /\
  run [(sample_datagram 1 [[65]], [Recv (sample_datagram 1 [[65]]) false])] 0 s ([] : list Wire.event) = Ok (0%nat, s', []) /\
  next_seq_ s' = 1.
Proof.
  destruct (flood_reaches 256 0 0 (construct sample_session) [] construct_gap (le_n _)) as (s & Hrun & [G1 G2 G3 G4]).
  destruct (full_map_stalls s ([] : list Wire.event)
    [(sample_datagram 1 [[65]], [Recv (sample_datagram 1 [[65]]) false])]) as (s' & H1 & H2).
  - rewrite G1. exact (proj1 Mold.sample_header_wf).
  - rewrite G4. apply le_n.
  - rewrite G2. apply eq_None_not_Some. intros Hk. apply G3 in Hk. lia.
  - assert (Wire.bytes (sample_datagram 1 [[65]])) as Hb by (apply (bool_decide_unpack _); vm_compute; exact I).
    apply Forall_cons_2; [|apply Forall_nil_2]. split; [exact Hb|]. apply Forall_cons_2; [exact Hb|apply Forall_nil_2].
  - exists s, s'. split; [exact Hrun|]. split; [exact G2|]. split; [exact H1|]. rewrite H2. exact G2.
Defined.

End Receiver.
