(* ===== verification/Session.v ===== *)
(** * Session: a sender and a receiver together

    The end-to-end behaviour of include/net/multicast_test_sender.hpp and
    include/net/multicast_receiver.hpp: what a receiver that polls a sender's
    datagrams delivers, without loss, with one lost packet, and with a lost
    run of packets.  The reference is parsing the sender's file directly with
    [itch::parse_stream]. *)

From S2P Require Import Prelude Wire Encode Mold Sender Receiver.

Module Session.

(** ** Blocks and datagrams *)

Lemma block_bytes f : Wire.wf_frame f -> Wire.bytes (Sender.block f).
Proof. intros [Hf _]. apply Forall_app; split; [apply Encode.bytes_be_bytes|done]. Qed.

Lemma frames_block f : Wire.wf_frame f -> Wire.frames (Sender.block f) = [f].
Proof.
  intros [_ Hl]. pose proof (Encode.next_frame_frame f [] Hl) as Hn. rewrite app_nil_r in Hn.
  unfold Sender.block. destruct (Wire.frames_next _ _ _ Hn) as [-> _]. reflexivity.
Qed.

Section Polls.
Context {H : Type} `{Wire.Handler H}.
Variable session : Mold.SessionId.
Hypothesis wf_sess : Mold.wf_session session.

Lemma parse_block f (h : H) : Wire.wf_frame f ->
  Wire.parse_stream (Sender.block f) (length (Sender.block f)) h = Ok (1%nat, Wire.apply_event h (Wire.frame_event f)).
Proof.
  intros Hf. rewrite Wire.parse_stream_frames, take_ge by (by apply block_bytes || lia).
  unfold Wire.events. by rewrite frames_block.
Qed.

Lemma datagram_length q payload : (Mold.kHeaderLen <= length (Sender.datagram session q payload))%nat.
Proof. unfold Sender.datagram. rewrite length_app, Mold.packed_length by done. lia. Qed.

Lemma decode_datagram q f : Wire.wf_frame f -> is_u64 q ->
  Mold.decode (Sender.datagram session q (Sender.block f)) 0 = Ok (Mold.mkHeader session q 1).
Proof.
  intros Hf Hq. rewrite Mold.decode_ok.
  - f_equal. apply (Mold.header_at_packed [] (Mold.mkHeader session q 1)). split_and!; [done|done|cbn; u32c].
  - apply Forall_app; split; [by apply Mold.packed_bytes|by apply block_bytes].
  - apply datagram_length.
Qed.

Lemma drop_datagram q payload : drop Mold.kHeaderLen (Sender.datagram session q payload) = payload.
Proof. unfold Sender.datagram. rewrite drop_app_length'; [done|]. by rewrite Mold.packed_length. Qed.

Lemma same_session_refl s : Mold.same_session s s = true.
Proof. by apply bool_decide_eq_true_2. Qed.

(** A data packet of the session goes to [accept]. *)
Lemma poll_datagram q f turns s (h : H) : Wire.wf_frame f -> is_u64 q -> Receiver.session_ s = session ->
  Receiver.poll (Sender.datagram session q (Sender.block f)) turns s h = Receiver.accept q 1 (Sender.block f) turns s h.
Proof.
  intros Hf Hq Hs. unfold Receiver.poll. rewrite (proj2 (Nat.ltb_ge _ _)) by apply datagram_length.
  unfold Receiver.on_packet. rewrite decode_datagram, bind_Ok by done. cbn [Mold.session Mold.seq Mold.count].
  by rewrite Hs, same_session_refl, drop_datagram.
Qed.

(** A receiver with nothing buffered and [q] the next sequence number. *)
Definition idle (q : Z) (ended : bool) (s : Receiver.MoldUdp64Receiver) : Prop :=
  Receiver.session_ s = session /\ Receiver.next_seq_ s = q /\ Receiver.pending_ s = ∅ /\ Receiver.ended_ s = ended.

Lemma buffer_idle q ended seq count payload s : idle q ended s ->
  Receiver.pending_ (Receiver.buffer seq count payload s) = {[ seq := Receiver.mkPending count payload ]} /\
  Receiver.session_ (Receiver.buffer seq count payload s) = session /\
  Receiver.next_seq_ (Receiver.buffer seq count payload s) = q /\
  Receiver.ended_ (Receiver.buffer seq count payload s) = ended /\
  Receiver.requests_ (Receiver.buffer seq count payload s) = Receiver.requests_ s.
Proof.
  intros (H1 & H2 & H3 & H4). unfold Receiver.buffer. rewrite H3, map_size_empty.
  assert ((Receiver.kMaxPendingPackets <=? 0)%nat = false) as -> by reflexivity. cbn. by rewrite H1, H2, H4.
Qed.

Lemma first_key_singleton k p : Receiver.first_key {[ k := p ]} = Some k.
Proof. unfold Receiver.first_key. by rewrite map_to_list_singleton. Qed.

Lemma first_key_pair k k' p p' : k < k' -> Receiver.first_key (<[k := p]> {[ k' := p' ]}) = Some k.
Proof.
  intros Hlt. apply Receiver.first_key_Some. split; [rewrite lookup_insert_eq; eauto|].
  intros j [x Hj]. destruct (decide (j = k)) as [->|Hne]; [lia|].
  rewrite lookup_insert_ne in Hj by done. apply lookup_singleton_Some in Hj as [<- _]. lia.
Qed.

(** [drain] with the next message on its own: it is delivered and the map is
    as if it had not been buffered. *)
Lemma drain_one fuel frames f rest s (h : H) : Wire.wf_frame f -> 1 <= Receiver.next_seq_ s < 18446744073709551615 ->
  Receiver.pending_ s = <[Receiver.next_seq_ s := Receiver.mkPending 1 (Sender.block f)]> rest ->
  rest !! Receiver.next_seq_ s = None -> (forall k, is_Some (rest !! k) -> Receiver.next_seq_ s < k) ->
  exists s', Receiver.drain_loop (S fuel) frames s h =
      Receiver.drain_loop fuel (frames + 1) s' (Wire.apply_event h (Wire.frame_event f)) /\
    Receiver.session_ s' = Receiver.session_ s /\ Receiver.next_seq_ s' = Receiver.next_seq_ s + 1 /\
    Receiver.pending_ s' = rest /\ Receiver.ended_ s' = Receiver.ended_ s /\ Receiver.requests_ s' = Receiver.requests_ s.
Proof.
  intros Hf Hq Hp Hrest Hmin. cbn [Receiver.drain_loop].
  assert (Receiver.first_key (Receiver.pending_ s) = Some (Receiver.next_seq_ s)) as Hfirst.
  { apply Receiver.first_key_Some. rewrite Hp. split; [rewrite lookup_insert_eq; eauto|].
    intros k Hk. destruct (decide (k = Receiver.next_seq_ s)) as [->|Hne]; [lia|].
    rewrite lookup_insert_ne in Hk by done. specialize (Hmin k Hk). lia. }
  rewrite bool_decide_eq_true_2 by done. 
  assert (Receiver.pending_ s !! Receiver.next_seq_ s = Some (Receiver.mkPending 1 (Sender.block f))) as -> by (rewrite Hp; apply lookup_insert_eq).
  cbn [Receiver.pp_payload].
  rewrite parse_block, bind_Ok by done. rewrite u64_id by (unfold is_u64; lia).
  eexists. split; [reflexivity|]. cbn. rewrite Hp, delete_insert_id by done. by split_and!.
Qed.

Lemma drain_loop_stop fuel frames s (h : H) : Receiver.first_key (Receiver.pending_ s) <> Some (Receiver.next_seq_ s) ->
  Receiver.drain_loop (S fuel) frames s h = Ok (frames, s, h).
Proof. intros Hne. cbn [Receiver.drain_loop]. by rewrite bool_decide_eq_false_2. Qed.

Lemma singleton_insert k (p : Receiver.PendingPacket) : ({[ k := p ]} : gmap Z _) = <[k := p]> ∅.
Proof. done. Qed.

(** The expected packet, while nothing is buffered: delivered at once, and
    the request channel is not used. *)
Lemma poll_in_order q f s (h : H) : Wire.wf_frame f -> 1 <= q < 18446744073709551615 -> idle q false s ->
  exists s', idle (q + 1) false s' /\ Receiver.requests_ s' = Receiver.requests_ s /\
    forall turns, Receiver.poll (Sender.datagram session q (Sender.block f)) turns s h =
      Ok (1%nat, s', Wire.apply_event h (Wire.frame_event f)).
Proof.
  intros Hf Hq Hs. pose proof Hs as (H1 & H2 & H3 & H4).
  destruct (buffer_idle q false q 1 (Sender.block f) s Hs) as (B1 & B2 & B3 & B4 & B5).
  set (s1 := Receiver.buffer q 1 (Sender.block f) s) in *.
  destruct (drain_one 1 0 f ∅ s1 h Hf ltac:(lia)) as (s2 & Hdrain & D1 & D2 & D3 & D4 & D5).
  { by rewrite B1, B3. } { done. } { by intros k [? ?]. }
  exists s2. split; [split_and!; [congruence|lia|congruence|congruence]|]. split; [congruence|].
  intros turns. rewrite poll_datagram by (done || (unfold is_u64; lia)).
  unfold Receiver.accept. rewrite H2, Z.ltb_irrefl. cbv zeta. fold s1.
  unfold Receiver.resolve_gaps, Receiver.kMaxGapFillAttempts. cbn [Receiver.resolve_loop].
  rewrite B1, first_key_singleton, B3, Z.ltb_irrefl, bind_Ok.
  unfold Receiver.drain. rewrite B1, map_size_singleton. cbn [plus]. rewrite Hdrain.
  by rewrite drain_loop_stop by (rewrite D3; done).
Qed.

(** A run of expected packets. *)
Lemma run_in_order frames fs i inputs s (h : H) : Forall Wire.wf_frame fs -> idle (Z.of_nat i + 1) false s ->
  Z.of_nat (i + length fs) < 9223372036854775808 ->
  inputs.*1 = Sender.sent session (fun _ => false) i (Sender.block <$> fs) ->
  exists s', idle (Z.of_nat (i + length fs) + 1) false s' /\ Receiver.requests_ s' = Receiver.requests_ s /\
    forall more, Receiver.run (inputs ++ more) frames s h =
      Receiver.run more (frames + length fs) s' (foldl Wire.apply_event h (Wire.frame_event <$> fs)).
Proof.
  revert frames i inputs s h. induction fs as [|f fs IH]; intros frames i inputs s h Hfs Hs Hi Hin.
  { apply fmap_nil_inv in Hin as ->. exists s. cbn [length]. rewrite !Nat.add_0_r. done. }
  apply Forall_cons_1 in Hfs as [Hf Hfs]. cbn [Sender.sent fmap list_fmap app] in Hin. cbn [length] in Hi.
  destruct inputs as [|[buf turns] inputs]; [done|]. cbn [fmap list_fmap fst] in Hin. injection Hin as -> Hin.
  destruct (poll_in_order (Z.of_nat i + 1) f s h Hf ltac:(lia) Hs) as (s1 & Hs1 & R1 & Hp).
  replace (Z.of_nat i + 1 + 1) with (Z.of_nat (S i) + 1) in Hs1 by lia.
  destruct (IH (frames + 1)%nat (S i) inputs s1 (Wire.apply_event h (Wire.frame_event f)) Hfs Hs1 ltac:(lia) Hin) as (s2 & Hs2 & R2 & Hrun).
  exists s2. cbn [length]. replace (i + S (length fs))%nat with (S i + length fs)%nat by lia.
  split; [done|]. split; [congruence|]. intros more. cbn [app Receiver.run]. rewrite Hp, bind_Ok, Hrun.
  replace (frames + S (length fs))%nat with (frames + 1 + length fs)%nat by lia. done.
Qed.

(** An end-of-session packet. *)
Lemma poll_end final q s (h : H) : is_u64 final -> idle q false s ->
  exists s', idle q true s' /\ Receiver.requests_ s' = Receiver.requests_ s /\
    forall turns, Receiver.poll (Mold.packed (Mold.mkHeader session final Mold.kEndOfSession)) turns s h = Ok (0%nat, s', h).
Proof.
  intros Hfin (H1 & H2 & H3 & H4).
  set (hd := Mold.mkHeader session final Mold.kEndOfSession).
  assert (Mold.wf_header hd) as Hh by (split_and!; [done|done|cbn; unfold Mold.kEndOfSession; u32c]).
  pose proof (Mold.header_at_packed [] hd [] Hh) as Hat. rewrite app_nil_r in Hat. cbn [app length] in Hat.
  eexists. refine (conj _ (conj _ _)).
  3: {
    intros turns. unfold Receiver.poll. rewrite (proj2 (Nat.ltb_ge _ _)) by (rewrite Mold.packed_length by done; lia).
    unfold Receiver.on_packet.
    rewrite Mold.decode_ok, bind_Ok by (first [by apply Mold.packed_bytes|rewrite Mold.packed_length by done; lia]).
    rewrite Hat. cbn [Mold.session Mold.count hd]. rewrite H1, same_session_refl, Z.eqb_refl. cbn [negb]. reflexivity. }
  - split_and!; done.
  - done.
Qed.

(** A packet [p > q] whose gap is answered first by the packet [q]: whatever
    is buffered, [q] joins it and [drain] is next; what the answers hold after
    that is not read. *)
Lemma poll_repair q p k f f' s (h : H) : Wire.wf_frame f -> Wire.wf_frame f' -> 1 <= q < p -> p < 9223372036854775808 ->
  Receiver.session_ s = session -> Receiver.next_seq_ s = q -> Receiver.ended_ s = false ->
  (size (Receiver.pending_ s) < 255)%nat -> (forall j, is_Some (Receiver.pending_ s !! j) -> q < j) ->
  Receiver.first_key (<[p := Receiver.mkPending 1 (Sender.block f')]> (Receiver.pending_ s)) = Some k ->
  exists s', Receiver.session_ s' = session /\ Receiver.next_seq_ s' = q /\ Receiver.ended_ s' = false /\
    Receiver.pending_ s' = <[q := Receiver.mkPending 1 (Sender.block f)]>
      (<[p := Receiver.mkPending 1 (Sender.block f')]> (Receiver.pending_ s)) /\
    Receiver.requests_ s' = Receiver.requests_ s ++ [Mold.packed (Mold.mkHeader session q (Z.min (k - q) 65534))] /\
    forall e rest, Receiver.poll (Sender.datagram session p (Sender.block f'))
      (Receiver.Recv (Sender.datagram session q (Sender.block f)) e :: rest) s h = Receiver.drain s' h.
Proof.
  intros Hf Hf' Hq Hp H1 H2 H4 Hsize Habove Hk.
  pose proof (proj1 (Receiver.first_key_Some _ _) Hk) as [[x Hx] Hmin].
  assert (q < k <= p) as Hkr.
  { split; [|apply Hmin; rewrite lookup_insert_eq; eauto]. destruct (decide (k = p)) as [->|Hne]; [lia|].
    rewrite lookup_insert_ne in Hx by done. apply Habove. eauto. }
  set (m := Receiver.pending_ s) in *. set (pp := Receiver.mkPending 1 (Sender.block f')) in *.
  assert (Receiver.buffer p 1 (Sender.block f') s =
    Receiver.mkReceiver session q false (Receiver.requests_sent_ s) (Receiver.dropped_pending_ s)
      (Receiver.count_mismatches_ s) (<[p := pp]> m) (Receiver.requests_ s)) as Hb1.
  { unfold Receiver.buffer. fold m. rewrite (proj2 (Nat.leb_gt _ _)) by (unfold Receiver.kMaxPendingPackets; lia).
    cbn [andb]. by rewrite H1, H2, H4. }
  set (req := Mold.packed (Mold.mkHeader session q (Z.min (k - q) 65534))).
  exists (Receiver.mkReceiver session q false (u64 (Receiver.requests_sent_ s + 1)) (Receiver.dropped_pending_ s)
    (Receiver.count_mismatches_ s) (<[q := Receiver.mkPending 1 (Sender.block f)]> (<[p := pp]> m)) (Receiver.requests_ s ++ [req])).
  split_and!; try done. intros e rest. rewrite poll_datagram by (done || (unfold is_u64; lia)).
  unfold Receiver.accept. rewrite H2, (proj2 (Z.ltb_ge _ _)) by lia. cbv zeta. rewrite Hb1.
  unfold Receiver.resolve_gaps, Receiver.kMaxGapFillAttempts. cbn [Receiver.resolve_loop Receiver.pending_ Receiver.next_seq_].
  rewrite Hk, (proj2 (Z.ltb_lt _ _)) by lia. cbv zeta. rewrite (u64_id (k - q)), u16_id by (unfold is_u64, is_u16; lia).
  unfold Receiver.send_request. cbn [Receiver.session_]. rewrite Mold.encode_ok, !bind_Ok by done. cbn [Receiver.wait].
  rewrite (proj2 (Nat.ltb_ge _ _)) by apply datagram_length.
  rewrite decode_datagram, bind_Ok by (done || (unfold is_u64; lia)). cbn [Mold.session Mold.seq Mold.count].
  unfold Receiver.count_request. cbn [Receiver.session_ Receiver.next_seq_ Receiver.pending_ Receiver.ended_
    Receiver.requests_sent_ Receiver.dropped_pending_ Receiver.count_mismatches_ Receiver.requests_].
  rewrite same_session_refl, Z.ltb_irrefl, drop_datagram. cbn [negb]. cbv zeta.
  change ((1 =? Mold.kHeartbeat) || (1 =? Mold.kEndOfSession)) with false. cbn match.
  unfold Receiver.buffer. cbn [Receiver.session_ Receiver.next_seq_ Receiver.pending_ Receiver.ended_
    Receiver.requests_sent_ Receiver.dropped_pending_ Receiver.count_mismatches_ Receiver.requests_].
  rewrite (proj2 (Nat.leb_gt _ _)) by (rewrite map_size_insert; unfold Receiver.kMaxPendingPackets; destruct (m !! p); cbn; lia).
  cbn [andb Receiver.pending_ Receiver.next_seq_].
  assert (Receiver.first_key (<[q := Receiver.mkPending 1 (Sender.block f)]> (<[p := pp]> m)) = Some q) as Hfirst.
  { apply Receiver.first_key_Some. split; [rewrite lookup_insert_eq; eauto|]. intros j Hj.
    destruct (decide (j = q)) as [->|Hne]; [lia|]. rewrite lookup_insert_ne in Hj by done. specialize (Hmin j Hj). lia. }
  rewrite bool_decide_eq_true_2, bind_Ok by done. cbn [Receiver.pending_ Receiver.next_seq_].
  by rewrite Hfirst, Z.ltb_irrefl, bind_Ok.
Qed.

(** With nothing else buffered: only [q] is delivered before [q'] is looked
    at again, and [q'] too exactly if it is the next. *)
Lemma poll_gap q q' f f' e rest s (h : H) : Wire.wf_frame f -> Wire.wf_frame f' -> 1 <= q < q' -> q' < 9223372036854775808 ->
  idle q false s ->
  let turns := Receiver.Recv (Sender.datagram session q (Sender.block f)) e :: rest in
  let req := Mold.packed (Mold.mkHeader session q (Z.min (q' - q) 65534)) in
  let h1 := Wire.apply_event h (Wire.frame_event f) in
  exists s', Receiver.session_ s' = session /\ Receiver.ended_ s' = false /\
    Receiver.requests_ s' = Receiver.requests_ s ++ [req] /\
    if q' =? q + 1 then
      Receiver.poll (Sender.datagram session q' (Sender.block f')) turns s h =
        Ok (2%nat, s', Wire.apply_event h1 (Wire.frame_event f')) /\
      Receiver.next_seq_ s' = q + 2 /\ Receiver.pending_ s' = ∅
    else
      Receiver.poll (Sender.datagram session q' (Sender.block f')) turns s h = Ok (1%nat, s', h1) /\
      Receiver.next_seq_ s' = q + 1 /\
      Receiver.pending_ s' = {[ q' := Receiver.mkPending 1 (Sender.block f') ]}.
Proof.
  intros Hf Hf' Hq Hq' Hs turns req h1. pose proof Hs as (H1 & H2 & H3 & H4).
  destruct (poll_repair q q' q' f f' s h Hf Hf' Hq Hq' H1 H2 H4) as (s3 & K2 & K3 & K4 & K1 & K5 & Hp).
  { rewrite H3, map_size_empty. lia. } { rewrite H3. by intros j [? ?]. } { rewrite H3. apply first_key_singleton. }
  rewrite H3 in K1. fold req in K5. unfold turns. rewrite Hp. clear Hp. unfold Receiver.drain. rewrite K1, <- singleton_insert.
  rewrite map_size_insert_None by (apply lookup_singleton_None; lia). rewrite map_size_singleton. cbn [plus].
  destruct (drain_one 2 0 f {[ q' := Receiver.mkPending 1 (Sender.block f') ]} s3 h Hf ltac:(lia))
    as (s4 & -> & D1 & D2 & D3 & D4 & D5).
  { by rewrite K1, K3. } { rewrite K3. apply lookup_singleton_None. lia. }
  { rewrite K3. intros k [x Hk]. apply lookup_singleton_Some in Hk as [<- _]. lia. }
  change (0 + 1)%nat with 1%nat. fold h1.
  destruct (Z.eqb_spec q' (q + 1)) as [->|Hne].
  - destruct (drain_one 1 1 f' ∅ s4 h1 Hf' ltac:(lia)) as (s5 & -> & E1 & E2 & E3 & E4 & E5).
    { by rewrite D3, D2, K3. } { done. } { by intros k [? ?]. }
    rewrite drain_loop_stop by (rewrite E3; done).
    exists s5. split_and!; try congruence; try lia; try reflexivity.
  - rewrite drain_loop_stop by (rewrite D3, D2, K3, first_key_singleton; intros Heq; injection Heq; lia).
    exists s4. split_and!; try congruence.
Qed.

End Polls.

(** ** A whole session *)

Lemma frames_count bs : (length (Wire.frames bs) <= length bs)%nat.
Proof.
  induction bs as [bs Hn|bs f tl Hn IH] using Wire.frames_ind.
  - destruct (Wire.frames_stop bs Hn) as [-> _]. cbn. lia.
  - destruct (Wire.frames_next _ _ _ Hn) as [-> _]. apply Wire.next_frame_shorter in Hn. cbn. lia.
Qed.

Lemma sent_app s drop_ i l1 l2 :
  Sender.sent s drop_ i (l1 ++ l2) = Sender.sent s drop_ i l1 ++ Sender.sent s drop_ (i + length l1) l2.
Proof.
  revert i. induction l1 as [|m l1 IH]; intros i; cbn [Sender.sent app length]; [by rewrite Nat.add_0_r|].
  rewrite IH, <- app_assoc. do 3 f_equal. lia.
Qed.

Lemma sent_ext s d1 d2 i l : (forall j, (i <= j < i + length l)%nat -> d1 (Z.of_nat j + 1) = d2 (Z.of_nat j + 1)) ->
  Sender.sent s d1 i l = Sender.sent s d2 i l.
Proof.
  revert i. induction l as [|m l IH]; intros i Hd; cbn [Sender.sent]; [done|]. cbn [length] in Hd.
  rewrite Hd by lia. f_equal. apply IH. intros j Hj. apply Hd. lia.
Qed.

(** The end-of-session packet of a session of [n] messages. *)
Definition end_packet (session : Mold.SessionId) (n : nat) : list Z :=
  Mold.packed (Mold.mkHeader session (Z.of_nat n + 1) Mold.kEndOfSession).

Lemma sent_length s i l : length (Sender.sent s (fun _ => false) i l) = length l.
Proof. revert i. induction l as [|m l IH]; intros i; cbn [Sender.sent app length]; [done|]. by rewrite IH. Qed.

Lemma send_all_ok session fs drop_ : Mold.wf_session session -> Z.of_nat (length fs) < 4611686018427387904 ->
  Sender.send_all (Sender.mkSender session (Sender.block <$> fs)) drop_ =
    Ok (Sender.sent session drop_ 0 (Sender.block <$> fs) ++ [end_packet session (length fs)]).
Proof.
  intros Hs Hn. unfold Sender.send_all, Sender.send_end_of_session. cbn [Sender.messages_ Sender.session_].
  rewrite Sender.send_loop_ok, bind_Ok by (try done; rewrite length_fmap; lia). cbn [Sender.session_].
  by rewrite Mold.encode_ok, bind_Ok, length_fmap, u64_id by (done || (unfold is_u64; lia)).
Qed.

Lemma lossy_split {A} (l : list A) q : (q + 1 < length l)%nat ->
  exists l1 x y l2, l = l1 ++ x :: y :: l2 /\ length l1 = q.
Proof.
  intros Hq. destruct (lookup_lt_is_Some_2 l q) as [x Hx]; [lia|].
  destruct (lookup_lt_is_Some_2 l (S q)) as [y Hy]; [lia|].
  exists (take q l), x, y, (drop (S (S q)) l). split; [|rewrite length_take; lia].
  by rewrite <- (drop_S l y (S q) Hy), <- (drop_S l x q Hx), take_drop.
Qed.

(** Everything but the message after the first [length A]. *)
Lemma send_lossy session A f f' B : Mold.wf_session session -> Z.of_nat (length (A ++ f :: f' :: B)) < 4611686018427387904 ->
  Sender.send_all (Sender.mkSender session (Sender.block <$> (A ++ f :: f' :: B))) (fun k => k =? Z.of_nat (length A) + 1) =
    Ok (Sender.sent session (fun _ => false) 0 (Sender.block <$> A) ++
        Sender.datagram session (Z.of_nat (length A) + 2) (Sender.block f') ::
        (Sender.sent session (fun _ => false) (length A + 2) (Sender.block <$> B) ++ [end_packet session (length (A ++ f :: f' :: B))])).
Proof.
  intros Hs Hn. rewrite send_all_ok by done. f_equal. rewrite fmap_app, sent_app, <- app_assoc, length_fmap, Nat.add_0_l.
  cbn [fmap list_fmap Sender.sent]. rewrite Z.eqb_refl, (proj2 (Z.eqb_neq _ _)) by lia.
  change (Sender.block <$> B) with (fmap Sender.block B). f_equal; [|cbn [app]; f_equal; [f_equal; lia|f_equal]].
  - apply sent_ext. intros j Hj. rewrite length_fmap in Hj. apply Z.eqb_neq. lia.
  - replace (S (S (length A))) with (length A + 2)%nat by lia. apply sent_ext. intros j Hj. apply Z.eqb_neq. lia.
Qed.

(** A request that decodes to [hdr] is answered with its range. *)
Lemma serve_range session msgs hdr : Mold.wf_header hdr -> Mold.session hdr = session ->
  1 <= Mold.seq hdr < 4611686018427387904 ->
  Sender.serve_one_request (Sender.mkSender session msgs) (Mold.packed hdr) =
    Ok (true, Sender.replies session (Mold.seq hdr)
                (take (Z.to_nat (Mold.count hdr)) (drop (Z.to_nat (Mold.seq hdr - 1)) msgs))).
Proof.
  intros Hh <- Hq. pose proof Hh as (Hs & _ & Hc). unfold is_u16 in Hc.
  unfold Sender.serve_one_request. rewrite (proj2 (Nat.ltb_ge _ _)) by (rewrite Mold.packed_length by done; lia).
  rewrite Mold.decode_ok, bind_Ok by (first [by apply Mold.packed_bytes|rewrite Mold.packed_length by done; lia]).
  pose proof (Mold.header_at_packed [] _ [] Hh) as Hat. rewrite app_nil_r in Hat. cbn [app length] in Hat. rewrite Hat.
  cbn [Sender.session_]. rewrite same_session_refl. cbn [negb].
  rewrite Sender.reply_loop_ok by (first [done|lia]). cbn [Sender.messages_ Sender.session_].
  by rewrite Z.add_0_r.
Qed.

(** One requested message. *)
Lemma serve_single session msgs q m : Mold.wf_session session -> 1 <= q < 4611686018427387904 ->
  msgs !! Z.to_nat (q - 1) = Some m ->
  Sender.serve_one_request (Sender.mkSender session msgs) (Mold.packed (Mold.mkHeader session q 1)) =
    Ok (true, [Sender.datagram session q m]).
Proof.
  intros Hs Hq Hm. rewrite serve_range; [|split_and!; [done|cbn; unfold is_u64; lia|cbn; u32c]|done|done].
  cbn [Mold.seq Mold.count]. by rewrite (drop_S _ _ _ Hm).
Qed.

Lemma replies_length s q l : length (Sender.replies s q l) = length l.
Proof. revert q. induction l as [|m l IH]; intros q; cbn [Sender.replies length]; [done|]. by rewrite IH. Qed.

(** The rest of a session, delivered in order. *)
Lemma finish {H} `{Wire.Handler H} session fs i n frames inputs s (h : H) :
  Mold.wf_session session -> Forall Wire.wf_frame fs -> idle session (Z.of_nat i + 1) false s ->
  Z.of_nat (i + length fs) < 4611686018427387904 -> Z.of_nat n < 4611686018427387904 ->
  inputs.*1 = Sender.sent session (fun _ => false) i (Sender.block <$> fs) ++ [end_packet session n] ->
  exists s', Receiver.run inputs frames s h =
      Ok ((frames + length fs)%nat, s', foldl Wire.apply_event h (Wire.frame_event <$> fs)) /\
    idle session (Z.of_nat (i + length fs) + 1) true s' /\ Receiver.requests_ s' = Receiver.requests_ s.
Proof.
  intros Hs Hfs Hi Hlen Hn Hin. apply fmap_app_inv in Hin as (i1 & i2 & H1 & H2 & ->).
  destruct i2 as [|[eos turns] [|]]; try done. injection H2 as H2. subst eos. symmetry in H1.
  destruct (run_in_order session Hs frames fs i i1 s h Hfs Hi ltac:(lia) H1) as (s1 & Hs1 & R1 & Hrun).
  rewrite Hrun. cbn [Receiver.run].
  destruct (poll_end session Hs (Z.of_nat n + 1) (Z.of_nat (i + length fs) + 1) s1
    (foldl Wire.apply_event h (Wire.frame_event <$> fs))) as (s2 & Hs2 & R2 & Hp); [unfold is_u64; lia|done|].
  unfold end_packet. rewrite Hp, bind_Ok, Nat.add_0_r. exists s2. split; [done|]. split; [done|congruence].
Qed.

(** ** Properties *)

(** C12: a receiver that polls, in order and without loss, what a sender puts on
    the wire for a file ends in exactly the state of parsing that file
    directly: the same count, the same handler; every message is applied,
    nothing is left buffered, no retransmission was requested, and the
    session is marked ended. *)
Theorem lossless_session {H} `{Wire.Handler H} (framed : list Z) (session : Mold.SessionId)
  (snd : Sender.MoldUdp64Sender) (pkts : list (list Z)) (inputs : list (list Z * list Receiver.turn)) (h : H)
  (Hs : Mold.wf_session session) (Hf : Wire.bytes framed) (Hlen : Z.of_nat (length framed) < 4611686018427387904)
  (Hload : Sender.load framed (Sender.mkSender session []) = Ok snd)
  (Hsend : Sender.send_all snd (fun _ => false) = Ok pkts) (Hin : inputs.*1 = pkts) :
  exists n s h', Receiver.run inputs 0 (Receiver.construct session) h = Ok (n, s, h') /\
    Wire.parse_stream framed (length framed) h = Ok (n, h') /\
    idle session (Z.of_nat n + 1) true s /\ Receiver.requests_ s = [].
Proof.
  rewrite Sender.load_ok in Hload by done. injection Hload as <-. cbn [Sender.session_] in Hsend.
  pose proof (frames_count framed) as Hn. pose proof (Wire.frames_wf framed Hf) as Hwf.
  rewrite Wire.parse_stream_frames, take_ge by (done || lia). unfold Wire.events.
  rewrite send_all_ok in Hsend by (done || lia). injection Hsend as <-.
  destruct (finish session (Wire.frames framed) 0 (length (Wire.frames framed)) 0 inputs (Receiver.construct session) h)
    as (s & Hrun & Hi & R); try done; try lia.
  eexists _, s, _. split; [exact Hrun|]. split; [done|]. split; [exact Hi|by rewrite R].
Qed.

Definition sample_framed : list Z := [0; 1; 65; 0; 2; 66; 66; 0; 1; 67; 0; 9].
Definition sample_session : Mold.SessionId := Mold.session Mold.sample_header.

Definition sample_loaded : Sender.MoldUdp64Sender :=
  Sender.mkSender sample_session [[0; 1; 65]; [0; 2; 66; 66]; [0; 1; 67]].

Definition sample_sent : list (list Z) :=
  [Sender.datagram sample_session 1 [0; 1; 65]; Sender.datagram sample_session 2 [0; 2; 66; 66];
   Sender.datagram sample_session 3 [0; 1; 67]; Mold.packed (Mold.mkHeader sample_session 4 Mold.kEndOfSession)].

Lemma sample_framed_bytes : Wire.bytes sample_framed.
Proof. apply (bool_decide_unpack _). vm_compute. exact I. Qed.

Lemma lossless_session_witness : exists s,
  Receiver.run ((fun p => (p, [])) <$> sample_sent) 0 (Receiver.construct sample_session) ([] : list Wire.event) =
    Ok (3%nat, s, [Wire.EOther 65 1; Wire.EOther 66 2; Wire.EOther 67 1]) /\
  Receiver.ended_ s = true.
Proof.
  destruct (lossless_session sample_framed sample_session sample_loaded sample_sent ((fun p => (p, [])) <$> sample_sent)
    ([] : list Wire.event)) as (n & s & h' & H1 & H2 & (_ & _ & _ & H3) & _).
  - exact (proj1 Mold.sample_header_wf).
  - exact sample_framed_bytes.
  - cbn. lia.
  - vm_compute. reflexivity.
  - vm_compute. reflexivity.
  - reflexivity.
  - exists s. split; [|exact H3]. rewrite H1. f_equal. vm_compute in H2. injection H2 as <- <-. reflexivity.
Defined.

(** The loss of any one message but the last is repaired: if the sender
    drops sequence number [q], the receiver sends one request for it when
    [q + 1] arrives, the sender answers that request with one datagram, and once
    that answer is received within the wait the session ends in exactly the state
    of parsing the file directly. *)
Theorem single_loss_recovered {H} `{Wire.Handler H} (framed : list Z) (session : Mold.SessionId)
  (tx : Sender.MoldUdp64Sender) (pkts : list (list Z)) (q : nat) (h : H)
  (Hs : Mold.wf_session session) (Hf : Wire.bytes framed) (Hlen : Z.of_nat (length framed) < 4611686018427387904)
  (Hload : Sender.load framed (Sender.mkSender session []) = Ok tx)
  (Hsend : Sender.send_all tx (fun k => k =? Z.of_nat q + 1) = Ok pkts)
  (Hq : (q + 1 < length (Sender.messages_ tx))%nat) :
  exists req reply, Mold.encode [] (Mold.mkHeader session (Z.of_nat q + 1) 1) = Ok req /\
    Sender.serve_one_request tx req = Ok (true, [reply]) /\
    forall (inputs : list (list Z * list Receiver.turn)) buf e rest, inputs.*1 = pkts ->
      inputs !! q = Some (buf, Receiver.Recv reply e :: rest) ->
      exists n s h', Receiver.run inputs 0 (Receiver.construct session) h = Ok (n, s, h') /\
        Wire.parse_stream framed (length framed) h = Ok (n, h') /\
        idle session (Z.of_nat n + 1) true s /\ Receiver.requests_ s = [req].
Proof.
  rewrite Sender.load_ok in Hload by done. injection Hload as <-. cbn [Sender.session_ Sender.messages_] in *.
  rewrite length_fmap in Hq. pose proof (frames_count framed) as Hn. pose proof (Wire.frames_wf framed Hf) as Hwf.
  rewrite Wire.parse_stream_frames, take_ge by (done || lia). unfold Wire.events.
  set (fs := Wire.frames framed) in *.
  destruct (lossy_split fs q Hq) as (A & f & f' & B & Hfs & HA). rewrite Hfs in *. clearbody fs.
  apply Forall_app in Hwf as [HwA Hwf]. apply Forall_cons_1 in Hwf as [Hwf Hwf'].
  apply Forall_cons_1 in Hwf' as [Hwf' HwB].
  rewrite length_app in Hq, Hn. cbn [length] in Hq, Hn.
  set (req := Mold.mkHeader session (Z.of_nat q + 1) 1).
  assert (Mold.wf_header req) as Hreq by (split_and!; [done|cbn; unfold is_u64; lia|cbn; u32c]).
  exists (Mold.packed req), (Sender.datagram session (Z.of_nat q + 1) (Sender.block f)).
  split; [by apply Mold.encode_ok|]. split.
  { apply serve_single; [done|lia|]. replace (Z.to_nat (Z.of_nat q + 1 - 1)) with q by lia.
    rewrite fmap_app, lookup_app_r by (rewrite length_fmap; lia). by rewrite length_fmap, HA, Nat.sub_diag. }
  rewrite <- HA, send_lossy in Hsend by (first [done|rewrite length_app; cbn [length]; lia]). injection Hsend as <-.
  intros inputs buf e rest Hin Hq'.
  apply fmap_app_inv in Hin as (i1 & i2 & H1 & H2 & ->).
  assert (length i1 = q) as Hi1 by (rewrite <- (length_fmap fst i1), <- H1, sent_length, length_fmap; done).
  rewrite lookup_app_r, Hi1, Nat.sub_diag in Hq' by lia.
  destruct i2 as [|[d turns] i2]; [done|]. injection Hq' as -> ->. cbn [fmap list_fmap fst] in H2. injection H2 as <- H2.
  destruct (run_in_order session Hs 0 A 0 i1 (Receiver.construct session) h HwA) as (s1 & Hs1 & R1 & Hrun);
    [by split_and!|lia|by symmetry|]. rewrite Nat.add_0_l, HA in Hs1. rewrite Hrun. clear Hrun. cbn [Receiver.run].
  set (h1 := foldl Wire.apply_event h (Wire.frame_event <$> A)).
  destruct (poll_gap session Hs (Z.of_nat q + 1) (Z.of_nat q + 2) f f' e rest s1 h1 Hwf Hwf' ltac:(lia) ltac:(lia) Hs1)
    as (s2 & G1 & G2 & G3 & G4).
  rewrite (proj2 (Z.eqb_eq _ _)) in G4 by lia. destruct G4 as (Hp & G4 & G5).
  rewrite HA, Hp, bind_Ok. clear Hp.
  destruct (finish session B (q + 2) (length (A ++ f :: f' :: B)) (0 + length A + 2) i2 s2
    (Wire.apply_event (Wire.apply_event h1 (Wire.frame_event f)) (Wire.frame_event f'))) as (s3 & Hrun & Hi & R3);
    try done; try (rewrite ?length_app; cbn [length]; lia); [split_and!; try done; lia|by rewrite <- HA|].
  exists (length (A ++ f :: f' :: B)), s3, (foldl Wire.apply_event h (Wire.frame_event <$> (A ++ f :: f' :: B))).
  rewrite HA in Hrun. rewrite Hrun, fmap_app, foldl_app, length_app. cbn [length].
  split; [f_equal; f_equal; f_equal; lia|]. split; [done|]. split.
  - replace (length A + S (S (length B)))%nat with (q + 2 + length B)%nat by lia. exact Hi.
  - rewrite R3, G3, R1. cbn [Receiver.requests_ Receiver.construct app]. do 3 f_equal. lia.
Qed.


Lemma single_loss_recovered_witness : exists req reply s,
  Mold.encode [] (Mold.mkHeader sample_session 2 1) = Ok req /\
  Receiver.run [(Sender.datagram sample_session 1 [0; 1; 65], []);
                (Sender.datagram sample_session 3 [0; 1; 67], [Receiver.Recv [] false; Receiver.Expired]);
                (end_packet sample_session 3, [])] 0 (Receiver.construct sample_session) ([] : list Wire.event)
    = Ok (1%nat, s, [Wire.EOther 65 1]) /\
  exists s', Receiver.run [(Sender.datagram sample_session 1 [0; 1; 65], []);
                (Sender.datagram sample_session 3 [0; 1; 67], [Receiver.Recv reply false]);
                (end_packet sample_session 3, [])] 0 (Receiver.construct sample_session) ([] : list Wire.event)
    = Ok (3%nat, s', [Wire.EOther 65 1; Wire.EOther 66 2; Wire.EOther 67 1]).
Proof.
  destruct (single_loss_recovered sample_framed sample_session sample_loaded
    [Sender.datagram sample_session 1 [0; 1; 65]; Sender.datagram sample_session 3 [0; 1; 67]; end_packet sample_session 3]
    1 ([] : list Wire.event)) as (req & reply & H1 & _ & H2).
  - exact (proj1 Mold.sample_header_wf).
  - exact sample_framed_bytes.
  - cbn. lia.
  - vm_compute. reflexivity.
  - vm_compute. reflexivity.
  - cbn. lia.
  - exists req, reply. eexists. split; [exact H1|]. split; [vm_compute; reflexivity|].
    destruct (H2 [(Sender.datagram sample_session 1 [0; 1; 65], []);
                (Sender.datagram sample_session 3 [0; 1; 67], [Receiver.Recv reply false]);
                (end_packet sample_session 3, [])] _ false [] eq_refl eq_refl) as (n & s' & h' & H3 & H4 & _).
    exists s'. rewrite H3. vm_compute in H4. injection H4 as <- <-. reflexivity.
Defined.

(** A lost run of two or more messages is repaired one message per poll: the
    receiver asks for the whole run and the sender answers with all of it,
    but the receiver stops reading answers at the first one, because that one
    is the next expected; the poll delivers just that message, and
    the packet that revealed the gap stays buffered. *)
Theorem burst_loss_one_per_poll {H} `{Wire.Handler H} (session : Mold.SessionId) (fs : list (list Z)) (q q' : nat)
  (f f' : list Z) (s : Receiver.MoldUdp64Receiver) (h : H) (e : bool)
  (Hs : Mold.wf_session session) (Hf : Wire.wf_frame f) (Hf' : Wire.wf_frame f')
  (Hlen : Z.of_nat (length fs) < 4611686018427387904)
  (Hq : fs !! q = Some f) (Hq' : fs !! q' = Some f') (Hgap : (q + 2 <= q')%nat) (Hmax : Z.of_nat q' <= Z.of_nat q + 65534)
  (Hidle : idle session (Z.of_nat q + 1) false s) :
  exists req answers s', Mold.encode [] (Mold.mkHeader session (Z.of_nat q + 1) (Z.of_nat (q' - q))) = Ok req /\
    Sender.serve_one_request (Sender.mkSender session (Sender.block <$> fs)) req = Ok (true, answers) /\
    length answers = (q' - q)%nat /\
    Receiver.poll (Sender.datagram session (Z.of_nat q' + 1) (Sender.block f')) ((fun a => Receiver.Recv a e) <$> answers) s h =
      Ok (1%nat, s', Wire.apply_event h (Wire.frame_event f)) /\
    Receiver.next_seq_ s' = Z.of_nat q + 2 /\
    Receiver.pending_ s' = {[ Z.of_nat q' + 1 := Receiver.mkPending 1 (Sender.block f') ]} /\
    Receiver.requests_ s' = Receiver.requests_ s ++ [req].
Proof.
  pose proof (lookup_lt_Some _ _ _ Hq') as Hlt.
  set (req := Mold.mkHeader session (Z.of_nat q + 1) (Z.of_nat (q' - q))).
  assert (Mold.wf_header req) as Hreq by (split_and!; [done|cbn; unfold is_u64; lia|cbn; unfold is_u16; lia]).
  pose proof (drop_S _ _ _ Hq) as Hd.
  set (answers := Sender.replies session (Z.of_nat q + 1) (take (q' - q) (drop q (Sender.block <$> fs)))).
  assert (exists rest, answers = Sender.datagram session (Z.of_nat q + 1) (Sender.block f) :: rest) as [rest Ha].
  { unfold answers. rewrite <- fmap_drop, Hd. replace (q' - q)%nat with (S (q' - q - 1)) by lia. cbn. eauto. }
  destruct (poll_gap session Hs (Z.of_nat q + 1) (Z.of_nat q' + 1) f f' e ((fun a => Receiver.Recv a e) <$> rest) s h
              Hf Hf' ltac:(lia) ltac:(lia) Hidle) as (s' & G1 & G2 & G3 & G4).
  rewrite (proj2 (Z.eqb_neq _ _)) in G4 by lia. destruct G4 as (Hp & G4 & G5).
  exists (Mold.packed req), answers, s'. split_and!.
  - by apply Mold.encode_ok.
  - rewrite serve_range by (first [done|cbn; lia]). cbn [Mold.seq Mold.count req]. unfold answers.
    rewrite Nat2Z.id. by replace (Z.to_nat (Z.of_nat q + 1 - 1)) with q by lia.
  - unfold answers. rewrite replies_length, length_take, length_drop, length_fmap. lia.
  - rewrite Ha. exact Hp.
  - rewrite G4. lia.
  - exact G5.
  - rewrite G3. unfold req. do 4 f_equal. lia.
Qed.

Lemma burst_loss_one_per_poll_witness : exists req answers s',
  Sender.serve_one_request (Sender.mkSender sample_session (Sender.block <$> [[65]; [66; 66]; [67]])) req = Ok (true, answers) /\
  length answers = 2%nat /\
  Receiver.poll (Sender.datagram sample_session 3 (Sender.block [67])) ((fun a => Receiver.Recv a false) <$> answers)
    (Receiver.construct sample_session) ([] : list Wire.event) = Ok (1%nat, s', [Wire.EOther 65 1]).
Proof.
  destruct (burst_loss_one_per_poll sample_session [[65]; [66; 66]; [67]] 0 2 [65] [67] (Receiver.construct sample_session)
    ([] : list Wire.event) false) as (req & answers & s' & _ & H1 & H2 & H3 & _).
  - exact (proj1 Mold.sample_header_wf).
  - split; [apply (bool_decide_unpack _); vm_compute; exact I|cbn; lia].
  - split; [apply (bool_decide_unpack _); vm_compute; exact I|cbn; lia].
  - cbn. lia.
  - reflexivity.
  - reflexivity.
  - lia.
  - cbn. lia.
  - repeat split.
  - exists req, answers, s'. split; [exact H1|]. split; [exact H2|exact H3].
Defined.

End Session.
