(* ===== verification/Recovery.v ===== *)
(** * Recovery: any pattern of losses

    The gap filling of include/net/multicast_receiver.hpp against the sender of
    include/net/multicast_test_sender.hpp, for every loss pattern at once.
    [Session] treats no loss, one loss and one burst; here the losses may
    be any, and the question is when the receiver has caught up.  Each poll
    repairs one lost message ([Session.burst_loss_one_per_poll]), so the
    messages missing form a queue that every loss lengthens and every arrival
    shortens by one; [recovers] is that queue, computed from the pattern
    alone. *)

From S2P Require Import Prelude Wire Encode Mold Sender Receiver Session.

Module Recovery.

(** ** Loss patterns *)

(** Is every loss repaired by the end of the session?  [owed] messages are
    missing, and at most [busy] are buffered behind the first of them.  An
    arrival repairs one; it needs room for two packets in the map of 256. *)
Fixpoint recovers (lost : list bool) (owed busy : nat) : bool :=
  match lost with
  | [] => (owed =? 0)%nat
  | true :: lost => recovers lost (S owed) busy
  | false :: lost =>
    match owed with
    | O => recovers lost 0 0
    | S O => (busy <? 255)%nat && recovers lost 0 0
    | S owed => (busy <? 255)%nat && recovers lost owed (S busy)
    end
  end.

(** The losses among the next [n] messages from index [i]. *)
Definition losses (should_drop : Z -> bool) (i n : nat) : list bool :=
  (fun j => should_drop (Z.of_nat j + 1)) <$> seq i n.

(** Isolated losses are always repaired. *)
Example isolated_recover : recovers [true; false; false; true; false; true; false] 0 0 = true.
Proof. reflexivity. Qed.

(** A burst of [n] needs [n] arrivals after it. *)
Example burst_recovers : recovers [true; true; true; false; false; false] 0 0 = true /\ recovers [true; true; true; false; false] 0 0 = false.
Proof. split; reflexivity. Qed.

(** ** What is outstanding *)

(** The messages from the next expected one to the last offered: for each its
    frame, and whether it is missing. *)

Fixpoint held (q : Z) (w : list (bool * list Z)) : gmap Z Receiver.PendingPacket :=
  match w with
  | [] => ∅
  | (missing, f) :: w =>
    if missing : bool then held (q + 1) w else <[q := Receiver.mkPending 1 (Sender.block f)]> (held (q + 1) w)
  end.

Fixpoint owed (w : list (bool * list Z)) : nat :=
  match w with [] => 0 | (missing, _) :: w => if missing : bool then S (owed w) else owed w end.

(** The messages at the head that have arrived. *)
Fixpoint ready (w : list (bool * list Z)) : nat :=
  match w with (false, _) :: w => S (ready w) | _ => 0 end.

(** The first message is missing, if there is one. *)
Definition blocked (w : list (bool * list Z)) : Prop := ready w = 0%nat.

Lemma held_range q w k : is_Some (held q w !! k) -> q <= k < q + Z.of_nat (length w).
Proof.
  revert q. induction w as [|[[] f] w IH]; intros q; cbn [held length].
  - by intros [? ?].
  - intros Hk%IH. lia.
  - intros Hk. destruct (decide (k = q)) as [->|Hne]; [lia|]. rewrite lookup_insert_ne in Hk by done. apply IH in Hk. lia.
Qed.

Lemma held_none q w k : ~ q <= k < q + Z.of_nat (length w) -> held q w !! k = None.
Proof. intros Hk. destruct (held q w !! k) eqn:E; [|done]. destruct Hk. apply held_range. by rewrite E. Qed.

Lemma held_snoc q w missing f : held q (w ++ [(missing, f)]) =
  if missing : bool then held q w else <[q + Z.of_nat (length w) := Receiver.mkPending 1 (Sender.block f)]> (held q w).
Proof.
  revert q. induction w as [|[[] f0] w IH]; intros q; cbn [held app length].
  - rewrite Z.add_0_r. by destruct missing.
  - rewrite IH. destruct missing; [done|]. f_equal. lia.
  - rewrite IH. destruct missing; [done|]. rewrite insert_insert_ne by lia. f_equal. lia.
Qed.

Lemma held_size q w : (size (held q w) + owed w = length w)%nat.
Proof.
  revert q. induction w as [|[[] f] w IH]; intros q; cbn [held owed length]; [done| |].
  - specialize (IH (q + 1)). lia.
  - rewrite map_size_insert_None by (apply held_none; lia). specialize (IH (q + 1)). lia.
Qed.

Lemma ready_owed w : (ready w + owed w <= length w)%nat.
Proof. induction w as [|[[] f] w IH]; cbn [ready owed length]; lia. Qed.

Lemma owed_snoc w missing f : owed (w ++ [(missing, f)]) = (owed w + if missing : bool then 1 else 0)%nat.
Proof. induction w as [|[[] f0] w IH]; cbn [owed app]; [by destruct missing|lia..]. Qed.

Lemma drop_ready_blocked w : blocked (drop (ready w) w).
Proof. induction w as [|[[] f] w IH]; [done..|exact IH]. Qed.

Lemma drop_ready_owed w : owed (drop (ready w) w) = owed w.
Proof. induction w as [|[[] f] w IH]; [done..|exact IH]. Qed.

(** A window that misses nothing is delivered whole. *)
Lemma nothing_owed w : owed w = 0%nat -> ready w = length w.
Proof. induction w as [|[[] f] w IH]; cbn [owed ready length]; [done..|]. intros Hw. by rewrite IH. Qed.

(** The least key: the first message that has arrived. *)
Lemma held_first q w : (owed w < length w)%nat -> exists k, Receiver.first_key (held q w) = Some k /\ q <= k < q + Z.of_nat (length w).
Proof.
  intros Hw. destruct (Receiver.first_key (held q w)) as [k|] eqn:E.
  - exists k. split; [done|]. apply Receiver.first_key_Some in E as [Hk _]. by apply held_range.
  - apply Receiver.first_key_None in E. pose proof (held_size q w) as Hs. rewrite E, map_size_empty in Hs. lia.
Qed.

(** ** One poll *)

Section Polls.
Context {H : Type} `{Wire.Handler H}.
Variable session : Mold.SessionId.
Hypothesis wf_sess : Mold.wf_session session.

(** The receiver expects [q] next and holds what has arrived of [w]. *)
Record standing (q : Z) (w : list (bool * list Z)) (s : Receiver.MoldUdp64Receiver) : Prop := {
  st_session : Receiver.session_ s = session;
  st_next : Receiver.next_seq_ s = q;
  st_live : Receiver.ended_ s = false;
  st_pending : Receiver.pending_ s = held q w;
  st_blocked : blocked w }.

Lemma standing_idle q s : standing q [] s <-> Session.idle session q false s.
Proof. split; [intros []; by split_and!|intros (? & ? & ? & ?); by constructor]. Qed.

Lemma drain_held w q fuel frames s (h : H) : Forall Wire.wf_frame w.*2 -> Receiver.next_seq_ s = q -> Receiver.pending_ s = held q w ->
  1 <= q -> q + Z.of_nat (length w) < 9223372036854775808 -> (ready w < fuel)%nat ->
  exists s', Receiver.drain_loop fuel frames s h =
      Ok ((frames + ready w)%nat, s', foldl Wire.apply_event h (Wire.frame_event <$> take (ready w) w.*2)) /\
    Receiver.session_ s' = Receiver.session_ s /\ Receiver.ended_ s' = Receiver.ended_ s /\
    Receiver.requests_ s' = Receiver.requests_ s /\ Receiver.next_seq_ s' = q + Z.of_nat (ready w) /\
    Receiver.pending_ s' = held (q + Z.of_nat (ready w)) (drop (ready w) w).
Proof.
  revert q fuel frames s h. induction w as [|[[] f] w IH]; intros q [|fuel] frames s h Hw Hn Hp Hq Hlen Hfuel;
    cbn [ready] in *; try lia; cbn [length] in Hlen.
  1,2: rewrite Session.drain_loop_stop by (rewrite Hp, Hn; cbn [held]; intros Hf;
         first [done|apply Receiver.first_key_Some in Hf as [Hf%held_range _]; lia]);
       exists s; rewrite Nat.add_0_r, Z.add_0_r; by split_and!.
  cbn [fmap list_fmap snd] in Hw. apply Forall_cons_1 in Hw as [Hf Hw]. cbn [held] in Hp.
  destruct (Session.drain_one fuel frames f (held (q + 1) w) s h Hf) as (s1 & -> & D1 & D2 & D3 & D4 & D5);
    [lia|by rewrite Hp, Hn|rewrite Hn; apply held_none; lia|intros k Hk%held_range; lia|].
  rewrite Hn in D2. destruct (IH (q + 1) fuel (frames + 1)%nat s1 (Wire.apply_event h (Wire.frame_event f)) Hw D2 D3)
    as (s2 & -> & E1 & E2 & E3 & E4 & E5); [lia..|].
  exists s2. cbn [fmap list_fmap snd take foldl drop]. split; [do 3 f_equal; lia|].
  replace (q + Z.of_nat (S (ready w))) with (q + 1 + Z.of_nat (ready w)) by lia. by split_and!; congruence.
Qed.

(** Nothing is taken off the list of requests. *)
Lemma wait_requests turns s turns' s' : Receiver.wait turns s = Ok (turns', s') -> Receiver.requests_ s' = Receiver.requests_ s.
Proof.
  revert s. induction turns as [|[|buf eagain] turns IH]; intros s; cbn [Receiver.wait]; [by intros [= <- <-]..|].
  case_match; [case_match; [by intros [= <- <-]|apply IH]|].
  destruct (Mold.decode buf 0) as [hd| | |]; try discriminate. rewrite bind_Ok.
  do 3 (case_match; [apply IH|]). cbv zeta. set (s1 := Receiver.buffer _ _ _ s).
  assert (Receiver.requests_ s1 = Receiver.requests_ s) as <- by (unfold s1, Receiver.buffer; by case_match).
  case_match; [by intros [= <- <-]|apply IH].
Qed.

Lemma resolve_requests n turns s turns' s' : Receiver.resolve_loop n turns s = Ok (turns', s') ->
  exists more, Receiver.requests_ s' = Receiver.requests_ s ++ more.
Proof.
  revert turns s. induction n as [|n IH]; intros turns s; cbn [Receiver.resolve_loop].
  { intros [= <- <-]. exists []. by rewrite app_nil_r. }
  repeat (case_match; [|intros [= <- <-]; exists []; by rewrite app_nil_r]). cbv zeta.
  unfold Receiver.send_request. destruct (Mold.encode _ _) as [pkt| | |]; try discriminate. rewrite !bind_Ok.
  destruct (Receiver.wait _ _) as [[turns1 s1]| | |] eqn:Hw; try discriminate. rewrite bind_Ok.
  intros (more & ->)%IH. apply wait_requests in Hw as ->. cbn. rewrite <- app_assoc. by eexists.
Qed.

Lemma drain_requests fuel frames s (h : H) frames' s' h' : Receiver.drain_loop fuel frames s h = Ok (frames', s', h') ->
  Receiver.requests_ s' = Receiver.requests_ s.
Proof.
  revert frames s h. induction fuel as [|fuel IH]; intros frames s h; cbn [Receiver.drain_loop]; [done|].
  case_match; [|by intros [= <- <- <-]]. case_match; [|done].
  destruct (Wire.parse_stream _ _ _) as [[k h1]| | |]; try discriminate. rewrite bind_Ok. by intros ->%IH.
Qed.

(** The first request of a poll that finds a gap does not depend on what comes back. *)
Lemma poll_requests q p k f' turns s (h : H) n s1 h1 : Wire.wf_frame f' -> 1 <= q < p -> p < 9223372036854775808 ->
  Receiver.session_ s = session -> Receiver.next_seq_ s = q -> (size (Receiver.pending_ s) < 256)%nat ->
  Receiver.first_key (<[p := Receiver.mkPending 1 (Sender.block f')]> (Receiver.pending_ s)) = Some k -> q < k <= p ->
  Receiver.poll (Sender.datagram session p (Sender.block f')) turns s h = Ok (n, s1, h1) ->
  exists more, Receiver.requests_ s1 = Receiver.requests_ s ++ Mold.packed (Mold.mkHeader session q (Z.min (k - q) 65534)) :: more.
Proof.
  intros Hf' Hq Hp H1 H2 Hsize Hk Hkr. rewrite Session.poll_datagram by (done || (unfold is_u64; lia)).
  unfold Receiver.accept. rewrite H2, (proj2 (Z.ltb_ge _ _)) by lia. cbv zeta.
  unfold Receiver.buffer. rewrite (proj2 (Nat.leb_gt _ _)) by (unfold Receiver.kMaxPendingPackets; lia). cbn [andb].
  unfold Receiver.resolve_gaps. change Receiver.kMaxGapFillAttempts with (S (Receiver.kMaxGapFillAttempts - 1)).
  generalize (Receiver.kMaxGapFillAttempts - 1)%nat as m. intros m. cbn [Receiver.resolve_loop Receiver.pending_ Receiver.next_seq_].
  rewrite Hk, H2, (proj2 (Z.ltb_lt _ _)) by lia. cbv zeta. rewrite (u64_id (k - q)), u16_id by (unfold is_u64, is_u16; lia).
  unfold Receiver.send_request. cbn [Receiver.session_]. rewrite Mold.encode_ok, !bind_Ok by (cbn; by rewrite H1).
  destruct (Receiver.wait _ _) as [[turns1 s2]| | |] eqn:Hw; try discriminate. rewrite bind_Ok.
  destruct (Receiver.resolve_loop _ _ _) as [[turns2 s3]| | |] eqn:Hr; try discriminate. rewrite bind_Ok.
  intros Hd%drain_requests. apply resolve_requests in Hr as [more Hr]. apply wait_requests in Hw.
  exists more. rewrite Hd, Hr, Hw. cbn. rewrite H1, <- app_assoc. done.
Qed.

(** ** A request channel that answers *)

(** What a poll receives on the request channel, if it [asked] anything:
    first the sender's answers to the first request. *)
Definition answered (tx : Sender.MoldUdp64Sender) (asked : list (list Z)) (turns : list Receiver.turn) : Prop :=
  match asked with
  | [] => True
  | req :: _ => exists answers e rest, Sender.serve_one_request tx req = Ok (true, answers) /\
      turns = ((fun a => Receiver.Recv a e) <$> answers) ++ rest
  end.

Fixpoint served (tx : Sender.MoldUdp64Sender) (inputs : list (list Z * list Receiver.turn)) (s : Receiver.MoldUdp64Receiver) (h : H) : Prop :=
  match inputs with
  | [] => True
  | (buf, turns) :: inputs => exists n s1 h1, Receiver.poll buf turns s h = Ok (n, s1, h1) /\
      answered tx (drop (length (Receiver.requests_ s)) (Receiver.requests_ s1)) turns /\ served tx inputs s1 h1
  end.

(** The window once a packet [f'] has come and the first missing message
    has been repaired. *)
Definition repaired (w : list (bool * list Z)) (f' : list Z) : list (bool * list Z) :=
  match w with
  | [] => [(false, f')]
  | (_, f) :: w => (false, f) :: w ++ [(false, f')]
  end.

Lemma repaired_frames w f' : (repaired w f').*2 = w.*2 ++ [f'].
Proof. destruct w as [|[b f] w]; [done|]. cbn. by rewrite fmap_app. Qed.

Lemma repaired_owed w f' : blocked w -> owed (repaired w f') = (owed w - 1)%nat.
Proof. destruct w as [|[[] f] w]; cbn; [done| |done]. intros _. rewrite owed_snoc. lia. Qed.

Lemma repaired_length w f' : length (repaired w f') = S (length w).
Proof. destruct w as [|[b f] w]; [done|]. cbn. rewrite length_app. cbn. lia. Qed.

(** The effect of an arrival, and what it takes for it to have it. *)
Definition advances (tx : Sender.MoldUdp64Sender) (buf : list Z) (s : Receiver.MoldUdp64Receiver) (h : H)
  (n : nat) (s' : Receiver.MoldUdp64Receiver) (h' : H) : Prop :=
  (forall turns n1 s1 h1, Receiver.poll buf turns s h = Ok (n1, s1, h1) ->
     answered tx (drop (length (Receiver.requests_ s)) (Receiver.requests_ s1)) turns -> n1 = n /\ s1 = s' /\ h1 = h') /\
  exists turns, Receiver.poll buf turns s h = Ok (n, s', h') /\
    answered tx (drop (length (Receiver.requests_ s)) (Receiver.requests_ s')) turns.

(** The sender's answers to a request from [q] start with [q]. *)
Lemma serve_first A f rest q c : Z.of_nat (length A) < 4611686018427387903 -> q = Z.of_nat (length A) + 1 -> 1 <= c < 65536 ->
  exists more, Sender.serve_one_request (Sender.mkSender session (Sender.block <$> (A ++ f :: rest)))
      (Mold.packed (Mold.mkHeader session q c)) = Ok (true, Sender.datagram session q (Sender.block f) :: more).
Proof.
  intros HA -> Hc. rewrite Session.serve_range by (first [done|split_and!; [done|cbn; unfold is_u64; lia|cbn; u32c]|cbn; lia]).
  cbn [Mold.seq Mold.count]. replace (Z.to_nat (Z.of_nat (length A) + 1 - 1)) with (length A) by lia.
  rewrite fmap_app, drop_app_length' by (by rewrite length_fmap).
  destruct (Z.to_nat c) as [|n] eqn:E; [lia|]. cbn. by eexists.
Qed.

(** An arrival while [f] is the first message missing, [f] being the first
    answer: [k] is what the gap is seen to reach to. *)
Lemma repair q w f f' s (h : H) : standing q ((true, f) :: w) s -> (size (held (q + 1) w) < 255)%nat ->
  Wire.wf_frame f -> Forall Wire.wf_frame w.*2 -> Wire.wf_frame f' ->
  1 <= q -> q + Z.of_nat (length w) < 4611686018427387904 ->
  let p := q + 1 + Z.of_nat (length w) in
  let r := (false, f) :: w ++ [(false, f')] in
  exists k s', q < k <= p /\
    Receiver.first_key (<[p := Receiver.mkPending 1 (Sender.block f')]> (Receiver.pending_ s)) = Some k /\
    standing (q + Z.of_nat (ready r)) (drop (ready r) r) s' /\
    Receiver.requests_ s' = Receiver.requests_ s ++ [Mold.packed (Mold.mkHeader session q (Z.min (k - q) 65534))] /\
    forall e rest, Receiver.poll (Sender.datagram session p (Sender.block f'))
        (Receiver.Recv (Sender.datagram session q (Sender.block f)) e :: rest) s h =
      Ok (ready r, s', foldl Wire.apply_event h (Wire.frame_event <$> take (ready r) r.*2)).
Proof.
  intros [S1 S2 S3 S4 S5] Hsize Hf Hw Hf' Hq Hlen p r. cbn [held] in S4. set (u := w ++ [(false, f')]) in *.
  assert (Forall Wire.wf_frame u.*2) as Hu by (unfold u; rewrite fmap_app; by apply Forall_app_2; [|apply Forall_singleton]).
  assert (<[p := Receiver.mkPending 1 (Sender.block f')]> (Receiver.pending_ s) = held (q + 1) u) as Hpend
    by (unfold u; by rewrite held_snoc, S4).
  destruct (held_first (q + 1) u) as (k & Hk & Hkr).
  { unfold u. rewrite owed_snoc, length_app. cbn [length]. pose proof (ready_owed w). lia. }
  assert (length u = S (length w)) as Hul by (unfold u; rewrite length_app; cbn; lia). rewrite <- Hpend in Hk.
  destruct (Session.poll_repair session wf_sess q p k f f' s h Hf Hf' ltac:(unfold p; lia) ltac:(unfold p; lia) S1 S2 S3)
    as (s3 & R1 & R2 & R3 & R4 & R5 & Hpoll); [by rewrite S4|rewrite S4; intros j Hj%held_range; lia|done|].
  rewrite Hpend in R4. change (<[q := Receiver.mkPending 1 (Sender.block f)]> (held (q + 1) u)) with (held q r) in R4.
  destruct (drain_held r q (size (Receiver.pending_ s3) + 1) 0 s3 h) as (s4 & Hd & D1 & D2 & D3 & D4 & D5);
    [by apply Forall_cons_2|done|done|done|unfold r; cbn [length]; lia| |].
  { rewrite R4. pose proof (held_size q r). pose proof (ready_owed r). lia. }
  exists k, s4. split_and!; [lia..|done| |by rewrite D3, R5|].
  - constructor; [congruence|congruence|congruence|done|apply drop_ready_blocked].
  - intros e rest. rewrite Hpoll. exact Hd.
Qed.

Lemma arrival A w f' B q s (h : H) : let fs := A ++ w.*2 ++ f' :: B in
  Forall Wire.wf_frame fs -> Z.of_nat (length fs) < 4611686018427387904 -> q = Z.of_nat (length A) + 1 ->
  standing q w s -> (size (held q w) < 255)%nat ->
  exists s', let r := repaired w f' in
    advances (Sender.mkSender session (Sender.block <$> fs))
      (Sender.datagram session (q + Z.of_nat (length w)) (Sender.block f')) s h
      (ready r) s' (foldl Wire.apply_event h (Wire.frame_event <$> take (ready r) r.*2)) /\
    standing (q + Z.of_nat (ready r)) (drop (ready r) r) s' /\
    length (Receiver.requests_ s') = (length (Receiver.requests_ s) + match w with [] => 0 | _ => 1 end)%nat.
Proof.
  intros fs Hfs Hlen Hq Hs Hsize. unfold fs in Hlen. rewrite !length_app, length_fmap in Hlen. cbn [length] in Hlen.
  pose proof Hfs as [HA [Hw [Hf' HB]%Forall_cons_1]%Forall_app]%Forall_app.
  destruct w as [|[miss f] w].
  { cbn [length repaired ready drop take fmap list_fmap snd]. rewrite Z.add_0_r.
    destruct (Session.poll_in_order session wf_sess q f' s h Hf' ltac:(lia) (proj1 (standing_idle q s) Hs)) as (s' & Hi & Hr & Hp).
    exists s'. unfold advances. split_and!; [|exists []; rewrite Hp, Hr, drop_all; done|by apply standing_idle|rewrite Hr; lia].
    intros turns n1 s1 h1. rewrite Hp. by intros [= <- <- <-] _. }
  pose proof (st_blocked _ _ _ Hs) as Hb. destruct miss; [|discriminate Hb].
  cbn [fmap list_fmap snd length held] in Hlen, Hw, Hsize |- *. apply Forall_cons_1 in Hw as [Hf Hw].
  destruct (repair q w f f' s h Hs Hsize Hf Hw Hf') as (k & s4 & Hkr & Hk & Hst & Hreq & Hpoll); [lia..|].
  replace (q + Z.of_nat (S (length w))) with (q + 1 + Z.of_nat (length w)) by lia. cbn [repaired].
  set (r := (false, f) :: w ++ [(false, f')]) in *. exists s4. cbn [held] in Hs.
  destruct (serve_first A f (w.*2 ++ f' :: B) q (Z.min (k - q) 65534)) as (more & Hserve); [lia|done|lia|].
  change (A ++ f :: w.*2 ++ f' :: B) with fs in Hserve. unfold advances. split_and!; [| |done|rewrite Hreq, length_app; cbn; lia].
  - intros turns n1 s1 h1 Hrun.
    destruct (poll_requests q (q + 1 + Z.of_nat (length w)) k f' turns s h n1 s1 h1 Hf' ltac:(lia) ltac:(lia)
      (st_session _ _ _ Hs) (st_next _ _ _ Hs)) as (tl & Hreq1); [rewrite (st_pending _ _ _ Hs); cbn [held]; lia|done|lia|done|].
    rewrite Hreq1, drop_app_length. intros (answers & e & rest & Ha & ->). rewrite Hserve in Ha. injection Ha as <-.
    cbn [fmap list_fmap app] in Hrun. rewrite Hpoll in Hrun. by injection Hrun as <- <- <-.
  - exists ((fun a => Receiver.Recv a false) <$> Sender.datagram session q (Sender.block f) :: more).
    split; [cbn [fmap list_fmap]; by rewrite Hpoll|]. rewrite Hreq, drop_app_length.
    exists (Sender.datagram session q (Sender.block f) :: more), false, []. by rewrite app_nil_r.
Qed.

(** ** A session *)

Lemma recovers_arrival lost w busy f' : blocked w -> (length w <= owed w + busy)%nat ->
  recovers (false :: lost) (owed w) busy = true ->
  let w' := drop (ready (repaired w f')) (repaired w f') in
  (w = [] \/ busy < 255)%nat /\
  exists busy', recovers lost (owed w') busy' = true /\ (length w' <= owed w' + busy')%nat.
Proof.
  intros Hw Hlen. cbn [recovers]. cbv zeta. rewrite drop_ready_owed, repaired_owed, length_drop, repaired_length by done.
  destruct w as [|[[] f] w]; [|clear Hw|done]; cbn [owed length] in *.
  { intros Hr. split; [by left|]. exists 0%nat. split; [done|]. cbn. lia. }
  destruct (owed w) as [|o] eqn:Ho; intros [Hb%Nat.ltb_lt Hr]%andb_true_iff; (split; [by right|]).
  - exists 0%nat. split; [done|]. rewrite nothing_owed; [|cbn [repaired owed]; rewrite owed_snoc; lia].
    cbn [repaired length]. rewrite length_app. cbn. lia.
  - exists (S busy). split; [done|]. cbn [repaired ready]. lia.
Qed.

Lemma losses_cons should_drop i n : losses should_drop i (S n) = should_drop (Z.of_nat i + 1) :: losses should_drop (S i) n.
Proof. done. Qed.

(** The number of [true]s. *)
Fixpoint count_losses (lost : list bool) : nat :=
  match lost with [] => 0 | b :: lost => ((if b : bool then 1 else 0) + count_losses lost)%nat end.

(** The packets [pkts], one arrival each, deliver the messages [l] and take
    [asks] requests; the last one, and none before it, ends the session, with
    [q] next. *)
Fixpoint leads (tx : Sender.MoldUdp64Sender) (q : Z) (pkts : list (list Z)) (s : Receiver.MoldUdp64Receiver) (h : H)
  (l : list (list Z)) (asks : nat) : Prop :=
  match pkts with
  | [] => Session.idle session q true s /\ l = [] /\ asks = 0%nat
  | buf :: pkts => Receiver.ended_ s = false /\ exists l1 l2 s1 a1 a2, l = l1 ++ l2 /\ asks = (a1 + a2)%nat /\
      advances tx buf s h (length l1) s1 (foldl Wire.apply_event h (Wire.frame_event <$> l1)) /\
      length (Receiver.requests_ s1) = (length (Receiver.requests_ s) + a1)%nat /\
      leads tx q pkts s1 (foldl Wire.apply_event h (Wire.frame_event <$> l1)) l2 a2
  end.

(** The request channel can always answer. *)
Lemma leads_served tx q pkts s h l asks : leads tx q pkts s h l asks ->
  exists inputs, inputs.*1 = pkts /\ served tx inputs s h.
Proof.
  revert s h l asks. induction pkts as [|buf pkts IH]; intros s h l asks; cbn [leads]; [by exists []|].
  intros (_ & l1 & l2 & s1 & a1 & a2 & _ & _ & [_ (turns & Hp & Ha)] & _ & Hl).
  destruct (IH _ _ _ _ Hl) as (inputs & Hin & Hserved). exists ((buf, turns) :: inputs).
  split; [cbn; by rewrite Hin|]. by eexists _, s1, _.
Qed.

(** However it does, the outcome is the same. *)
Lemma leads_run tx q pkts s h l asks inputs frames : leads tx q pkts s h l asks -> inputs.*1 = pkts -> served tx inputs s h ->
  exists s', Receiver.run inputs frames s h = Ok ((frames + length l)%nat, s', foldl Wire.apply_event h (Wire.frame_event <$> l)) /\
    Session.idle session q true s' /\ length (Receiver.requests_ s') = (length (Receiver.requests_ s) + asks)%nat.
Proof.
  intros Hl <-. revert frames s h l asks Hl.
  induction inputs as [|[buf turns] inputs IH]; intros frames s h l asks; cbn [leads fmap list_fmap fst served Receiver.run].
  { intros (Hs & -> & ->) _. exists s. cbn. rewrite !Nat.add_0_r. by split_and!. }
  intros (_ & l1 & l2 & s1 & a1 & a2 & -> & -> & [Hadv _] & Hreq & Hl) (n & s1' & h1 & Hp & Ha & Hserved).
  destruct (Hadv _ _ _ _ Hp Ha) as (-> & -> & ->). rewrite Hp, bind_Ok.
  destruct (IH (frames + length l1)%nat _ _ _ _ Hl Hserved) as (s' & -> & Hs' & Hr).
  exists s'. rewrite fmap_app, foldl_app, length_app. split_and!; [do 3 f_equal; lia|done|lia].
Qed.

Lemma leads_end tx q n s (h : H) : Session.idle session q false s -> Z.of_nat n < 4611686018427387904 ->
  leads tx q [Session.end_packet session n] s h [] 0.
Proof.
  intros Hs Hn. destruct (Session.poll_end session wf_sess (Z.of_nat n + 1) q s h) as (s' & Hs' & Hr & Hp); [unfold is_u64; lia|done|].
  cbn [leads]. split; [apply Hs|]. exists [], [], s', 0%nat, 0%nat. do 2 (split; [done|]). split; [|split; [rewrite Hr; lia|by split_and!]].
  unfold Session.end_packet, advances. split.
  - intros turns n1 s1 h1. rewrite Hp. by intros [= <- <- <-] _.
  - exists []. split; [apply Hp|]. by rewrite Hr, drop_all.
Qed.

Lemma conversation fs should_drop : Forall Wire.wf_frame fs -> Z.of_nat (length fs) < 4611686018427387904 ->
  forall B A w busy s (h : H), fs = A ++ w.*2 ++ B -> standing (Z.of_nat (length A) + 1) w s ->
  (length w <= owed w + busy)%nat -> recovers (losses should_drop (length A + length w) (length B)) (owed w) busy = true ->
  leads (Sender.mkSender session (Sender.block <$> fs)) (Z.of_nat (length fs) + 1)
    (Sender.sent session should_drop (length A + length w) (Sender.block <$> B) ++ [Session.end_packet session (length fs)])
    s h (w.*2 ++ B) (owed w + count_losses (losses should_drop (length A + length w) (length B))).
Proof.
  intros Hfs Hlen. induction B as [|f B IH]; intros A w busy s h HB Hs Hbusy Hrec.
  - cbn in Hrec. apply Nat.eqb_eq in Hrec. pose proof (nothing_owed w Hrec) as Hw. rewrite (st_blocked _ _ _ Hs) in Hw.
    destruct w; [|done]. rewrite app_nil_r in HB. subst A. cbn. by apply leads_end; [apply standing_idle|].
  - cbn [length fmap list_fmap Sender.sent] in *. rewrite losses_cons in *. cbn [count_losses].
    destruct (should_drop _).
    + rewrite app_nil_l. cbn [recovers] in Hrec. specialize (IH A (w ++ [(true, f)]) busy s h).
      rewrite fmap_app, owed_snoc, length_app, <- app_assoc in IH. cbn [fmap list_fmap snd length app] in IH.
      replace (length A + (length w + 1))%nat with (S (length A + length w)) in IH by lia.
      rewrite Nat.add_assoc. apply IH; try done; [|lia|by rewrite Nat.add_1_r].
      destruct Hs as [H1 H2 H3 H4 H5]. constructor; try done; [by rewrite held_snoc|].
      by destruct w as [|[[] f0] w].
    + destruct (recovers_arrival _ w busy f (st_blocked _ _ _ Hs) Hbusy Hrec) as (Hroom & busy' & Hrec' & Hbusy').
      set (r := repaired w f) in *.
      destruct (arrival A w f B (Z.of_nat (length A) + 1) s h) as (s1 & Hadv & Hs1 & Hreq);
        [by rewrite <- HB|by rewrite <- HB|done|done| |].
      { destruct Hroom as [->|Hroom]; [cbn; rewrite map_size_empty; lia|].
        pose proof (held_size (Z.of_nat (length A) + 1) w). lia. }
      fold r in Hadv, Hs1. rewrite <- HB in Hadv.
      set (l := take (ready r) r.*2) in *. set (w' := drop (ready r) r) in *.
      assert (l ++ w'.*2 = w.*2 ++ [f]) as Hl
        by (unfold l, w'; rewrite fmap_drop, take_drop; apply repaired_frames).
      assert (length l = ready r) as Hll by (unfold l; rewrite length_take, length_fmap; pose proof (ready_owed r); lia).
      assert ((length A + length l + length w')%nat = S (length A + length w)) as Hi.
      { apply (f_equal length) in Hl. rewrite !length_app, !length_fmap in Hl. cbn [length] in Hl. lia. }
      specialize (IH (A ++ l) w' busy' s1 (foldl Wire.apply_event h (Wire.frame_event <$> l))).
      rewrite length_app, Hi in IH.
      replace (w.*2 ++ f :: B) with (l ++ w'.*2 ++ B) by (by rewrite app_assoc, Hl, <- app_assoc).
      replace (owed w + _)%nat with (match w with [] => 0 | _ => 1 end + (owed w' + count_losses (losses should_drop (S (length A + length w)) (length B))))%nat.
      2: { unfold w'. rewrite drop_ready_owed. unfold r. rewrite repaired_owed by apply (st_blocked _ _ _ Hs).
           pose proof (st_blocked _ _ _ Hs) as Hb. destruct w as [|[[] f0] w]; cbn [owed]; [lia..|done]. }
      replace (Z.of_nat (length A + length w) + 1) with (Z.of_nat (length A) + 1 + Z.of_nat (length w)) by lia.
      split; [apply Hs|]. eexists l, _, s1, _, _. do 2 (split; [reflexivity|]). split; [by rewrite Hll|]. split; [done|]. apply IH; try done.
      * by rewrite HB, <- app_assoc, (app_assoc l), Hl, <- app_assoc.
      * replace (Z.of_nat (length A + length l) + 1) with (Z.of_nat (length A) + 1 + Z.of_nat (ready r)) by lia. done.
Qed.

(** From the first packet to the last. *)
Lemma whole_session fs should_drop h : Forall Wire.wf_frame fs -> Z.of_nat (length fs) < 4611686018427387904 ->
  recovers (losses should_drop 0 (length fs)) 0 0 = true ->
  leads (Sender.mkSender session (Sender.block <$> fs)) (Z.of_nat (length fs) + 1)
    (Sender.sent session should_drop 0 (Sender.block <$> fs) ++ [Session.end_packet session (length fs)])
    (Receiver.construct session) h fs (count_losses (losses should_drop 0 (length fs))).
Proof.
  intros Hfs Hlen Hrec. apply (conversation fs should_drop Hfs Hlen fs [] [] 0%nat); [done|by apply standing_idle|cbn; lia|done].
Qed.

(** When nothing is lost nothing is asked, whatever the request channel brings. *)
Lemma lossless_served tx n fs i inputs s h : Forall Wire.wf_frame fs -> Session.idle session (Z.of_nat i + 1) false s ->
  Z.of_nat (i + length fs) < 4611686018427387904 -> Z.of_nat n < 4611686018427387904 ->
  inputs.*1 = Sender.sent session (fun _ => false) i (Sender.block <$> fs) ++ [Session.end_packet session n] ->
  served tx inputs s h.
Proof.
  intros Hfs. revert i inputs s h. induction Hfs as [|f fs Hf Hfs IH]; intros i [|[buf turns] inputs] s h Hs Hi Hn; try done;
    cbn [fmap list_fmap fst Sender.sent app length] in *; intros [= -> Hin].
  - apply fmap_nil_inv in Hin as ->.
    destruct (Session.poll_end session wf_sess (Z.of_nat n + 1) (Z.of_nat i + 1) s h) as (s1 & _ & Hr & Hp); [unfold is_u64; lia|done|].
    exists 0%nat, s1, h. split; [apply Hp|]. by rewrite Hr, drop_all.
  - destruct (Session.poll_in_order session wf_sess (Z.of_nat i + 1) f s h Hf) as (s1 & Hs1 & Hr & Hp); [lia|done|].
    exists 1%nat, s1, (Wire.apply_event h (Wire.frame_event f)). split; [apply Hp|].
    rewrite Hr, drop_all. split; [done|]. apply (IH (S i)); try done; [|lia].
    by replace (Z.of_nat (S i) + 1) with (Z.of_nat i + 1 + 1) by lia.
Qed.

End Polls.

Lemma no_losses i n : recovers (losses (fun _ => false) i n) 0 0 = true /\ count_losses (losses (fun _ => false) i n) = 0%nat.
Proof. revert i. induction n as [|n IH]; intros i; [done|]. rewrite losses_cons. apply IH. Qed.

(** ** Properties *)

(** C13: a receiver catches up with any losses the arrivals can make up for:
    if [recovers] holds of the pattern of losses, and in each poll the request
    channel brings what the sender answers to the poll's first request, the
    session ends in exactly the state of parsing the sender's file directly, with
    nothing left buffered and one request made for each lost message.
    A request channel that answers so always exists: the sender answers every
    request the receiver makes. *)
Theorem losses_recovered {H} `{Wire.Handler H} (framed : list Z) (session : Mold.SessionId) (should_drop : Z -> bool)
  (tx : Sender.MoldUdp64Sender) (pkts : list (list Z)) (h : H)
  (Hs : Mold.wf_session session) (Hf : Wire.bytes framed) (Hlen : Z.of_nat (length framed) < 4611686018427387904)
  (Hload : Sender.load framed (Sender.mkSender session []) = Ok tx) (Hsend : Sender.send_all tx should_drop = Ok pkts)
  (Hrec : recovers (losses should_drop 0 (length (Sender.messages_ tx))) 0 0 = true) :
  (exists inputs, inputs.*1 = pkts /\ served tx inputs (Receiver.construct session) h) /\
  forall inputs, inputs.*1 = pkts -> served tx inputs (Receiver.construct session) h ->
    exists n s h', Receiver.run inputs 0 (Receiver.construct session) h = Ok (n, s, h') /\
      Wire.parse_stream framed (length framed) h = Ok (n, h') /\
      Session.idle session (Z.of_nat n + 1) true s /\
      length (Receiver.requests_ s) = count_losses (losses should_drop 0 n).
Proof.
  rewrite Sender.load_ok in Hload by done. injection Hload as <-. cbn [Sender.session_ Sender.messages_] in *.
  rewrite length_fmap in Hrec. pose proof (Session.frames_count framed) as Hn. pose proof (Wire.frames_wf framed Hf) as Hwf.
  rewrite Wire.parse_stream_frames, take_ge by (done || lia). unfold Wire.events. set (fs := Wire.frames framed) in *.
  rewrite Session.send_all_ok in Hsend by (done || lia). injection Hsend as <-.
  pose proof (whole_session session Hs fs should_drop h Hwf ltac:(lia) Hrec) as Hl.
  split; [by eapply leads_served|]. intros inputs Hin Hserved.
  destruct (leads_run _ _ _ _ _ _ _ _ inputs 0 Hl Hin Hserved) as (s' & Hrun & Hi & Hr).
  by exists (length fs), s', (foldl Wire.apply_event h (Wire.frame_event <$> fs)).
Qed.

(** Five messages of which the second and third are lost: the fourth has the
    second repaired, the fifth the third. *)
Definition sample_burst : list Z := [0; 1; 65; 0; 1; 66; 0; 1; 67; 0; 1; 68; 0; 1; 69].
Definition sample_drop (q : Z) : bool := (q =? 2) || (q =? 3).
Definition sample_tx : Sender.MoldUdp64Sender := Sender.mkSender Session.sample_session [[0; 1; 65]; [0; 1; 66]; [0; 1; 67]; [0; 1; 68]; [0; 1; 69]].
Definition sample_pkts : list (list Z) :=
  [Sender.datagram Session.sample_session 1 [0; 1; 65]; Sender.datagram Session.sample_session 4 [0; 1; 68];
   Sender.datagram Session.sample_session 5 [0; 1; 69]; Session.end_packet Session.sample_session 5].

Lemma losses_recovered_witness : exists inputs s, inputs.*1 = sample_pkts /\
  Receiver.run inputs 0 (Receiver.construct Session.sample_session) ([] : list Wire.event) =
    Ok (5%nat, s, [Wire.EOther 65 1; Wire.EOther 66 1; Wire.EOther 67 1; Wire.EOther 68 1; Wire.EOther 69 1]) /\
  length (Receiver.requests_ s) = 2%nat.
Proof.
  destruct (losses_recovered sample_burst Session.sample_session sample_drop sample_tx sample_pkts ([] : list Wire.event))
    as [(inputs & Hin & Hserved) Hall].
  - exact (proj1 Mold.sample_header_wf).
  - apply (bool_decide_unpack _). vm_compute. exact I.
  - cbn. lia.
  - vm_compute. reflexivity.
  - vm_compute. reflexivity.
  - reflexivity.
  - destruct (Hall inputs Hin Hserved) as (n & s & h' & Hrun & Hparse & _ & Hreq). exists inputs, s.
    vm_compute in Hparse. injection Hparse as <- <-. split; [exact Hin|]. split; [exact Hrun|]. rewrite Hreq. reflexivity.
Defined.

End Recovery.
