(* ===== verification/Gzip.v ===== *)
(** * Gzip: replaying a compressed stream chunk by chunk

    Models [GzipSource::run] and [frame_boundary] of
    include/io/gzip_source.hpp.  The file and zlib are not this repository's
    code: a run takes the list of [fread] results, each with the list of
    results of the [inflate] calls made on it (the bytes produced and the
    return code).  An [inflate] call that fills the output buffer
    ([avail_out == 0]) is followed by another one on the same input. *)

From S2P Require Import Prelude Wire Encode.

Module Gzip.

(** Return codes: [Z_OK], [Z_BUF_ERROR] and [Z_STREAM_ERROR] go on, [Z_STREAM_END] ends,
    [Z_NEED_DICT], [Z_DATA_ERROR] and [Z_MEM_ERROR] throw. *)
Inductive zcode := Z_OK | Z_BUF_ERROR | Z_STREAM_ERROR | Z_STREAM_END | Z_NEED_DICT | Z_DATA_ERROR | Z_MEM_ERROR.

#[global] Instance zcode_eq_dec : EqDecision zcode.
Proof. solve_decision. Defined.

Record call := mkCall { produced : list Z; zret_of : zcode }.

Inductive fread_result := ReadError | Eof | Data (calls : list call).

(** The longest prefix of complete frames; one unit of fuel per frame. *)
Fixpoint boundary_loop (fuel : nat) (data : list Z) (len off : nat) : outcome nat :=
  match fuel with
  | O => NoFuel
  | S fuel =>
    if decide (off + 2 <= len)%nat then
      mlen ← Wire.be16 data off;
      if (mlen =? 0) || (len <? off + 2 + Z.to_nat mlen)%nat then Ok off
      else boundary_loop fuel data len (off + (2 + Z.to_nat mlen))
    else Ok off
  end.

Definition frame_boundary (data : list Z) (len : nat) : outcome nat := boundary_loop (len + 1) data len 0.

Section Handled.
Context {H : Type} `{Wire.Handler H}.

Record progress := mkProgress { bytes_ : Z; pending : list Z; frames : nat; handler : H }.

(** The body of the inner loop once [inflate] has returned [out]. *)
Definition consume (out : list Z) (p : progress) : outcome progress :=
  if (length out =? 0)%nat then Ok p
  else
    let pend := pending p ++ out in
    complete ← frame_boundary pend (length pend);
    '(n, h) ← Wire.parse_stream pend complete (handler p);
    Ok (mkProgress (u64 (bytes_ p + Z.of_nat (length out))) (drop complete pend) (frames p + n) h).

(** The inner [do ... while (zs.avail_out == 0)]. *)
Fixpoint inflate_loop (chunk : nat) (calls : list call) (p : progress) : outcome (zcode * progress) :=
  match calls with
  | [] => NoFuel
  | c :: calls =>
    match zret_of c with
    | Z_NEED_DICT | Z_DATA_ERROR | Z_MEM_ERROR => Throw "inflate failed"
    | zret =>
      p ← consume (produced c) p;
      if (length (produced c) =? chunk)%nat then inflate_loop chunk calls p else Ok (zret, p)
    end
  end.

(** The outer [do ... while (zret != Z_STREAM_END)]. *)
Fixpoint read_loop (chunk : nat) (reads : list fread_result) (zret : zcode) (p : progress) : outcome (zcode * progress) :=
  match reads with
  | [] => NoFuel
  | ReadError :: _ => Throw "read failed"
  | Eof :: _ => Ok (zret, p)
  | Data calls :: reads =>
    '(zret, p) ← inflate_loop chunk calls p;
    if decide (zret = Z_STREAM_END) then Ok (zret, p) else read_loop chunk reads zret p
  end.

Definition run (chunk : nat) (reads : list fread_result) (h : H) : outcome (nat * Z * H) :=
  '(zret, p) ← read_loop chunk reads Z_OK (mkProgress 0 [] 0 h);
  if negb (bool_decide (zret = Z_STREAM_END)) then Throw "gzip stream truncated before end marker"
  else if negb (length (pending p) =? 0)%nat then Throw "trailing partial ITCH frame after decompression"
  else Ok (frames p, bytes_ p, handler p).

(** ** What zlib promises

    The calls made on one [fread]: all but the last fill the buffer, the last
    does not, and none fails. *)
Fixpoint calls_ok (chunk : nat) (calls : list call) (zret : zcode) : Prop :=
  match calls with
  | [] => False
  | [c] => (length (produced c) < chunk)%nat /\ zret_of c = zret /\ (zret = Z_OK \/ zret = Z_BUF_ERROR \/ zret = Z_STREAM_END)
  | c :: calls => length (produced c) = chunk /\
      (zret_of c = Z_OK \/ zret_of c = Z_BUF_ERROR \/ zret_of c = Z_STREAM_END) /\ calls_ok chunk calls zret
  end.

Definition output (calls : list call) : list Z := concat (produced <$> calls).

(** A decompression of [data] in any chunking: every [fread] but the last
    goes on, the last one sees the end of the stream. *)
Inductive decompresses (chunk : nat) : list fread_result -> list Z -> Prop :=
| dec_last calls rest : calls_ok chunk calls Z_STREAM_END -> decompresses chunk (Data calls :: rest) (output calls)
| dec_more calls zret reads data : calls_ok chunk calls zret -> zret <> Z_STREAM_END ->
    decompresses chunk reads data -> decompresses chunk (Data calls :: reads) (output calls ++ data).

(** What any reading of a file comes to, failed or not: the bytes handed
    over, and how the decompression ended ([NoFuel]: the calls listed stop
    before its end).  A call that fails hands over nothing. *)
Fixpoint inflated (chunk : nat) (calls : list call) : list Z * outcome zcode :=
  match calls with
  | [] => ([], NoFuel)
  | c :: calls =>
    match zret_of c with
    | Z_NEED_DICT | Z_DATA_ERROR | Z_MEM_ERROR => ([], Throw "inflate failed")
    | zret =>
      if (length (produced c) =? chunk)%nat then let '(out, r) := inflated chunk calls in (produced c ++ out, r)
      else (produced c, Ok zret)
    end
  end.

Fixpoint unzipped (chunk : nat) (reads : list fread_result) : list Z * outcome () :=
  match reads with
  | [] => ([], NoFuel)
  | ReadError :: _ => ([], Throw "read failed")
  | Eof :: _ => ([], Throw "gzip stream truncated before end marker")
  | Data calls :: reads =>
    match inflated chunk calls with
    | (out, Ok zret) =>
      if decide (zret = Z_STREAM_END) then (out, Ok tt)
      else let '(more, r) := unzipped chunk reads in (out ++ more, r)
    | (out, Throw what) => (out, Throw what)
    | (out, UB) => (out, UB)
    | (out, NoFuel) => (out, NoFuel)
    end
  end.

(** The readings listed reach the end of the run. *)
Definition ended (chunk : nat) (reads : list fread_result) : Prop :=
  match (unzipped chunk reads).2 with Ok _ | Throw _ => True | _ => False end.

(** The contents, if the file is sound and holds whole frames. *)
Definition contents (chunk : nat) (reads : list fread_result) : option (list Z) :=
  match unzipped chunk reads with
  | (data, Ok _) => if decide (Wire.leftover data = []) then Some data else None
  | _ => None
  end.

(** ** Lemmas *)

Lemma boundary_loop_ok fuel data off : Wire.bytes data -> (off <= length data)%nat -> (length data - off < fuel)%nat ->
  boundary_loop fuel data (length data) off = Ok (length data - length (Wire.leftover (drop off data)))%nat.
Proof.
  intros Hb. revert off. induction fuel as [|fuel IH]; intros off Hoff Hfuel; [lia|].
  pose proof (length_drop data off) as Hlen. cbn [boundary_loop]. case_decide as H2.
  2: { destruct (Wire.frames_stop (drop off data)) as [_ ->]; [|f_equal; lia].
       destruct (drop off data) as [|? [|??]]; try reflexivity. cbn in Hlen. lia. }
  pose proof (Wire.bytes_drop off data Hb) as Hbd.
  rewrite Wire.be16_val, bind_Ok by (done || lia).
  destruct (drop off data) as [|b0 [|b1 tl]] eqn:Ed; cbn in Hlen; try lia.
  assert (Wire.be_val (take 2 (b0 :: b1 :: tl)) = b0 * 256 + b1) as -> by (unfold Wire.be_val; simpl; lia).
  destruct (Wire.next_frame (b0 :: b1 :: tl)) as [[f rest]|] eqn:Hn.
  - destruct (Wire.next_frame_eq _ _ _ Hbd Hn) as (c0 & c1 & Heq & Hc0 & Hc1 & Hv). injection Heq as <- <- Htl.
    pose proof (Wire.next_frame_shorter _ _ _ Hn) as [Hl Hpos]. cbn [length] in Hl.
    rewrite (proj2 (Z.eqb_neq _ _)) by lia. rewrite Hv, Nat2Z.id. rewrite (proj2 (Nat.ltb_ge _ _)) by lia. cbn [orb].
    destruct (Wire.frames_next _ _ _ Hn) as [_ ->].
    assert (drop (off + (2 + length f)) data = rest) as Hd.
    { rewrite <- (drop_drop _ _ off), Ed, Htl. cbn [drop plus]. apply drop_app_length. }
    rewrite IH, Hd by lia. done.
  - destruct (Wire.frames_stop _ Hn) as [_ ->]. cbn [Wire.next_frame] in Hn. case_decide as Hd; [|done].
    apply Forall_cons_1 in Hbd as [Hb0 Hbd]. apply Forall_cons_1 in Hbd as [Hb1 _]. unfold is_u8 in *.
    destruct (Z.eqb_spec (b0 * 256 + b1) 0); cbn [orb length]; [f_equal; lia|].
    rewrite (proj2 (Nat.ltb_lt _ _)) by lia. f_equal. lia.
Qed.

(** The boundary is where the complete frames end. *)
Lemma frame_boundary_ok data : Wire.bytes data ->
  exists n, frame_boundary data (length data) = Ok n /\ (n <= length data)%nat /\
    drop n data = Wire.leftover data /\ Wire.frames (take n data) = Wire.frames data.
Proof.
  intros Hb. unfold frame_boundary. rewrite boundary_loop_ok, drop_0 by (done || lia). eexists. split; [done|].
  split; [lia|]. induction data as [bs Hn|bs f tl Hn IH] using Wire.frames_ind.
  - destruct (Wire.frames_stop bs Hn) as [-> ->]. by rewrite Nat.sub_diag, drop_0, take_0.
  - destruct (Wire.next_frame_bytes _ _ _ Hb Hn) as [Hf Htl]. destruct (IH Htl) as [IH1 IH2].
    destruct (Wire.next_frame_eq _ _ _ Hb Hn) as (b0 & b1 & Heq & Hc0 & Hc1 & Hv).
    pose proof (Wire.next_frame_shorter _ _ _ Hn) as [Hlen Hpos].
    destruct (Wire.frames_next _ _ _ Hn) as [-> ->].
    assert (length (Wire.leftover tl) <= length tl)%nat as Hle by (rewrite <- IH1, length_drop; lia).
    replace (length bs - length (Wire.leftover tl))%nat
      with (2 + (length f + (length tl - length (Wire.leftover tl))))%nat by lia.
    set (k := (length tl - length (Wire.leftover tl))%nat) in *. subst bs. cbn [drop take plus].
    rewrite drop_app_add, IH1. split; [done|]. rewrite take_app_add.
    assert (Wire.next_frame (b0 :: b1 :: f ++ take k tl) = Some (f, take k tl)) as Hn'.
    { cbn [Wire.next_frame]. rewrite Hv, Nat2Z.id, decide_False by (rewrite length_app; lia).
      by rewrite take_app_length, drop_app_length. }
    destruct (Wire.frames_next _ _ _ Hn') as [-> _]. by rewrite IH2.
Qed.

(** Where a run stands when the bytes [seen] have been produced. *)
Definition stands (h : H) (seen : list Z) (p : progress) : Prop :=
  pending p = Wire.leftover seen /\ frames p = length (Wire.frames seen) /\
  handler p = foldl Wire.apply_event h (Wire.events seen) /\ bytes_ p = u64 (Z.of_nat (length seen)).

Lemma consume_ok h seen out p : Wire.bytes seen -> Wire.bytes out -> stands h seen p ->
  exists p', consume out p = Ok p' /\ stands h (seen ++ out) p'.
Proof.
  intros Hs Ho (H1 & H2 & H3 & H4). unfold consume.
  destruct (Nat.eqb_spec (length out) 0) as [Hz|Hz].
  { apply nil_length_inv in Hz as ->. rewrite app_nil_r. exists p. by split_and!. }
  assert (Wire.bytes (pending p ++ out)) as Hb.
  { apply Forall_app; split; [rewrite H1; by apply Wire.leftover_bytes|done]. }
  destruct (frame_boundary_ok _ Hb) as (n & -> & Hn & Hdrop & Hframes). rewrite bind_Ok.
  rewrite Wire.parse_stream_frames, bind_Ok by done.
  destruct (Wire.frames_app seen out) as [Hf Hl]. rewrite <- H1 in Hf, Hl.
  eexists. split; [reflexivity|]. unfold stands. cbn [pending frames handler bytes_].
  rewrite Hdrop, Hl, Hframes, H2, Hf, H3, H4, !length_app. unfold Wire.events. rewrite Hframes, Hf, fmap_app, foldl_app.
  split_and!; try done. rewrite Nat2Z.inj_add. unfold u64. by rewrite Zplus_mod_idemp_l.
Qed.

Lemma inflate_loop_ok chunk calls h seen p : Wire.bytes seen -> Wire.bytes (inflated chunk calls).1 -> stands h seen p ->
  match (inflated chunk calls).2 with
  | Ok zret => exists p', inflate_loop chunk calls p = Ok (zret, p') /\ stands h (seen ++ (inflated chunk calls).1) p'
  | Throw what => inflate_loop chunk calls p = Throw what
  | UB => inflate_loop chunk calls p = UB
  | NoFuel => inflate_loop chunk calls p = NoFuel
  end.
Proof.
  revert seen p. induction calls as [|c calls IH]; intros seen p Hs Hb Hp; cbn [inflated inflate_loop] in *; [done|].
  assert (Wire.bytes (produced c) -> exists p1, consume (produced c) p = Ok p1 /\ stands h (seen ++ produced c) p1) as Hcons
    by (intros; by apply consume_ok).
  destruct (zret_of c); try done.
  all: destruct (length (produced c) =? chunk)%nat.
  all: try (destruct (Hcons Hb) as (p1 & -> & Hp1); rewrite bind_Ok; by exists p1).
  all: destruct (inflated chunk calls) as [out r]; cbn [fst snd] in *; apply Forall_app in Hb as [Hb1 Hb2].
  all: destruct (Hcons Hb1) as (p1 & -> & Hp1); rewrite bind_Ok, app_assoc.
  all: apply IH; [by apply Forall_app|done|done].
Qed.

Lemma read_loop_ok chunk reads z0 h seen p : z0 <> Z_STREAM_END -> Wire.bytes seen -> Wire.bytes (unzipped chunk reads).1 ->
  stands h seen p ->
  match (unzipped chunk reads).2 with
  | Ok _ => exists p', read_loop chunk reads z0 p = Ok (Z_STREAM_END, p') /\ stands h (seen ++ (unzipped chunk reads).1) p'
  | Throw what => read_loop chunk reads z0 p = Throw what \/ exists zret p', read_loop chunk reads z0 p = Ok (zret, p') /\
      zret <> Z_STREAM_END /\ what = "gzip stream truncated before end marker"
  | UB => read_loop chunk reads z0 p = UB
  | NoFuel => read_loop chunk reads z0 p = NoFuel
  end.
Proof.
  revert z0 seen p. induction reads as [|[| |calls] reads IH]; intros z0 seen p Hz Hs Hb Hp; cbn [unzipped read_loop snd] in *;
    [done|by left|right; by exists z0, p|].
  pose proof (inflate_loop_ok chunk calls h seen p Hs) as Hi.
  destruct (inflated chunk calls) as [out [zret|what| |]]; cbn [fst snd] in *.
  2-4: rewrite Hi by done; auto.
  destruct (decide (zret = Z_STREAM_END)) as [E|E]; cbn [fst snd] in *.
  - destruct Hi as (p1 & -> & Hp1); [done..|]. rewrite bind_Ok, decide_True, E by done. by eexists.
  - destruct (unzipped chunk reads) as [more r]; cbn [fst snd] in *. apply Forall_app in Hb as [Hb1 Hb2].
    destruct Hi as (p1 & -> & Hp1); [done..|]. rewrite bind_Ok, decide_False, app_assoc by done.
    apply IH; [done|by apply Forall_app|done|done].
Qed.

(** A run in terms of what the decompression comes to. *)
Lemma run_unzipped chunk reads h : Wire.bytes (unzipped chunk reads).1 ->
  run chunk reads h =
    let '(data, r) := unzipped chunk reads in
    match r with
    | Ok _ =>
      if decide (Wire.leftover data = [])
      then Ok (length (Wire.frames data), u64 (Z.of_nat (length data)), foldl Wire.apply_event h (Wire.events data))
      else Throw "trailing partial ITCH frame after decompression"
    | Throw what => Throw what
    | UB => UB
    | NoFuel => NoFuel
    end.
Proof.
  intros Hb. unfold run.
  pose proof (read_loop_ok chunk reads Z_OK h [] (mkProgress 0 [] 0 h) ltac:(done) (Forall_nil_2 _) Hb) as Hr.
  destruct (unzipped chunk reads) as [data [[]|what| |]]; cbn [fst snd app] in Hr.
  - destruct Hr as (p & -> & H1 & H2 & H3 & H4); [by split_and!|].
    rewrite bind_Ok, bool_decide_eq_true_2 by done. cbn [negb]. rewrite H1, H2, H3, H4.
    case_decide as Hl; [by rewrite Hl|]. by destruct (Wire.leftover data).
  - destruct Hr as [->|(zret & p & -> & Hz & ->)]; [by split_and!|done|].
    by rewrite bind_Ok, bool_decide_eq_false_2.
  - by rewrite Hr.
  - by rewrite Hr.
Qed.

End Handled.
Arguments progress H : clear implicits.

(** A run of readings that end: the replay of the contents, or an exception. *)
Lemma run_contents {H} `{Wire.Handler H} chunk reads (h : H) : ended chunk reads -> Wire.bytes (unzipped chunk reads).1 ->
  match contents chunk reads with
  | Some data => data = (unzipped chunk reads).1 /\ run chunk reads h =
      Ok (length (Wire.frames data), u64 (Z.of_nat (length data)), foldl Wire.apply_event h (Wire.events data))
  | None => exists what, run chunk reads h = Throw what
  end.
Proof.
  intros He Hb. rewrite run_unzipped by done. unfold ended, contents in *.
  destruct (unzipped chunk reads) as [data [[]|what| |]]; try done; [|by eexists]. case_decide; [done|by eexists].
Qed.

(** A decompression that zlib carries to the end of the stream. *)
Lemma calls_inflated chunk calls zret : calls_ok chunk calls zret -> inflated chunk calls = (output calls, Ok zret).
Proof.
  unfold output. induction calls as [|c calls IH]; [done|]. intros Hok. cbn [inflated fmap list_fmap concat].
  destruct calls as [|c' calls].
  - destruct Hok as (Hlt & <- & Hz). rewrite (proj2 (Nat.eqb_neq _ _)) by lia. cbn. rewrite app_nil_r.
    by destruct Hz as [->|[->| ->]].
  - destruct Hok as (Heq & Hz & Hok). rewrite (IH Hok), (proj2 (Nat.eqb_eq _ _)) by done. by destruct Hz as [->|[->| ->]].
Qed.

Lemma decompresses_unzipped chunk reads data : decompresses chunk reads data -> unzipped chunk reads = (data, Ok tt).
Proof.
  induction 1 as [calls rest Hok|calls zret reads data Hok Hne _ IH]; cbn [unzipped]; rewrite (calls_inflated _ _ _ Hok).
  - by rewrite decide_True.
  - by rewrite decide_False, IH.
Qed.

(** A whole decompression against one parse of its output. *)
Lemma run_whole {H} `{Wire.Handler H} chunk reads data (h : H) n h' : decompresses chunk reads data -> Wire.bytes data ->
  Wire.parse_stream data (length data) h = Ok (n, h') ->
  run chunk reads h =
    if decide (Wire.leftover data = []) then Ok (n, u64 (Z.of_nat (length data)), h')
    else Throw "trailing partial ITCH frame after decompression".
Proof.
  intros Hdec Hb. rewrite Wire.parse_stream_frames, take_ge by (done || lia). intros [= <- <-].
  apply decompresses_unzipped in Hdec as Hu. rewrite run_unzipped; by rewrite Hu.
Qed.

(** ** Properties *)

(** C19: however the decompressed bytes are cut into chunks (inside a length
    prefix, inside a message), replaying the chunks ends exactly as parsing the
    whole decompressed file at once: the same count and the same handler
    when the file is a whole number of frames, and an exception when anything,
    a partial frame or a zero length, is left over. *)
Theorem chunked_replay_exact {H} `{Wire.Handler H} (chunk : nat) (reads : list fread_result) (data : list Z) (h : H)
  (Hdec : decompresses chunk reads data) (Hb : Wire.bytes data) :
  exists n h', Wire.parse_stream data (length data) h = Ok (n, h') /\
    run chunk reads h =
      if decide (Wire.leftover data = []) then Ok (n, u64 (Z.of_nat (length data)), h')
      else Throw "trailing partial ITCH frame after decompression".
Proof.
  pose proof (Wire.parse_stream_frames data (length data) h Hb (le_n _)) as Hparse.
  eexists _, _. split; [exact Hparse|]. by apply run_whole.
Qed.

(** Two frames cut inside the second one's length prefix, with a buffer of
    four bytes. *)
Definition sample_reads : list fread_result :=
  [Data [mkCall [0; 1; 65; 0] Z_OK; mkCall [2; 66] Z_OK]; Data [mkCall [66] Z_STREAM_END]].

Lemma chunked_replay_exact_witness :
  run 4 sample_reads ([] : list Wire.event) = Ok (2%nat, 7, [Wire.EOther 65 1; Wire.EOther 66 2]).
Proof.
  destruct (chunked_replay_exact 4 sample_reads [0; 1; 65; 0; 2; 66; 66] ([] : list Wire.event)) as (n & h' & H1 & H2).
  - apply (dec_more 4 [mkCall [0; 1; 65; 0] Z_OK; mkCall [2; 66] Z_OK] Z_OK [Data [mkCall [66] Z_STREAM_END]] [66]).
    + cbn. split; [reflexivity|]. split; [left; reflexivity|]. split; [lia|]. split; [reflexivity|]. left. reflexivity.
    + discriminate.
    + apply (dec_last 4 [mkCall [66] Z_STREAM_END]). cbn. split; [lia|]. split; [reflexivity|]. right. right. reflexivity.
  - apply (bool_decide_unpack _). vm_compute. exact I.
  - rewrite H2. vm_compute in H1. injection H1 as <- <-. vm_compute. reflexivity.
Defined.

End Gzip.
