(* ===== verification/Snapshot.v ===== *)
(** * Snapshot: the handoff between the ingest side and the query side

    Models include/pipeline/book_snapshot.hpp: the walk over the book table
    and the [SnapshotStore].  Every store operation holds the mutex for its
    whole body, so an operation is one atomic step on the state. *)

From S2P Require Import Prelude Wire Encode Book OrderBook LadderBook Builder.

Module Snapshot.

Record LocateSnapshot := mkLocateSnapshot {
  locate : Z;
  has_bid : bool; bid_price : Z; bid_shares : Z;
  has_ask : bool; ask_price : Z; ask_shares : Z;
  open_orders : Z; bid_levels : Z; ask_levels : Z }.

Section Walk.
Context {B : Type} `{Book.BookOps B}.

(** The lambda of [snapshot_book_table]. *)
Definition locate_snapshot (loc : Z) (b : B) : outcome LocateSnapshot :=
  bid ← Book.best_bid b;
  ask ← Book.best_ask b;
  Ok (mkLocateSnapshot loc
        (match bid with Some _ => true | None => false end)
        (match bid with Some q => Book.q_price q | None => 0 end)
        (match bid with Some q => Book.q_shares q | None => 0 end)
        (match ask with Some _ => true | None => false end)
        (match ask with Some q => Book.q_price q | None => 0 end)
        (match ask with Some q => Book.q_shares q | None => 0 end)
        (Z.of_nat (Book.open_orders b)) (Book.bid_levels b) (Book.ask_levels b)).

Fixpoint snapshot_list (books : list (Z * B)) : outcome (list LocateSnapshot) :=
  match books with
  | [] => Ok []
  | (loc, b) :: books =>
    s ← locate_snapshot loc b;
    ss ← snapshot_list books;
    Ok (s :: ss)
  end.

Definition snapshot_book_table (slots : list (option B)) : outcome (list LocateSnapshot) :=
  snapshot_list (Builder.for_each slots).

End Walk.

Record SnapshotStore := mkStore { data_ : list LocateSnapshot; version_ : Z; unknown_refs_ : Z }.

Definition empty_store : SnapshotStore := mkStore [] 0 0.

Definition publish (next : list LocateSnapshot) (unknown_refs : Z) (st : SnapshotStore) : SnapshotStore :=
  mkStore next (u64 (version_ st + 1)) unknown_refs.

Definition read_all (st : SnapshotStore) : list LocateSnapshot := data_ st.

Definition unknown_refs (st : SnapshotStore) : Z := unknown_refs_ st.

Fixpoint find_in (loc : Z) (l : list LocateSnapshot) : option LocateSnapshot :=
  match l with
  | [] => None
  | s :: l => if locate s =? loc then Some s else find_in loc l
  end.

Definition find (loc : Z) (st : SnapshotStore) : option LocateSnapshot := find_in loc (data_ st).

Definition version (st : SnapshotStore) : Z := version_ st.

(** ** The reference *)

(** What a snapshot of a locate should say, from its resting orders. *)
Definition spec_snapshot (loc : Z) (os : gmap Z Book.Order) : LocateSnapshot :=
  mkLocateSnapshot loc
    (match Book.spec_best true os with Some _ => true | None => false end)
    (match Book.spec_best true os with Some q => Book.q_price q | None => 0 end)
    (match Book.spec_best true os with Some q => Book.q_shares q | None => 0 end)
    (match Book.spec_best false os with Some _ => true | None => false end)
    (match Book.spec_best false os with Some q => Book.q_price q | None => 0 end)
    (match Book.spec_best false os with Some q => Book.q_shares q | None => 0 end)
    (Z.of_nat (size os)) (Z.of_nat (size (Book.prices true os))) (Z.of_nat (size (Book.prices false os))).

Section Proofs.
Context {B : Type} `{L : Book.BookLaws B}.
Implicit Type slots : list (option B).

Lemma locate_snapshot_ok loc b : Book.inv b -> locate_snapshot loc b = Ok (spec_snapshot loc (Book.orders b)).
Proof.
  intros Hb. unfold locate_snapshot. rewrite Book.best_bid_law, bind_Ok, Book.best_ask_law, bind_Ok by done.
  by rewrite Book.open_orders_law, Book.bid_levels_law, Book.ask_levels_law.
Qed.

Lemma snapshot_list_ok (books : list (Z * B)) : Forall (fun lb => Book.inv lb.2) books ->
  snapshot_list books = Ok ((fun lb => spec_snapshot lb.1 (Book.orders lb.2)) <$> books).
Proof.
  induction books as [|[loc b] books IH]; intros Hb; cbn [snapshot_list fmap list_fmap fst snd]; [done|].
  apply Forall_cons_1 in Hb as [Hb Hbs]. by rewrite locate_snapshot_ok, bind_Ok, IH by done.
Qed.

(** Looking a locate up among the snapshots of a table. *)
Lemma find_in_for_each k slots loc : Z.of_nat (k + length slots) <= 65536 -> Z.of_nat k <= loc ->
  find_in loc ((fun lb => spec_snapshot lb.1 (Book.orders lb.2)) <$> Builder.for_each_from k slots) =
    spec_snapshot loc ∘ Book.orders <$> mjoin (slots !! (Z.to_nat loc - k)%nat).
Proof.
  revert k. induction slots as [|slot slots IH]; intros k Hk Hle; [done|]. cbn [length] in Hk.
  destruct (decide (loc = Z.of_nat k)) as [->|Hne].
  - rewrite Nat2Z.id, Nat.sub_diag. destruct slot as [b|]; cbn [Builder.for_each_from fmap list_fmap find_in locate spec_snapshot fst snd].
    + replace (u16 (Z.of_nat k)) with (Z.of_nat k) by (symmetry; apply u16_id; unfold is_u16; lia). by rewrite Z.eqb_refl.
    + assert (forall l, Forall (fun lb : Z * B => Z.of_nat k < lb.1) l ->
        find_in (Z.of_nat k) ((fun lb => spec_snapshot lb.1 (Book.orders lb.2)) <$> l) = None) as Hnone.
      { induction l as [|lb l IHl]; intros Hl; [done|]. apply Forall_cons_1 in Hl as [Hl1 Hl].
        cbn [fmap list_fmap find_in locate spec_snapshot]. rewrite (proj2 (Z.eqb_neq _ _)) by lia. by apply IHl. }
      rewrite Hnone; [done|]. apply Forall_forall. intros [l b] Hl.
      apply Builder.elem_of_for_each in Hl as (i & _ & ->); [|lia]. cbn. lia.
  - replace (Z.to_nat loc - k)%nat with (S (Z.to_nat loc - S k)) by lia.
    destruct slot as [b|]; cbn [Builder.for_each_from fmap list_fmap find_in locate spec_snapshot fst snd lookup list_lookup].
    + replace (u16 (Z.of_nat k)) with (Z.of_nat k) by (symmetry; apply u16_id; unfold is_u16; lia).
      rewrite (proj2 (Z.eqb_neq _ _)) by lia. apply IH; lia.
    + apply IH; lia.
Qed.

Lemma snapshot_table_ok slots :
  Z.of_nat (length slots) <= 65536 -> (forall i b, mjoin (slots !! i) = Some b -> Book.inv b) ->
  snapshot_book_table slots =
    Ok ((fun lb => spec_snapshot lb.1 (Book.orders lb.2)) <$> Builder.for_each slots).
Proof.
  intros Hlen Hinv. apply snapshot_list_ok, Forall_forall. intros [l b] Hl.
  apply (Builder.elem_of_for_each 0) in Hl as (i & Hi & ->); [|done]. cbn. apply (Hinv i). by rewrite Hi.
Qed.

Lemma find_published slots unknown st loc : Z.of_nat (length slots) <= 65536 -> 0 <= loc ->
  find loc (publish ((fun lb => spec_snapshot lb.1 (Book.orders lb.2)) <$> Builder.for_each slots) unknown st) =
    spec_snapshot loc ∘ Book.orders <$> mjoin (slots !! Z.to_nat loc).
Proof.
  intros Hlen Hloc. unfold find, publish. cbn [data_]. unfold Builder.for_each.
  rewrite find_in_for_each by lia. by rewrite Nat.sub_0_r.
Qed.

End Proofs.

(** ** Properties *)

(** A snapshot of a table of well-formed books never fails, and once it is
    published, asking the store for any locate gives exactly what that book's
    resting orders imply: best bid and ask with their sizes, the number of
    orders and of price levels on each side; a locate without a book is
    unknown; and the store has moved to its next version with the given
    count of unknown references, whatever it held before. *)
Theorem snapshot_exact {B} `{L : Book.BookLaws B} (slots : list (option B)) (unknown : Z) (st : SnapshotStore)
  (Hlen : Z.of_nat (length slots) <= 65536) (Hinv : forall i b, mjoin (slots !! i) = Some b -> Book.inv b) :
  exists snaps, snapshot_book_table slots = Ok snaps /\
    (forall loc, 0 <= loc -> find loc (publish snaps unknown st) =
       spec_snapshot loc ∘ Book.orders <$> mjoin (slots !! Z.to_nat loc)) /\
    version (publish snaps unknown st) = u64 (version st + 1) /\
    unknown_refs (publish snaps unknown st) = unknown.
Proof.
  exists ((fun lb => spec_snapshot lb.1 (Book.orders lb.2)) <$> Builder.for_each slots). split_and!; try done.
  - by apply snapshot_table_ok.
  - intros loc. by apply find_published.
Qed.

Lemma snapshot_exact_witness : exists snaps,
  snapshot_book_table [None; Some OrderBook.init; None; Some OrderBook.sample] = Ok snaps /\
  find 1 (publish snaps 0 empty_store) = Some (mkLocateSnapshot 1 false 0 0 false 0 0 0 0 0) /\
  find 2 (publish snaps 0 empty_store) = None /\ version (publish snaps 0 empty_store) = 1.
Proof.
  destruct (snapshot_exact (L := OrderBook.ob_laws) [None; Some OrderBook.init; None; Some OrderBook.sample] 0 empty_store)
    as (snaps & H1 & H2 & H3 & _).
  - simpl. lia.
  - intros [|[|[|[|i]]]] b Hb; cbn in Hb; try discriminate; injection Hb as <-.
    + destruct (Book.make_law (B := OrderBook.OrderBook) 0 ltac:(u32c)) as (b & Hb & Hinv & _).
      injection Hb as <-. exact Hinv.
    + exact OrderBook.sample_inv.
  - exists snaps. split; [exact H1|]. split; [rewrite (H2 1 ltac:(lia)); vm_compute; reflexivity|].
    split; [rewrite (H2 2 ltac:(lia)); reflexivity|exact H3].
Defined.

End Snapshot.
