(* ===== verification/Publish.v ===== *)
(** * Publish: replaying while serving

    Models [PublishingHandler] of src/replay_query_main.cpp and the ingest side
    of its [run]: a builder whose table is published to the [SnapshotStore]
    every [publish_every] book-touching messages, and once more at the end of
    the input.  Pacing sleeps are left out; the program around it is
    [ReplayQuery]. *)

From S2P Require Import Prelude Wire Encode Book OrderBook LadderBook Builder Snapshot.

Module Publish.

Section Defs.
Context {B : Type} `{Book.BookOps B}.

Record PublishingHandler := mkPublishing {
  inner : Builder.BookBuilder B;
  store : Snapshot.SnapshotStore;
  publish_every : Z;
  since_publish : Z }.

(** [PublishingHandler handler{h, store, publish_every, pace}]. *)
Definition start (every : Z) : PublishingHandler :=
  mkPublishing Builder.init Snapshot.empty_store every 0.

(** [store.publish(snapshot_book_table(inner.books), inner.unknown_refs)]. *)
Definition publish_now (h : PublishingHandler) : outcome PublishingHandler :=
  snaps ← Snapshot.snapshot_book_table (Builder.books (inner h));
  Ok (mkPublishing (inner h) (Snapshot.publish snaps (Builder.unknown_refs (inner h)) (store h))
        (publish_every h) (since_publish h)).

Definition maybe_publish (h : PublishingHandler) : outcome PublishingHandler :=
  if publish_every h =? 0 then Ok h
  else
    let h := mkPublishing (inner h) (store h) (publish_every h) (u64 (since_publish h + 1)) in
    if since_publish h <? publish_every h then Ok h
    else publish_now (mkPublishing (inner h) (store h) (publish_every h) 0).

(** [inner.on_...(m); maybe_publish();]. *)
Definition forward (f : Builder.BookBuilder B -> outcome (Builder.BookBuilder B))
    (h : PublishingHandler) : outcome PublishingHandler :=
  b ← f (inner h);
  maybe_publish (mkPublishing b (store h) (publish_every h) (since_publish h)).

Definition on_add (m : Wire.AddOrder) := forward (Builder.on_add m).
Definition on_execute (m : Wire.OrderExecuted) := forward (Builder.on_execute m).
Definition on_execute_price (m : Wire.OrderExecutedPrice) := forward (Builder.on_execute_price m).
Definition on_cancel (m : Wire.OrderCancel) := forward (Builder.on_cancel m).
Definition on_delete (m : Wire.OrderDelete) := forward (Builder.on_delete m).
Definition on_replace (m : Wire.OrderReplace) := forward (Builder.on_replace m).

Definition on_other (type : Z) (len : nat) (h : PublishingHandler) : outcome PublishingHandler :=
  b ← Builder.on_other type len (inner h);
  Ok (mkPublishing b (store h) (publish_every h) (since_publish h)).

#[global] Instance publishing_handler : Wire.Handler (outcome PublishingHandler) := {
  on_add m h := h ← h; on_add m h;
  on_execute m h := h ← h; on_execute m h;
  on_execute_price m h := h ← h; on_execute_price m h;
  on_cancel m h := h ← h; on_cancel m h;
  on_delete m h := h ← h; on_delete m h;
  on_replace m h := h ← h; on_replace m h;
  on_other t n h := h ← h; on_other t n h
}.

(** The ingest side of [run]: the number of frames, and the handler after the
    final publish. *)
Definition run (every : Z) (data : list Z) (len : nat) : outcome (nat * PublishingHandler) :=
  '(frames, h) ← Wire.parse_stream data len (Ok (start every));
  h ← h;
  h ← publish_now h;
  Ok (frames, h).

End Defs.
Arguments PublishingHandler B : clear implicits.

(** ** The reference *)

(** Does a message reach a book? *)
Definition touches (e : Wire.event) : bool :=
  match e with Wire.EOther _ _ => false | _ => true end.

Definition touching (es : list Wire.event) : Z := Z.of_nat (length (filter (fun e => touches e = true) es)).

(** The store answers every locate as the builder's books would, with its count
    of rejected messages. *)
Definition exact {B} `{Book.BookLaws B} (st : Snapshot.SnapshotStore) (h : Builder.BookBuilder B) : Prop :=
  (forall loc, 0 <= loc -> Snapshot.find loc st =
     Snapshot.spec_snapshot loc ∘ Book.orders <$> mjoin (Builder.books h !! Z.to_nat loc)) /\
  Snapshot.unknown_refs st = Builder.unknown_refs h.

(** The version after [n] book-touching messages. *)
Definition generation (every n : Z) : Z := if every =? 0 then 0 else n / every.

Lemma touching_app es es' : touching (es ++ es') = touching es + touching es'.
Proof. unfold touching. rewrite filter_app, length_app. lia. Qed.

Lemma touching_one e : touching [e] = if touches e then 1 else 0.
Proof. unfold touching. rewrite filter_cons, filter_nil. case_decide as E; [by rewrite E|]. by destruct (touches e). Qed.

Lemma touching_bounds es : 0 <= touching es <= Z.of_nat (length es).
Proof. unfold touching. pose proof (length_filter (fun e => touches e = true) es). lia. Qed.

Lemma generation_bound every n : is_u64 every -> 0 <= n < Book.max_orders -> is_u64 (generation every n + 1).
Proof.
  unfold generation, is_u64, Book.max_orders. intros Hevery Hn. destruct (Z.eqb_spec every 0); [lia|].
  assert (0 <= n / every <= n); [|lia].
  split; [apply Z.div_pos; lia|apply Z.div_le_upper_bound; nia].
Qed.

Lemma generation_u64 every n : is_u64 every -> 0 <= n < Book.max_orders -> is_u64 (generation every n).
Proof.
  intros He Hn. pose proof (generation_bound every n He Hn) as H. unfold is_u64 in *. split; [|lia].
  unfold generation. case_match; [done|]. apply Z.div_pos; lia.
Qed.

Section Proofs.
Context {B : Type} `{L : Book.BookLaws B}.
Implicit Types (h : Builder.BookBuilder B) (p : PublishingHandler B).

Lemma exact_init : exact Snapshot.empty_store (Builder.init (B := B)).
Proof. split; [|done]. intros loc _. done. Qed.

Lemma publish_now_ok p s : Builder.sim (inner p) s -> Z.of_nat (length (Builder.books (inner p))) <= 65536 ->
  exists st, publish_now p = Ok (mkPublishing (inner p) st (publish_every p) (since_publish p)) /\
    exact st (inner p) /\ Snapshot.version st = u64 (Snapshot.version (store p) + 1).
Proof.
  intros Hs Hlen. unfold publish_now.
  rewrite (Snapshot.snapshot_table_ok _ Hlen (Builder.sim_inv _ _ Hs)), bind_Ok.
  eexists; split; [reflexivity|]. split; [|done]. split; [|done].
  intros loc Hloc. by apply Snapshot.find_published.
Qed.

Section Run.
Variable every : Z.
Hypothesis Hevery : is_u64 every.

(** The handler after the messages [es]: it holds the plain replay's builder,
    and its store is exact for the replay of a prefix that lacks
    [since_publish] book-touching messages. *)
Record serves (es : list Wire.event) p : Prop := {
  serves_sim : exists s, Builder.sim (inner p) s /\ Builder.at_most (length es) s;
  serves_len : Z.of_nat (length (Builder.books (inner p))) <= 65536;
  serves_inner : foldl Wire.apply_event (Ok Builder.init) es = Ok (inner p);
  serves_every : publish_every p = every;
  serves_since : every <> 0 -> since_publish p = touching es mod every;
  serves_version : Snapshot.version (store p) = generation every (touching es);
  serves_store : exists m h, (m <= length es)%nat /\ foldl Wire.apply_event (Ok Builder.init) (take m es) = Ok h /\
    exact (store p) h /\ (every <> 0 -> touching (drop m es) = since_publish p) }.

Lemma start_serves : serves [] (start every).
Proof.
  constructor; try done.
  - exists Builder.spec_init. split; [apply Builder.init_sim|]. intros i os. cbn. by rewrite lookup_empty.
  - unfold generation. case_match; [done|]. by rewrite Z.div_0_l by lia.
  - exists 0%nat, Builder.init. split_and!; try done.
Qed.

Lemma next_generation n : every <> 0 -> 0 <= n ->
  if decide (n mod every + 1 < every)
  then (n + 1) mod every = n mod every + 1 /\ (n + 1) / every = n / every
  else n mod every + 1 = every /\ (n + 1) mod every = 0 /\ (n + 1) / every = n / every + 1.
Proof.
  intros Hne Hn. unfold is_u64 in Hevery.
  pose proof (Z.div_mod n every Hne) as Hd. pose proof (Z.mod_pos_bound n every ltac:(lia)) as Hm.
  case_decide.
  - split; [symmetry; apply (Z.mod_unique_pos _ _ (n / every))|symmetry; apply (Z.div_unique_pos _ _ _ (n mod every + 1))]; lia.
  - assert (n mod every + 1 = every) by lia. split; [done|].
    split; [symmetry; apply (Z.mod_unique_pos _ _ (n / every + 1))|symmetry; apply (Z.div_unique_pos _ _ _ 0)]; nia.
Qed.

Lemma foldl_snoc {A C} (f : A -> C -> A) a es e : foldl f a (es ++ [e]) = f (foldl f a es) e.
Proof. by rewrite foldl_app. Qed.

(** A message that reaches no book leaves the store alone. *)
Lemma serves_other es p t n : serves es p -> Z.of_nat (S (length es)) < Book.max_orders ->
  exists p', Wire.apply_event (Ok p) (Wire.EOther t n) = Ok p' /\ serves (es ++ [Wire.EOther t n]) p'.
Proof.
  intros [(s & Hs & Hk) Hlen Hin Hev Hsince Hver (m & h & Hm & Hh & Hex & Hlag)] Hroom.
  destruct (Builder.step_ok _ s (Wire.EOther t n) _ Hs I Hk Hroom) as (b & Hrun & Hs').
  assert (touching (es ++ [Wire.EOther t n]) = touching es) as Ht by (rewrite touching_app, touching_one; simpl; lia).
  exists (mkPublishing b (store p) (publish_every p) (since_publish p)). split.
  { change (Builder.on_other t n (inner p) = Ok b) in Hrun. cbn. unfold on_other. by rewrite Hrun, bind_Ok. }
  constructor; cbn; rewrite ?Ht; try done.
  - eexists; split; [exact Hs'|]. rewrite length_app, Nat.add_1_r. by apply Builder.at_most_step.
  - exact (Builder.step_length (Wire.EOther t n) _ _ I Hrun Hlen).
  - by rewrite foldl_snoc, Hin.
  - exists m, h. rewrite length_app, take_app_le, drop_app_le by done. split_and!; try done; [lia|].
    intros Hne. rewrite touching_app, touching_one. simpl. rewrite Z.add_0_r. by apply Hlag.
Qed.

Lemma serves_touch es p e f : serves es p -> Z.of_nat (S (length es)) < Book.max_orders -> Builder.ranged e ->
  touches e = true -> (forall b, Builder.on_event e b = f b) ->
  exists p', forward f p = Ok p' /\ serves (es ++ [e]) p'.
Proof.
  intros [(s & Hs & Hk) Hlen Hin Hev Hsince Hver (m & h & Hm & Hh & Hex & Hlag)] Hroom Hran Hte Hf.
  destruct (Builder.step_ok _ s e _ Hs Hran Hk Hroom) as (b & Hrun & Hs').
  pose proof (touching_bounds es) as Htb. unfold Book.max_orders in Hroom.
  assert (touching (es ++ [e]) = touching es + 1) as Ht by (by rewrite touching_app, touching_one, Hte).
  assert (exists s', Builder.sim b s' /\ Builder.at_most (length (es ++ [e])) s') as Hsim.
  { eexists; split; [exact Hs'|]. rewrite length_app, Nat.add_1_r. by apply Builder.at_most_step. }
  pose proof (Builder.step_length _ _ _ Hran Hrun Hlen) as Hlen'.
  assert (foldl Wire.apply_event (Ok Builder.init) (es ++ [e]) = Ok b) as Hin' by (by rewrite foldl_snoc, Hin).
  unfold forward. rewrite <- Hf, Hrun, bind_Ok. unfold maybe_publish. cbn [publish_every since_publish inner store].
  rewrite Hev. destruct (Z.eqb_spec every 0) as [E0|E0].
  - eexists; split; [reflexivity|]. constructor; cbn; try done.
    + rewrite Hver. unfold generation. by rewrite E0.
    + exists m, h. rewrite length_app, take_app_le by done. split_and!; try done. lia.
  - pose proof (next_generation (touching es) E0 ltac:(lia)) as Hgen. rewrite (Hsince E0).
    unfold is_u64 in Hevery. pose proof (Z.mod_pos_bound (touching es) every ltac:(lia)).
    rewrite u64_id by (unfold is_u64; lia). unfold generation in Hver. rewrite (proj2 (Z.eqb_neq _ _) E0) in Hver.
    destruct (Z.ltb_spec (touching es mod every + 1) every) as [Hlt|Hge].
    + rewrite decide_True in Hgen by done. destruct Hgen as [Hg1 Hg2].
      eexists; split; [reflexivity|]. constructor; cbn; try done; rewrite ?Ht.
      * intros _. by rewrite Hg1.
      * unfold generation. by rewrite (proj2 (Z.eqb_neq _ _) E0), Hg2.
      * exists m, h. rewrite length_app, take_app_le, drop_app_le by done. split_and!; try done; [lia|].
        intros _. rewrite touching_app, touching_one, Hte, (Hlag E0), (Hsince E0). done.
    + rewrite decide_False in Hgen by lia. destruct Hgen as (Hg0 & Hg1 & Hg2).
      destruct (publish_now_ok (mkPublishing b (store p) every 0) _ Hs' Hlen') as (st & Hpub & Hexact & Hv).
      rewrite Hpub. eexists; split; [reflexivity|]. cbn in Hv. constructor; cbn; try done; rewrite ?Ht.
      * intros _. by rewrite Hg1.
      * unfold generation. rewrite (proj2 (Z.eqb_neq _ _) E0), Hg2, Hv, Hver. apply u64_id.
        assert (0 <= touching es / every <= touching es); [|unfold is_u64; lia].
        split; [apply Z.div_pos; lia|apply Z.div_le_upper_bound; nia].
      * exists (length (es ++ [e])), b. rewrite firstn_all, drop_all. split_and!; try done.
Qed.

Lemma serves_step es p e : serves es p -> Z.of_nat (S (length es)) < Book.max_orders -> Builder.ranged e ->
  exists p', Wire.apply_event (Ok p) e = Ok p' /\ serves (es ++ [e]) p'.
Proof.
  intros Hp Hroom Hran. destruct e as [m|m|m|m|m|m|t n].
  7: by apply serves_other.
  all: by eapply serves_touch.
Qed.

Lemma serves_run es : Forall Builder.ranged es -> Z.of_nat (length es) < Book.max_orders ->
  exists p, foldl Wire.apply_event (Ok (start every)) es = Ok p /\ serves es p.
Proof.
  induction es as [|e es IH] using rev_ind; intros Hran Hroom.
  { exists (start every). split; [done|apply start_serves]. }
  apply Forall_app in Hran as [Hran [He _]%Forall_cons_1]. rewrite length_app, Nat.add_1_r in Hroom.
  destruct (IH Hran ltac:(lia)) as (p & Hf & Hp). rewrite foldl_snoc, Hf. by apply serves_step.
Qed.

(** A whole input: the handler at its end, and after the final publish. *)
Lemma ingest_ok data : Wire.bytes data -> Z.of_nat (length (Wire.frames data)) < Book.max_orders ->
  exists p st,
    Wire.parse_stream data (length data) (Ok (start every)) = Ok (length (Wire.frames data), Ok p) /\
    publish_now p = Ok (mkPublishing (inner p) st (publish_every p) (since_publish p)) /\
    Wire.parse_stream data (length data) (Ok Builder.init) = Ok (length (Wire.frames data), Ok (inner p)) /\
    exact st (inner p) /\ Snapshot.version st = generation every (touching (Wire.events data)) + 1.
Proof.
  intros Hbytes Hn.
  assert (length (Wire.events data) = length (Wire.frames data)) as Hlen by (unfold Wire.events; by rewrite length_fmap).
  destruct (serves_run (Wire.events data) (Builder.events_ranged data Hbytes) ltac:(lia)) as (p & Hf & Hp).
  destruct (serves_sim _ _ Hp) as (s & Hs & _).
  destruct (publish_now_ok p s Hs (serves_len _ _ Hp)) as (st & Hpub & Hex & Hv).
  exists p, st. rewrite !Wire.parse_stream_frames, firstn_all, Hf, (serves_inner _ _ Hp) by done.
  split_and!; try done. rewrite Hv, (serves_version _ _ Hp). apply u64_id, generation_bound; [done|].
  pose proof (touching_bounds (Wire.events data)). lia.
Qed.

(** Any moment of a replay: what the store is exact for. *)
Lemma moment_ok es n : Forall Builder.ranged es -> Z.of_nat (length es) < Book.max_orders ->
  exists p, foldl Wire.apply_event (Ok (start every)) (take n es) = Ok p /\
    Snapshot.version (store p) = generation every (touching (take n es)) /\
    exists m h, (m <= n)%nat /\ foldl Wire.apply_event (Ok Builder.init) (take m es) = Ok h /\ exact (store p) h /\
      (every <> 0 -> touching (drop m (take n es)) < every).
Proof.
  intros Hran Hlen. pose proof (length_take es n) as Htk.
  destruct (serves_run (take n es)) as (p & Hf & Hp); [by apply Forall_take|lia|].
  exists p. split; [done|]. split; [exact (serves_version _ _ Hp)|].
  destruct (serves_store _ _ Hp) as (m & h & Hm & Hh & Hex & Hlag). exists m, h.
  rewrite take_take, Nat.min_l in Hh by lia. split_and!; try done; [lia|].
  intros Hne. rewrite (Hlag Hne), (serves_since _ _ Hp Hne). unfold is_u64 in Hevery. apply Z.mod_pos_bound. lia.
Qed.

End Run.
End Proofs.

(** ** Properties *)

(** C36: while a replay is being served, what readers find in the store is never
    a half-applied book: after any number [n] of messages the store answers
    every locate exactly as the plain replay of some prefix of them would, its
    version counts the publishes ([n]'s book-touching messages divided by
    [publish_every]), and with periodic publishing on it lags by fewer than
    [publish_every] book-touching messages.  When the input ends, the final
    publish makes the store exact for the whole input, one version later. *)
Theorem published_snapshots_exact {B} `{L : Book.BookLaws B} (every : Z) (data : list Z)
  (Hevery : is_u64 every) (Hbytes : Wire.bytes data)
  (Hn : Z.of_nat (length (Wire.frames data)) < Book.max_orders) :
  (forall n, exists p, foldl Wire.apply_event (Ok (start every)) (take n (Wire.events data)) = Ok p /\
     Snapshot.version (store p) = generation every (touching (take n (Wire.events data))) /\
     exists m h, (m <= n)%nat /\
       foldl Wire.apply_event (Ok Builder.init) (take m (Wire.events data)) = Ok h /\ exact (B := B) (store p) h /\
       (every <> 0 -> touching (drop m (take n (Wire.events data))) < every)) /\
  exists p, run every data (length data) = Ok (length (Wire.frames data), p) /\
    Wire.parse_stream data (length data) (Ok Builder.init) = Ok (length (Wire.frames data), Ok (inner p)) /\
    exact (store p) (inner p) /\
    Snapshot.version (store p) = generation every (touching (Wire.events data)) + 1.
Proof.
  split.
  - intros n. apply moment_ok; [done|by apply Builder.events_ranged|]. unfold Wire.events. by rewrite length_fmap.
  - destruct (ingest_ok (B := B) every Hevery data Hbytes Hn) as (p & st & Hparse & Hpub & Hin & Hex & Hv).
    unfold run. rewrite Hparse, !bind_Ok, Hpub, bind_Ok. by eexists.
Qed.

Lemma published_snapshots_exact_witness : exists p,
  run (B := OrderBook.OrderBook) 2 Builder.sample_data (length Builder.sample_data) = Ok (7%nat, p) /\
  Snapshot.version (store p) = 4 /\
  Snapshot.find 9 (store p) = None.
Proof.
  destruct (published_snapshots_exact (L := OrderBook.ob_laws) 2 Builder.sample_data)
    as [_ (p & H1 & _ & _ & H2)].
  - u32c.
  - exact Builder.sample_data_bytes.
  - vm_compute. reflexivity.
  - exists p. split; [exact H1|]. split; [rewrite H2; vm_compute; reflexivity|].
    assert (exists q, run (B := OrderBook.OrderBook) 2 Builder.sample_data (length Builder.sample_data) = Ok (7%nat, q) /\
              Snapshot.find 9 (store q) = None) as (q & Hq & Hf) by (eexists; split; vm_compute; reflexivity).
    rewrite Hq in H1. injection H1 as <-. exact Hf.
Defined.

End Publish.
