(* ===== verification/Query.v ===== *)
(** * Query: the JSON-lines query surface

    Models include/net/query_server.hpp: the field scanner and the response
    builders of [query_wire], [handle_line], and the receive loop of
    [handle_connection].  A [std::string] is the list of its bytes; a position
    into one is the suffix from there.  The three reads a response makes of
    the [SnapshotStore] take the mutex separately, so [handle_line] is given
    the store each of them finds.  A connection takes the results of its
    [recv] and [send_all] calls; the threads are in [Server], the socket in
    [Handles]. *)

From S2P Require Import Prelude Wire Encode Book OrderBook Builder Snapshot.

Module Query.

Definition text := list Z.

Definition str (s : string) : text := (fun c => Z.of_nat (Ascii.nat_of_ascii c)) <$> String.list_ascii_of_string s.

(** The characters double quote, colon, comma, line feed, carriage return. *)
Definition dq : Z := 34.
Definition colon : Z := 58.
Definition comma : Z := 44.
Definition lf : Z := 10.
Definition cr : Z := 13.

(** The needle [quote key quote]. *)
Definition needle (key : text) : text := dq :: key ++ [dq].

Definition starts_with (p s : text) : bool := bool_decide (take (length p) s = p).

(** [pos = s.find(p); pos += p.size();] *)
Fixpoint after_first (p s : text) : option text :=
  if starts_with p s then Some (drop (length p) s)
  else match s with [] => None | _ :: s => after_first p s end.

Fixpoint skip_blank (s : text) : text :=
  match s with
  | c :: s' => if (c =? 32) || (c =? 9) then skip_blank s' else s
  | [] => []
  end.

(** Up to the next double quote. *)
Fixpoint until_quote (s : text) : option text :=
  match s with
  | [] => None
  | c :: s => if c =? dq then Some [] else (cons c) <$> until_quote s
  end.

Definition extract_string_field (s key : text) : option text :=
  r ← after_first (needle key) s;
  match skip_blank r with
  | c :: r => if c =? colon then
      match skip_blank r with
      | c :: r => if c =? dq then until_quote r else None
      | [] => None
      end
    else None
  | [] => None
  end.

Definition is_digit (c : Z) : bool := (48 <=? c) && (c <=? 57).

Fixpoint take_digits (s : text) : text :=
  match s with
  | c :: s => if is_digit c then c :: take_digits s else []
  | [] => []
  end.

Definition dec_val (ds : text) : Z := foldl (fun v d => v * 10 + (d - 48)) 0 ds.

(** [std::stoull] of a non-empty digit string; [None] is the caught
    [std::out_of_range]. *)
Definition stoull (ds : text) : option Z :=
  if dec_val ds <? 18446744073709551616 then Some (dec_val ds) else None.

Definition extract_uint_field (s key : text) : option Z :=
  r ← after_first (needle key) s;
  match skip_blank r with
  | c :: r => if c =? colon then
      let ds := take_digits (skip_blank r) in
      if bool_decide (ds = []) then None else stoull ds
    else None
  | [] => None
  end.

(** [std::to_string] of an unsigned 64-bit value: at most twenty digits. *)
Fixpoint digits (fuel : nat) (n : Z) (acc : text) : text :=
  match fuel with
  | O => acc
  | S fuel =>
    let acc := 48 + n mod 10 :: acc in
    if n / 10 =? 0 then acc else digits fuel (n / 10) acc
  end.

Definition to_string (n : Z) : text := digits 20 n [].

Definition null_or (has : bool) (n : Z) : text := if has then to_string n else str "null".

(** [quote key quote colon] *)
Definition fld (key : string) : text := dq :: str key ++ [dq; colon].

Definition quote_fields (q : Snapshot.LocateSnapshot) : text :=
  fld "locate" ++ to_string (Snapshot.locate q) ++ [comma] ++
  fld "best_bid" ++ null_or (Snapshot.has_bid q) (Snapshot.bid_price q) ++ [comma] ++
  fld "best_bid_shares" ++ null_or (Snapshot.has_bid q) (Snapshot.bid_shares q) ++ [comma] ++
  fld "best_ask" ++ null_or (Snapshot.has_ask q) (Snapshot.ask_price q) ++ [comma] ++
  fld "best_ask_shares" ++ null_or (Snapshot.has_ask q) (Snapshot.ask_shares q) ++ [comma] ++
  fld "open_orders" ++ to_string (Snapshot.open_orders q) ++ [comma] ++
  fld "bid_levels" ++ to_string (Snapshot.bid_levels q) ++ [comma] ++
  fld "ask_levels" ++ to_string (Snapshot.ask_levels q).

Definition quote_json (q : Snapshot.LocateSnapshot) (snapshot_version unknown_refs : Z) : text :=
  str "{" ++ quote_fields q ++ [comma] ++ fld "snapshot_version" ++ to_string snapshot_version ++ [comma] ++
  fld "unknown_refs" ++ to_string unknown_refs ++ str "}".

(** The loop of [list_json] from index [i]. *)
Fixpoint list_books (i : nat) (all : list Snapshot.LocateSnapshot) : text :=
  match all with
  | [] => []
  | q :: all => (if (i =? 0)%nat then [] else [comma]) ++ str "{" ++ quote_fields q ++ str "}" ++ list_books (S i) all
  end.

Definition list_json (all : list Snapshot.LocateSnapshot) (snapshot_version unknown_refs : Z) : text :=
  str "{" ++ fld "snapshot_version" ++ to_string snapshot_version ++ [comma] ++ fld "unknown_refs" ++ to_string unknown_refs ++ [comma] ++
  fld "books" ++ str "[" ++ list_books 0 all ++ str "]}".

Definition error_json (msg : string) : text := str "{" ++ fld "error" ++ [dq] ++ str msg ++ [dq] ++ str "}".

Definition error_json_locate (msg : string) (locate : Z) : text :=
  str "{" ++ fld "error" ++ [dq] ++ str msg ++ [dq; comma] ++ fld "locate" ++ to_string locate ++ str "}".

(** The store as each of the three locked reads of one response finds it. *)
Record Reads := mkReads {
  at_data : Snapshot.SnapshotStore; at_version : Snapshot.SnapshotStore; at_unknown : Snapshot.SnapshotStore }.

Definition handle_line (store : Reads) (line : text) : text :=
  match extract_string_field line (str "cmd") with
  | None => error_json "bad request"
  | Some cmd =>
    if bool_decide (cmd = str "list") then
      list_json (Snapshot.read_all (at_data store)) (Snapshot.version (at_version store)) (Snapshot.unknown_refs (at_unknown store))
    else if bool_decide (cmd = str "quote") then
      match extract_uint_field line (str "locate") with
      | None => error_json "missing locate"
      | Some locate_field =>
        let locate := u16 locate_field in
        match Snapshot.find locate (at_data store) with
        | None => error_json_locate "unknown locate" locate
        | Some snap => quote_json snap (Snapshot.version (at_version store)) (Snapshot.unknown_refs (at_unknown store))
        end
      end
    else error_json "unknown command"
  end.

(** ** A connection *)

Definition kMaxLineLen : nat := Z.to_nat 65536.

(** What an iteration of the receive loop sees: the stop flag is set, bytes
    arrived, the peer closed, nothing arrived (and the idle limit is passed or
    not), or an error. *)
Inductive conn_event := Stop | Got (chunk : text) | Closed | Quiet (expired : bool) | Failed.

(** The buffer up to the first line feed, and what follows it. *)
Fixpoint split_line (buf : text) : option (text * text) :=
  match buf with
  | [] => None
  | c :: buf => if c =? lf then Some ([], buf) else '(l, r) ← split_line buf; Some (c :: l, r)
  end.

(** [if (!line.empty() && line.back() == CR) line.pop_back();] *)
Definition trim_cr (line : text) : text :=
  match last line with
  | Some c => if c =? cr then take (length line - 1) line else line
  | None => line
  end.

Section Connection.
(** The store each answered line reads, and whether each [send_all] succeeds,
    both by the number of responses sent before. *)
Variable store_at : nat -> Reads.
Variable send_ok : nat -> bool.

(** The inner loop over complete lines; [true] when the connection goes on. *)
Fixpoint lines_loop (fuel : nat) (buf : text) (sent : list text) : text * list text * bool :=
  match fuel with
  | O => (buf, sent, true)
  | S fuel =>
    match split_line buf with
    | None => (buf, sent, true)
    | Some (line, rest) =>
      let line := trim_cr line in
      if bool_decide (line = []) then lines_loop fuel rest sent
      else
        let response := handle_line (store_at (length sent)) line ++ [lf] in
        if send_ok (length sent) then lines_loop fuel rest (sent ++ [response]) else (rest, sent ++ [response], false)
    end
  end.

(** [handle_connection]: the responses handed to [send_all], in order.  A
    line takes at least one byte, so the fuel is enough. *)
Fixpoint handle_connection (events : list conn_event) (buf : text) (sent : list text) : list text :=
  match events with
  | [] => sent
  | Stop :: _ => sent
  | Got chunk :: events =>
    let buf := buf ++ chunk in
    let '(buf, sent, go) := lines_loop (length buf + 1) buf sent in
    if go : bool then
      if (kMaxLineLen <? length buf)%nat then sent ++ [error_json "request line too long" ++ [lf]]
      else handle_connection events buf sent
    else sent
  | Closed :: _ => sent
  | Quiet expired :: events => if expired : bool then sent else handle_connection events buf sent
  | Failed :: _ => sent
  end.

End Connection.

(** ** The scanner reads what the builders write *)

(** An object is a comma-separated list of fields. *)
Fixpoint render (items : list (text * text)) : text :=
  match items with
  | [] => []
  | (k, v) :: items => dq :: k ++ [dq; colon] ++ v ++ match items with [] => [] | _ => comma :: render items end
  end.

Definition plain (k : text) : Prop := k <> [] /\ Forall (fun c => c <> dq /\ c <> colon) k.
Definition quiet_text (v : text) : Prop := Forall (fun c => c <> dq) v.

Lemma starts_with_cons p c s : starts_with (c :: p) (c :: s) = starts_with p s.
Proof. unfold starts_with. cbn [length take]. apply bool_decide_ext. split; [by intros [= ->]|by intros ->]. Qed.

Lemma starts_with_ne p c d s : c <> d -> starts_with (c :: p) (d :: s) = false.
Proof. intros Hne. apply bool_decide_eq_false. cbn [length take]. by intros [= ?]. Qed.

Lemma starts_with_app p s : starts_with p (p ++ s) = true.
Proof. apply bool_decide_eq_true. by rewrite take_app_length. Qed.

(** Text without a double quote cannot start a needle. *)
Lemma after_first_skip key l s : quiet_text l -> after_first (needle key) (l ++ s) = after_first (needle key) s.
Proof.
  induction 1 as [|c l Hc Hl IH]; [done|]. cbn [app after_first]. unfold needle at 1. rewrite starts_with_ne by done. exact IH.
Qed.

(** Two different keys are told apart at their closing quote. *)
Lemma keys_differ k k' s : Forall (fun c => c <> dq) k -> Forall (fun c => c <> dq) k' -> k <> k' ->
  starts_with (k ++ [dq]) (k' ++ dq :: s) = false.
Proof.
  intros Hk. revert k'. induction Hk as [|c k Hc Hk IH]; intros [|c' k'] Hk' Hne; cbn [app]; try done.
  - apply Forall_cons_1 in Hk' as [Hc' _]. by apply starts_with_ne.
  - by apply starts_with_ne.
  - apply Forall_cons_1 in Hk' as [Hc' Hk']. destruct (decide (c = c')) as [->|Hcc]; [|by apply starts_with_ne].
    rewrite starts_with_cons. apply IH; [done|]. congruence.
Qed.

Lemma plain_quiet k : plain k -> quiet_text k.
Proof. intros [_ Hk]. eapply Forall_impl; [exact Hk|]. by intros c [? _]. Qed.

(** Passing over a field of another name. *)
Lemma after_first_field key k v s : plain key -> plain k -> key <> k -> quiet_text v ->
  after_first (needle key) (dq :: k ++ [dq; colon] ++ v ++ s) = after_first (needle key) s.
Proof.
  intros Hkey Hk Hne Hv. cbn [after_first]. unfold needle at 1. rewrite starts_with_cons.
  change ([dq; colon] ++ v ++ s) with (dq :: colon :: v ++ s).
  rewrite keys_differ by (done || by apply plain_quiet).
  rewrite (after_first_skip key k) by by apply plain_quiet. cbn [after_first]. unfold needle at 1. rewrite starts_with_cons.
  destruct Hkey as [Hnil Hkey]. destruct key as [|c key]; [done|]. apply Forall_cons_1 in Hkey as [[Hc1 Hc2] _].
  cbn [app]. rewrite starts_with_ne by done.
  by apply after_first_skip.
Qed.

Lemma after_first_here key v s : after_first (needle key) (dq :: key ++ [dq; colon] ++ v ++ s) = Some (colon :: v ++ s).
Proof.
  assert (dq :: key ++ [dq; colon] ++ v ++ s = needle key ++ colon :: v ++ s) as ->.
  { unfold needle. cbn [app]. f_equal. by rewrite <- app_assoc. }
  destruct (needle key) as [|c n] eqn:E; [done|]. cbn [app after_first].
  change (c :: n ++ colon :: v ++ s) with ((c :: n) ++ colon :: v ++ s). rewrite starts_with_app. by rewrite drop_app_length.
Qed.

(** Finding a field of an object. *)
Lemma after_first_render key v items post : plain key -> Forall (fun kv => plain kv.1 /\ quiet_text kv.2) items ->
  NoDup items.*1 -> (key, v) ∈ items ->
  exists tl, after_first (needle key) (render items ++ post) = Some (colon :: v ++ tl ++ post) /\ (tl = [] \/ head tl = Some comma).
Proof.
  intros Hkey. induction items as [|[k w] items IH]; intros Hitems Hnd Hin; [by apply not_elem_of_nil in Hin|].
  apply Forall_cons_1 in Hitems as [[Hk Hw] Hitems]. cbn [fmap list_fmap fst] in Hnd. apply NoDup_cons in Hnd as [Hnot Hnd].
  cbn [render]. set (tl := match items with [] => [] | _ => comma :: render items end).
  assert ((dq :: k ++ [dq; colon] ++ w ++ tl) ++ post = dq :: k ++ [dq; colon] ++ w ++ (tl ++ post)) as ->.
  { cbn [app]. f_equal. rewrite <- !app_assoc. cbn [app]. by rewrite <- app_assoc. }
  apply elem_of_cons in Hin as [[= <- <-]|Hin].
  - rewrite after_first_here. exists tl. split; [done|]. unfold tl. destruct items; auto.
  - assert (key <> k) as Hne.
    { intros <-. apply Hnot. apply list_elem_of_fmap. by exists (key, v). }
    rewrite after_first_field by done. unfold tl. destruct items as [|kv items]; [by apply not_elem_of_nil in Hin|].
    change ((comma :: render (kv :: items)) ++ post) with ([comma] ++ (render (kv :: items) ++ post)).
    rewrite after_first_skip by (by repeat constructor). by apply IH.
Qed.

(** ** Decimal numbers *)

Lemma digits_app fuel n acc : digits fuel n acc = digits fuel n [] ++ acc.
Proof.
  revert n acc. induction fuel as [|fuel IH]; intros n acc; cbn [digits]; [done|].
  destruct (n / 10 =? 0); [done|]. rewrite (IH _ (_ :: acc)), (IH _ [_]), <- app_assoc. done.
Qed.

Lemma dec_val_snoc ds d : dec_val (ds ++ [d]) = dec_val ds * 10 + (d - 48).
Proof. unfold dec_val. by rewrite foldl_app. Qed.

Lemma digits_val fuel n : 0 <= n < 10 ^ Z.of_nat fuel -> dec_val (digits fuel n []) = n.
Proof.
  revert n. induction fuel as [|fuel IH]; intros n Hn; [change (10 ^ Z.of_nat 0) with 1 in Hn; cbn; lia|].
  rewrite Nat2Z.inj_succ, Z.pow_succ_r in Hn by lia. cbn [digits].
  assert (n = 10 * (n / 10) + n mod 10) by (apply Z.div_mod; lia).
  destruct (Z.eqb_spec (n / 10) 0) as [Hz|Hz]; [unfold dec_val; cbn [foldl]; lia|].
  rewrite digits_app, dec_val_snoc, IH; [lia|]. split; [apply Z.div_pos; lia|]. apply Z.div_lt_upper_bound; lia.
Qed.

Lemma digits_digits fuel n : 0 <= n -> Forall (fun c => is_digit c = true) (digits fuel n []).
Proof.
  revert n. induction fuel as [|fuel IH]; intros n Hn; cbn [digits]; [apply Forall_nil_2|].
  assert (is_digit (48 + n mod 10) = true) as Hd.
  { pose proof (Z.mod_pos_bound n 10 ltac:(lia)). unfold is_digit. apply andb_true_iff. lia. }
  destruct (n / 10 =? 0); [by apply Forall_singleton|].
  rewrite digits_app. apply Forall_app; split; [apply IH, Z.div_pos; lia|by apply Forall_singleton].
Qed.

Lemma digits_ne fuel n acc : acc <> [] -> digits fuel n acc <> [].
Proof.
  revert n acc. induction fuel as [|fuel IH]; intros n acc Hacc; cbn [digits]; [done|].
  destruct (n / 10 =? 0); [done|by apply IH].
Qed.

Lemma to_string_ne n : to_string n <> [].
Proof.
  change (to_string n) with (if n / 10 =? 0 then [48 + n mod 10] else digits 19 (n / 10) [48 + n mod 10]).
  destruct (n / 10 =? 0); [done|by apply digits_ne].
Qed.

Lemma is_digit_quiet c : is_digit c = true -> c <> dq /\ c <> 32 /\ c <> 9.
Proof. unfold is_digit, dq. rewrite andb_true_iff. lia. Qed.

Lemma take_digits_app ds s : Forall (fun c => is_digit c = true) ds -> (forall c, head s = Some c -> is_digit c = false) ->
  take_digits (ds ++ s) = ds.
Proof.
  intros Hds Hs. induction Hds as [|c ds Hc Hds IH]; cbn [app take_digits].
  - destruct s as [|c s]; [done|]. cbn [take_digits]. by rewrite (Hs c).
  - by rewrite Hc, IH.
Qed.

Lemma to_string_digits n : 0 <= n -> Forall (fun c => is_digit c = true) (to_string n).
Proof. apply digits_digits. Qed.

Lemma to_string_quiet n : 0 <= n -> quiet_text (to_string n).
Proof. intros Hn. eapply Forall_impl; [by apply to_string_digits|]. intros c Hc. by apply is_digit_quiet. Qed.

Lemma null_or_quiet has n : 0 <= n -> quiet_text (null_or has n).
Proof. intros Hn. destruct has; [by apply to_string_quiet|]. by repeat constructor. Qed.

(** Reading back a number or a null. *)
Lemma read_value has n rest : is_u64 n -> (forall c, head rest = Some c -> is_digit c = false) ->
  (let ds := take_digits (skip_blank (null_or has n ++ rest)) in if bool_decide (ds = []) then None else stoull ds) =
  if has : bool then Some n else None.
Proof.
  intros Hn Hrest. destruct has; cbn [null_or].
  - pose proof (to_string_digits n ltac:(unfold is_u64 in Hn; lia)) as Hd. pose proof (to_string_ne n) as Hne.
    assert (skip_blank (to_string n ++ rest) = to_string n ++ rest) as ->.
    { destruct (to_string n) as [|c ds]; [done|]. apply Forall_cons_1 in Hd as [Hc _]. apply is_digit_quiet in Hc as (_ & H1 & H2).
      cbn [app skip_blank]. by rewrite (proj2 (Z.eqb_neq _ _) H1), (proj2 (Z.eqb_neq _ _) H2). }
    rewrite take_digits_app by done. cbv zeta. rewrite bool_decide_eq_false_2 by done.
    unfold stoull, to_string. unfold is_u64 in Hn. rewrite digits_val by (change (10 ^ Z.of_nat 20) with 100000000000000000000; lia).
    by rewrite (proj2 (Z.ltb_lt _ _)) by lia.
  - reflexivity.
Qed.

(** Reading a numeric field of an object. *)
Lemma extract_render key has n items : plain key -> Forall (fun kv => plain kv.1 /\ quiet_text kv.2) items ->
  NoDup items.*1 -> (key, null_or has n) ∈ items -> is_u64 n ->
  extract_uint_field (str "{" ++ render items ++ str "}") key = if has then Some n else None.
Proof.
  intros Hkey Hitems Hnd Hin Hn. unfold extract_uint_field.
  rewrite after_first_skip by (by repeat constructor).
  destruct (after_first_render key _ items (str "}") Hkey Hitems Hnd Hin) as (tl & -> & Htl).
  cbn [mbind option_bind skip_blank]. change (colon =? 32) with false. change (colon =? 9) with false. cbn [orb].
  rewrite Z.eqb_refl. apply read_value; [done|].
  intros c Hc. destruct Htl as [->|Htl]; [by injection Hc as <-|].
  destruct tl as [|c' tl]; [done|]. injection Htl as ->. by injection Hc as <-.
Qed.

(** The ten fields of a quote response. *)
Definition quote_items (q : Snapshot.LocateSnapshot) (v u : Z) : list (text * text) :=
  [(str "locate", null_or true (Snapshot.locate q));
   (str "best_bid", null_or (Snapshot.has_bid q) (Snapshot.bid_price q));
   (str "best_bid_shares", null_or (Snapshot.has_bid q) (Snapshot.bid_shares q));
   (str "best_ask", null_or (Snapshot.has_ask q) (Snapshot.ask_price q));
   (str "best_ask_shares", null_or (Snapshot.has_ask q) (Snapshot.ask_shares q));
   (str "open_orders", null_or true (Snapshot.open_orders q));
   (str "bid_levels", null_or true (Snapshot.bid_levels q));
   (str "ask_levels", null_or true (Snapshot.ask_levels q));
   (str "snapshot_version", null_or true v);
   (str "unknown_refs", null_or true u)].

Lemma quote_json_render q v u : quote_json q v u = str "{" ++ render (quote_items q v u) ++ str "}".
Proof.
  unfold quote_json, quote_fields, quote_items, fld. cbn [render]. cbn [null_or].
  rewrite <- !app_assoc. cbn [app]. repeat (rewrite <- !app_assoc; cbn [app]). reflexivity.
Qed.

Record wf_snapshot (q : Snapshot.LocateSnapshot) : Prop := {
  ws_locate : is_u16 (Snapshot.locate q);
  ws_bid_price : is_u32 (Snapshot.bid_price q); ws_bid_shares : is_u64 (Snapshot.bid_shares q);
  ws_ask_price : is_u32 (Snapshot.ask_price q); ws_ask_shares : is_u64 (Snapshot.ask_shares q);
  ws_open : is_u64 (Snapshot.open_orders q);
  ws_bid_levels : is_u64 (Snapshot.bid_levels q); ws_ask_levels : is_u64 (Snapshot.ask_levels q) }.

Lemma quote_items_ok q v u : wf_snapshot q -> is_u64 v -> is_u64 u ->
  Forall (fun kv => plain kv.1 /\ quiet_text kv.2) (quote_items q v u) /\ NoDup (quote_items q v u).*1.
Proof.
  intros [] Hv Hu. unfold is_u16, is_u32, is_u64 in *. split.
  - unfold quote_items. repeat (apply Forall_cons_2; [split; [split; [done|by repeat constructor]|apply null_or_quiet; lia]|]).
    apply Forall_nil_2.
  - unfold quote_items. cbn [fmap list_fmap fst]. apply (bool_decide_unpack _). vm_compute. exact I.
Qed.

Lemma read_quote q v u i key has n : wf_snapshot q -> is_u64 v -> is_u64 u ->
  quote_items q v u !! i = Some (key, null_or has n) -> plain key -> is_u64 n ->
  extract_uint_field (quote_json q v u) key = if has then Some n else None.
Proof.
  intros Hq Hv Hu Hi Hk Hn. destruct (quote_items_ok q v u Hq Hv Hu) as [Hok Hnd].
  rewrite quote_json_render. apply extract_render; try done. by eapply list_elem_of_lookup_2.
Qed.

(** ** Lines *)

(** The complete lines of a byte stream and its unfinished last line. *)
Fixpoint lines_of (bs : text) : list text * text :=
  match bs with
  | [] => ([], [])
  | c :: bs =>
    let '(ls, r) := lines_of bs in
    if c =? lf then ([] :: ls, r) else match ls with [] => ([], c :: r) | l :: ls => ((c :: l) :: ls, r) end
  end.

Lemma lines_of_split bs :
  lines_of bs = match split_line bs with
                | None => ([], bs)
                | Some (l, r) => (l :: (lines_of r).1, (lines_of r).2)
                end.
Proof.
  induction bs as [|c bs IH]; [done|]. cbn [lines_of split_line].
  destruct (c =? lf); [by destruct (lines_of bs)|]. rewrite IH.
  destruct (split_line bs) as [[l r]|]; cbn; [done|]. done.
Qed.

Lemma split_line_length bs l r : split_line bs = Some (l, r) -> (length bs = length l + S (length r))%nat.
Proof.
  revert l r. induction bs as [|c bs IH]; intros l r; cbn [split_line]; [done|].
  destruct (c =? lf); [by intros [= <- <-]|].
  destruct (split_line bs) as [[l' r']|]; [|done]. intros [= <- <-]. cbn [length]. specialize (IH l' r' eq_refl). lia.
Qed.

Lemma lines_of_app a b :
  lines_of (a ++ b) = ((lines_of a).1 ++ (lines_of ((lines_of a).2 ++ b)).1, (lines_of ((lines_of a).2 ++ b)).2).
Proof.
  induction a as [|c a IH]; cbn [app lines_of fst snd]; [by rewrite <- surjective_pairing|].
  destruct (lines_of a) as [ls r] eqn:Ea. cbn [fst snd] in IH. rewrite IH. clear IH.
  destruct (lines_of (r ++ b)) as [ls2 r2] eqn:Er. cbn [fst snd]. destruct (c =? lf) eqn:Ec; cbn [fst snd app]; [by rewrite Er|].
  destruct ls as [|l ls]; cbn [fst snd app]; [|by rewrite Er].
  cbn [lines_of]. rewrite Er, Ec. by destruct ls2.
Qed.

Lemma rest_no_lf a : Forall (fun c => c <> lf) (lines_of a).2.
Proof.
  induction a as [|c a IH]; cbn [lines_of]; [apply Forall_nil_2|].
  destruct (lines_of a) as [ls r]. destruct (Z.eqb_spec c lf); [done|]. destruct ls; [|done]. by apply Forall_cons_2.
Qed.

(** The pieces a byte stream is cut into at its line feeds. *)
Definition pieces (bs : text) : list text := (lines_of bs).1 ++ [(lines_of bs).2].

Lemma head_longer r b : Forall (fun c => c <> lf) r ->
  exists l tl, pieces (r ++ b) = l :: tl /\ (length r <= length l)%nat.
Proof.
  unfold pieces. induction 1 as [|c r Hc Hr IH]; cbn [app lines_of].
  - destruct (lines_of b) as [[|l ls] x]; cbn; eexists _, _; (split; [reflexivity|lia]).
  - destruct IH as (l & tl & Heq & Hle). destruct (lines_of (r ++ b)) as [ls x]. cbn [fst snd] in Heq.
    rewrite (proj2 (Z.eqb_neq _ _) Hc). destruct ls as [|l0 ls]; cbn [fst snd app] in *; injection Heq as <- <-; eexists _, _; (split; [reflexivity|cbn [length]; lia]).
Qed.

(** An unfinished line is the beginning of the next piece. *)
Lemma rest_in_piece a b : exists l, l ∈ pieces (a ++ b) /\ (length (lines_of a).2 <= length l)%nat.
Proof.
  destruct (head_longer (lines_of a).2 b (rest_no_lf a)) as (l & tl & Heq & Hle). exists l. split; [|done].
  unfold pieces in *. rewrite lines_of_app. cbn [fst snd]. rewrite <- app_assoc, Heq.
  apply list_elem_of_In, in_or_app. right. by left.
Qed.

Section Answers.
Variable store_at : nat -> Reads.

(** The responses to some complete lines, after those already sent. *)
Fixpoint answers (sent : list text) (lines : list text) : list text :=
  match lines with
  | [] => sent
  | line :: lines =>
    let line := trim_cr line in
    if bool_decide (line = []) then answers sent lines
    else answers (sent ++ [handle_line (store_at (length sent)) line ++ [lf]]) lines
  end.

Lemma answers_app sent l1 l2 : answers sent (l1 ++ l2) = answers (answers sent l1) l2.
Proof. revert sent. induction l1 as [|l l1 IH]; intros sent; cbn [app answers]; [done|]. case_match; apply IH. Qed.

Lemma lines_loop_ok fuel buf sent : (length buf < fuel)%nat ->
  lines_loop store_at (fun _ => true) fuel buf sent = ((lines_of buf).2, answers sent (lines_of buf).1, true).
Proof.
  revert buf sent. induction fuel as [|fuel IH]; intros buf sent Hf; [lia|]. cbn [lines_loop].
  rewrite (lines_of_split buf). destruct (split_line buf) as [[l r]|] eqn:E; [|done].
  apply split_line_length in E. cbn [fst snd answers]. case_match; apply IH; lia.
Qed.

Lemma connection_ok chunks seen sent0 : Forall (fun l => (length l <= kMaxLineLen)%nat) (pieces (seen ++ concat chunks)) ->
  handle_connection store_at (fun _ => true) (Got <$> chunks) (lines_of seen).2 (answers sent0 (lines_of seen).1) =
    answers sent0 (lines_of (seen ++ concat chunks)).1.
Proof.
  revert seen. induction chunks as [|chunk chunks IH]; intros seen Hp; cbn [fmap list_fmap concat handle_connection].
  { by rewrite app_nil_r. }
  rewrite lines_loop_ok by lia. cbn [concat] in Hp. rewrite app_assoc in Hp.
  pose proof (lines_of_app seen chunk) as Happ.
  assert ((lines_of ((lines_of seen).2 ++ chunk)).2 = (lines_of (seen ++ chunk)).2) as -> by (by rewrite Happ).
  rewrite <- answers_app.
  assert ((lines_of seen).1 ++ (lines_of ((lines_of seen).2 ++ chunk)).1 = (lines_of (seen ++ chunk)).1) as -> by (by rewrite Happ).
  destruct (rest_in_piece (seen ++ chunk) (concat chunks)) as (l & Hl & Hle).
  pose proof (proj1 (Forall_forall _ _) Hp l Hl) as Hmax. cbn beta in Hmax.
  rewrite (proj2 (Nat.ltb_ge _ _)) by lia. by rewrite (IH (seen ++ chunk) Hp), app_assoc.
Qed.

End Answers.

(** ** Properties *)

(** Every number of a quote response can be read back, exactly, with the
    code's own field scanner: the locate, both best prices and sizes (absent
    exactly when that side is empty), the order and level counts, and the
    snapshot version and unknown-reference count. *)
Theorem quote_response_readable (q : Snapshot.LocateSnapshot) (v u : Z) (Hq : wf_snapshot q) (Hv : is_u64 v) (Hu : is_u64 u) :
  let read key := extract_uint_field (quote_json q v u) (str key) in
  read "locate" = Some (Snapshot.locate q) /\
  read "best_bid" = (if Snapshot.has_bid q then Some (Snapshot.bid_price q) else None) /\
  read "best_bid_shares" = (if Snapshot.has_bid q then Some (Snapshot.bid_shares q) else None) /\
  read "best_ask" = (if Snapshot.has_ask q then Some (Snapshot.ask_price q) else None) /\
  read "best_ask_shares" = (if Snapshot.has_ask q then Some (Snapshot.ask_shares q) else None) /\
  read "open_orders" = Some (Snapshot.open_orders q) /\
  read "bid_levels" = Some (Snapshot.bid_levels q) /\
  read "ask_levels" = Some (Snapshot.ask_levels q) /\
  read "snapshot_version" = Some v /\ read "unknown_refs" = Some u.
Proof.
  intros read. pose proof Hq as []. unfold is_u16, is_u32 in *.
  assert (forall i (key : string) has n, quote_items q v u !! i = Some (str key, null_or has n) -> plain (str key) -> is_u64 n ->
    read key = if has : bool then Some n else None) as Hread.
  { intros i key has n Hi Hk Hn. unfold read. by eapply read_quote. }
  assert (forall z, 0 <= z < 4294967296 -> is_u64 z) as Hw by (intros; unfold is_u64; lia).
  split_and!;
    [apply (Hread 0%nat _ true)|apply (Hread 1%nat)|apply (Hread 2%nat)|apply (Hread 3%nat)|apply (Hread 4%nat)
    |apply (Hread 5%nat _ true)|apply (Hread 6%nat _ true)|apply (Hread 7%nat _ true)|apply (Hread 8%nat _ true)|apply (Hread 9%nat _ true)];
    first [reflexivity|assumption|apply Hw; lia|split; [done|by repeat constructor]].
Qed.

Definition sample_quote : Snapshot.LocateSnapshot :=
  Snapshot.mkLocateSnapshot 7 true 1500000 300 false 0 0 1 1 0.

Lemma quote_response_readable_witness :
  extract_uint_field (quote_json sample_quote 3 0) (str "best_bid") = Some 1500000 /\
  extract_uint_field (quote_json sample_quote 3 0) (str "best_ask") = None.
Proof.
  destruct (quote_response_readable sample_quote 3 0) as (_ & H1 & _ & H2 & _).
  - constructor; cbn; u32c.
  - u32c.
  - u32c.
  - split; [exact H1|exact H2].
Defined.

(** The request of the protocol's own documentation for one locate. *)
Definition quote_request (n : Z) : text :=
  str "{" ++ fld "cmd" ++ [dq] ++ str "quote" ++ [dq; comma] ++ fld "locate" ++ to_string n ++ str "}".

Lemma quote_request_fields n : is_u64 n ->
  extract_string_field (quote_request n) (str "cmd") = Some (str "quote") /\
  extract_uint_field (quote_request n) (str "locate") = Some n.
Proof.
  intros Hn. split; [reflexivity|]. unfold extract_uint_field.
  assert (after_first (needle (str "locate")) (quote_request n) = Some (colon :: to_string n ++ str "}")) as -> by reflexivity.
  cbn [mbind option_bind skip_blank]. change (colon =? 32) with false. change (colon =? 9) with false. cbn [orb].
  rewrite Z.eqb_refl. apply (read_value true); [done|]. intros c Hc. by injection Hc as <-.
Qed.

(** A quote request for any 64-bit locate number is answered from the
    snapshot of that number modulo 2^16, so a number that is no locate at all
    is answered with another symbol's book; only a locate without a book
    gives the error, under the reduced number. *)
Theorem quote_request_answer (store : Reads) (n : Z) (Hn : is_u64 n) :
  handle_line store (quote_request n) =
    match Snapshot.find (n mod 65536) (at_data store) with
    | None => error_json_locate "unknown locate" (n mod 65536)
    | Some snap => quote_json snap (Snapshot.version (at_version store)) (Snapshot.unknown_refs (at_unknown store))
    end.
Proof.
  destruct (quote_request_fields n Hn) as [H1 H2]. unfold handle_line. rewrite H1, H2.
  rewrite bool_decide_eq_false_2 by (intros Heq; discriminate Heq). by rewrite bool_decide_eq_true_2.
Qed.

Lemma max_line_bound m : Z.of_nat m <= 65536 -> (m <= kMaxLineLen)%nat.
Proof. unfold kMaxLineLen. lia. Qed.

(** A connection that asks one thing. *)
Lemma lines_of_one l : Forall (fun c => c <> lf) l -> lines_of (l ++ [lf]) = ([l], []).
Proof.
  induction 1 as [|c l Hc Hl IH]; [done|]. cbn [app lines_of]. rewrite IH. by rewrite (proj2 (Z.eqb_neq _ _) Hc).
Qed.

Lemma one_line (store : Reads) (chunks : list text) (line : text) : Forall (fun c => c <> lf) line -> line <> [] ->
  trim_cr line = line -> (length line <= kMaxLineLen)%nat -> concat chunks = line ++ [lf] ->
  handle_connection (fun _ => store) (fun _ => true) (Got <$> chunks) [] [] = [handle_line store line ++ [lf]].
Proof.
  intros Hlf Hne Htrim Hlen Hc. pose proof (connection_ok (fun _ => store) chunks [] []) as Hrun.
  cbn [app] in Hrun. unfold pieces in Hrun. rewrite Hc, lines_of_one in Hrun by done. cbn [fst snd app lines_of answers] in Hrun.
  rewrite Htrim, bool_decide_eq_false_2 in Hrun by done. apply Hrun.
  apply Forall_cons_2; [done|]. apply Forall_singleton. apply Nat.le_0_l.
Qed.

Lemma digits_length fuel n acc : (length (digits fuel n acc) <= fuel + length acc)%nat.
Proof.
  revert n acc. induction fuel as [|fuel IH]; intros n acc; cbn [digits]; [lia|].
  destruct (n / 10 =? 0); [cbn [length]; lia|]. specialize (IH (n / 10) (48 + n mod 10 :: acc)). cbn [length] in IH. lia.
Qed.

Lemma quote_request_line n : is_u64 n -> Forall (fun c => c <> lf) (quote_request n) /\
  quote_request n <> [] /\ trim_cr (quote_request n) = quote_request n /\ (length (quote_request n) <= kMaxLineLen)%nat.
Proof.
  intros Hn. pose proof (digits_length 20 n []) as Hlen. cbn [length] in Hlen.
  assert (quote_request n = (str "{" ++ fld "cmd" ++ [dq] ++ str "quote" ++ [dq; comma] ++ fld "locate") ++ to_string n ++ str "}") as E
    by reflexivity.
  rewrite E. split_and!.
  - apply Forall_app; split; [apply (bool_decide_unpack _); vm_compute; exact I|]. apply Forall_app; split.
    + eapply Forall_impl; [apply to_string_digits; unfold is_u64 in Hn; lia|]. intros c Hc ->. discriminate Hc.
    + apply (bool_decide_unpack _); vm_compute; exact I.
  - discriminate.
  - change (str "}") with [125]. unfold trim_cr. rewrite app_assoc, last_snoc. done.
  - apply max_line_bound. rewrite length_app, (length_app (to_string n)). unfold to_string.
    change (length (str "}")) with 1%nat.
    assert (length (str "{" ++ fld "cmd" ++ [dq] ++ str "quote" ++ [dq; comma] ++ fld "locate") = 24%nat) as -> by reflexivity.
    lia.
Qed.

Definition sample_store : Snapshot.SnapshotStore := Snapshot.publish [sample_quote] 0 Snapshot.empty_store.

Lemma quote_request_answer_witness :
  handle_line (mkReads sample_store sample_store sample_store) (quote_request 65543) = quote_json sample_quote 1 0.
Proof. rewrite (quote_request_answer (mkReads sample_store sample_store sample_store) 65543 ltac:(u32c)). reflexivity. Defined.

(** The three values of a response are read under three separate locks, so a
    publication in between labels the old book with the new version and the
    new unknown-reference count: the response is neither the one of the store
    before nor the one of the store after. *)
Theorem response_may_be_torn :
  exists (st : Snapshot.SnapshotStore) (next : list Snapshot.LocateSnapshot) (unknown : Z) (line : text),
    let st' := Snapshot.publish next unknown st in
    let torn := handle_line (mkReads st st' st') line in
    torn <> handle_line (mkReads st st st) line /\ torn <> handle_line (mkReads st' st' st') line /\
    extract_uint_field torn (str "snapshot_version") = Some (Snapshot.version st') /\
    extract_uint_field torn (str "open_orders") = Snapshot.open_orders <$> Snapshot.find 7 st /\
    Snapshot.open_orders <$> Snapshot.find 7 st <> Snapshot.open_orders <$> Snapshot.find 7 st'.
Proof.
  exists sample_store, [Snapshot.mkLocateSnapshot 7 true 1500000 400 false 0 0 2 1 0], 1, (quote_request 7).
  split_and!; try (apply (bool_decide_unpack _); vm_compute; exact I).
Qed.

(** C37: however the client's bytes are cut into packets, the connection answers
    every non-blank line exactly once, in order, as if the lines had arrived
    one by one; nothing is answered for blank lines or for a last line
    without its line feed (for lines of at most 64 KiB, with every response
    sent successfully). *)
Theorem packets_invisible (store_at : nat -> Reads) (chunks : list text)
  (Hshort : Forall (fun l => (length l <= kMaxLineLen)%nat) (pieces (concat chunks))) :
  handle_connection store_at (fun _ => true) (Got <$> chunks) [] [] = answers store_at [] (lines_of (concat chunks)).1.
Proof. exact (connection_ok store_at chunks [] [] Hshort). Qed.

(** A list request in two packets, a blank line, and an unfinished line. *)
Definition sample_chunks : list text :=
  [str "{" ++ fld "cmd" ++ [dq] ++ str "li"; str "st" ++ [dq] ++ str "}" ++ [cr; lf; lf]; str "{"].

Lemma packets_invisible_witness :
  handle_connection (fun _ => mkReads sample_store sample_store sample_store) (fun _ => true) (Got <$> sample_chunks) [] [] =
    [list_json [sample_quote] 1 0 ++ [lf]].
Proof.
  rewrite (packets_invisible (fun _ => mkReads sample_store sample_store sample_store) sample_chunks).
  - vm_compute. reflexivity.
  - assert (pieces (concat sample_chunks) = [str "{" ++ fld "cmd" ++ [dq] ++ str "list" ++ [dq] ++ str "}" ++ [cr]; []; str "{"]) as ->
      by (vm_compute; reflexivity).
    repeat (apply Forall_cons_2; [apply max_line_bound; cbn; lia|]). apply Forall_nil_2.
Defined.

End Query.
