(* ===== verification/Csv.v ===== *)
(** * Csv: text that is written and read back

    What the reports of the benchmarks (bench/bench_main.cpp,
    bench/bench_threaded_main.cpp) and of the fuzzer
    (fuzz/fuzz_differential.cpp) share: padded columns as [printf] makes them,
    and a reader for their CSV files, by lines and commas, as the scripts that
    consume the files read them.  A stream is the text written to it. *)

From S2P Require Import Prelude Wire Encode Book OrderBook Builder Snapshot Query.
Import Query.

Module Csv.

(** [%-Ns] and [%Nzu]: a field wider than its width is not cut. *)
Definition pad_right (w : nat) (s : text) : text := s ++ replicate (w - length s) 32.
Definition pad_left (w : nat) (s : text) : text := replicate (w - length s) 32 ++ s.

Lemma pad_right_length w s : (length s <= w)%nat -> length (pad_right w s) = w.
Proof. intros Hs. unfold pad_right. rewrite length_app, length_replicate. lia. Qed.

Lemma pad_left_length w s : (length s <= w)%nat -> length (pad_left w s) = w.
Proof. intros Hs. unfold pad_left. rewrite length_app, length_replicate. lia. Qed.

(** ** Reading a CSV file *)

(** The pieces between the separators, at least one. *)
Fixpoint split_on (c : Z) (s : text) : list text :=
  match s with
  | [] => [[]]
  | x :: s =>
    let ws := split_on c s in
    if x =? c then [] :: ws else match ws with w :: ws => (x :: w) :: ws | [] => [[x]] end
  end.

(** Its lines, each by its fields; a last line without a newline is not one. *)
Definition table (s : text) : list (list text) := split_on comma <$> removelast (split_on lf s).

Definition free_of (c : Z) (s : text) : Prop := Forall (fun x => x <> c) s.

(** A field that a reader finds again. *)
Definition cell (s : text) : Prop := free_of comma s /\ free_of lf s.

Lemma split_on_app c w s : free_of c w -> split_on c (w ++ c :: s) = w :: split_on c s.
Proof.
  induction 1 as [|x w Hx _ IH]; cbn [app split_on]; [by rewrite Z.eqb_refl|].
  rewrite (proj2 (Z.eqb_neq _ _) Hx), IH. done.
Qed.

Lemma split_on_free c w : free_of c w -> split_on c w = [w].
Proof.
  induction 1 as [|x w Hx _ IH]; cbn [split_on]; [done|]. by rewrite (proj2 (Z.eqb_neq _ _) Hx), IH.
Qed.

(** A line from its fields. *)
Fixpoint line (ws : list text) : text :=
  match ws with [] => [] | [w] => w | w :: ws => w ++ comma :: line ws end.

Lemma split_line_fields ws : ws <> [] -> Forall (free_of comma) ws -> split_on comma (line ws) = ws.
Proof.
  intros Hne Hws. induction Hws as [|w ws Hw Hws IH]; [done|]. destruct ws as [|w' ws]; [by apply split_on_free|].
  change (line (w :: w' :: ws)) with (w ++ comma :: line (w' :: ws)). rewrite split_on_app by done. by rewrite IH.
Qed.

Lemma line_free ws : Forall (free_of lf) ws -> free_of lf (line ws).
Proof.
  induction 1 as [|w ws Hw Hws IH]; [apply Forall_nil_2|]. destruct ws as [|w' ws]; [done|]. cbn [line].
  apply Forall_app_2; [done|]. by apply Forall_cons_2.
Qed.

(** The file whose lines have the fields [rows]. *)
Lemma table_lines (rows : list (list text)) : Forall (fun ws => ws <> [] /\ Forall cell ws) rows ->
  table (rows ≫= fun ws => line ws ++ [lf]) = rows.
Proof.
  intros Hrows. unfold table.
  assert (split_on lf (rows ≫= fun ws => line ws ++ [lf]) = (line <$> rows) ++ [[]]) as ->.
  { induction Hrows as [|ws rows [_ Hws] _ IH]; [done|]. cbn [mbind list_bind fmap list_fmap app].
    rewrite <- app_assoc. cbn [app]. rewrite split_on_app; [by rewrite IH|]. apply line_free.
    eapply Forall_impl; [exact Hws|]. by intros w []. }
  rewrite removelast_last, <- list_fmap_compose.
  induction Hrows as [|ws rows [Hne Hws] _ IH]; [done|]. cbn [fmap list_fmap compose]. rewrite IH. f_equal. cbn.
  apply split_line_fields; [done|]. eapply Forall_impl; [exact Hws|]. by intros w [].
Qed.

Lemma digits_cell n : 0 <= n -> cell (to_string n).
Proof.
  intros Hn. split; (eapply Forall_impl; [by apply to_string_digits|]); intros c Hc ->; discriminate Hc.
Qed.

Lemma to_string_reads n : is_u64 n -> dec_val (to_string n) = n.
Proof. intros Hn. unfold is_u64 in Hn. unfold to_string. apply digits_val. change (10 ^ Z.of_nat 20) with 100000000000000000000. lia. Qed.

#[global] Instance cell_dec s : Decision (cell s).
Proof. unfold cell, free_of. apply _. Defined.

(** A file with a header line. *)
Definition with_header (header : list text) (s : text) : option (list (list text)) :=
  match table s with
  | h :: rows => if bool_decide (h = header) then Some rows else None
  | [] => None
  end.

Lemma with_header_lines header (rows : list (list text)) : header <> [] -> Forall cell header ->
  Forall (fun ws => ws <> [] /\ Forall cell ws) rows ->
  with_header header (line header ++ [lf] ++ (rows ≫= fun ws => line ws ++ [lf])) = Some rows.
Proof.
  intros Hne Hh Hrows. unfold with_header.
  pose proof (table_lines (header :: rows) (Forall_cons_2 _ _ _ (conj Hne Hh) Hrows)) as Ht.
  cbn [mbind list_bind] in Ht. rewrite <- app_assoc in Ht. rewrite Ht. by rewrite bool_decide_eq_true_2.
Qed.

(** The lines a writer makes are those of the fields [g]. *)
Lemma written_lines {A} (f : A -> text) (g : A -> list text) rows : (forall r, f r = line (g r) ++ [lf]) ->
  (rows ≫= f) = ((g <$> rows) ≫= fun ws => line ws ++ [lf]).
Proof. intros Hf. induction rows as [|r rows IH]; [done|]. cbn [fmap list_fmap mbind list_bind]. by rewrite Hf, IH. Qed.

End Csv.
