(* ===== verification/Differential.v ===== *)
(** * Differential: the two books run against each other

    Models [DivergingHandler] of fuzz/fuzz_differential.cpp: one message is
    applied to a builder of map-based books and to a builder of ladder books,
    and when both applied it the two books of its locate are compared; a
    difference aborts the process.  [std::abort] is [abort] below, so that a
    run that returns [Ok] is one in which no comparison failed.  A fuzzing
    session threads the process-lifetime counters through its inputs and prints
    them at the end. *)

From S2P Require Import Prelude Wire Encode Book OrderBook LadderBook Builder Snapshot Query Csv.

Module Differential.

Record DivergingHandler := mkDiverging {
  reference : Builder.BookBuilder OrderBook.OrderBook;
  candidate : Builder.BookBuilder LadderBook.LadderBook;
  policy_diverged : list bool;
  divergence_checks : Z;
  policy_only_skips : Z }.

Definition init : DivergingHandler := mkDiverging Builder.init Builder.init [] 0 0.

Definition abort {A : Type} : outcome A := Throw "abort".

Definition is_policy_diverged (locate : Z) (h : DivergingHandler) : outcome bool :=
  if decide (Z.to_nat locate < length (policy_diverged h))%nat
  then rd (policy_diverged h) (Z.to_nat locate) else Ok false.

Definition mark_policy_diverged (locate : Z) (h : DivergingHandler) : outcome DivergingHandler :=
  let idx := Z.to_nat locate in
  let pd := policy_diverged h in
  let pd := if (length pd <=? idx)%nat then pd ++ replicate (idx + 1 - length pd) false else pd in
  pd ← wr pd idx true;
  Ok (mkDiverging (reference h) (candidate h) pd (divergence_checks h) (policy_only_skips h)).

(** [ref.has_value() == cand.has_value() && (!ref || same price and shares)]. *)
Definition quote_ok (ref cand : option Book.Quote) : bool :=
  match ref, cand with
  | None, None => true
  | Some r, Some c => (Book.q_price r =? Book.q_price c) && (Book.q_shares r =? Book.q_shares c)
  | _, _ => false
  end.

Definition diff_locate (locate : Z) (h : DivergingHandler) : outcome DivergingHandler :=
  ref_book ← Builder.find locate (Builder.books (reference h));
  cand_book ← Builder.find locate (Builder.books (candidate h));
  match ref_book, cand_book with
  | Some ref_book, Some cand_book =>
    let h := mkDiverging (reference h) (candidate h) (policy_diverged h)
               (u64 (divergence_checks h + 1)) (policy_only_skips h) in
    ref_bid ← Book.best_bid ref_book;
    cand_bid ← Book.best_bid cand_book;
    ref_ask ← Book.best_ask ref_book;
    cand_ask ← Book.best_ask cand_book;
    let bid_ok := quote_ok ref_bid cand_bid in
    let ask_ok := quote_ok ref_ask cand_ask in
    let orders_ok := (Book.open_orders ref_book =? Book.open_orders cand_book)%nat in
    let bid_levels_ok := Book.bid_levels ref_book =? Book.bid_levels cand_book in
    let ask_levels_ok := Book.ask_levels ref_book =? Book.ask_levels cand_book in
    if bid_ok && ask_ok && orders_ok && bid_levels_ok && ask_levels_ok then Ok h else abort
  | _, _ => Ok h
  end.

(** The generic lambda [\[&\](auto& b) { b.on_...(m); }]. *)
Definition callback : Type :=
  forall B (O : Book.BookOps B), Builder.BookBuilder B -> outcome (Builder.BookBuilder B).

Definition apply_and_diff (locate : Z) (fn : callback) (h : DivergingHandler) : outcome DivergingHandler :=
  let ref_before := Builder.unknown_refs (reference h) in
  let cand_before := Builder.unknown_refs (candidate h) in
  r ← fn _ _ (reference h);
  c ← fn _ _ (candidate h);
  let ref_applied := Builder.unknown_refs r =? ref_before in
  let cand_applied := Builder.unknown_refs c =? cand_before in
  let h := mkDiverging r c (policy_diverged h) (divergence_checks h) (policy_only_skips h) in
  diverged ← is_policy_diverged locate h;
  if diverged : bool then Ok h
  else if negb (eqb ref_applied cand_applied) then
    h ← mark_policy_diverged locate h;
    Ok (mkDiverging (reference h) (candidate h) (policy_diverged h)
          (divergence_checks h) (u64 (policy_only_skips h + 1)))
  else if negb ref_applied then Ok h
  else diff_locate locate h.

Definition on_add (m : Wire.AddOrder) : DivergingHandler -> outcome DivergingHandler :=
  apply_and_diff (Wire.locate (Wire.add_hdr m)) (fun _ _ => Builder.on_add m).
Definition on_execute (m : Wire.OrderExecuted) : DivergingHandler -> outcome DivergingHandler :=
  apply_and_diff (Wire.locate (Wire.exec_hdr m)) (fun _ _ => Builder.on_execute m).
Definition on_execute_price (m : Wire.OrderExecutedPrice) : DivergingHandler -> outcome DivergingHandler :=
  apply_and_diff (Wire.locate (Wire.execp_hdr m)) (fun _ _ => Builder.on_execute_price m).
Definition on_cancel (m : Wire.OrderCancel) : DivergingHandler -> outcome DivergingHandler :=
  apply_and_diff (Wire.locate (Wire.cancel_hdr m)) (fun _ _ => Builder.on_cancel m).
Definition on_delete (m : Wire.OrderDelete) : DivergingHandler -> outcome DivergingHandler :=
  apply_and_diff (Wire.locate (Wire.delete_hdr m)) (fun _ _ => Builder.on_delete m).
Definition on_replace (m : Wire.OrderReplace) : DivergingHandler -> outcome DivergingHandler :=
  apply_and_diff (Wire.locate (Wire.replace_hdr m)) (fun _ _ => Builder.on_replace m).

Definition on_other (type : Z) (len : nat) (h : DivergingHandler) : outcome DivergingHandler :=
  r ← Builder.on_other type len (reference h);
  c ← Builder.on_other type len (candidate h);
  Ok (mkDiverging r c (policy_diverged h) (divergence_checks h) (policy_only_skips h)).

#[global] Instance diverging_handler : Wire.Handler (outcome DivergingHandler) := {
  on_add m h := h ← h; on_add m h;
  on_execute m h := h ← h; on_execute m h;
  on_execute_price m h := h ← h; on_execute_price m h;
  on_cancel m h := h ← h; on_cancel m h;
  on_delete m h := h ← h; on_delete m h;
  on_replace m h := h ← h; on_replace m h;
  on_other t n h := h ← h; on_other t n h
}.

(** What [LLVMFuzzerTestOneInput] does with its input: the handler at the end. *)
Definition test_one_input (data : list Z) : outcome DivergingHandler :=
  '(_, h) ← Wire.parse_stream data (length data) (Ok init);
  h.

(** The process-lifetime counters. *)
Record Counters := mkCounters { g_inputs_seen : Z; g_state_checks : Z; g_policy_skips : Z }.

Definition LLVMFuzzerTestOneInput (data : list Z) (g : Counters) : outcome Counters :=
  h ← test_one_input data;
  Ok (mkCounters (u64 (g_inputs_seen g + 1)) (u64 (g_state_checks g + divergence_checks h))
        (u64 (g_policy_skips g + policy_only_skips h))).

(** A fuzzing session: the libFuzzer driver calls the target again and again. *)
Fixpoint session (inputs : list (list Z)) (g : Counters) : outcome Counters :=
  match inputs with
  | [] => Ok g
  | data :: inputs => g ← LLVMFuzzerTestOneInput data g; session inputs g
  end.

(** What goes to stderr at the end, and to the CSV file if it can be [opened]. *)
Definition print_summary (opened : bool) (g : Counters) : Query.text * option Query.text :=
  let inputs := Query.to_string (g_inputs_seen g) in
  let checks := Query.to_string (g_state_checks g) in
  let skips := Query.to_string (g_policy_skips g) in
  (Query.str "[fuzz_differential] inputs=" ++ inputs ++ Query.str " state_checks=" ++ checks ++ Query.str " policy_skips=" ++ skips ++
     Query.str " (policy_skips = one book's price-window/grid policy rejected a message the other accepted -- expected, documented OrderBook/LadderBook behavior, not a bug; state_checks = both books applied the message and agreed)" ++ [Query.lf],
   if opened then
     Some (Query.str "inputs,state_checks,policy_skips" ++ [Query.lf] ++
           inputs ++ [Query.comma] ++ checks ++ [Query.comma] ++ skips ++ [Query.lf])
   else None).

(** A quote in the message of a divergence. *)
Definition quote_str (q : option Book.Quote) : Query.text :=
  match q with
  | None => Query.str "none"
  | Some q => Query.to_string (Book.q_price q) ++ Query.str "x" ++ Query.to_string (Book.q_shares q)
  end.

(** The script that records the history reads the counters. *)
Lemma summary_reads_back g : is_u64 (g_inputs_seen g) -> is_u64 (g_state_checks g) -> is_u64 (g_policy_skips g) ->
  exists csv, (print_summary true g).2 = Some csv /\
    fmap (M := list) (fmap (M := list) Query.dec_val) <$>
        Csv.with_header [Query.str "inputs"; Query.str "state_checks"; Query.str "policy_skips"] csv =
      Some [[g_inputs_seen g; g_state_checks g; g_policy_skips g]].
Proof.
  intros Hi Hc Hs. eexists. split; [reflexivity|].
  set (ws := [Query.to_string (g_inputs_seen g); Query.to_string (g_state_checks g); Query.to_string (g_policy_skips g)]).
  set (hs := [Query.str "inputs"; Query.str "state_checks"; Query.str "policy_skips"]).
  match goal with |- context [Csv.with_header _ ?t] =>
    replace t with (Csv.line hs ++ [Query.lf] ++ ([ws] ≫= fun ws => Csv.line ws ++ [Query.lf])) end.
  2: { cbn [mbind list_bind Csv.line ws app]. rewrite app_nil_r. by repeat (rewrite <- app_assoc; cbn [app]). }
  rewrite (Csv.with_header_lines hs [ws]); [cbn -[Query.dec_val Query.to_string]; by rewrite !Csv.to_string_reads|done|apply (bool_decide_unpack _); vm_compute; exact I|].
  apply Forall_singleton. split; [done|]. destruct Hi, Hc, Hs. by repeat (apply Forall_cons_2; [by apply Csv.digits_cell|]).
Qed.

(** ** One message *)

(** If an operation whose price may be refused gives the same verdict as the
    one whose price is accepted, it does the same to the resting orders: what
    makes the harness's test on the reject counters sound. *)
Lemma same_verdict_same_orders adm e loc op loc' op' os :
  Builder.event_op true e = Some (loc, op) -> Builder.event_op adm e = Some (loc', op') ->
  (op os).1 = (op' os).1 -> op os = op' os.
Proof.
  intros H1 H2. destruct adm; [congruence|].
  destruct e; simpl in H1, H2; simplify_eq/=; try done.
  - unfold Book.spec_add. by case_match.
  - unfold Book.spec_replace, Book.spec_add. by repeat case_match.
Qed.

Lemma event_op_locate adm e :
  fst <$> Builder.event_op adm e = fst <$> Builder.event_op true e.
Proof. by destruct e. Qed.

Definition marked (h : DivergingHandler) (i : nat) : Prop := policy_diverged h !! i = Some true.

#[global] Instance marked_dec h i : Decision (marked h i).
Proof. unfold marked. apply _. Defined.

(** What the harness maintains: each builder follows its own reference, and the
    two references agree about every locate not marked. *)
Record agree (h : DivergingHandler) (s1 s2 : Builder.spec) : Prop := {
  agree_ref : Builder.sim (reference h) s1;
  agree_cand : Builder.sim (candidate h) s2;
  agree_books i : ~ marked h i -> Builder.sp_books s1 !! i = Builder.sp_books s2 !! i }.

Lemma init_agree : agree init Builder.spec_init Builder.spec_init.
Proof. constructor; [apply Builder.init_sim..|done]. Qed.

Lemma is_policy_diverged_spec locate h :
  is_policy_diverged locate h = Ok (bool_decide (marked h (Z.to_nat locate))).
Proof.
  unfold is_policy_diverged. case_decide as Hlt.
  - destruct (rd_ok _ _ Hlt) as (x & -> & Hx). f_equal. symmetry. unfold marked.
    destruct x; [by apply bool_decide_eq_true_2|]. apply bool_decide_eq_false_2. congruence.
  - f_equal. symmetry. apply bool_decide_eq_false_2. unfold marked. by rewrite lookup_ge_None_2 by lia.
Qed.

Lemma mark_policy_diverged_spec locate h :
  exists pd, mark_policy_diverged locate h =
    Ok (mkDiverging (reference h) (candidate h) pd (divergence_checks h) (policy_only_skips h)) /\
    forall i, pd !! i = Some true <-> i = Z.to_nat locate \/ marked h i.
Proof.
  unfold mark_policy_diverged, marked. set (idx := Z.to_nat locate). set (pd := policy_diverged h).
  set (pd1 := if (length pd <=? idx)%nat then pd ++ replicate (idx + 1 - length pd) false else pd).
  assert ((idx < length pd1)%nat /\ forall i, pd1 !! i = Some true <-> pd !! i = Some true) as [Hlen Hsame].
  { unfold pd1. destruct (Nat.leb_spec (length pd) idx) as [Hle|Hlt]; [|done].
    split; [rewrite length_app, length_replicate; lia|].
    intros i. destruct (decide (i < length pd)%nat); [by rewrite lookup_app_l|].
    rewrite (lookup_ge_None_2 pd i), lookup_app_r by lia.
    split; [|done]. by intros [? _]%lookup_replicate. }
  unfold wr. rewrite decide_True, bind_Ok by done. eexists; split; [reflexivity|].
  intros i. destruct (decide (i = idx)) as [->|Hne].
  - rewrite list_lookup_insert_eq by done. tauto.
  - rewrite list_lookup_insert_ne by done. rewrite Hsame. tauto.
Qed.

(** Books that hold the same resting orders pass the comparison. *)
Lemma quote_ok_refl q : quote_ok q q = true.
Proof. destruct q; simpl; [|done]. by rewrite !Z.eqb_refl. Qed.

Lemma diff_locate_ok locate h s1 s2 os : agree h s1 s2 ->
  Builder.sp_books s1 !! Z.to_nat locate = Some os -> Builder.sp_books s2 !! Z.to_nat locate = Some os ->
  diff_locate locate h = Ok (mkDiverging (reference h) (candidate h) (policy_diverged h)
    (u64 (divergence_checks h + 1)) (policy_only_skips h)).
Proof.
  intros [Hr Hc _] H1 H2. unfold diff_locate. rewrite !Builder.find_lookup, !bind_Ok.
  rewrite <- (Builder.sim_books _ _ Hr) in H1. rewrite <- (Builder.sim_books _ _ Hc) in H2.
  pose proof (Builder.sim_inv _ _ Hr (Z.to_nat locate)) as I1.
  pose proof (Builder.sim_inv _ _ Hc (Z.to_nat locate)) as I2.
  destruct (mjoin (Builder.books (reference h) !! Z.to_nat locate)) as [b1|]; [|done].
  destruct (mjoin (Builder.books (candidate h) !! Z.to_nat locate)) as [b2|]; [|done].
  cbn [fmap option_fmap option_map] in H1, H2. injection H1 as H1. injection H2 as H2.
  specialize (I1 b1 eq_refl). specialize (I2 b2 eq_refl).
  rewrite (Book.best_bid_law b1 I1), (Book.best_bid_law b2 I2), (Book.best_ask_law b1 I1), (Book.best_ask_law b2 I2).
  rewrite (Book.open_orders_law b1 I1), (Book.open_orders_law b2 I2).
  rewrite (Book.bid_levels_law b1 I1), (Book.bid_levels_law b2 I2), (Book.ask_levels_law b1 I1), (Book.ask_levels_law b2 I2).
  assert (Book.orders b1 = os) as -> by exact H1. assert (Book.orders b2 = os) as -> by exact H2.
  rewrite !bind_Ok. cbv zeta. by rewrite !quote_ok_refl, Nat.eqb_refl, !Z.eqb_refl.
Qed.

(** The reject counter tells whether one message was rejected. *)
Lemma counter_verdict r (ok : bool) : (u64 (r + (if ok then 0 else 1)) =? u64 r) = ok.
Proof.
  destruct ok; [by rewrite Z.add_0_r, Z.eqb_refl|]. apply Z.eqb_neq. word_lia.
Qed.

(** What one message for [locate] does to a reference. *)
Lemma spec_step_op adm e s loc op : Builder.event_op adm e = Some (loc, op) ->
  let r := op (default ∅ (Builder.sp_books s !! Z.to_nat loc)) in
  Builder.sp_books (Builder.spec_step adm e s) = <[Z.to_nat loc := r.2]> (Builder.sp_books s) /\
  Builder.sp_rejected (Builder.spec_step adm e s) = Builder.sp_rejected s + (if r.1 then 0 else 1).
Proof. intros H. unfold Builder.spec_step. rewrite H. simpl. by destruct (op _). Qed.

Lemma reference_admits (h : Builder.BookBuilder OrderBook.OrderBook) e : Builder.admitted h e = true.
Proof. unfold Builder.admitted. repeat case_match; done. Qed.

(** The callback a message reaches the builders through. *)
Definition event_callback (e : Wire.event) : callback := fun _ _ => Builder.on_event e.

(** Whether the harness gave up on some locate between [h] and [h']. *)
Definition kept h h' : Prop :=
  policy_diverged h' = policy_diverged h /\ policy_only_skips h' = policy_only_skips h.

Definition ticks h : Z := divergence_checks h + policy_only_skips h.

Lemma apply_and_diff_ok e h s1 s2 k loc op1 op2 :
  agree h s1 s2 -> Builder.ranged e -> Builder.at_most k s1 -> Builder.at_most k s2 ->
  Z.of_nat (S k) < Book.max_orders -> 0 <= divergence_checks h -> 0 <= policy_only_skips h -> ticks h <= Z.of_nat k ->
  let adm := Builder.admitted (candidate h) e in
  Builder.event_op true e = Some (loc, op1) -> Builder.event_op adm e = Some (loc, op2) ->
  exists h', apply_and_diff loc (event_callback e) h = Ok h' /\
    agree h' (Builder.spec_step true e s1) (Builder.spec_step adm e s2) /\
    Builder.on_event e (reference h) = Ok (reference h') /\ Builder.on_event e (candidate h) = Ok (candidate h') /\
    0 <= divergence_checks h' /\ 0 <= policy_only_skips h' /\ ticks h' <= Z.of_nat (S k) /\ (adm = true -> kept h h').
Proof.
  intros [Hr Hc Hb] Hran Hk1 Hk2 Hroom Hd Hp Ht adm E1 E2.
  destruct (Builder.step_ok _ _ e k Hr Hran Hk1 Hroom) as (r & Hrunr & Hr').
  destruct (Builder.step_ok _ _ e k Hc Hran Hk2 Hroom) as (c & Hrunc & Hc').
  rewrite reference_admits in Hr'. fold adm in Hc'.
  unfold apply_and_diff, event_callback. rewrite Hrunr, Hrunc, !bind_Ok.
  destruct (spec_step_op true e s1 loc op1 E1) as [B1 R1]. destruct (spec_step_op adm e s2 loc op2 E2) as [B2 R2].
  rewrite (Builder.sim_rejected _ _ Hr'), (Builder.sim_rejected _ _ Hr), R1, counter_verdict.
  rewrite (Builder.sim_rejected _ _ Hc'), (Builder.sim_rejected _ _ Hc), R2, counter_verdict.
  set (h1 := mkDiverging r c _ _ _).
  set (os1 := default ∅ (Builder.sp_books s1 !! Z.to_nat loc)) in *.
  set (os2 := default ∅ (Builder.sp_books s2 !! Z.to_nat loc)) in *.
  assert (forall i, ~ marked h i -> i <> Z.to_nat loc ->
    Builder.sp_books (Builder.spec_step true e s1) !! i = Builder.sp_books (Builder.spec_step adm e s2) !! i) as Hother.
  { intros i Hi Hne. rewrite B1, B2, !lookup_insert_ne by done. by apply Hb. }
  rewrite is_policy_diverged_spec, bind_Ok. unfold ticks in *. unfold Book.max_orders in Hroom.
  case_bool_decide as Hm; [|destruct (eqb (op1 os1).1 (op2 os2).1) eqn:Hv]; simpl negb; cbv iota.
  - (* already marked *)
    exists h1. split; [done|]. split_and!; try done; cbn; try lia. constructor; try done.
    intros i Hi. apply Hother; [exact Hi|]. intros ->. done.
  - (* same verdict *)
    apply eqb_prop in Hv. change (marked h1) with (marked h) in Hm.
    assert (os1 = os2) as Heq by (unfold os1, os2; by rewrite (Hb _ Hm)).
    assert (op1 os1 = op2 os2) as Hop by (rewrite <- Heq in *; by eapply same_verdict_same_orders).
    assert (agree h1 (Builder.spec_step true e s1) (Builder.spec_step adm e s2)) as Hag.
    { constructor; [done..|]. intros i Hi. destruct (decide (i = Z.to_nat loc)) as [->|Hne]; [|by apply Hother].
      by rewrite B1, B2, !lookup_insert_eq, Hop. }
    destruct (op1 os1).1 eqn:Hok1; simpl negb; cbv iota.
    + rewrite (diff_locate_ok loc h1 _ _ (op1 os1).2 Hag).
      2: by rewrite B1, lookup_insert_eq. 2: by rewrite B2, lookup_insert_eq, Hop.
      eexists; split; [reflexivity|]. split; [|cbn; rewrite u64_id by (unfold is_u64; lia); split_and!; try done; lia].
      destruct Hag as [? ? Hbk]. by constructor.
    + exists h1. split_and!; try done; cbn; lia.
  - (* different verdicts *)
    apply eqb_false_iff in Hv. destruct (mark_policy_diverged_spec loc h1) as (pd & -> & Hpd). rewrite bind_Ok.
    eexists; split; [reflexivity|]. cbn. rewrite u64_id by (unfold is_u64; lia). split_and!; try done; try lia.
    + constructor; [done..|]. intros i Hi. unfold marked in Hi. cbn in Hi. rewrite Hpd in Hi.
      apply Hother; [|tauto]. intros ?. tauto.
    + intros Hadm. exfalso. apply Hv. rewrite Hadm in E2.
      assert (os1 = os2) as <- by (unfold os1, os2; by rewrite (Hb _ Hm)). congruence.
Qed.

(** ** A whole input *)

Lemma apply_event_op e h loc op : Builder.event_op true e = Some (loc, op) ->
  Wire.apply_event (Ok h) e = apply_and_diff loc (event_callback e) h.
Proof. destruct e; simpl; intros [= <- <-]; reflexivity. Qed.

Lemma other_ok t n h s1 s2 k : agree h s1 s2 -> Builder.at_most k s1 -> Builder.at_most k s2 ->
  Z.of_nat (S k) < Book.max_orders ->
  exists h', on_other t n h = Ok h' /\
    agree h' (Builder.spec_step true (Wire.EOther t n) s1) (Builder.spec_step true (Wire.EOther t n) s2) /\
    Builder.on_event (Wire.EOther t n) (reference h) = Ok (reference h') /\
    Builder.on_event (Wire.EOther t n) (candidate h) = Ok (candidate h') /\
    divergence_checks h' = divergence_checks h /\ kept h h'.
Proof.
  intros [Hr Hc Hb] Hk1 Hk2 Hroom.
  destruct (Builder.step_ok _ _ (Wire.EOther t n) k Hr I Hk1 Hroom) as (r & Hrunr & Hr').
  destruct (Builder.step_ok _ _ (Wire.EOther t n) k Hc I Hk2 Hroom) as (c & Hrunc & Hc').
  change (on_other t n h) with (
    r ← Builder.on_event (Wire.EOther t n) (reference h);
    c ← Builder.on_event (Wire.EOther t n) (candidate h);
    Ok (mkDiverging r c (policy_diverged h) (divergence_checks h) (policy_only_skips h))).
  rewrite Hrunr, Hrunc, !bind_Ok. eexists; split; [reflexivity|]. split_and!; try done.
Qed.

Lemma diverging_step_ok e h s1 s2 k :
  agree h s1 s2 -> Builder.ranged e -> Builder.at_most k s1 -> Builder.at_most k s2 ->
  Z.of_nat (S k) < Book.max_orders -> 0 <= divergence_checks h -> 0 <= policy_only_skips h -> ticks h <= Z.of_nat k ->
  let adm := Builder.admitted (candidate h) e in
  exists h', Wire.apply_event (Ok h) e = Ok h' /\
    agree h' (Builder.spec_step true e s1) (Builder.spec_step adm e s2) /\
    Builder.on_event e (reference h) = Ok (reference h') /\ Builder.on_event e (candidate h) = Ok (candidate h') /\
    0 <= divergence_checks h' /\ 0 <= policy_only_skips h' /\ ticks h' <= Z.of_nat (S k) /\ (adm = true -> kept h h').
Proof.
  intros Hag Hran Hk1 Hk2 Hroom Hd Hp Ht adm.
  pose proof (event_op_locate adm e) as Hloc.
  destruct (Builder.event_op true e) as [[loc op1]|] eqn:E1; destruct (Builder.event_op adm e) as [[loc' op2]|] eqn:E2;
    simpl in Hloc; simplify_eq.
  - rewrite (apply_event_op e h loc op1 E1). by eapply apply_and_diff_ok.
  - destruct e as [| | | | | |t n]; try discriminate.
    destruct (other_ok t n h s1 s2 k Hag Hk1 Hk2 Hroom) as (h' & Hrun & ? & ? & ? & Hdc & Hkept).
    exists h'. unfold ticks in *. rewrite Hdc, (proj2 Hkept). split_and!; try done. lia.
Qed.

Lemma replay_ok es h s1 s2 k :
  agree h s1 s2 -> Forall Builder.ranged es -> Builder.at_most k s1 -> Builder.at_most k s2 ->
  Z.of_nat (k + length es) < Book.max_orders ->
  0 <= divergence_checks h -> 0 <= policy_only_skips h -> ticks h <= Z.of_nat k ->
  exists h' s1' s2', foldl Wire.apply_event (Ok h) es = Ok h' /\ agree h' s1' s2' /\
    foldl Wire.apply_event (Ok (reference h)) es = Ok (reference h') /\
    foldl Wire.apply_event (Ok (candidate h)) es = Ok (candidate h') /\
    0 <= divergence_checks h' /\ 0 <= policy_only_skips h' /\ ticks h' <= Z.of_nat (k + length es) /\
    (Builder.good_slots (candidate h) -> Forall Builder.good_event es -> kept h h').
Proof.
  revert h s1 s2 k. induction es as [|e es IH]; intros h s1 s2 k Hag Hran Hk1 Hk2 Hroom Hd Hp Ht; simpl.
  { exists h, s1, s2. rewrite Nat.add_0_r. split_and!; try done. }
  apply Forall_cons_1 in Hran as [He Hran]. simpl in Hroom.
  destruct (diverging_step_ok e h s1 s2 k Hag He Hk1 Hk2 ltac:(lia) Hd Hp Ht)
    as (h1 & Hrun & Hag1 & Hr1 & Hc1 & Hd1 & Hp1 & Ht1 & Hkept1).
  destruct (IH h1 _ _ (S k) Hag1 Hran (Builder.at_most_step _ _ _ _ Hk1) (Builder.at_most_step _ _ _ _ Hk2)
    ltac:(lia) Hd1 Hp1 Ht1) as (h' & s1' & s2' & Hf & Hag' & Hr & Hc & Hd' & Hp' & Ht' & Hkept).
  unfold Builder.on_event in Hr1, Hc1. rewrite Hrun, Hr1, Hc1. exists h', s1', s2'.
  split_and!; try done; [lia|]. intros Hg [Hge Hges]%Forall_cons_1.
  pose proof (Builder.good_admitted _ _ e (agree_cand _ _ _ Hag) Hg He Hge) as Hadm.
  pose proof (Builder.step_good _ _ e _ (agree_cand _ _ _ Hag) Hg He Hge Hc1) as Hg1.
  destruct (Hkept1 Hadm), (Hkept Hg1 Hges). split; congruence.
Qed.

Lemma init_at_most k : Builder.at_most k Builder.spec_init.
Proof. intros i os. simpl. by rewrite lookup_empty. Qed.

(** One input: the handler follows two references that agree where it has not
    given up. *)
Lemma input_ok data : Wire.bytes data -> Z.of_nat (length (Wire.frames data)) < Book.max_orders ->
  exists h s1 s2, test_one_input data = Ok h /\ agree h s1 s2 /\
    Wire.parse_stream data (length data) (Ok Builder.init) = Ok (length (Wire.frames data), Ok (reference h)) /\
    Wire.parse_stream data (length data) (Ok Builder.init) = Ok (length (Wire.frames data), Ok (candidate h)) /\
    0 <= divergence_checks h /\ 0 <= policy_only_skips h /\ ticks h <= Z.of_nat (length (Wire.frames data)) /\
    (Forall Builder.realistic_event (Wire.events data) -> kept init h).
Proof.
  intros Hbytes Hn. assert (length (Wire.events data) = length (Wire.frames data)) as Hlen
    by (unfold Wire.events; by rewrite length_fmap).
  destruct (replay_ok (Wire.events data) init _ _ 0 init_agree) as (h & s1 & s2 & Hf & Hag & Hr & Hc & Hd & Hp & Ht & Hkept);
    [by apply Builder.events_ranged|apply init_at_most|apply init_at_most|by rewrite Hlen|done..|].
  exists h, s1, s2. unfold test_one_input. rewrite !Wire.parse_stream_frames, firstn_all, bind_Ok by done. cbn in Hr, Hc.
  rewrite Hf, Hr, Hc. split_and!; try done; [by rewrite <- Hlen|].
  intros Hreal. apply Hkept; [|done]. intros [|i] b Hi; discriminate Hi.
Qed.

(** ** Properties *)

(** C3: the differential harness finds no divergence on any input of fewer than
    2^32 frames, well formed or not (an order count fits 32 bits): the run never aborts, throws or reaches undefined behaviour; the two
    builders it ends with are those of two plain replays; at every locate it did
    not give up on, both hold the same resting orders; at most one comparison or
    one give-up is counted per frame; and when every new price is cent-aligned
    and below $40,000 it gives up on no locate at all. *)
Theorem differential_never_aborts (data : list Z) (Hbytes : Wire.bytes data)
  (Hn : Z.of_nat (length (Wire.frames data)) < Book.max_orders) :
  exists h, test_one_input data = Ok h /\
    Wire.parse_stream data (length data) (Ok Builder.init) = Ok (length (Wire.frames data), Ok (reference h)) /\
    Wire.parse_stream data (length data) (Ok Builder.init) = Ok (length (Wire.frames data), Ok (candidate h)) /\
    (forall i, policy_diverged h !! i <> Some true ->
       OrderBook.orders_ <$> mjoin (Builder.books (reference h) !! i) =
       LadderBook.orders_ <$> mjoin (Builder.books (candidate h) !! i)) /\
    divergence_checks h + policy_only_skips h <= Z.of_nat (length (Wire.frames data)) /\
    (Forall Builder.realistic_event (Wire.events data) -> policy_diverged h = [] /\ policy_only_skips h = 0).
Proof.
  destruct (input_ok data Hbytes Hn) as (h & s1 & s2 & Hrun & Hag & Hr & Hc & _ & _ & Ht & Hkept).
  exists h. split_and!; try done.
  - intros i Hi. etrans; [exact (Builder.sim_books _ _ (agree_ref _ _ _ Hag) i)|].
    rewrite (agree_books _ _ _ Hag i Hi). symmetry. exact (Builder.sim_books _ _ (agree_cand _ _ _ Hag) i).
Qed.

(** Replaying the sample stream compares the books after each of the four
    messages both applied. *)
Lemma differential_never_aborts_witness : exists h,
  test_one_input Builder.sample_data = Ok h /\ policy_only_skips h = 0 /\ divergence_checks h <= 7.
Proof.
  destruct (differential_never_aborts Builder.sample_data Builder.sample_data_bytes)
    as (h & H1 & _ & _ & _ & H2 & H3).
  - vm_compute. reflexivity.
  - exists h. split; [exact H1|]. destruct (H3 Builder.sample_data_real) as [_ H4].
    split; [exact H4|]. rewrite H4 in H2. rewrite Z.add_0_r in H2. exact H2.
Defined.

(** An off-grid price the ladder refuses: the harness marks the locate and
    compares nothing there. *)
Definition off_grid_data : list Z :=
  Encode.stream
    [Encode.add_order 3 100 1 Wire.Buy 300 [65; 66] 1500000;
     Encode.add_order 3 101 2 Wire.Sell 200 [65; 66] 1500150;
     Encode.del 3 102 1].

Example off_grid_gives_up :
  (fun h => (policy_diverged h, divergence_checks h, policy_only_skips h)) <$> test_one_input off_grid_data =
  Ok ([false; false; false; true], 1, 1).
Proof. vm_compute. reflexivity. Qed.

(** A session counts every input once, and together at most one comparison or
    give-up for each frame it was given; no input ends it. *)
Theorem session_counts (inputs : list (list Z)) (Hbytes : Forall Wire.bytes inputs)
  (Hn : Forall (fun data => Z.of_nat (length (Wire.frames data)) < Book.max_orders) inputs)
  (Htot : Z.of_nat (length inputs) < 18446744073709551616)
  (Hframes : Z.of_nat (sum_list (length ∘ Wire.frames <$> inputs)) < 18446744073709551616) :
  exists g, session inputs (mkCounters 0 0 0) = Ok g /\ g_inputs_seen g = Z.of_nat (length inputs) /\
    0 <= g_state_checks g /\ 0 <= g_policy_skips g /\
    g_state_checks g + g_policy_skips g <= Z.of_nat (sum_list (length ∘ Wire.frames <$> inputs)).
Proof.
  enough (forall g0, 0 <= g_inputs_seen g0 -> 0 <= g_state_checks g0 -> 0 <= g_policy_skips g0 ->
    g_inputs_seen g0 + Z.of_nat (length inputs) < 18446744073709551616 ->
    g_state_checks g0 + g_policy_skips g0 + Z.of_nat (sum_list (length ∘ Wire.frames <$> inputs)) < 18446744073709551616 ->
    exists g, session inputs g0 = Ok g /\ g_inputs_seen g = g_inputs_seen g0 + Z.of_nat (length inputs) /\
      0 <= g_state_checks g /\ 0 <= g_policy_skips g /\
      g_state_checks g + g_policy_skips g <= g_state_checks g0 + g_policy_skips g0 +
        Z.of_nat (sum_list (length ∘ Wire.frames <$> inputs))) as Hgen by (apply (Hgen (mkCounters 0 0 0)); cbn; lia).
  clear Htot Hframes. induction inputs as [|data inputs IH]; intros g0 Hi Hc Hp Hsum Hfr; cbn [session].
  { exists g0. cbn in *. split_and!; try done; lia. }
  apply Forall_cons_1 in Hbytes as [Hb Hbytes]. apply Forall_cons_1 in Hn as [Hd Hn].
  cbn [fmap list_fmap length sum_list sum_list_with compose] in *. unfold sum_list in *. cbn [sum_list_with id] in *.
  destruct (input_ok data Hb Hd) as (h & _ & _ & Hrun & _ & _ & _ & Hd1 & Hp1 & Ht & _).
  unfold LLVMFuzzerTestOneInput. rewrite Hrun, !bind_Ok. unfold ticks in Ht.
  rewrite !u64_id by (unfold is_u64; lia).
  destruct (IH Hbytes Hn (mkCounters (g_inputs_seen g0 + 1) (g_state_checks g0 + divergence_checks h) (g_policy_skips g0 + policy_only_skips h)))
    as (g & Hg & E1 & E2 & E3 & E4); cbn [g_inputs_seen g_state_checks g_policy_skips] in *; try lia.
  exists g. split_and!; try done; lia.
Qed.

Example three_inputs : session [[]; Builder.sample_data; off_grid_data] (mkCounters 0 0 0) = Ok (mkCounters 3 5 1).
Proof. vm_compute. reflexivity. Qed.

End Differential.
