(* ===== verification/Conv.v ===== *)
(** * Conv: the C library's number conversions

    [atoi], [atoll], [strtoll] and [strtoull] in base ten, as the [main]
    functions of src/replay_query_main.cpp, src/live_replay_main.cpp and
    src/multicast_sender_main.cpp use them on their arguments: leading white
    space, an optional sign, then digits up to the first other character. *)

From S2P Require Import Prelude Query.

Module Conv.

(** [isspace] in the C locale. *)
Definition is_space (c : Z) : bool := (c =? 32) || ((9 <=? c) && (c <=? 13)).

Fixpoint skip_space (s : Query.text) : Query.text :=
  match s with
  | c :: s' => if is_space c then skip_space s' else s
  | [] => []
  end.

(** What the C conversions read at the start of a string: whether there is a
    minus sign, and the number after the sign (0 when there is none). *)
Definition subject (s : Query.text) : bool * Z :=
  match skip_space s with
  | c :: r =>
    if c =? 45 then (true, Query.dec_val (Query.take_digits r))
    else if c =? 43 then (false, Query.dec_val (Query.take_digits r))
    else (false, Query.dec_val (Query.take_digits (c :: r)))
  | [] => (false, 0)
  end.

(** [strtoull(s, nullptr, 10)]: too large a number gives the largest one, and
    a minus sign negates modulo 2^64. *)
Definition strtoull (s : string) : Z :=
  let '(minus, n) := subject (Query.str s) in
  if 18446744073709551615 <? n then 18446744073709551615 else if minus : bool then u64 (- n) else n.

(** [strtoll(s, nullptr, 10)] saturates. *)
Definition strtoll (s : string) : Z :=
  let '(minus, n) := subject (Query.str s) in
  if minus : bool then Z.max (- 9223372036854775808) (- n) else Z.min 9223372036854775807 n.

(** The number as written. *)
Definition signed (s : string) : Z :=
  let '(minus, n) := subject (Query.str s) in if minus : bool then - n else n.

(** [atoi(s)] and [atoll(s)]: undefined for a number that is not an [int], or
    not a [long long]. *)
Definition atoi (s : string) : outcome Z :=
  if (-2147483648 <=? signed s) && (signed s <=? 2147483647) then Ok (signed s) else UB.

Definition atoll (s : string) : outcome Z :=
  if (-9223372036854775808 <=? signed s) && (signed s <=? 9223372036854775807) then Ok (signed s) else UB.

(** ** Proofs *)

Lemma take_digits_val s : 0 <= Query.dec_val (Query.take_digits s).
Proof.
  unfold Query.dec_val. assert (forall v, 0 <= v -> 0 <= foldl (fun v d => v * 10 + (d - 48)) v (Query.take_digits s)) as H; [|by apply H].
  induction s as [|c s IH]; intros v Hv; cbn [Query.take_digits]; [done|].
  destruct (Query.is_digit c) eqn:E; [|done]. cbn [foldl]. apply IH.
  unfold Query.is_digit in E. apply andb_true_iff in E. lia.
Qed.

Lemma subject_nonneg s : 0 <= (subject s).2.
Proof.
  unfold subject. destruct (skip_space s) as [|c r]; [done|].
  destruct (c =? 45); [apply take_digits_val|]. destruct (c =? 43); apply take_digits_val.
Qed.

Lemma strtoull_range s : is_u64 (strtoull s).
Proof.
  unfold strtoull. pose proof (subject_nonneg (Query.str s)). destruct (subject (Query.str s)) as [minus n]. cbn in *.
  destruct (Z.ltb_spec 18446744073709551615 n); [unfold is_u64; lia|]. destruct minus; [apply u64_range|unfold is_u64; lia].
Qed.

(** A number printed and read again. *)
Lemma strtoull_digits (n : Z) s : is_u64 n -> Query.str s = Query.to_string n -> strtoull s = n.
Proof.
  intros Hn Hs. unfold strtoull. rewrite Hs.
  pose proof (Query.to_string_digits n ltac:(unfold is_u64 in Hn; lia)) as Hd. pose proof (Query.to_string_ne n) as Hne.
  assert (subject (Query.to_string n) = (false, n)) as ->.
  2: { unfold is_u64 in Hn. by rewrite (proj2 (Z.ltb_ge _ _)) by lia. }
  assert (Query.take_digits (Query.to_string n) = Query.to_string n) as Ht.
  { rewrite <- (app_nil_r (Query.to_string n)) at 1. apply Query.take_digits_app; [done|]. by intros c [=]. }
  assert (Query.dec_val (Query.to_string n) = n) as Hv.
  { unfold Query.to_string. unfold is_u64 in Hn. apply Query.digits_val. change (10 ^ Z.of_nat 20) with 100000000000000000000. lia. }
  unfold subject. destruct (Query.to_string n) as [|c ds] eqn:E; [done|]. rewrite <- E in *.
  apply Forall_cons_1 in Hd as [Hc _] || (rewrite E in Hd; apply Forall_cons_1 in Hd as [Hc _]).
  unfold Query.is_digit in Hc. apply andb_true_iff in Hc as [H1 H2]. rewrite E. cbn [skip_space].
  assert (is_space c = false) as -> by (unfold is_space; apply orb_false_iff; split; [|apply andb_false_iff; right]; lia).
  rewrite (proj2 (Z.eqb_neq _ _)), (proj2 (Z.eqb_neq _ _)) by lia. by rewrite <- E, Ht, Hv.
Qed.

Example conversions :
  strtoull " 42x" = 42 /\ strtoull "-1" = 18446744073709551615 /\ strtoull "99999999999999999999" = 18446744073709551615 /\
  strtoll "-99999999999999999999" = -9223372036854775808 /\ atoi "+7" = Ok 7 /\ atoi "none" = Ok 0 /\ atoi "2147483648" = UB.
Proof. split_and!; reflexivity. Qed.

End Conv.
