(* ===== verification/Server.v ===== *)
(** * Server: the query server's threads

    Models the threads of [QueryServer] (include/net/query_server.hpp): the
    accept loop with its connection cap and [reap_finished_connections], one
    thread per connection running [handle_connection] with its [send_all], and
    any number of callers of [stop].

    [step] interleaves them at each system call, atomic access and critical
    section.  [conn_threads_mu_] is held for the whole of a reap, an insertion
    or a swap and no connection thread takes it, so each of those is one step.
    The network decides what [poll], [accept], [recv] and [send] do; a [send]
    makes progress only when the peer takes bytes or has gone, and those steps
    are the peer's.  A [send] that reports EAGAIN or EINTR changes nothing and
    is not a step.  [std::thread]'s constructor is assumed to succeed. *)

From S2P Require Import Prelude Snapshot Query.

Module Server.

Definition kMaxConnections : nat := 256.
Definition kChunk : nat := Z.to_nat 4096.

(** ** A connection thread *)

Inductive conn_pc :=
| Check (buf : Query.text)                        (** the [while] condition *)
| Recv (buf : Query.text)                         (** blocked in [recv] *)
| Lines (buf : Query.text)                        (** the loop over complete lines *)
| Send (data rest : Query.text) (final : bool)    (** in [send_all], [data] left to send *)
| Close                                           (** about to close its socket *)
| Done.                                           (** [done] is stored *)

#[global] Instance conn_pc_eq_dec : EqDecision conn_pc.
Proof. solve_decision. Defined.

(** One step of [handle_connection]; [stop] is [stop_requested_], and [peer]
    says whether the step needs the peer. *)
Inductive conn_step (stop : bool) : bool -> conn_pc -> conn_pc -> Prop :=
| C_stop buf : stop = true -> conn_step stop false (Check buf) Close
| C_recv buf : stop = false -> conn_step stop false (Check buf) (Recv buf)
| C_got buf chunk : (0 < length chunk <= kChunk)%nat ->
    conn_step stop false (Recv buf) (Lines (buf ++ chunk))
| C_quiet buf : conn_step stop false (Recv buf) (Check buf)
| C_gone buf : conn_step stop false (Recv buf) Close
| C_blank buf line rest : Query.split_line buf = Some (line, rest) -> Query.trim_cr line = [] ->
    conn_step stop false (Lines buf) (Lines rest)
| C_answer buf line rest reads : Query.split_line buf = Some (line, rest) -> Query.trim_cr line <> [] ->
    conn_step stop false (Lines buf)
      (Send (Query.handle_line reads (Query.trim_cr line) ++ [Query.lf]) rest false)
| C_long buf : Query.split_line buf = None -> (Query.kMaxLineLen < length buf)%nat ->
    conn_step stop false (Lines buf) (Send (Query.error_json "request line too long" ++ [Query.lf]) [] true)
| C_again buf : Query.split_line buf = None -> (length buf <= Query.kMaxLineLen)%nat ->
    conn_step stop false (Lines buf) (Check buf)
| C_sent n data rest final : (0 < n <= length data)%nat ->
    conn_step stop true (Send data rest final) (Send (drop n data) rest final)
| C_send_failed data rest final : data <> [] -> conn_step stop true (Send data rest final) Close
| C_answered rest : conn_step stop false (Send [] rest false) (Lines rest)
| C_refused rest : conn_step stop false (Send [] rest true) Close
| C_close : conn_step stop false Close Done.

(** ** The server *)

Inductive accept_pc := NotStarted | Loop | Reap | Poll | Accepting | Insert | Exited.

#[global] Instance accept_pc_eq_dec : EqDecision accept_pc.
Proof. solve_decision. Defined.

(** Where the caller whose [exchange] came first is. *)
Inductive stop_pc := Shut | JoinAccept | Swap | Join (left : list nat) | Returned.

Record server := mkServer {
  stop_requested : bool;
  listen_open : bool;
  accept_at : accept_pc;
  threads : gmap nat conn_pc;       (** every connection thread ever spawned *)
  conn_threads : list nat;          (** [conn_threads_] *)
  calls : nat;                      (** callers of [stop] before the [exchange] *)
  winner : option stop_pc;
  early : nat }.                    (** callers that returned at the first line *)

Definition start : server := mkServer false true NotStarted ∅ [] 0 None 0.

(** Who moves: the accept thread, a connection thread, the peer of one, a
    caller inside [stop], or a new call from outside. *)
Inductive actor := AAccept | AConn (id : nat) | APeer (id : nat) | AStop | ACall.

Definition at_accept (pc : accept_pc) (s : server) : server :=
  mkServer (stop_requested s) (listen_open s) pc (threads s) (conn_threads s) (calls s) (winner s) (early s).
Definition at_stop (pc : stop_pc) (s : server) : server :=
  mkServer (stop_requested s) (listen_open s) (accept_at s) (threads s) (conn_threads s) (calls s) (Some pc) (early s).
Definition set_conns (l : list nat) (s : server) : server :=
  mkServer (stop_requested s) (listen_open s) (accept_at s) (threads s) l (calls s) (winner s) (early s).
Definition set_thread (id : nat) (pc : conn_pc) (s : server) : server :=
  mkServer (stop_requested s) (listen_open s) (accept_at s) (<[id := pc]> (threads s)) (conn_threads s)
    (calls s) (winner s) (early s).

(** [reap_finished_connections]: joins and erases the threads that are done. *)
Definition reap (s : server) : server :=
  set_conns (filter (fun id => threads s !! id <> Some Done) (conn_threads s)) s.

Inductive step : actor -> server -> server -> Prop :=
(* start() and stop() are called *)
| S_start s : accept_at s = NotStarted -> stop_requested s = false -> calls s = 0%nat ->
    step ACall s (at_accept Loop s)
| S_call s :
    step ACall s (mkServer (stop_requested s) (listen_open s) (accept_at s) (threads s) (conn_threads s)
                    (S (calls s)) (winner s) (early s))
(* stop() *)
| S_first s n : calls s = S n -> stop_requested s = false ->
    step AStop s (mkServer true (listen_open s) (accept_at s) (threads s) (conn_threads s) n (Some Shut) (early s))
| S_again s n : calls s = S n -> stop_requested s = true ->
    step AStop s (mkServer true (listen_open s) (accept_at s) (threads s) (conn_threads s) n (winner s) (S (early s)))
| S_shut s : winner s = Some Shut ->
    step AStop s (at_stop JoinAccept
      (mkServer (stop_requested s) false (accept_at s) (threads s) (conn_threads s) (calls s) (winner s) (early s)))
| S_join_accept s : winner s = Some JoinAccept -> accept_at s = NotStarted \/ accept_at s = Exited ->
    step AStop s (at_stop Swap s)
| S_swap s : winner s = Some Swap -> step AStop s (at_stop (Join (conn_threads s)) (set_conns [] s))
| S_join s id l : winner s = Some (Join (id :: l)) -> threads s !! id = Some Done ->
    step AStop s (at_stop (Join l) s)
| S_return s : winner s = Some (Join []) -> step AStop s (at_stop Returned s)
(* accept_loop() *)
| A_exit s : accept_at s = Loop -> stop_requested s = true -> step AAccept s (at_accept Exited s)
| A_enter s : accept_at s = Loop -> stop_requested s = false -> step AAccept s (at_accept Reap s)
| A_reap s : accept_at s = Reap -> step AAccept s (at_accept Poll (reap s))
| A_idle s : accept_at s = Poll -> step AAccept s (at_accept Loop s)
| A_ready s : accept_at s = Poll -> step AAccept s (at_accept Accepting s)
| A_failed s : accept_at s = Accepting -> step AAccept s (at_accept Loop s)
| A_accepted s : accept_at s = Accepting -> listen_open s = true -> step AAccept s (at_accept Insert s)
| A_full s : accept_at s = Insert -> (kMaxConnections <= length (conn_threads s))%nat ->
    step AAccept s (at_accept Loop s)
| A_spawn s id : accept_at s = Insert -> (length (conn_threads s) < kMaxConnections)%nat ->
    threads s !! id = None ->
    step AAccept s (at_accept Loop (set_thread id (Check []) (set_conns (conn_threads s ++ [id]) s)))
(* handle_connection() *)
| C_step s id pc pc' (peer : bool) : threads s !! id = Some pc -> conn_step (stop_requested s) peer pc pc' ->
    step (if peer then APeer id else AConn id) s (set_thread id pc' s).

Inductive reachable : server -> Prop :=
| reach_start : reachable start
| reach_step a s s' : reachable s -> step a s s' -> reachable s'.

(** ** What every reachable state satisfies *)

(** The threads the winning caller still has to join. *)
Definition joining (s : server) : list nat :=
  match winner s with Some (Join l) => l | _ => [] end.

(** The threads somebody will join. *)
Definition owned (s : server) : list nat := conn_threads s ++ joining s.

Definition live (s : server) : gmap nat conn_pc := filter (fun p => p.2 <> Done) (threads s).

Record server_inv (s : server) : Prop := {
  inv_winner : stop_requested s = match winner s with Some _ => true | None => false end;
  inv_owned : forall id pc, threads s !! id = Some pc -> pc <> Done -> id ∈ owned s;
  inv_known : Forall (fun id => is_Some (threads s !! id)) (owned s);
  inv_count : (length (owned s) <= kMaxConnections)%nat;
  inv_shut : match winner s with Some Shut | None => True | Some _ => listen_open s = false end;
  inv_exited : match winner s with
    | Some Swap => accept_at s = NotStarted \/ accept_at s = Exited
    | Some (Join _) | Some Returned => (accept_at s = NotStarted \/ accept_at s = Exited) /\ conn_threads s = []
    | _ => True end }.

Lemma server_start_inv : server_inv start.
Proof.
  constructor; cbn; try done. apply Nat.le_0_l.
Qed.

(** A thread's own step: the pc changes, nothing else. *)
Lemma set_thread_inv s id pc pc' : server_inv s -> threads s !! id = Some pc -> pc <> Done ->
  server_inv (set_thread id pc' s).
Proof.
  intros [Hw Ho Hk Hc Hsh Hx] Hid Hpc. constructor; cbn; try done.
  - intros i q Hi Hq. apply lookup_insert_Some in Hi as [[<- _]|[_ Hi]]; [|by apply (Ho _ q)]. by apply (Ho _ pc).
  - eapply Forall_impl; [exact Hk|]. intros i Hi. cbn in *.
    destruct (decide (id = i)) as [->|Hne]; [by rewrite lookup_insert_eq|by rewrite lookup_insert_ne].
Qed.

Lemma reap_inv s : server_inv s -> server_inv (reap s).
Proof.
  intros [Hw Ho Hk Hc Hsh Hx]. unfold owned in *. constructor; cbn; try done.
  - intros i q Hi Hq. specialize (Ho i q Hi Hq). unfold owned. cbn. rewrite elem_of_app in *.
    destruct Ho as [Ho|Ho]; [left|by right]. apply list_elem_of_filter. split; [congruence|done].
  - unfold owned. cbn. apply Forall_app in Hk as [Hk1 Hk2]. apply Forall_app. split; [|done].
    apply Forall_forall. intros i [_ Hi]%list_elem_of_filter. by eapply Forall_forall in Hk1.
  - unfold owned in *. change (joining (reap s)) with (joining s). cbn. rewrite length_app in *.
    pose proof (length_filter (fun id => threads s !! id <> Some Done) (conn_threads s)). lia.
  - destruct (winner s) as [[]|]; try done. all: destruct Hx as [Hx ->]; done.
Qed.

(** The accept thread moving on, when it has not been joined. *)
Lemma at_accept_inv s pc : server_inv s -> accept_at s <> NotStarted -> accept_at s <> Exited ->
  server_inv (at_accept pc s).
Proof.
  intros [Hw Ho Hk Hc Hsh Hx] H1 H2. constructor; cbn; try done.
  destruct (winner s) as [[]|]; try done; tauto.
Qed.

Lemma spawn_inv s id : server_inv s -> accept_at s = Insert -> (length (conn_threads s) < kMaxConnections)%nat ->
  threads s !! id = None ->
  server_inv (set_thread id (Check []) (set_conns (conn_threads s ++ [id]) s)).
Proof.
  intros [Hw Ho Hk Hc Hsh Hx] Hat Hlen Hid.
  assert (joining s = []) as Hj.
  { unfold joining. destruct (winner s) as [[]|]; try done; exfalso; destruct Hx as [[?|?] ?]; congruence. }
  unfold owned in *. rewrite Hj, app_nil_r in *. constructor; cbn; try done.
  - intros i q Hi Hq. unfold owned. change (joining (set_thread _ _ _)) with (joining s). rewrite Hj, app_nil_r. cbn.
    apply elem_of_app. apply lookup_insert_Some in Hi as [[<- _]|[_ Hi]]; [right; by apply list_elem_of_singleton|].
    left. by apply (Ho _ q).
  - unfold owned. change (joining (set_thread _ _ _)) with (joining s). rewrite Hj, app_nil_r. cbn.
    apply Forall_app. split; [|by rewrite Forall_singleton, lookup_insert_eq].
    eapply Forall_impl; [exact Hk|]. intros i Hi. cbn in *. rewrite lookup_insert_ne; [done|]. intros <-.
    rewrite Hid in Hi. by destruct Hi.
  - unfold owned. change (joining (set_thread _ _ _)) with (joining s). rewrite Hj, app_nil_r. cbn.
    rewrite length_app. cbn. lia.
  - destruct (winner s) as [[]|]; try done; exfalso; destruct Hx as [[?|?] ?]; congruence.
Qed.

(** The cases in which only [stop]'s caller moves: the threads it owns with
    [conn_threads] stay the same. *)
Ltac stop_case E :=
  constructor; cbn; unfold owned, joining in *; cbn in *; rewrite ?E, ?app_nil_r in *; cbn in *;
  rewrite ?app_nil_r in *; try done; try tauto.

Lemma server_step_inv a s s' : server_inv s -> step a s s' -> server_inv s'.
Proof.
  intros Hs Hstep. pose proof Hs as [Hw Ho Hk Hc Hsh Hx].
  destruct Hstep as [s Ha Hr _|s|s n _ Hr|s n _ Hr|s E|s E He|s E|s id l E Hd|s E|s E _|s E _|s E|s E|s E|s E|s E _|s E _
    |s id E Hlen Hid|s id pc pc' peer Hid Hc']; try (apply at_accept_inv; [done|congruence..]; fail).
  - rewrite Hr in Hw. destruct (winner s) eqn:E; [done|]. stop_case E.
  - by constructor.
  - rewrite Hr in Hw. destruct (winner s) eqn:E; [done|]. stop_case E.
  - constructor; cbn; try done. by rewrite <- Hw.
  - stop_case E.
  - stop_case E.
  - stop_case E.
  - rewrite E in Hx. destruct Hx as [Hat Hct]. stop_case E; rewrite Hct in *; cbn in *.
    + intros i pc Hi Hpc. specialize (Ho i pc Hi Hpc). apply elem_of_cons in Ho as [->|Ho]; [congruence|done].
    + by apply Forall_cons_1 in Hk as [_ Hk].
    + lia.
  - stop_case E.
  - pose proof (reap_inv s Hs) as Hr. by apply (at_accept_inv (reap s) Poll) in Hr; [|cbn; congruence..].
  - apply (at_accept_inv _ Loop); [by apply spawn_inv|cbn; congruence..].
  - apply (set_thread_inv _ _ pc); [done|done|]. intros ->. inversion Hc'.
Qed.

Lemma server_reachable_inv s : reachable s -> server_inv s.
Proof. induction 1 as [|a s s' _ IH Hstep]; [apply server_start_inv|by eapply server_step_inv]. Qed.

(** The live threads are all owned. *)
Lemma live_bound s : server_inv s -> (size (live s) <= kMaxConnections)%nat.
Proof.
  intros [Hw Ho Hk Hc _ _]. etrans; [|exact Hc]. unfold live. rewrite <- size_dom.
  etrans; [apply (subseteq_size _ (list_to_set (owned s) : gset nat))|].
  - intros i Hi. apply elem_of_dom in Hi as [pc Hpc]. apply map_lookup_filter_Some in Hpc as [Hpc Hd].
    apply elem_of_list_to_set. by apply (Ho i pc).
  - apply size_list_to_set_le.
Qed.

(** ** What is left to do once a stop is requested

    The work is a pair: counted steps, and the bytes of responses being sent,
    which only matter while the first component stands still. *)

Definition conn_work (pc : conn_pc) : nat :=
  match pc with
  | Done => 0
  | Close => 1
  | Check _ => 2
  | Send _ rest final => if final then 2 else 3 + length rest
  | Lines buf => 3 + length buf
  | Recv buf => 4 + length buf + kChunk
  end.

Definition conn_left (pc : conn_pc) : nat :=
  match pc with Send data _ _ => S (length data) | _ => 0 end.

Definition accept_work (pc : accept_pc) : nat :=
  match pc with NotStarted | Exited => 0 | Loop => 1 | Insert => 5 | Accepting => 6 | Poll => 7 | Reap => 8 end.

Definition stop_work (w : option stop_pc) : nat :=
  match w with
  | None | Some Returned => 0
  | Some (Join l) => 1 + length l
  | Some Swap => 2
  | Some JoinAccept => 3
  | Some Shut => 4
  end.

Definition total (f : conn_pc -> nat) (m : gmap nat conn_pc) : nat := map_fold (fun _ pc n => (f pc + n)%nat) 0%nat m.

Definition work (s : server) : nat * nat :=
  ((accept_work (accept_at s) + total conn_work (threads s) + length (conn_threads s) +
    stop_work (winner s) + calls s)%nat,
   total conn_left (threads s)).

Definition less (p q : nat * nat) : Prop := (p.1 < q.1)%nat \/ (p.1 = q.1 /\ (p.2 < q.2)%nat).

Lemma less_wf : well_founded less.
Proof.
  intros [a b]. revert b. induction (lt_wf a) as [a _ IHa]. intros b.
  induction (lt_wf b) as [b _ IHb]. constructor. intros [a' b'] [H|[H1 H2]]; cbn in *; [by apply IHa|].
  subst a'. by apply IHb.
Qed.

Section Total.
Variable f : conn_pc -> nat.

Lemma total_insert id pc m : m !! id = None -> total f (<[id := pc]> m) = (f pc + total f m)%nat.
Proof. intros Hid. unfold total. rewrite map_fold_insert_L; [done| |done]. intros. lia. Qed.

Lemma total_update id pc pc' m : m !! id = Some pc ->
  (total f (<[id := pc']> m) + f pc = total f m + f pc')%nat.
Proof.
  intros Hid. rewrite <- (insert_delete_id m id pc Hid) at 2. rewrite <- insert_delete_eq.
  rewrite !total_insert by apply lookup_delete_eq. lia.
Qed.

End Total.

Lemma conn_step_less peer pc pc' : conn_step true peer pc pc' ->
  less (conn_work pc', conn_left pc') (conn_work pc, conn_left pc).
Proof.
  intros Hstep. unfold less. inversion Hstep; subst; cbn -[kChunk]; try (left; lia).
  - left. rewrite length_app. lia.
  - left. match goal with H : Query.split_line _ = _ |- _ => apply Query.split_line_length in H end. lia.
  - left. match goal with H : Query.split_line _ = _ |- _ => apply Query.split_line_length in H end. lia.
  - right. rewrite length_drop. split; [done|lia].
  - left. destruct final; lia.
  - right. split; [done|lia].
Qed.

(** The steps of a server that has been asked to stop, its callers included. *)
Definition winds_down (s' s : server) : Prop :=
  stop_requested s = true /\ exists a, a <> ACall /\ step a s s'.

Lemma winds_down_less s' s : winds_down s' s -> less (work s') (work s).
Proof.
  intros (Hstop & a & Ha & Hstep). unfold work, less.
  destruct Hstep as [s _ Hr _|s|s n _ Hr|s n En Hr|s E|s E He|s E|s id l E Hd|s E|s E _|s _ Hr|s E|s E|s E|s E|s E _|s E _
    |s id E Hlen Hid|s id pc pc' peer Hid Hc']; try congruence; cbn.
  all: try (rewrite ?E, ?En; cbn; left; lia).
  - pose proof (length_filter (fun id => threads s !! id <> Some Done) (conn_threads s)). rewrite E. cbn. left. lia.
  - rewrite E, total_insert, length_app by done. cbn. left. lia.
  - rewrite Hstop in Hc'. pose proof (total_update conn_work id pc pc' _ Hid). pose proof (total_update conn_left id pc pc' _ Hid).
    destruct (conn_step_less _ _ _ Hc') as [H1|[H1 H2]]; cbn in *; [left|right]; lia.
Qed.

(** A connection thread that is not done can move, if its peer does. *)
Lemma conn_progress pc : pc <> Done -> exists peer pc', conn_step true peer pc pc'.
Proof.
  intros Hpc. destruct pc as [buf|buf|buf|data rest final| |]; [| | | | |done].
  - eexists _, _. by apply C_stop.
  - eexists _, _. apply C_quiet.
  - destruct (Query.split_line buf) as [[line rest]|] eqn:E.
    + destruct (decide (Query.trim_cr line = [])) as [Ht|Ht]; eexists _, _; [by eapply C_blank|].
      eapply (C_answer true buf line rest (Query.mkReads Snapshot.empty_store Snapshot.empty_store Snapshot.empty_store)); done.
    + destruct (le_lt_dec (length buf) Query.kMaxLineLen); eexists _, _; [by apply C_again|by apply C_long].
  - destruct data as [|c data]; [destruct final; eexists _, _; [apply C_refused|apply C_answered]|].
    eexists _, _. apply (C_sent true 1). cbn. lia.
  - eexists _, _. apply C_close.
Qed.

Lemma accept_progress s : stop_requested s = true -> accept_at s <> NotStarted -> accept_at s <> Exited ->
  exists s', step AAccept s s'.
Proof.
  intros Hstop H1 H2. destruct (accept_at s) eqn:E; try congruence.
  - eexists. by apply A_exit.
  - eexists. by apply A_reap.
  - eexists. by apply A_idle.
  - eexists. by apply A_failed.
  - destruct (le_lt_dec kMaxConnections (length (conn_threads s))); eexists; [by apply A_full|].
    apply (A_spawn s (fresh (dom (threads s)))); [done|done|]. apply not_elem_of_dom, is_fresh.
Qed.

Lemma winds_down_progress s : server_inv s -> stop_requested s = true ->
  (winner s = Some Returned /\ calls s = 0%nat) \/ exists s', winds_down s' s.
Proof.
  intros [Hw Ho Hk Hc Hsh Hx] Hstop. rewrite Hstop in Hw. unfold winds_down.
  destruct (calls s) as [|n] eqn:Ecalls; [|right; eexists; split; [done|]; exists AStop; split; [done|by eapply S_again]].
  destruct (winner s) as [w|] eqn:E; [|done].
  assert ((exists a s', a <> ACall /\ step a s s') -> exists s', stop_requested s = true /\ exists a, a <> ACall /\ step a s s')
    as Hgo by (intros (a & s' & ? & ?); eauto).
  destruct w as [| | |l|]; [right; apply Hgo..|by left].
  - exists AStop. eexists. split; [done|by apply S_shut].
  - destruct (decide (accept_at s = NotStarted \/ accept_at s = Exited)) as [H|H].
    + exists AStop. eexists. split; [done|by apply S_join_accept].
    + destruct (accept_progress s Hstop) as [s' Hs']; [tauto..|]. by exists AAccept, s'.
  - exists AStop. eexists. split; [done|by apply S_swap].
  - destruct l as [|id l]; [exists AStop; eexists; split; [done|by apply S_return]|].
    destruct Hx as [_ Hct]. unfold owned, joining in Hk. rewrite E, Hct in Hk. cbn in Hk.
    apply Forall_cons_1 in Hk as [[pc Hpc] _]. destruct (decide (pc = Done)) as [->|Hd].
    + exists AStop. eexists. split; [done|by eapply S_join].
    + destruct (conn_progress pc Hd) as (peer & pc' & Hstep). rewrite <- Hstop in Hstep.
      exists (if peer then APeer id else AConn id). eexists. split; [by destruct peer|by eapply C_step].
Qed.

(** ** After the winning caller has returned *)

Definition moves (s s' : server) : Prop := exists a, step a s s'.

Lemma reachable_moves s s' : reachable s -> rtc moves s s' -> reachable s'.
Proof. intros Hs Hm. induction Hm as [|s s1 s' [a Hstep] _ IH]; [done|]. apply IH. by eapply reach_step. Qed.

Lemma returned_quiet s : server_inv s -> winner s = Some Returned -> live s = ∅.
Proof.
  intros Hinv E. apply map_empty. intros id. apply map_lookup_filter_None. right. intros pc Hpc Hd. cbn in Hd.
  pose proof (inv_owned s Hinv id pc Hpc Hd) as Ho. pose proof (inv_exited s Hinv) as Hx. rewrite E in Hx.
  unfold owned, joining in Ho. rewrite E, (proj2 Hx) in Ho. by apply not_elem_of_nil in Ho.
Qed.

(** From then on only [stop]'s first line runs again. *)
Lemma returned_step a s s' : server_inv s -> winner s = Some Returned -> step a s s' ->
  winner s' = Some Returned /\ threads s' = threads s.
Proof.
  intros Hinv E Hstep. pose proof (inv_exited s Hinv) as Hx. pose proof (inv_winner s Hinv) as Hw.
  pose proof (returned_quiet s Hinv E) as Hq. rewrite E in Hx, Hw. destruct Hx as [Hat _].
  destruct Hstep as [s _ Hr _|s|s n _ Hr|s n _ Hr|s E1|s E1 _|s E1|s id l E1 _|s E1|s E1 _|s E1 _|s E1|s E1|s E1|s E1|s E1 _|s E1 _
    |s id E1 _ _|s id pc pc' peer Hid Hc]; try done; try congruence; try (destruct Hat; congruence).
  exfalso. assert (pc <> Done) as Hd by (intros ->; inversion Hc).
  assert (live s !! id = Some pc) as Hl by (by apply map_lookup_filter_Some).
  rewrite Hq in Hl. by rewrite lookup_empty in Hl.
Qed.

(** ** A client that does not read *)

Definition stalled_data : Query.text := Query.error_json "bad request" ++ [Query.lf].

(** One connection in the middle of its answer, and [stop] waiting for it. *)
Definition stalled : server :=
  mkServer true false Exited {[0%nat := Send stalled_data [] false]} [] 0 (Some (Join [0%nat])) 0.

(** Extend a run by one step, found by [tac]. *)
Ltac run H tac :=
  match type of H with reachable ?s =>
    let H' := fresh "H" in
    eassert (step _ s _) as H' by tac; apply (reach_step _ _ _ H) in H'; clear H; rename H' into H
  end.

Lemma stalled_reachable : reachable stalled.
Proof.
  pose proof reach_start as H.
  run H ltac:(apply S_start; reflexivity).
  run H ltac:(apply A_enter; reflexivity).
  run H ltac:(apply A_reap; reflexivity).
  run H ltac:(apply A_ready; reflexivity).
  run H ltac:(apply A_accepted; reflexivity).
  run H ltac:(apply (A_spawn _ 0%nat); [reflexivity|apply Nat.lt_0_succ|reflexivity]).
  run H ltac:(apply (C_step _ 0%nat (Check []) (Recv []) false); [reflexivity|by apply C_recv]).
  run H ltac:(apply (C_step _ 0%nat (Recv []) (Lines ([] ++ [120; Query.lf])) false);
    [reflexivity|apply C_got; split; [apply Nat.lt_0_succ|apply Nat.leb_le; reflexivity]]).
  run H ltac:(apply (C_step _ 0%nat (Lines ([] ++ [120; Query.lf])) (Send stalled_data [] false) false);
    [reflexivity|
     apply (C_answer _ _ [120] [] (Query.mkReads Snapshot.empty_store Snapshot.empty_store Snapshot.empty_store));
     [reflexivity|discriminate]]).
  run H ltac:(apply S_call).
  run H ltac:(eapply S_first; reflexivity).
  run H ltac:(apply S_shut; reflexivity).
  run H ltac:(apply A_exit; reflexivity).
  run H ltac:(apply S_join_accept; [reflexivity|right; reflexivity]).
  run H ltac:(apply S_swap; reflexivity).
  exact H.
Qed.

(** Steps while that client does nothing. *)
Definition moves_without_peer (id : nat) (s s' : server) : Prop := exists a, a <> APeer id /\ step a s s'.

Lemma stalled_step s s' : winner s = Some (Join [0%nat]) -> accept_at s = Exited -> stop_requested s = true ->
  threads s = threads stalled -> moves_without_peer 0 s s' ->
  winner s' = Some (Join [0%nat]) /\ accept_at s' = Exited /\ stop_requested s' = true /\ threads s' = threads stalled.
Proof.
  intros E Hat Hstop Hth (a & Ha & Hstep).
  destruct Hstep as [s _ Hr _|s|s n _ Hr|s n _ Hr|s E1|s E1 _|s E1|s id l E1 Hd|s E1|s E1 _|s E1 _|s E1|s E1|s E1|s E1|s E1 _|s E1 _
    |s id E1 _ _|s id pc pc' peer Hid Hc]; try congruence; try done.
  - rewrite E in E1. injection E1 as <- <-. rewrite Hth in Hd. discriminate Hd.
  - rewrite Hth in Hid. cbn [threads stalled] in Hid. apply lookup_singleton_Some in Hid as [<- <-]. inversion Hc; subst; done.
Qed.

Lemma stalled_forever s : rtc (moves_without_peer 0) stalled s ->
  winner s = Some (Join [0%nat]) /\ accept_at s = Exited /\ stop_requested s = true /\ threads s = threads stalled.
Proof.
  assert (forall s1, winner s1 = Some (Join [0%nat]) /\ accept_at s1 = Exited /\ stop_requested s1 = true /\
      threads s1 = threads stalled -> rtc (moves_without_peer 0) s1 s ->
    winner s = Some (Join [0%nat]) /\ accept_at s = Exited /\ stop_requested s = true /\ threads s = threads stalled)
    as Hgen; [|by apply Hgen].
  intros s1 H1 Hm. induction Hm as [|s1 s2 s Hstep _ IH]; [done|]. apply IH.
  destruct H1 as (? & ? & ? & ?). by eapply stalled_step.
Qed.

(** ** Properties *)

(** C24: however clients connect and whatever they do, the server never has
    more than 256 connection threads running, nor more than 256 entries in
    [conn_threads_]. *)
Theorem connections_bounded (s : server) (Hs : reachable s) :
  (size (live s) <= 256)%nat /\ (length (conn_threads s) <= 256)%nat.
Proof.
  pose proof (server_reachable_inv s Hs) as Hinv. split; [by apply live_bound|].
  pose proof (inv_count s Hinv) as Hc. unfold owned in Hc. rewrite length_app in Hc. unfold kMaxConnections in Hc. lia.
Qed.

Lemma connections_bounded_witness : reachable stalled /\ (size (live stalled) <= 256)%nat.
Proof. split; [exact stalled_reachable|]. exact (proj1 (connections_bounded stalled stalled_reachable)). Defined.

(** C23: once the caller of [stop] that came first has returned, the listening
    socket is closed, the accept thread is gone and every connection thread
    has finished; and nothing that can still happen starts another or runs one
    again, so the store is no longer touched.  ([start] is called before [stop]
    or not at all: a server started again after [stop] is not covered.) *)
Theorem stop_joins_all (s : server) (Hs : reachable s) (Hret : winner s = Some Returned) :
  listen_open s = false /\ (accept_at s = NotStarted \/ accept_at s = Exited) /\
  forall s', rtc moves s s' -> live s' = ∅ /\ threads s' = threads s.
Proof.
  pose proof (server_reachable_inv s Hs) as Hinv. pose proof (inv_shut s Hinv) as Hsh. pose proof (inv_exited s Hinv) as Hx.
  rewrite Hret in Hsh, Hx. split; [done|]. split; [apply Hx|]. clear Hsh Hx.
  intros s' Hm. induction Hm as [s|s s1 s' [a Hstep] _ IH]; [split; [by apply returned_quiet|done]|].
  destruct (returned_step a s s1 Hinv Hret Hstep) as [Hret1 Hth1].
  destruct (IH (reach_step _ _ _ Hs Hstep) Hret1 (server_step_inv _ _ _ Hinv Hstep)) as [Hl Hth].
  split; [done|]. by rewrite Hth.
Qed.

(** A server stopped before it was started. *)
Definition stopped : server := mkServer true false NotStarted ∅ [] 0 (Some Returned) 0.

Lemma stopped_reachable : reachable stopped.
Proof.
  pose proof reach_start as H.
  run H ltac:(apply S_call).
  run H ltac:(eapply S_first; reflexivity).
  run H ltac:(apply S_shut; reflexivity).
  run H ltac:(apply S_join_accept; [reflexivity|left; reflexivity]).
  run H ltac:(apply S_swap; reflexivity).
  run H ltac:(apply S_return; reflexivity).
  exact H.
Qed.

Lemma stop_joins_all_witness : reachable stopped /\ listen_open stopped = false.
Proof. split; [exact stopped_reachable|]. exact (proj1 (stop_joins_all stopped stopped_reachable eq_refl)). Defined.

(** C25: a requested stop completes: there is no infinite run of the server's
    threads, the callers of [stop] and the connected peers, and a run that
    cannot be continued has every caller of [stop] returned and every thread
    finished.  So if peers go on taking what is sent to them, [stop] returns. *)
Theorem stop_terminates (s : server) (Hs : reachable s) (Hstop : stop_requested s = true) :
  Acc winds_down s /\
  forall s', rtc (fun s s' => winds_down s' s) s s' -> (forall s'', ~ winds_down s'' s') ->
    winner s' = Some Returned /\ calls s' = 0%nat /\ live s' = ∅.
Proof.
  split.
  - apply (wf_projected less work); [apply winds_down_less|apply less_wf].
  - intros s' Hm Hend.
    assert (reachable s' /\ stop_requested s' = true) as [Hs' Hstop'].
    { clear Hend. induction Hm as [s|s s1 s' (_ & a & _ & Hstep) _ IH]; [done|]. apply IH; [by eapply reach_step|].
      pose proof (server_step_inv _ _ _ (server_reachable_inv _ Hs) Hstep) as Hinv1.
      destruct Hstep; cbn in *; congruence. }
    destruct (winds_down_progress s' (server_reachable_inv s' Hs') Hstop') as [[Hr Hc]|[s'' Hs'']]; [|by apply Hend in Hs''].
    split_and!; [done|done|]. by apply returned_quiet; [apply server_reachable_inv|].
Qed.

Lemma stop_terminates_witness : reachable stalled /\ Acc winds_down stalled.
Proof. split; [exact stalled_reachable|]. exact (proj1 (stop_terminates stalled stalled_reachable eq_refl)). Defined.

(** The proviso matters: [send] has no timeout, so a client that asks and
    never reads keeps its connection thread, and with it [stop], waiting for as
    long as it likes, whatever everybody else does; the idle limit does not
    apply to it.  And a second caller of [stop] (the destructor, say) returns
    meanwhile although that thread is still running. *)
Theorem stalled_client_blocks_stop :
  exists s, reachable s /\ winner s = Some (Join [0%nat]) /\
    (forall s', rtc (moves_without_peer 0) s s' -> winner s' = Some (Join [0%nat]) /\ live s' = live s) /\
    exists s', rtc (moves_without_peer 0) s s' /\ early s' = 1%nat /\ live s' <> ∅.
Proof.
  exists stalled. split; [exact stalled_reachable|]. split; [done|]. split.
  - intros s' Hm. destruct (stalled_forever s' Hm) as (Hw & _ & _ & Hth). split; [done|]. unfold live. by rewrite Hth.
  - eexists. split; [|split].
    + eapply rtc_l; [exists ACall; split; [done|apply S_call]|].
      eapply rtc_l; [exists AStop; split; [done|by eapply S_again]|]. apply rtc_refl.
    + reflexivity.
    + intros Hl. assert (live stalled !! 0%nat = Some (Send stalled_data [] false)) as H.
      { apply map_lookup_filter_Some. done. }
      change (live stalled = ∅) in Hl. rewrite Hl in H. discriminate H.
Qed.

End Server.
