(* ===== verification/Os.v ===== *)
(** * Os: the operating system's side of a resource

    What the repository's RAII classes need of POSIX: a process holds file
    descriptors, mappings, stdio streams and zlib states; a call acquires one,
    releases one it holds, or only reports success or failure.  Which calls
    fail, and the numbers they report, are an input ([answers]; calls past its
    end succeed).  Releasing what is not held (a double [close], an [munmap]
    of the wrong length) is undefined.

    A computation keeps its effects when it throws.  [triple] is a small
    program logic for such computations, for any answers; the classes are
    verified in it.  [partial] and [balanced] are its refinements that say
    which result given answers lead to; the programs are verified in them. *)

From S2P Require Import Prelude.

Module Os.

Inductive kind := KFd | KMap | KFile | KStream.

#[global] Instance kind_eq_dec : EqDecision kind.
Proof. solve_decision. Defined.

#[global] Instance kind_countable : Countable kind.
Proof.
  refine (inj_countable' (fun k => match k with KFd => 0 | KMap => 1 | KFile => 2 | KStream => 3 end%nat)
    (fun n => match n with 0 => KFd | 1 => KMap | 2 => KFile | _ => KStream end%nat) _).
  by intros [].
Defined.

(** The resources a process holds; a mapping is held with its length. *)
Definition key : Type := kind * nat.
#[global] Instance key_eq_dec : EqDecision key := _.
#[global] Instance key_countable : Countable key := _.
Abbreviation resources := (gmap key Z).

Record world := mkWorld { held : resources; answers : list (option Z) }.

Definition M (A : Type) : Type := world -> outcome A * world.

#[global] Instance M_ret : MRet M := fun A a w => (Ok a, w).
#[global] Instance M_bind : MBind M := fun A B f m w =>
  match m w with
  | (Ok a, w) => f a w
  | (Throw e, w) => (Throw e, w)
  | (UB, w) => (UB, w)
  | (NoFuel, w) => (NoFuel, w)
  end.

Definition throw {A} (what : string) : M A := fun w => (Throw what, w).

(** A call that acquires nothing: its result, [None] for failure. *)
Definition ask : M (option Z) := fun w =>
  match answers w with
  | [] => (Ok (Some 0), w)
  | a :: l => (Ok a, mkWorld (held w) l)
  end.

Definition ids (r : resources) : gset nat := set_map snd (dom r).

(** A call that acquires a resource under a number not in use. *)
Definition put (k : kind) (v : Z) : M nat := fun w =>
  let n := fresh (ids (held w)) in (Ok n, mkWorld (<[(k, n) := v]> (held w)) (answers w)).

Definition acquire (k : kind) (v : Z) : M (option nat) :=
  a ← ask;
  match a with
  | None => mret None
  | Some _ => n ← put k v; mret (Some n)
  end.

Definition release (k : kind) (n : nat) (v : Z) : M unit := fun w =>
  if decide (held w !! (k, n) = Some v) then (Ok tt, mkWorld (delete (k, n) (held w)) (answers w)) else (UB, w).

(** Descriptors are ints, -1 for none. *)
Definition open_fd : M Z :=
  r ← acquire KFd 0;
  mret (match r with Some n => Z.of_nat n | None => -1 end).

Definition close (fd : Z) : M unit :=
  if fd <? 0 then fun w => (UB, w) else release KFd (Z.to_nat fd) 0.

(** Run [m]; if it throws, run [cleanup] and rethrow: how a constructor's
    body unwinds the members already built. *)
Definition on_throw {A} (m : M A) (cleanup : M unit) : M A := fun w =>
  match m w with
  | (Throw e, w) =>
    match cleanup w with
    | (Ok _, w) => (Throw e, w)
    | (Throw _, w) => (UB, w)
    | (UB, w) => (UB, w)
    | (NoFuel, w) => (NoFuel, w)
    end
  | r => r
  end.

(** ** Triples *)

(** From resources [h], [m] returns with [Q] or throws with [E]; it is never
    undefined. *)
Definition triple {A} (h : resources) (m : M A) (Q : A -> resources -> Prop) (E : resources -> Prop) : Prop :=
  forall w, held w = h ->
    match m w with
    | (Ok a, w) => Q a (held w)
    | (Throw _, w) => E (held w)
    | _ => False
    end.

Lemma t_ret {A} h (a : A) (Q : A -> resources -> Prop) E : Q a h -> triple h (mret a) Q E.
Proof. by intros HQ w <-. Qed.

Lemma t_throw {A} h what (Q : A -> resources -> Prop) (E : resources -> Prop) : E h -> triple h (throw what) Q E.
Proof. by intros HE w <-. Qed.

Lemma t_bind {A B} h (m : M A) (f : A -> M B) Q R E :
  triple h m Q E -> (forall a h', Q a h' -> triple h' (f a) R E) -> triple h (m ≫= f) R E.
Proof.
  intros Hm Hf w Hw. specialize (Hm w Hw). unfold mbind, M_bind.
  destruct (m w) as [[a| | |] w']; try done. by apply (Hf a (held w')).
Qed.

Lemma t_conseq {A} h (m : M A) (Q Q' : A -> resources -> Prop) (E E' : resources -> Prop) :
  triple h m Q E -> (forall a h', Q a h' -> Q' a h') -> (forall h', E h' -> E' h') -> triple h m Q' E'.
Proof. intros Hm HQ HE w Hw. specialize (Hm w Hw). destruct (m w) as [[a| | |] w']; auto. Qed.

Lemma t_ask h E : triple h ask (fun _ h' => h' = h) E.
Proof. intros w <-. unfold ask. by destruct (answers w). Qed.

Lemma fresh_id k (r : resources) : r !! (k, fresh (ids r)) = None.
Proof.
  apply not_elem_of_dom. intros Hin. apply (is_fresh (ids r)). unfold ids at 2. apply elem_of_map. eexists; split; [|exact Hin]. done.
Qed.

Lemma t_acquire h k v E : triple h (acquire k v)
  (fun r h' => match r with None => h' = h | Some n => h !! (k, n) = None /\ h' = <[(k, n) := v]> h end) E.
Proof.
  eapply t_bind; [apply t_ask|]. intros [a|] h' ->; [|by apply t_ret].
  intros w <-. cbn. split; [apply fresh_id|done].
Qed.

Lemma t_release h k n v E : h !! (k, n) = Some v -> triple h (release k n v) (fun _ h' => h' = delete (k, n) h) E.
Proof. intros Hn w <-. unfold release. by rewrite decide_True. Qed.

Lemma t_open h E : triple h open_fd
  (fun fd h' => (fd = -1 /\ h' = h) \/ exists n, fd = Z.of_nat n /\ h !! (KFd, n) = None /\ h' = <[(KFd, n) := 0]> h) E.
Proof.
  eapply t_bind; [apply t_acquire|]. intros [n|] h'.
  - intros [Hn ->]. apply t_ret. right. by exists n.
  - intros ->. apply t_ret. by left.
Qed.

Lemma t_close h n E : h !! (KFd, n) = Some 0 -> triple h (close (Z.of_nat n)) (fun _ h' => h' = delete (KFd, n) h) E.
Proof.
  intros Hn. unfold close. rewrite (proj2 (Z.ltb_ge _ _)) by lia. rewrite Nat2Z.id. by apply t_release.
Qed.

Lemma t_on_throw {A} h (m : M A) cleanup Q E E' :
  triple h m Q E -> (forall h', E h' -> triple h' cleanup (fun _ h'' => E' h'') (fun _ => False)) ->
  triple h (on_throw m cleanup) Q E'.
Proof.
  intros Hm Hc w Hw. specialize (Hm w Hw). unfold on_throw. destruct (m w) as [[a|e| |] w']; try done.
  specialize (Hc _ Hm w' eq_refl). by destruct (cleanup w') as [[]].
Qed.

(** Apply the rule for the first call of a sequence. *)
Ltac t_step :=
  eapply t_bind; [first [apply t_open | apply t_ask | apply t_acquire | eapply t_close | eapply t_release]|].

(** ** Which calls fail

    [triple] says what every run does, whatever fails.  To say which result a
    given run has, the answers of the world it starts from decide: [partial] is
    for the constructors, and [balanced] for whole blocks. *)

(** The answer to the [i]-th call from [w] on. *)
Definition answer (i : nat) (w : world) : option Z := default (Some 0) (answers w !! i).

(** The calls from the [i]-th to before the [i + n]-th all succeed. *)
Definition succeed (i n : nat) (w : world) : bool :=
  forallb (fun j => match answer j w with Some _ => true | None => false end) (seq i n).

(** From [w], if [m] returns then with [Q], and if it throws then with [E]. *)
Definition partial {A} (w : world) (m : M A) (Q : A -> world -> Prop) (E : world -> Prop) : Prop :=
  match m w with
  | (Ok a, w) => Q a w
  | (Throw _, w) => E w
  | _ => True
  end.

(** The computation makes no call whose answer is read, and does not throw. *)
Definition keeps {A} (m : M A) : Prop := forall w,
  match m w with (Throw _, _) => False | (_, w') => answers w' = answers w end.

(** What is left of the answers after [n] calls. *)
Definition past (n : nat) (w w' : world) : Prop := answers w' = drop n (answers w).

Lemma past_answer n w w' i : past n w w' -> answer i w' = answer (n + i) w.
Proof. unfold answer, past. intros ->. by rewrite lookup_drop. Qed.

Lemma past_0 w : past 0 w w.
Proof. unfold past. by rewrite drop_0. Qed.

Lemma past_trans n m w w1 w2 : past n w w1 -> past m w1 w2 -> past (n + m) w w2.
Proof. unfold past. intros H1 ->. by rewrite H1, drop_drop. Qed.

Lemma past_keeps n w w1 w2 : past n w w1 -> answers w2 = answers w1 -> past n w w2.
Proof. unfold past. congruence. Qed.

Lemma past_succeed k n m w w' : past k w w' -> succeed n m w' = succeed (k + n) m w.
Proof.
  intros Hp. unfold succeed. revert n. induction m as [|m IH]; intros n; [done|]. cbn [seq forallb].
  by rewrite IH, (past_answer k w w' n Hp), Nat.add_succ_r.
Qed.

Lemma succeed_S i n w : succeed i (S n) w = match answer i w with Some _ => succeed (S i) n w | None => false end.
Proof. unfold succeed. cbn [seq forallb]. by destruct (answer i w). Qed.

Lemma succeed_app i n m w : succeed i (n + m) w = succeed i n w && succeed (i + n) m w.
Proof. unfold succeed. by rewrite seq_app, forallb_app. Qed.

Lemma p_ret {A} w (a : A) (Q : A -> world -> Prop) E : Q a w -> partial w (mret a) Q E.
Proof. done. Qed.

Lemma p_throw {A} w what (Q : A -> world -> Prop) (E : world -> Prop) : E w -> partial w (throw what) Q E.
Proof. done. Qed.

Lemma p_conseq {A} w (m : M A) (Q Q' : A -> world -> Prop) (E E' : world -> Prop) :
  partial w m Q E -> (forall a w', Q a w' -> Q' a w') -> (forall w', E w' -> E' w') -> partial w m Q' E'.
Proof. intros Hm HQ HE. unfold partial in *. destruct (m w) as [[] ?]; auto. Qed.

Lemma p_bind {A B} w (m : M A) (f : A -> M B) Q R E :
  partial w m Q E -> (forall a w', Q a w' -> partial w' (f a) R E) -> partial w (m ≫= f) R E.
Proof. intros Hm Hf. unfold partial, mbind, M_bind in *. destruct (m w) as [[a| | |] w']; try done. by apply Hf. Qed.

Lemma p_ask w E : partial w ask (fun a w' => a = answer 0 w /\ past 1 w w' /\ held w' = held w) E.
Proof. unfold partial, ask, answer, past. destruct w as [h [|a l]]; cbn; by rewrite ?drop_0. Qed.

Lemma p_acquire w k v E : partial w (acquire k v) (fun r w' => past 1 w w' /\
  match answer 0 w with
  | Some _ => r = Some (fresh (ids (held w))) /\ held w' = <[(k, fresh (ids (held w))) := v]> (held w)
  | None => r = None /\ held w' = held w
  end) E.
Proof.
  eapply p_bind; [apply p_ask|]. intros a w' (-> & Hp & Hh). destruct (answer 0 w); [|by apply p_ret].
  unfold partial, put, mbind, M_bind, mret, M_ret. cbn. by rewrite Hh.
Qed.

Lemma p_keeps {A} w (m : M A) (E : world -> Prop) : keeps m -> partial w m (fun _ w' => answers w' = answers w) E.
Proof. intros Hk. unfold partial. specialize (Hk w). by destruct (m w) as [[] w']. Qed.

Lemma keeps_ret {A} (a : A) : keeps (mret a).
Proof. done. Qed.

Lemma keeps_bind {A B} (m : M A) (f : A -> M B) : keeps m -> (forall a, keeps (f a)) -> keeps (m ≫= f).
Proof.
  intros Hm Hf w. unfold mbind, M_bind. specialize (Hm w). destruct (m w) as [[a| | |] w']; try done.
  specialize (Hf a w'). destruct (f a w') as [[] ?]; congruence.
Qed.

Lemma keeps_release k n v : keeps (release k n v).
Proof. intros w. unfold release. by case_decide. Qed.

Lemma keeps_close fd : keeps (close fd).
Proof. unfold close. destruct (fd <? 0); [done|apply keeps_release]. Qed.

#[export] Hint Resolve keeps_ret keeps_bind keeps_release keeps_close : core.

Lemma p_on_throw {A} w (m : M A) cleanup (Q : A -> world -> Prop) (E : list (option Z) -> Prop) : keeps cleanup ->
  partial w m Q (fun w' => E (answers w')) -> partial w (on_throw m cleanup) Q (fun w' => E (answers w')).
Proof.
  intros Hc Hm. unfold partial, on_throw in *. destruct (m w) as [[a|e| |] w']; try done.
  specialize (Hc w'). destruct (cleanup w') as [[[]| | |] w'']; try done. by rewrite Hc.
Qed.

(** What every run does and what this one does, together. *)
Lemma decided {A} w (m : M A) Q E Q' E' : triple (held w) m Q E -> partial w m Q' E' ->
  match m w with
  | (Ok a, w') => Q a (held w') /\ Q' a w'
  | (Throw _, w') => E (held w') /\ E' w'
  | _ => False
  end.
Proof. intros Ht Hp. specialize (Ht w eq_refl). unfold partial in Hp. by destruct (m w) as [[] ?]. Qed.

(** The run from [w] is defined and gives back exactly what it took; it
    returns with [Q] or throws with [E], which speak of the answers left. *)
Definition balanced {A} (w : world) (m : M A) (Q : A -> list (option Z) -> Prop) (E : list (option Z) -> Prop) : Prop :=
  match m w with
  | (Ok a, w') => held w' = held w /\ Q a (answers w')
  | (Throw _, w') => held w' = held w /\ E (answers w')
  | _ => False
  end.

Lemma b_ret {A} w (a : A) (Q : A -> list (option Z) -> Prop) E : Q a (answers w) -> balanced w (mret a) Q E.
Proof. done. Qed.

Lemma b_throw {A} w what (Q : A -> list (option Z) -> Prop) (E : list (option Z) -> Prop) : E (answers w) -> balanced w (throw what) Q E.
Proof. done. Qed.

Lemma b_conseq {A} w (m : M A) (Q Q' : A -> list (option Z) -> Prop) (E E' : list (option Z) -> Prop) :
  balanced w m Q E -> (forall a l, Q a l -> Q' a l) -> (forall l, E l -> E' l) -> balanced w m Q' E'.
Proof. intros Hm HQ HE. unfold balanced in *. destruct (m w) as [[] ?]; try done; destruct Hm; auto. Qed.

Lemma b_bind {A B} w (m : M A) (f : A -> M B) Q R E : balanced w m Q E ->
  (forall a w', Q a (answers w') -> balanced w' (f a) R E) -> balanced w (m ≫= f) R E.
Proof.
  intros Hm Hf. unfold balanced, mbind, M_bind in *. destruct (m w) as [[a| | |] w']; try done.
  destruct Hm as [Hh HQ]. specialize (Hf a w' HQ). rewrite Hh in Hf. by destruct (f a w') as [[b| | |] w''].
Qed.

(** ** RAII classes *)

(** A class whose objects own resources: [make] builds one or throws, and
    [destroy] is its destructor; [wf] says that its members own distinct
    ones. *)
Class Raii (T : Type) := {
  make : M T;
  destroy : T -> M unit;
  owns : T -> resources;
  wf : T -> Prop;
  make_law h : triple h make (fun o h' => wf o /\ h' = owns o ∪ h /\ owns o ##ₘ h) (fun h' => h' = h);
  destroy_law o h : wf o -> owns o ##ₘ h -> triple (owns o ∪ h) (destroy o) (fun _ h' => h' = h) (fun _ => False)
}.

(** A local variable of the class: build it, run the rest of the block, and
    destroy it whether the block returns or throws. *)
Definition scope {T A} `{Raii T} (body : T -> M A) : M A :=
  o ← make;
  a ← on_throw (body o) (destroy o);
  destroy o;;
  mret a.

(** A block that leaves the resources alone leaks nothing when it works on a
    local object. *)
Lemma t_scope {T A} `{Raii T} h (body : T -> M A) (Q : A -> Prop) :
  (forall o h', wf o -> triple h' (body o) (fun a h'' => h'' = h' /\ Q a) (fun h'' => h'' = h')) ->
  triple h (scope body) (fun a h' => h' = h /\ Q a) (fun h' => h' = h).
Proof.
  intros Hbody. unfold scope. eapply t_bind; [apply make_law|]. intros o h' (Hwf & -> & Hd).
  eapply t_bind; [eapply t_on_throw; [by apply Hbody|]|].
  - intros h' ->. by apply destroy_law.
  - intros a h' [-> Ha]. eapply t_bind; [eapply t_conseq; [by apply destroy_law|done|done]|].
    intros [] h' ->. by apply t_ret.
Qed.

(** What a block with a local object says; [Qm] is what its constructor
    does. *)
Lemma b_scope {T A} `{Raii T} w (body : T -> M A) (Qm : T -> world -> Prop) (Q : A -> list (option Z) -> Prop) (E : list (option Z) -> Prop) :
  (forall o, keeps (destroy o)) -> partial w make Qm (fun w' => E (answers w')) ->
  (forall o w', wf o -> Qm o w' -> balanced w' (body o) Q E) ->
  balanced w (scope body) Q E.
Proof.
  intros Hd Hm Hb. unfold balanced, scope, partial, mbind, M_bind in *.
  pose proof (make_law (held w) w eq_refl) as Hl. destruct (make w) as [[o|e| |] w1]; try done.
  destruct Hl as (Hwf & Hh1 & Hdis). specialize (Hb o w1 Hwf Hm).
  pose proof (destroy_law o (held w) Hwf Hdis) as Hdes. unfold on_throw. destruct (body o w1) as [[a|e| |] w2]; try done;
    destruct Hb as [Hh2 HQ]; rewrite Hh1 in Hh2; specialize (Hdes w2 Hh2); specialize (Hd o w2);
    destruct (destroy o w2) as [[[]|e'| |] w3]; try done; cbn; by rewrite Hd.
Qed.

End Os.
