(* ===== verification/Handles.v ===== *)
(** * Handles: the classes that own operating-system resources

    Models the constructors, destructors and moves of [MmapSource]
    (include/io/mmap_source.hpp), [GzipSource] (include/io/gzip_source.hpp),
    [MulticastReceiver] and [MoldUdp64Receiver]
    (include/net/multicast_receiver.hpp), [MoldUdp64Sender]
    (include/net/multicast_test_sender.hpp) and [QueryServer]
    (include/net/query_server.hpp) over the calls of [Os].  Addresses, ports
    and paths only travel into the calls, so they are not represented; every
    call may fail.  Each class is an instance of [Os.Raii]: a constructor that
    throws has given back all it took, and a destructor gives back exactly
    what the object owns. *)

From S2P Require Import Prelude Os Mold.
Import Os.

Module Handles.

(** ** MmapSource *)

(** [data_] is null or the start of a mapping. *)
Record MmapSource := mkMmap { data_ : option nat; size_ : Z }.

Definition mmap_make : M MmapSource :=
  fd ← open_fd;
  if fd <? 0 then throw "open failed"
  else
    st ← ask;
    match st with
    | None => close fd;; throw "fstat failed"
    | Some st_size =>
      let size := u64 st_size in
      if size =? 0 then close fd;; mret (mkMmap None size)
      else
        p ← acquire KMap size;
        match p with
        | None => close fd;; throw "mmap failed"
        | Some p => ask;; close fd;; mret (mkMmap (Some p) size)
        end
    end.

Definition mmap_reset (o : MmapSource) : M MmapSource :=
  match data_ o with
  | Some p => release KMap p (size_ o);; mret (mkMmap None 0)
  | None => mret (mkMmap None 0)
  end.

Definition mmap_destroy (o : MmapSource) : M unit := mmap_reset o;; mret tt.

(** The move constructor: the new object and what is left of [other]. *)
Definition mmap_move (other : MmapSource) : MmapSource * MmapSource :=
  (mkMmap (data_ other) (size_ other), mkMmap None 0).

(** The move assignment of a distinct object; assigning an object to itself
    does nothing. *)
Definition mmap_assign (this other : MmapSource) : M (MmapSource * MmapSource) :=
  mmap_reset this;; mret (mmap_move other).

Definition mmap_owns (o : MmapSource) : resources :=
  match data_ o with Some p => {[(KMap, p) := size_ o]} | None => ∅ end.

(** ** GzipSource *)

(** [file_], an open stdio stream. *)
Record GzipSource := mkGzip { file_ : option nat }.

Definition gzip_make : M GzipSource :=
  f ← acquire KFile 0;
  match f with
  | None => throw "open failed"
  | Some f => mret (mkGzip (Some f))
  end.

Definition gzip_destroy (o : GzipSource) : M unit :=
  match file_ o with Some f => release KFile f 0 | None => mret tt end.

Definition gzip_owns (o : GzipSource) : resources :=
  match file_ o with Some f => {[(KFile, f) := 0]} | None => ∅ end.

(** [run]'s frame around its loop: [inflateInit2] before, [ZStreamGuard]'s
    [inflateEnd] after, whether the loop returns or throws. *)
Definition gzip_run {A} (loop : M A) : M A :=
  z ← acquire KStream 0;
  match z with
  | None => throw "inflateInit2 failed"
  | Some z => a ← on_throw loop (release KStream z 0); release KStream z 0;; mret a
  end.

(** ** MulticastReceiver *)

Record MulticastReceiver := mkMulticast { fd_ : Z }.

(** A call on the socket whose failure closes it and throws. *)
Definition checked (fd : Z) (what : string) : M unit :=
  r ← ask;
  match r with None => close fd;; throw what | Some _ => mret tt end.

(** The SO_RCVTIMEO value the constructor asks for, if the timeout is positive. *)
Definition multicast_timeout (recv_timeout : Z) : outcome (option Mold.timeval) :=
  if 0 <? recv_timeout then tv ← Mold.set_recv_timeout recv_timeout; Ok (Some tv) else Ok None.

(** [QueryServer] has the same function for the sockets it accepts. *)
Definition query_recv_timeout : Z -> outcome Mold.timeval := Mold.set_recv_timeout.

(** [timed]: the receive timeout is positive. *)
Definition multicast_make (timed : bool) : M MulticastReceiver :=
  fd ← open_fd;
  if fd <? 0 then throw "socket failed"
  else
    checked fd "setsockopt(SO_REUSEADDR) failed";;
    checked fd "bind failed";;
    checked fd "invalid multicast group address";;
    checked fd "IP_ADD_MEMBERSHIP failed";;
    (if timed then checked fd "setsockopt(SO_RCVTIMEO) failed" else mret tt);;
    mret (mkMulticast fd).

Definition close_if (fd : Z) : M unit := if 0 <=? fd then close fd else mret tt.

Definition multicast_destroy (o : MulticastReceiver) : M unit := close_if (fd_ o).

Definition multicast_move (other : MulticastReceiver) : MulticastReceiver * MulticastReceiver :=
  (mkMulticast (fd_ other), mkMulticast (-1)).

Definition multicast_assign (this other : MulticastReceiver) : M (MulticastReceiver * MulticastReceiver) :=
  close_if (fd_ this);; mret (multicast_move other).

(** What a descriptor field owns. *)
Definition fd_owns (fd : Z) : resources := if fd <? 0 then ∅ else {[(KFd, Z.to_nat fd) := 0]}.

(** ** MoldUdp64Receiver: the data channel is a member, built first *)

Record MoldReceiver := mkMoldReceiver { data : MulticastReceiver; request_fd : Z }.

Definition mold_receiver_make (timed : bool) : M MoldReceiver :=
  data ← multicast_make timed;
  on_throw
    (request_fd ← open_fd;
     if request_fd <? 0 then throw "socket failed (request channel)"
     else
       checked request_fd "invalid request-channel host";;
       ask;;
       mret (mkMoldReceiver data request_fd))
    (multicast_destroy data).

Definition mold_receiver_destroy (o : MoldReceiver) : M unit :=
  close_if (request_fd o);; multicast_destroy (data o).

Definition mold_receiver_owns (o : MoldReceiver) : resources := fd_owns (request_fd o) ∪ fd_owns (fd_ (data o)).

(** ** MoldUdp64Sender *)

Record MoldSender := mkMoldSender { s_data_fd : Z; s_request_fd : Z }.

Definition mold_sender_make : M MoldSender :=
  data_fd ← open_fd;
  if data_fd <? 0 then throw "socket failed (data channel)"
  else
    checked data_fd "invalid multicast group address";;
    ask;;
    request_fd ← open_fd;
    if request_fd <? 0 then close data_fd;; throw "socket failed (request channel)"
    else
      ask;;
      r ← ask;
      match r with
      | None => close data_fd;; close request_fd;; throw "bind failed (request channel)"
      | Some _ => mret (mkMoldSender data_fd request_fd)
      end.

Definition mold_sender_destroy (o : MoldSender) : M unit := close_if (s_data_fd o);; close_if (s_request_fd o).

Definition mold_sender_owns (o : MoldSender) : resources := fd_owns (s_request_fd o) ∪ fd_owns (s_data_fd o).

(** ** QueryServer: the listening socket *)

Record QueryListener := mkListener { listen_fd : Z }.

Definition query_make : M QueryListener :=
  fd ← open_fd;
  if fd <? 0 then throw "socket failed"
  else
    checked fd "setsockopt(SO_REUSEADDR) failed";;
    checked fd "invalid bind address";;
    checked fd "bind failed";;
    checked fd "listen failed";;
    checked fd "getsockname failed";;
    mret (mkListener fd).

(** The part of [stop], which the destructor calls, that gives the socket back. *)
Definition query_stop (o : QueryListener) : M QueryListener :=
  if 0 <=? listen_fd o then ask;; close (listen_fd o);; mret (mkListener (-1)) else mret o.

Definition query_destroy (o : QueryListener) : M unit := query_stop o;; mret tt.

(** ** Proofs *)

Lemma fd_owns_nat n : fd_owns (Z.of_nat n) = {[(KFd, n) := 0]}.
Proof. unfold fd_owns. rewrite (proj2 (Z.ltb_ge _ _)) by lia. by rewrite Nat2Z.id. Qed.

Lemma t_checked h n what : h !! (KFd, n) = Some 0 ->
  triple h (checked (Z.of_nat n) what) (fun _ h' => h' = h) (fun h' => h' = delete (KFd, n) h).
Proof.
  intros Hn. unfold checked. eapply t_bind; [apply t_ask|]. intros [a|] h' ->; [by apply t_ret|].
  eapply t_bind; [by apply t_close|]. intros [] h' ->. by apply t_throw.
Qed.

Lemma of_nat_nonneg n : (Z.of_nat n <? 0) = false /\ (0 <=? Z.of_nat n) = true.
Proof. split; [apply Z.ltb_ge|apply Z.leb_le]; lia. Qed.

(** Open a descriptor and go on with it. *)
Lemma t_with_fd {A} h what (f : Z -> M A) Q (E : resources -> Prop) : E h ->
  (forall n, h !! (KFd, n) = None -> triple (<[(KFd, n) := 0]> h) (f (Z.of_nat n)) Q E) ->
  triple h (fd ← open_fd; if fd <? 0 then throw what else f fd) Q E.
Proof.
  intros HE Hf. eapply t_bind; [apply t_open|]. intros fd h' [[-> ->]|(n & -> & Hn & ->)]; [by apply t_throw|].
  rewrite (proj1 (of_nat_nonneg n)). by apply Hf.
Qed.

(** Check a call on a descriptor just opened and go on. *)
Lemma t_check_then {A} h n what (m : M A) Q : h !! (KFd, n) = None ->
  triple (<[(KFd, n) := 0]> h) m Q (fun h' => h' = h) ->
  triple (<[(KFd, n) := 0]> h) (checked (Z.of_nat n) what;; m) Q (fun h' => h' = h).
Proof.
  intros Hn Hm. eapply t_bind.
  - eapply t_conseq; [apply t_checked, lookup_insert_eq|by intros ? ? ?|]. intros h' ->. by apply delete_insert_id.
  - by intros _ h' ->.
Qed.

(** Give back a descriptor held on top of [h]. *)
Lemma t_close_top h n (E : resources -> Prop) : h !! (KFd, n) = None ->
  triple (<[(KFd, n) := 0]> h) (close (Z.of_nat n)) (fun _ h' => h' = h) E.
Proof.
  intros Hn. eapply t_conseq; [apply t_close, lookup_insert_eq| |done]. intros [] h' ->. by apply delete_insert_id.
Qed.

Lemma fd_owns_union n h : h !! (KFd, n) = None ->
  <[(KFd, n) := 0]> h = fd_owns (Z.of_nat n) ∪ h /\ fd_owns (Z.of_nat n) ##ₘ h.
Proof.
  intros Hn. rewrite fd_owns_nat. split; [by rewrite insert_union_singleton_l|by apply map_disjoint_singleton_l].
Qed.

Lemma t_close_if fd h : fd_owns fd ##ₘ h ->
  triple (fd_owns fd ∪ h) (close_if fd) (fun _ h' => h' = h) (fun _ => False).
Proof.
  intros Hd. unfold close_if. destruct (Z.leb_spec 0 fd) as [Hfd|Hfd].
  - rewrite <- (Z2Nat.id fd Hfd) in *. set (n := Z.to_nat fd) in *.
    assert (h !! (KFd, n) = None) as Hn by (rewrite fd_owns_nat in Hd; by apply map_disjoint_singleton_l in Hd).
    rewrite <- (proj1 (fd_owns_union n h Hn)). by apply t_close_top.
  - unfold fd_owns. rewrite (proj2 (Z.ltb_lt _ _)) by lia. rewrite map_empty_union. by apply t_ret.
Qed.

#[global, refine] Instance mmap_raii : Raii MmapSource := {
  make := mmap_make; destroy := mmap_destroy; owns := mmap_owns; wf o := data_ o = None -> size_ o = 0 }.
Proof.
  - intros h. apply t_with_fd; [done|]. intros n Hn.
    eapply t_bind; [apply t_ask|]. intros [st|] h' ->.
    2: { eapply t_bind; [by apply t_close_top|]. intros [] h' ->. by apply t_throw. }
    cbv zeta. destruct (Z.eqb_spec (u64 st) 0) as [Hst|_].
    { eapply t_bind; [by apply t_close_top|]. intros [] h' ->. apply t_ret. unfold mmap_owns. cbn.
      split_and!; [done|by rewrite map_empty_union|apply map_disjoint_empty_l]. }
    eapply t_bind; [apply t_acquire|]. intros [p|] h'.
    2: { intros ->. eapply t_bind; [by apply t_close_top|]. intros [] h' ->. by apply t_throw. }
    intros [Hp ->]. rewrite lookup_insert_ne in Hp by done.
    eapply t_bind; [apply t_ask|]. intros _ h' ->. rewrite insert_insert_ne by done.
    eapply t_bind; [apply t_close_top; by rewrite lookup_insert_ne|]. intros [] h' ->. apply t_ret. unfold mmap_owns. cbn.
    split_and!; [done|by rewrite insert_union_singleton_l|by apply map_disjoint_singleton_l].
  - intros [[p|] size] h _ Hd; unfold mmap_destroy, mmap_reset, mmap_owns in *; cbn in *.
    + apply map_disjoint_singleton_l in Hd. rewrite <- insert_union_singleton_l.
      eapply t_bind; [eapply t_bind; [apply t_release, lookup_insert_eq|]|].
      * intros [] h' ->. rewrite delete_insert_id by done. by apply (t_ret _ _ (fun _ h' => h' = h)).
      * intros o h' ->. by apply t_ret.
    + rewrite map_empty_union. eapply t_bind; [by apply (t_ret _ _ (fun _ h' => h' = h))|]. intros o h' ->. by apply t_ret.
Defined.

#[global, refine] Instance gzip_raii : Raii GzipSource := {
  make := gzip_make; destroy := gzip_destroy; owns := gzip_owns; wf _ := True }.
Proof.
  - intros h. eapply t_bind; [apply t_acquire|]. intros [f|] h'; [|by intros ->; apply t_throw].
    intros [Hf ->]. apply t_ret. unfold gzip_owns. cbn.
    split_and!; [done|by rewrite insert_union_singleton_l|by apply map_disjoint_singleton_l].
  - intros [[f|]] h _ Hd; unfold gzip_destroy, gzip_owns in *; cbn in *.
    + apply map_disjoint_singleton_l in Hd. rewrite <- insert_union_singleton_l.
      eapply t_conseq; [apply t_release, lookup_insert_eq| |intros ? HE; exact HE]. intros [] h' ->.
      by apply delete_insert_id.
    + rewrite map_empty_union. by apply t_ret.
Defined.

Lemma multicast_make_ok timed h : triple h (multicast_make timed)
  (fun o h' => h' = fd_owns (fd_ o) ∪ h /\ fd_owns (fd_ o) ##ₘ h) (fun h' => h' = h).
Proof.
  apply t_with_fd; [done|]. intros n Hn. do 4 (apply t_check_then; [done|]).
  destruct timed; [apply t_check_then; [done|]|eapply t_bind; [by apply (t_ret _ _ (fun _ h' => h' = <[(KFd, n) := 0]> h))|intros [] h' ->]];
    apply t_ret; by apply fd_owns_union.
Qed.

#[global, refine] Instance multicast_raii (timed : bool) : Raii MulticastReceiver := {
  make := multicast_make timed; destroy := multicast_destroy; owns o := fd_owns (fd_ o); wf _ := True }.
Proof.
  - intros h. eapply t_conseq; [apply multicast_make_ok|by intros o h' H|done].
  - intros o h _ Hd. by apply t_close_if.
Defined.

#[global, refine] Instance mold_receiver_raii (timed : bool) : Raii MoldReceiver := {
  make := mold_receiver_make timed; destroy := mold_receiver_destroy; owns := mold_receiver_owns;
  wf o := fd_owns (request_fd o) ##ₘ fd_owns (fd_ (data o)) }.
Proof.
  - intros h. eapply t_bind; [apply multicast_make_ok|]. intros d h' [-> Hd].
    eapply (t_on_throw _ _ _ _ (fun h' => h' = fd_owns (fd_ d) ∪ h)); [|intros h' ->; by apply t_close_if].
    apply t_with_fd; [done|]. intros n Hn. apply t_check_then; [done|].
    eapply t_bind; [apply t_ask|]. intros _ h' ->. apply t_ret. unfold mold_receiver_owns. cbn.
    destruct (fd_owns_union n _ Hn) as [-> Hd']. apply map_disjoint_union_r in Hd' as [Hd1 Hd2].
    split_and!; [done|by rewrite map_union_assoc|]. by apply map_disjoint_union_l_2.
  - intros o h Hwf Hd. unfold mold_receiver_destroy, mold_receiver_owns in *.
    apply map_disjoint_union_l in Hd as [Hd1 Hd2]. rewrite <- map_union_assoc.
    eapply t_bind; [apply t_close_if; by apply map_disjoint_union_r_2|]. intros [] h' ->. by apply t_close_if.
Defined.

#[global, refine] Instance mold_sender_raii : Raii MoldSender := {
  make := mold_sender_make; destroy := mold_sender_destroy; owns := mold_sender_owns;
  wf o := fd_owns (s_request_fd o) ##ₘ fd_owns (s_data_fd o) }.
Proof.
  - intros h. apply t_with_fd; [done|]. intros d Hd. apply t_check_then; [done|].
    eapply t_bind; [apply t_ask|]. intros _ h' ->.
    eapply t_bind; [apply t_open|]. intros fd h' [[-> ->]|(r & -> & Hr & ->)].
    { eapply t_bind; [by apply t_close_top|]. intros [] h' ->. by apply t_throw. }
    rewrite (proj1 (of_nat_nonneg r)). eapply t_bind; [apply t_ask|]. intros _ h' ->.
    apply lookup_insert_None in Hr as [Hr Hne].
    eapply t_bind; [apply t_ask|]. intros [a|] h' ->.
    + apply t_ret. unfold mold_sender_owns. cbn.
      destruct (fd_owns_union d h Hd) as [-> Hdd]. destruct (fd_owns_union r (fd_owns (Z.of_nat d) ∪ h)) as [-> Hrd].
      { rewrite fd_owns_nat. apply lookup_union_None. split; [by apply lookup_singleton_ne|done]. }
      apply map_disjoint_union_r in Hrd as [Hrd Hrh].
      split_and!; [done|by rewrite map_union_assoc|]. by apply map_disjoint_union_l_2.
    + rewrite insert_insert_ne by done. eapply t_bind; [apply t_close_top; by rewrite lookup_insert_ne|].
      intros [] h' ->. eapply t_bind; [by apply t_close_top|]. intros [] h' ->. by apply t_throw.
  - intros o h Hwf Hd. unfold mold_sender_destroy, mold_sender_owns in *.
    apply map_disjoint_union_l in Hd as [Hd1 Hd2].
    rewrite (map_union_comm (fd_owns (s_request_fd o))), <- map_union_assoc by done.
    eapply t_bind; [apply t_close_if; by apply map_disjoint_union_r_2|]. intros [] h' ->. by apply t_close_if.
Defined.

(** [stop] gives the socket back once: what it leaves owns nothing. *)
Lemma t_query_stop o h : fd_owns (listen_fd o) ##ₘ h ->
  triple (fd_owns (listen_fd o) ∪ h) (query_stop o) (fun o' h' => h' = h /\ fd_owns (listen_fd o') = ∅) (fun _ => False).
Proof.
  intros Hd. unfold query_stop. pose proof (t_close_if (listen_fd o) h Hd) as Hclose. unfold close_if in Hclose.
  destruct (Z.leb_spec 0 (listen_fd o)) as [Hfd|Hfd].
  - eapply t_bind; [apply t_ask|]. intros _ h' ->. eapply t_bind; [exact Hclose|]. intros [] h' ->. by apply t_ret.
  - assert (fd_owns (listen_fd o) = ∅) as E by (unfold fd_owns; by rewrite (proj2 (Z.ltb_lt _ _))).
    apply t_ret. by rewrite E, map_empty_union.
Qed.

#[global, refine] Instance query_raii : Raii QueryListener := {
  make := query_make; destroy := query_destroy; owns o := fd_owns (listen_fd o); wf _ := True }.
Proof.
  - intros h. apply t_with_fd; [done|]. intros n Hn. do 5 (apply t_check_then; [done|]).
    apply t_ret. split; [done|]. by apply fd_owns_union.
  - intros o h _ Hd. eapply t_bind; [by apply t_query_stop|]. intros o' h' [-> _]. by apply t_ret.
Defined.

(** ** Which constructors succeed

    The answers of the world decide: [k] calls after [w0], the next one. *)

Lemma keeps_close_if fd : keeps (close_if fd).
Proof. unfold close_if. destruct (0 <=? fd); [apply keeps_close|done]. Qed.

Lemma keeps_mmap_destroy o : keeps (mmap_destroy o).
Proof. unfold mmap_destroy, mmap_reset. apply keeps_bind; [|done]. destruct (data_ o); [apply keeps_bind; [apply keeps_release|done]|done]. Qed.

Lemma keeps_gzip_destroy o : keeps (gzip_destroy o).
Proof. unfold gzip_destroy. destruct (file_ o); [apply keeps_release|done]. Qed.

Lemma keeps_mold_receiver_destroy o : keeps (mold_receiver_destroy o).
Proof. apply keeps_bind; [apply keeps_close_if|intros _; apply keeps_close_if]. Qed.

Lemma keeps_mold_sender_destroy o : keeps (mold_sender_destroy o).
Proof. apply keeps_bind; [apply keeps_close_if|intros _; apply keeps_close_if]. Qed.

#[export] Hint Resolve keeps_close_if keeps_mmap_destroy keeps_gzip_destroy keeps_mold_receiver_destroy keeps_mold_sender_destroy : core.

Lemma p_close_throw {A} w fd what (Q : A -> world -> Prop) (P : Prop) : P -> partial w (close fd;; throw what) Q (fun _ => P).
Proof. intros HP. eapply p_bind; [apply p_keeps, keeps_close|]. intros _ w' _. by apply p_throw. Qed.

Lemma p_ask_then {A} k w0 w (f : option Z -> M A) Q E : past k w0 w ->
  (forall w', past (S k) w0 w' -> held w' = held w -> partial w' (f (answer k w0)) Q E) -> partial w (ask ≫= f) Q E.
Proof.
  intros Hk Hf. eapply p_bind; [apply p_ask|]. intros a w' (-> & Hp & Hh).
  rewrite (past_answer k w0 w 0 Hk), Nat.add_0_r. apply Hf; [|done].
  replace (S k) with (k + 1)%nat by lia. by eapply past_trans.
Qed.

Lemma p_acquire_then {A} k w0 w c v (f : option nat -> M A) Q E : past k w0 w ->
  (forall w', past (S k) w0 w' -> match answer k w0 with
     | Some _ => held w' = <[(c, fresh (ids (held w))) := v]> (held w) -> partial w' (f (Some (fresh (ids (held w))))) Q E
     | None => partial w' (f None) Q E
     end) -> partial w (acquire c v ≫= f) Q E.
Proof.
  intros Hk Hf. eapply p_bind; [apply p_acquire|]. intros r w' [Hp Hr].
  rewrite (past_answer k w0 w 0 Hk), Nat.add_0_r in Hr.
  specialize (Hf w'). destruct (answer k w0); destruct Hr as [-> Hh]; apply Hf; try done;
    (replace (S k) with (k + 1)%nat by lia); by eapply past_trans.
Qed.

Lemma p_open_then {A} k w0 w what (f : Z -> M A) Q (P : Prop) : past k w0 w ->
  (answer k w0 = None -> P) ->
  (forall w' a, past (S k) w0 w' -> answer k w0 = Some a -> held w' = <[(KFd, fresh (ids (held w))) := 0]> (held w) ->
     partial w' (f (Z.of_nat (fresh (ids (held w))))) Q (fun _ => P)) ->
  partial w (fd ← open_fd; if fd <? 0 then throw what else f fd) Q (fun _ => P).
Proof.
  intros Hk HP Hf.
  eapply (p_bind _ _ _ (fun fd w' => past (S k) w0 w' /\ match answer k w0 with
    | Some _ => fd = Z.of_nat (fresh (ids (held w))) /\ held w' = <[(KFd, fresh (ids (held w))) := 0]> (held w)
    | None => fd = -1 end)).
  - unfold open_fd. eapply (p_acquire_then k); [done|]. intros w' Hp. destruct (answer k w0); [intros Hh|]; by apply p_ret.
  - intros fd w' [Hp Hfd]. destruct (answer k w0) as [a|].
    + destruct Hfd as [-> Hh]. rewrite (proj1 (of_nat_nonneg _)). by eapply Hf.
    + subst fd. change (-1 <? 0) with true. apply p_throw. by apply HP.
Qed.

Lemma p_checked_then {A} k w0 w fd what (m : M A) Q (P : Prop) : past k w0 w ->
  (answer k w0 = None -> P) ->
  (forall w' a, past (S k) w0 w' -> answer k w0 = Some a -> partial w' m Q (fun _ => P)) ->
  partial w (checked fd what;; m) Q (fun _ => P).
Proof.
  intros Hk HP Hm. unfold checked.
  eapply (p_bind _ _ _ (fun _ w' => past (S k) w0 w' /\ is_Some (answer k w0))).
  - eapply (p_ask_then k); [done|]. intros w' Hp _. destruct (answer k w0); [by apply p_ret|apply p_close_throw; by apply HP].
  - intros _ w' [Hp [a Ha]]. by eapply Hm.
Qed.

(** Settle what the answers say of the calls made. *)
Ltac answered := unfold succeed; cbn [seq forallb andb]; repeat match goal with H : answer _ _ = _ |- _ => rewrite H; clear H end; reflexivity.

(** The mapping that [MmapSource(path)] makes: the number the process gives
    it, after the one of the descriptor. *)
Definition mapped_at (w : world) : nat := fresh (ids (<[(KFd, fresh (ids (held w))) := 0]> (held w))).

(** What the constructor builds: [open], [fstat] and, unless the file is
    empty, [mmap] must succeed; [madvise] need not. *)
Definition mapping (w : world) : option MmapSource :=
  match answer 0 w, answer 1 w with
  | Some _, Some st_size =>
    if u64 st_size =? 0 then Some (mkMmap None 0)
    else match answer 2 w with Some _ => Some (mkMmap (Some (mapped_at w)) (u64 st_size)) | None => None end
  | _, _ => None
  end.

(** How many calls it makes when it succeeds. *)
Definition mapping_calls (o : MmapSource) : nat := match data_ o with Some _ => 4 | None => 2 end.

Lemma p_mmap w : partial w mmap_make (fun o w' => mapping w = Some o /\ past (mapping_calls o) w w') (fun _ => mapping w = None).
Proof.
  unfold mmap_make. eapply (p_open_then 0 w); [apply past_0|unfold mapping; by intros ->|]. intros w1 a Hp Ha Hh.
  eapply (p_ask_then 1 w); [done|]. intros w2 Hp2 Hh2. unfold mapping. rewrite Ha.
  destruct (answer 1 w) as [st|] eqn:Hst; [|by apply p_close_throw]. cbv zeta. destruct (Z.eqb_spec (u64 st) 0) as [E|E].
  { eapply p_bind; [apply p_keeps, keeps_close|]. intros ? w3 Hw3. apply p_ret. rewrite E. split; [done|]. by eapply past_keeps. }
  eapply (p_acquire_then 2 w); [done|]. intros w3 Hp3. destruct (answer 2 w); [|by apply p_close_throw]. intros Hh3.
  eapply (p_ask_then 3 w); [done|]. intros w4 Hp4 _.
  eapply p_bind; [apply p_keeps, keeps_close|]. intros ? w5 Hw5. apply p_ret. rewrite Hh2, Hh. split; [done|]. by eapply past_keeps.
Qed.

Lemma p_gzip w : partial w gzip_make (fun _ w' => succeed 0 1 w = true /\ past 1 w w') (fun _ => succeed 0 1 w = false).
Proof.
  unfold gzip_make. eapply (p_acquire_then 0 w); [apply past_0|]. intros w1 Hp. rewrite succeed_S.
  destruct (answer 0 w); [intros _; by apply p_ret|by apply p_throw].
Qed.

(** [run] of a .gz source: [inflateInit2], then the loop; the zlib state is
    given back however that ends. *)
Lemma b_gzip_run {A} w (loop : M A) (Q : A -> list (option Z) -> Prop) (E : list (option Z) -> Prop) :
  (succeed 0 1 w = true -> forall w', past 1 w w' -> balanced w' loop Q E) -> (succeed 0 1 w = false -> forall l, E l) ->
  balanced w (gzip_run loop) Q E.
Proof.
  intros Hloop HE. rewrite succeed_S in *. pose proof (p_acquire w KStream 0 (fun _ => True)) as Ha.
  pose proof (t_acquire (held w) KStream 0 (fun _ => False) w eq_refl) as Ht.
  unfold balanced, partial, gzip_run, on_throw, mbind, M_bind in *. destruct (acquire KStream 0 w) as [[[z|]| | |] w1]; try done.
  2: { destruct Ha as [_ Ha]. destruct (answer 0 w); [by destruct Ha|]. destruct Ha as [_ Hh]. cbn. split; [done|]. by apply HE. }
  destruct Ha as [Hp Ha], Ht as [Hz Hh1]. destruct (answer 0 w); [|by destruct Ha]. specialize (Hloop eq_refl w1 Hp).
  assert (forall w2, held w2 = held w1 -> release KStream z 0 w2 = (Ok tt, mkWorld (held w) (answers w2))) as Hrel.
  { intros w2 Hh2. unfold release. rewrite decide_True by (rewrite Hh2, Hh1; apply lookup_insert_eq).
    by rewrite Hh2, Hh1, delete_insert_id. }
  destruct (loop w1) as [[a|e| |] w2]; try done; destruct Hloop as [Hh2 HQ]; rewrite (Hrel w2 Hh2); done.
Qed.

Lemma p_multicast w : partial w (multicast_make true) (fun _ w' => succeed 0 6 w = true /\ past 6 w w') (fun _ => succeed 0 6 w = false).
Proof.
  unfold multicast_make. eapply (p_open_then 0 w); [apply past_0|intros; answered|]. intros w1 a1 Hp1 H1 _.
  eapply (p_checked_then 1 w); [done|intros; answered|]. intros w2 a2 Hp2 H2.
  eapply (p_checked_then 2 w); [done|intros; answered|]. intros w3 a3 Hp3 H3.
  eapply (p_checked_then 3 w); [done|intros; answered|]. intros w4 a4 Hp4 H4.
  eapply (p_checked_then 4 w); [done|intros; answered|]. intros w5 a5 Hp5 H5.
  eapply (p_checked_then 5 w); [done|intros; answered|]. intros w6 a6 Hp6 H6.
  apply p_ret. split; [answered|done].
Qed.

(** Nine calls, of which the last may fail. *)
Lemma p_mold_receiver w : partial w (mold_receiver_make true) (fun _ _ => succeed 0 8 w = true) (fun _ => succeed 0 8 w = false).
Proof.
  change 8%nat with (6 + 2)%nat. rewrite succeed_app. unfold mold_receiver_make.
  eapply p_bind; [eapply p_conseq; [apply p_multicast|intros a w' H; exact H|by intros _ ->]|]. intros d w1 [-> Hp]. cbn [andb Nat.add].
  apply (p_on_throw _ _ _ _ (fun _ => succeed 6 2 w = false)); [apply keeps_close_if|].
  eapply (p_open_then 6 w); [done|intros; answered|]. intros w2 a2 Hp2 H2 _.
  eapply (p_checked_then 7 w); [done|intros; answered|]. intros w3 a3 Hp3 H3.
  eapply (p_ask_then 8 w); [done|]. intros w4 _ _. apply p_ret. answered.
Qed.

(** [socket], the group's address, [IP_MULTICAST_LOOP], [socket],
    [SO_REUSEADDR] and [bind]; the third and the fifth may fail. *)
Definition sender_opens (w : world) : bool := succeed 0 2 w && succeed 3 1 w && succeed 5 1 w.

Lemma p_mold_sender w : partial w mold_sender_make (fun _ _ => sender_opens w = true) (fun _ => sender_opens w = false).
Proof.
  unfold mold_sender_make, sender_opens. eapply (p_open_then 0 w); [apply past_0|intros; answered|]. intros w1 a1 Hp1 H1 _.
  eapply (p_checked_then 1 w); [done|intros; answered|]. intros w2 a2 Hp2 H2.
  eapply (p_ask_then 2 w); [done|]. intros w3 Hp3 _.
  assert (succeed 0 2 w = true) as -> by answered. cbn [andb].
  eapply (p_bind _ _ _ (fun fd w' => past 4 w w' /\ match answer 3 w with Some _ => 0 <= fd | None => fd < 0 end)).
  { unfold open_fd. eapply (p_acquire_then 3 w); [done|]. intros w4 Hp4. destruct (answer 3 w); [intros _|]; apply p_ret; (split; [done|lia]). }
  intros fd w4 [Hp4 Hfd]. rewrite succeed_S. destruct (answer 3 w); cbn [andb].
  2: { rewrite (proj2 (Z.ltb_lt _ _)) by done. by apply p_close_throw. }
  rewrite (proj2 (Z.ltb_ge _ _)) by done. cbn [succeed seq forallb andb].
  eapply (p_ask_then 4 w); [done|]. intros w5 Hp5 _. eapply (p_ask_then 5 w); [done|]. intros w6 Hp6 _.
  destruct (answer 5 w); [by apply p_ret|].
  eapply p_bind; [apply p_keeps, keeps_close|]. intros _ w7 _. by apply p_close_throw.
Qed.

Lemma p_query w : partial w query_make (fun _ w' => succeed 0 6 w = true /\ past 6 w w') (fun _ => succeed 0 6 w = false).
Proof.
  unfold query_make. eapply (p_open_then 0 w); [apply past_0|intros; answered|]. intros w1 a1 Hp1 H1 _.
  eapply (p_checked_then 1 w); [done|intros; answered|]. intros w2 a2 Hp2 H2.
  eapply (p_checked_then 2 w); [done|intros; answered|]. intros w3 a3 Hp3 H3.
  eapply (p_checked_then 3 w); [done|intros; answered|]. intros w4 a4 Hp4 H4.
  eapply (p_checked_then 4 w); [done|intros; answered|]. intros w5 a5 Hp5 H5.
  eapply (p_checked_then 5 w); [done|intros; answered|]. intros w6 a6 Hp6 H6.
  apply p_ret. split; [answered|done].
Qed.

(** ** Programs that move mapped files around *)

(** A statement about a variable of type [MmapSource]; variables are
    numbered.  A statement that needs a live (or a fresh) variable and does not
    find it is not a program, and is skipped. *)
Inductive stmt :=
| Construct (i : nat)               (** [MmapSource i(path);], in a [try] *)
| MoveConstruct (i j : nat)         (** [MmapSource i(std::move(j));] *)
| MoveAssign (i j : nat)            (** [i = std::move(j);] *)
| Destroy (i : nat).                (** the end of the scope of [i] *)



Definition exec (vs : gmap nat MmapSource) (s : stmt) : M (gmap nat MmapSource) :=
  match s with
  | Construct i =>
    match vs !! i with
    | Some _ => mret vs
    | None => fun w => match mmap_make w with
                       | (Ok o, w) => (Ok (<[i := o]> vs), w)
                       | (Throw _, w) => (Ok vs, w)
                       | (UB, w) => (UB, w)
                       | (NoFuel, w) => (NoFuel, w)
                       end
    end
  | MoveConstruct i j =>
    match vs !! i, vs !! j with
    | None, Some other => let '(this, rest) := mmap_move other in mret (<[i := this]> (<[j := rest]> vs))
    | _, _ => mret vs
    end
  | MoveAssign i j =>
    match vs !! i, vs !! j with
    | Some this, Some other =>
      if decide (i = j) then mret vs
      else '(this, other) ← mmap_assign this other; mret (<[i := this]> (<[j := other]> vs))
    | _, _ => mret vs
    end
  | Destroy i =>
    match vs !! i with
    | Some o => mmap_destroy o;; mret (delete i vs)
    | None => mret vs
    end
  end.

Fixpoint exec_all (vs : gmap nat MmapSource) (ss : list stmt) : M (gmap nat MmapSource) :=
  match ss with
  | [] => mret vs
  | s :: ss => vs ← exec vs s; exec_all vs ss
  end.

(** Variable [i] owns the mapping [p] of length [n]. *)
Definition owner (vs : gmap nat MmapSource) (i p : nat) (n : Z) : Prop := vs !! i = Some (mkMmap (Some p) n).

(** Every mapping beyond [base] has exactly one owner, which knows its
    length. *)
Record owned_once (base : resources) (vs : gmap nat MmapSource) (h : resources) : Prop := {
  oo_held : forall i p n, owner vs i p n -> h !! (KMap, p) = Some n /\ base !! (KMap, p) = None;
  oo_unique : forall i j p n m, owner vs i p n -> owner vs j p m -> i = j;
  oo_rest : forall k, (forall i p n, owner vs i p n -> k <> (KMap, p)) -> h !! k = base !! k }.

Lemma owner_insert vs i j p n o : owner (<[i := o]> vs) j p n ->
  (j = i /\ o = mkMmap (Some p) n) \/ (j <> i /\ owner vs j p n).
Proof. unfold owner. intros [[-> ->]|[? ?]]%lookup_insert_Some; auto. Qed.

Lemma owner_empty i p n : ~ owner ∅ i p n.
Proof. unfold owner. by rewrite lookup_empty. Qed.

(** The owners after [j]'s mapping has passed to [i], which had none. *)
Lemma pass_on base vs h i j o : i <> j -> vs !! j = Some o ->
  (forall p n, ~ owner vs i p n) -> owned_once base vs h ->
  owned_once base (<[i := mkMmap (data_ o) (size_ o)]> (<[j := mkMmap None 0]> vs)) h.
Proof.
  intros Hij Hj Hi [Hh Hu Hr].
  set (f k := if decide (k = i) then j else k).
  assert (forall k p n, owner (<[i := mkMmap (data_ o) (size_ o)]> (<[j := mkMmap None 0]> vs)) k p n -> k <> j /\ owner vs (f k) p n) as Hf.
  { intros k p n Hk. unfold f. apply owner_insert in Hk as [[-> Ho]|[Hki Hk]].
    - rewrite decide_True by done. split; [done|]. unfold owner. rewrite Hj, <- Ho. by destruct o.
    - apply owner_insert in Hk as [[-> Ho]|[Hkj Hk]]; [done|]. by rewrite decide_False. }
  constructor.
  - intros k p n [_ Hk]%Hf. by eapply Hh.
  - intros k l p n m [Hkj Hk]%Hf [Hlj Hl]%Hf. specialize (Hu _ _ _ _ _ Hk Hl). unfold f in Hu.
    repeat case_decide; congruence.
  - intros k Hk. apply Hr. intros l p n Hl.
    destruct (decide (l = j)) as [->|Hlj].
    + apply (Hk i p n). unfold owner in *. rewrite lookup_insert_eq. rewrite Hj in Hl. by injection Hl as ->.
    + destruct (decide (l = i)) as [->|Hli]; [by apply Hi in Hl|].
      apply (Hk l p n). unfold owner in *. by rewrite !lookup_insert_ne.
Qed.

(** Giving back the mapping of [i]. *)
Lemma t_drop base vs h i o (E : resources -> Prop) : vs !! i = Some o -> owned_once base vs h ->
  triple h (mmap_reset o) (fun _ h' => owned_once base (delete i vs) h') E.
Proof.
  intros Hi [Hh Hu Hr]. unfold mmap_reset. destruct o as [[p|] n]; cbn [data_ size_].
  - assert (owner vs i p n) as Ho by done. destruct (Hh _ _ _ Ho) as [Hp Hb].
    eapply t_bind; [by apply t_release|]. intros [] h' ->. apply t_ret. constructor.
    + intros k q m Hk. unfold owner in Hk. apply lookup_delete_Some in Hk as [Hki Hk].
      assert (q <> p) by (intros ->; apply Hki; by eapply Hu). rewrite lookup_delete_ne by congruence. by apply (Hh k).
    + intros k l q m m' Hk Hl. unfold owner in Hk, Hl. apply lookup_delete_Some in Hk as [_ Hk], Hl as [_ Hl].
      by eapply Hu.
    + intros k Hk. destruct (decide (k = (KMap, p))) as [->|Hne]; [by rewrite lookup_delete_eq|].
      rewrite lookup_delete_ne by done. apply Hr. intros l q m Hl. destruct (decide (l = i)) as [->|Hli].
      { unfold owner in Hl. rewrite Hi in Hl. by injection Hl as <- <-. }
      apply (Hk l q m). unfold owner. by rewrite lookup_delete_ne.
  - apply t_ret. constructor.
    + intros k q m [_ Hk]%lookup_delete_Some. by apply (Hh k).
    + intros k l q m m' [_ Hk]%lookup_delete_Some [_ Hl]%lookup_delete_Some. by eapply Hu.
    + intros k Hk. apply Hr. intros l q m Hl. apply (Hk l q m). unfold owner in *.
      rewrite lookup_delete_ne; [done|]. intros <-. congruence.
Qed.

Lemma t_construct base vs h i : vs !! i = None -> owned_once base vs h ->
  triple h (exec vs (Construct i)) (owned_once base) (fun _ => False).
Proof.
  intros Hi [Hh Hu Hr] w Hw. cbn. rewrite Hi. pose proof (make_law (T := MmapSource) h w Hw) as Hm. cbn in Hm.
  destruct (mmap_make w) as [[o| | |] w']; try done; [|rewrite Hm; by constructor].
  destruct Hm as (_ & -> & Hd). destruct o as [[p|] n]; unfold mmap_owns in *; cbn [data_ size_] in *.
  - apply map_disjoint_singleton_l in Hd. rewrite <- insert_union_singleton_l.
    assert (forall j q m, owner vs j q m -> q <> p) as Hne by (intros j q m Hj ->; destruct (Hh _ _ _ Hj) as [H1 _]; pose proof (eq_trans (eq_sym Hd) H1); done).
    constructor.
    + intros k q m [[-> [= <- <-]]|[Hk Ho]]%owner_insert.
      * rewrite lookup_insert_eq. split; [done|]. rewrite <- Hr; [done|]. intros j q m Hj [= ->]. by eapply Hne.
      * rewrite lookup_insert_ne by (specialize (Hne _ _ _ Ho); congruence). by apply (Hh k).
    + intros k l q m m' [[-> Hk]|[Hk Ho]]%owner_insert [[-> Hl]|[Hl Ho']]%owner_insert; [done| | |by eapply Hu].
      * injection Hk as <- <-. by apply Hne in Ho'.
      * injection Hl as <- <-. by apply Hne in Ho.
    + intros k Hk. rewrite lookup_insert_ne; [|intros <-; apply (Hk i p n); [apply lookup_insert_eq|done]].
      apply Hr. intros j q m Hj. apply (Hk j q m). unfold owner in *. rewrite lookup_insert_ne; [done|]. intros <-. congruence.
  - rewrite map_empty_union. constructor.
    + intros k q m [[-> Hk]|[Hk Ho]]%owner_insert; [done|]. by apply (Hh k).
    + intros k l q m m' [[-> Hk]|[Hk Ho]]%owner_insert [[-> Hl]|[Hl Ho']]%owner_insert; try done. by eapply Hu.
    + intros k Hk. apply Hr. intros j q m Hj. apply (Hk j q m). unfold owner in *.
      rewrite lookup_insert_ne; [done|]. intros <-. congruence.
Qed.

Lemma t_exec base vs h s : owned_once base vs h -> triple h (exec vs s) (owned_once base) (fun _ => False).
Proof.
  intros Hvs. destruct s as [i|i j|i j|i].
  - destruct (vs !! i) as [o|] eqn:Hi; [cbn; rewrite Hi; by apply t_ret|]. by apply t_construct.
  - cbn. destruct (vs !! i) eqn:Hi; [by apply t_ret|]. destruct (vs !! j) as [o|] eqn:Hj; [|by apply t_ret].
    apply t_ret. apply pass_on; [congruence|done| |done]. intros p n Ho. unfold owner in Ho. congruence.
  - cbn. destruct (vs !! i) as [this|] eqn:Hi; [|by apply t_ret]. destruct (vs !! j) as [o|] eqn:Hj; [|by apply t_ret].
    case_decide as Hij; [by apply t_ret|]. unfold mmap_assign.
    eapply t_bind; [eapply t_bind; [by eapply t_drop|]|].
    + intros ? h' H. cbn beta in H. apply (t_ret _ _ (fun r h' => r = mmap_move o /\ owned_once base (delete i vs) h')). by split.
    + intros r h' [-> H]. cbn. apply t_ret.
      assert (<[i := mkMmap (data_ o) (size_ o)]> (<[j := mkMmap None 0]> vs) =
              <[i := mkMmap (data_ o) (size_ o)]> (<[j := mkMmap None 0]> (delete i vs))) as ->.
      { rewrite <- delete_insert_ne by done. by rewrite insert_delete_eq. }
      apply pass_on; [done|by rewrite lookup_delete_ne| |done]. intros p n [Hne _]%lookup_delete_Some. done.
  - cbn. destruct (vs !! i) as [o|] eqn:Hi; [|by apply t_ret]. unfold mmap_destroy.
    eapply t_bind; [eapply t_bind; [by eapply t_drop|]|].
    + intros ? h' H. cbn beta in H. by apply (t_ret _ _ (fun _ h' => owned_once base (delete i vs) h')).
    + intros ? h' H. cbn beta in H. by apply t_ret.
Qed.

Lemma t_exec_all base ss vs h : owned_once base vs h -> triple h (exec_all vs ss) (owned_once base) (fun _ => False).
Proof.
  revert vs h. induction ss as [|s ss IH]; intros vs h Hvs; cbn; [by apply t_ret|].
  eapply t_bind; [by apply t_exec|]. intros vs' h' Hvs'. by apply IH.
Qed.

(** ** Properties *)

(** A class leaks nothing: a block with a local object of it, if the rest of
    the block gives back what it takes, gives back everything, whichever call
    of the constructor fails and whether or not the block throws. *)
Definition leaks_nothing (T : Type) `{Raii T} : Prop :=
  forall A h (body : T -> M A),
    (forall o h', triple h' (body o) (fun _ h'' => h'' = h') (fun h'' => h'' = h')) ->
    triple h (scope body) (fun _ h' => h' = h) (fun h' => h' = h).

Lemma raii_leaks_nothing T `{Raii T} : leaks_nothing T.
Proof.
  intros A h body Hbody. eapply t_conseq; [apply (t_scope h body (fun _ => True))|by intros a h' [? _]|done].
  intros o h' _. eapply t_conseq; [apply Hbody|by intros a h'' ?|done].
Qed.

(** C28: none of the six classes that own descriptors, mappings or streams
    leaks or double-frees one: whichever system call of a constructor fails, what
    it had taken is given back before the exception leaves (members already
    built included), and a block that uses a local object ends, normally or by
    an exception, with exactly the resources it began with, no resource being
    released twice. *)
Theorem classes_leak_nothing (timed : bool) :
  leaks_nothing MmapSource /\ leaks_nothing GzipSource /\
  @leaks_nothing MulticastReceiver (multicast_raii timed) /\
  @leaks_nothing MoldReceiver (mold_receiver_raii timed) /\
  leaks_nothing MoldSender /\ leaks_nothing QueryListener.
Proof. split_and!; apply raii_leaks_nothing. Qed.

(** A program may build, move-construct, move-assign (self-assignment
    included) and destroy mapped files in any order, with any of the builds
    failing: it never unmaps a region twice or with the wrong length, every
    region still mapped has exactly one variable that will unmap it, and when no
    variable is left the process holds what it held before. *)
Theorem moves_own_once (ss : list stmt) (w : world) :
  exists vs w', exec_all ∅ ss w = (Ok vs, w') /\
    (forall p n, held w' !! (KMap, p) = Some n -> held w !! (KMap, p) = None ->
       exists i, forall j m, owner vs j p m <-> j = i /\ m = n) /\
    (vs = ∅ -> held w' = held w).
Proof.
  assert (owned_once (held w) ∅ (held w)) as H0.
  { constructor; [intros i p n Ho|intros i j p n m Ho _|done]; by apply owner_empty in Ho. }
  pose proof (t_exec_all (held w) ss ∅ (held w) H0 w eq_refl) as Hrun.
  destruct (exec_all ∅ ss w) as [[vs| | |] w']; try done. destruct Hrun as [Hh Hu Hr].
  exists vs, w'. split_and!; [done| |].
  - intros p n Hn Hb.
    destruct (decide (map_Exists (fun i o => data_ o = Some p) vs)) as [(i & [d m] & Hi & Hd)|Hno].
    + cbn in Hd. subst d. exists i. intros j k. split.
      * intros Hj. split; [by eapply Hu|]. destruct (Hh _ _ _ Hj). congruence.
      * intros [-> ->]. destruct (Hh i p m Hi) as [Hm _]. unfold owner. rewrite Hi. congruence.
    + exfalso. rewrite Hr in Hn; [congruence|]. intros i q m Ho [= <-]. apply Hno. by eexists i, _.
  - intros ->. apply map_eq. intros k. apply Hr. by intros i p n Ho%owner_empty.
Qed.

(** Three variables, one failed open, a move and a self-assignment. *)
Example moves_sample :
  (fun r => (map_to_list <$> r.1, map_to_list (held r.2)))
    (exec_all ∅ [Construct 0; Construct 1; MoveConstruct 2 0; MoveAssign 2 2; MoveAssign 2 1; Destroy 2; Destroy 0; Destroy 1]
       (mkWorld ∅ [Some 3; Some 400; Some 0; Some 0; None])) = (Ok [], []).
Proof. vm_compute. reflexivity. Qed.

End Handles.
