(* ===== verification/Args.v ===== *)
(** * Args: the command lines of the replay programs

    Models [consume_flag] (src/replay_main.cpp, src/replay_threaded_main.cpp)
    and [consume_value_flag] (src/replay_query_main.cpp), and the choices the
    three [main] functions make from what is left.  [argv] is an array of
    strings and [argc] the number of its entries in use; reads and writes of the
    array are bounds-checked. *)

From S2P Require Import Prelude.
#[local] Open Scope string_scope.
#[local] Open Scope list_scope.

Module Args.

(** ** Stripping flags in place *)

(** [for (int j = i; j < argc - by; ++j) argv[j] = argv[j + by];], [n]
    iterations from [j] on. *)
Fixpoint shift_loop (n j by_ : nat) (argv : list string) : outcome (list string) :=
  match n with
  | O => Ok argv
  | S n =>
    x ← rd argv (j + by_);
    argv ← wr argv j x;
    shift_loop n (S j) by_ argv
  end.

(** The loop of [consume_flag], with [n] values of [i] to go. *)
Fixpoint flag_loop (n i argc : nat) (argv : list string) (flag : string) : outcome (bool * nat * list string) :=
  match n with
  | O => Ok (false, argc, argv)
  | S n =>
    a ← rd argv i;
    if String.eqb a flag then
      argv ← shift_loop (argc - 1 - i) i 1 argv;
      Ok (true, (argc - 1)%nat, argv)
    else flag_loop n (S i) argc argv flag
  end.

Definition consume_flag (argc : nat) (argv : list string) (flag : string) : outcome (bool * nat * list string) :=
  flag_loop (argc - 1) 1 argc argv flag.

(** [consume_bool_flag], which the query program has under that name. *)
Definition consume_bool_flag : nat -> list string -> string -> outcome (bool * nat * list string) := consume_flag.

(** The loop of [consume_value_flag]; the value found is [out]. *)
Fixpoint value_loop (n i argc : nat) (argv : list string) (flag : string)
  : outcome (option string * nat * list string) :=
  match n with
  | O => Ok (None, argc, argv)
  | S n =>
    a ← rd argv i;
    if String.eqb a flag then
      out ← rd argv (i + 1);
      argv ← shift_loop (argc - 2 - i) i 2 argv;
      Ok (Some out, (argc - 2)%nat, argv)
    else value_loop n (S i) argc argv flag
  end.

Definition consume_value_flag (argc : nat) (argv : list string) (flag : string)
  : outcome (option string * nat * list string) :=
  value_loop (argc - 2) 1 argc argv flag.

(** ** What is left *)

(** [path.size() >= 3 && path.compare(path.size() - 3, 3, ".gz") == 0] *)
Definition is_gz (path : string) : bool :=
  (3 <=? String.length path)%nat && String.eqb (String.substring (String.length path - 3) 3 path) ".gz".

Inductive action :=
| Selftest
| Legacy (path : string)
| Gzip (path : string)
| Mapped (path : string)
| Usage.

(** [dispatch_args] of src/replay_main.cpp. *)
Definition dispatch_args (argc : nat) (argv : list string) : outcome action :=
  selftest ← (if (argc =? 2)%nat then a ← rd argv 1; Ok (String.eqb a "--selftest") else Ok false);
  if selftest : bool then Ok Selftest
  else
    legacy ← (if (argc =? 3)%nat then a ← rd argv 1; Ok (String.eqb a "--legacy") else Ok false);
    if legacy : bool then path ← rd argv 2; Ok (Legacy path)
    else if negb (argc =? 2)%nat then Ok Usage
    else path ← rd argv 1; Ok (if is_gz path then Gzip path else Mapped path).

(** [main] of src/replay_main.cpp: whether the map-based book was asked for,
    and what to do. *)
Definition replay_main (argv : list string) : outcome (bool * action) :=
  '(use_map, argc, argv) ← consume_flag (length argv) argv "--map";
  act ← dispatch_args argc argv;
  Ok (use_map, act).

(** [main] of src/replay_threaded_main.cpp. *)
Definition threaded_main (argv : list string) : outcome (bool * bool * action) :=
  '(use_map, argc, argv) ← consume_flag (length argv) argv "--map";
  '(pin, argc, argv) ← consume_flag argc argv "--pin";
  act ← dispatch_args argc argv;
  Ok (use_map, pin, act).

(** The options of src/replay_query_main.cpp, as the strings its [main]
    strips before choosing; conversion to numbers is the C library's. *)
Record Options := mkOptions {
  use_map : bool;
  port : option string;
  publish_every : option string;
  pace_us : option string;
  serve_seconds : option string }.

Definition query_main (argv : list string) : outcome (Options * action) :=
  '(use_map, argc, argv) ← consume_bool_flag (length argv) argv "--map";
  '(port, argc, argv) ← consume_value_flag argc argv "--port";
  '(publish_every, argc, argv) ← consume_value_flag argc argv "--publish-every";
  '(pace_us, argc, argv) ← consume_value_flag argc argv "--pace-us";
  '(serve_seconds, argc, argv) ← consume_value_flag argc argv "--serve-seconds";
  act ← dispatch_args argc argv;
  Ok (mkOptions use_map port publish_every pace_us serve_seconds, act).

(** ** The reference: lists of arguments *)

(** Drop the first occurrence of a flag. *)
Fixpoint drop_flag (flag : string) (l : list string) : option (list string) :=
  match l with
  | [] => None
  | a :: l => if String.eqb a flag then Some l else l' ← drop_flag flag l; Some (a :: l')
  end.

(** Drop the first occurrence of a flag that has something after it, and that. *)
Fixpoint drop_pair (flag : string) (l : list string) : option (string * list string) :=
  match l with
  | a :: ((v :: l') as l) =>
    if String.eqb a flag then Some (v, l') else '(out, l) ← drop_pair flag l; Some (out, a :: l)
  | _ => None
  end.

(** The choice among the arguments after the program's name. *)
Definition choose (args : list string) : action :=
  match args with
  | [a] => if String.eqb a "--selftest" then Selftest else if is_gz a then Gzip a else Mapped a
  | [a; path] => if String.eqb a "--legacy" then Legacy path else Usage
  | _ => Usage
  end.

(** ** Proofs *)

Lemma shift_ok n j k argv : (j + k + n <= length argv)%nat ->
  shift_loop n j k argv = Ok (take j argv ++ take n (drop (j + k) argv) ++ drop (j + n) argv).
Proof.
  revert j argv. induction n as [|n IH]; intros j argv Hlen; cbn [shift_loop].
  { rewrite take_0, Nat.add_0_r. cbn. by rewrite take_drop. }
  destruct (rd_ok argv (j + k) ltac:(lia)) as (x & -> & Hx). rewrite bind_Ok.
  unfold wr. rewrite decide_True, bind_Ok by lia. rewrite IH by (rewrite length_insert; lia).
  f_equal. rewrite (drop_S argv x (j + k) Hx). cbn [take app].
  rewrite (take_S_r _ _ x) by (apply list_lookup_insert_eq; lia).
  rewrite take_insert_ge by lia. rewrite !drop_insert_lt by lia.
  rewrite <- app_assoc. cbn [app]. by replace (j + S n)%nat with (S j + n)%nat by lia.
Qed.

(** What is in use of an array after a shift by [k] at [j]. *)
Lemma shift_in_use argc j k argv : (j + k <= argc)%nat -> (argc <= length argv)%nat ->
  exists argv', shift_loop (argc - k - j) j k argv = Ok argv' /\ length argv' = length argv /\
    take (argc - k) argv' = take j argv ++ drop (j + k) (take argc argv).
Proof.
  intros Hj Hlen. rewrite shift_ok by lia. eexists; split; [reflexivity|]. split.
  - rewrite !length_app, !length_take, !length_drop. lia.
  - rewrite take_app_ge by (rewrite length_take; lia). f_equal. rewrite length_take, Nat.min_l by lia.
    rewrite take_app_le by (rewrite length_take, length_drop; lia).
    rewrite take_take, Nat.min_l by lia. rewrite take_drop_commute. f_equal. f_equal. lia.
Qed.

Lemma in_use_cons argc i (argv : list string) : (i < argc)%nat -> (argc <= length argv)%nat ->
  exists a, rd argv i = Ok a /\ drop i (take argc argv) = a :: drop (S i) (take argc argv) /\
    take (S i) argv = take i argv ++ [a].
Proof.
  intros Hi Hlen. destruct (rd_ok argv i ltac:(lia)) as (a & Hrd & Ha). exists a. split; [done|]. split.
  - apply drop_S. by rewrite lookup_take_lt.
  - by apply take_S_r.
Qed.

(** An array whose part in use is the list [l]. *)
Definition holds (argc : nat) (argv l : list string) : Prop := (argc <= length argv)%nat /\ take argc argv = l.

Lemma flag_loop_ok n i argc argv flag : (i + n = argc)%nat -> (argc <= length argv)%nat ->
  match drop_flag flag (drop i (take argc argv)) with
  | Some l => exists argv', flag_loop n i argc argv flag = Ok (true, (argc - 1)%nat, argv') /\
      holds (argc - 1) argv' (take i argv ++ l)
  | None => flag_loop n i argc argv flag = Ok (false, argc, argv)
  end.
Proof.
  revert i. induction n as [|n IH]; intros i Hi Hlen; cbn [flag_loop].
  { rewrite drop_ge by (rewrite length_take; lia). done. }
  destruct (in_use_cons argc i argv ltac:(lia) Hlen) as (a & Hrd & Hd & Ht). rewrite Hrd, bind_Ok, Hd. cbn [drop_flag].
  destruct (String.eqb a flag).
  - destruct (shift_in_use argc i 1 argv ltac:(lia) Hlen) as (argv' & Hs & Hl & Hu).
    rewrite Hs, bind_Ok.
    exists argv'. split; [done|]. split; [lia|]. rewrite Hu. by rewrite Nat.add_1_r.
  - specialize (IH (S i) ltac:(lia) Hlen). destruct (drop_flag flag (drop (S i) (take argc argv))) as [l|]; [|done].
    destruct IH as (argv' & Hrun & Hh). exists argv'. split; [done|]. by rewrite Ht, <- app_assoc in Hh.
Qed.

Lemma drop_pair_cons flag a v l : drop_pair flag (a :: v :: l) =
  if String.eqb a flag then Some (v, l) else '(out, l) ← drop_pair flag (v :: l); Some (out, a :: l).
Proof. reflexivity. Qed.

Lemma value_loop_ok n i argc argv flag : (i + n = argc - 1)%nat -> (0 < argc)%nat -> (argc <= length argv)%nat ->
  match drop_pair flag (drop i (take argc argv)) with
  | Some (v, l) => exists argv', value_loop n i argc argv flag = Ok (Some v, (argc - 2)%nat, argv') /\
      holds (argc - 2) argv' (take i argv ++ l)
  | None => value_loop n i argc argv flag = Ok (None, argc, argv)
  end.
Proof.
  revert i. induction n as [|n IH]; intros i Hi Hpos Hlen; cbn [value_loop].
  { destruct (in_use_cons argc i argv ltac:(lia) Hlen) as (a & _ & -> & _).
    rewrite drop_ge by (rewrite length_take; lia). done. }
  destruct (in_use_cons argc i argv ltac:(lia) Hlen) as (a & Hrd & Hd & Ht).
  destruct (in_use_cons argc (S i) argv ltac:(lia) Hlen) as (v & Hrd' & Hd' & Ht').
  rewrite Hrd, bind_Ok, Hd, Hd', drop_pair_cons. destruct (String.eqb a flag).
  - replace (i + 1)%nat with (S i) by lia. rewrite Hrd', bind_Ok.
    destruct (shift_in_use argc i 2 argv ltac:(lia) Hlen) as (argv' & Hs & Hl & Hu).
    rewrite Hs, bind_Ok. exists argv'. split; [done|]. split; [lia|]. rewrite Hu. by replace (i + 2)%nat with (S (S i)) by lia.
  - specialize (IH (S i) ltac:(lia) Hpos Hlen). rewrite Hd' in IH.
    destruct (drop_pair flag (v :: drop (S (S i)) (take argc argv))) as [[out l]|]; [|done].
    destruct IH as (argv' & Hrun & Hh). exists argv'. split; [done|]. by rewrite Ht, <- app_assoc in Hh.
Qed.

(** Stripping, on an array in use as a program's name and its arguments. *)
Lemma consume_flag_ok argc argv flag name args : holds argc argv (name :: args) ->
  exists argc' argv', consume_flag argc argv flag =
      Ok (match drop_flag flag args with Some _ => true | None => false end, argc', argv') /\
    holds argc' argv' (name :: default args (drop_flag flag args)).
Proof.
  intros [Hlen Ht].
  assert (argc = S (length args)) as Hargc by (apply (f_equal length) in Ht; rewrite length_take in Ht; cbn in Ht; lia).
  pose proof (flag_loop_ok (argc - 1) 1 argc argv flag ltac:(lia) Hlen) as H. rewrite Ht in H.
  change (drop 1 (name :: args)) with (drop 0 args) in H. rewrite drop_0 in H.
  assert (take 1 argv = [name]) as Hn.
  { replace 1%nat with (1 `min` argc)%nat by lia. by rewrite <- take_take, Ht. }
  unfold consume_flag. destruct (drop_flag flag args) as [l|].
  - destruct H as (argv' & -> & Hh). rewrite Hn in Hh. by exists (argc - 1)%nat, argv'.
  - rewrite H. by exists argc, argv.
Qed.

Lemma consume_value_flag_ok argc argv flag name args : holds argc argv (name :: args) ->
  exists argc' argv', consume_value_flag argc argv flag = Ok (fst <$> drop_pair flag args, argc', argv') /\
    holds argc' argv' (name :: default args (snd <$> drop_pair flag args)).
Proof.
  intros [Hlen Ht]. assert (argc = S (length args)) as Hargc by (apply (f_equal length) in Ht; rewrite length_take in Ht; cbn in Ht; lia).
  unfold consume_value_flag. destruct args as [|a args].
  { cbn in Hargc. subst argc. cbn. by exists 1%nat, argv. }
  cbn in Hargc.
  pose proof (value_loop_ok (argc - 2) 1 argc argv flag ltac:(lia) ltac:(lia) Hlen) as H. rewrite Ht in H.
  assert (take 1 argv = [name]) as Hn.
  { replace 1%nat with (1 `min` argc)%nat by lia. by rewrite <- take_take, Ht. }
  change (drop 1 (name :: a :: args)) with (a :: args) in H.
  destruct (drop_pair flag (a :: args)) as [[v l]|].
  - destruct H as (argv' & -> & Hh). rewrite Hn in Hh. by exists (argc - 2)%nat, argv'.
  - rewrite H. by exists argc, argv.
Qed.

(** The array agrees with the list it holds. *)
Lemma holds_rd argc argv l i a : holds argc argv l -> l !! i = Some a -> rd argv i = Ok a.
Proof.
  intros [Hlen <-] Hi. apply rd_lookup. apply lookup_take_Some in Hi as [Hi _]. done.
Qed.

Lemma dispatch_args_ok argc argv name args : holds argc argv (name :: args) -> dispatch_args argc argv = Ok (choose args).
Proof.
  intros Hh. assert (argc = S (length args)) as ->.
  { destruct Hh as [Hlen Ht]. apply (f_equal length) in Ht. rewrite length_take in Ht. cbn in Ht. lia. }
  unfold dispatch_args.
  destruct args as [|a [|b [|c args]]]; cbn [length Nat.eqb choose]; rewrite ?bind_Ok; try done;
    rewrite (holds_rd _ _ _ 1 a Hh eq_refl), !bind_Ok; destruct (String.eqb a _); try done.
  by rewrite (holds_rd _ _ _ 2 b Hh eq_refl), bind_Ok.
Qed.

Lemma holds_self argv : holds (length argv) argv argv.
Proof. split; [done|apply firstn_all]. Qed.

(** ** Properties *)

(** The result of stripping a flag from a list of arguments. *)
Definition strip (flag : string) (args : list string) : bool * list string :=
  match drop_flag flag args with Some l => (true, l) | None => (false, args) end.

Definition strip_value (flag : string) (args : list string) : option string * list string :=
  match drop_pair flag args with Some (v, l) => (Some v, l) | None => (None, args) end.

Lemma strip_ok argc argv flag name args : holds argc argv (name :: args) ->
  exists argc' argv', consume_flag argc argv flag = Ok ((strip flag args).1, argc', argv') /\
    holds argc' argv' (name :: (strip flag args).2).
Proof.
  intros Hh. destruct (consume_flag_ok argc argv flag name args Hh) as (argc' & argv' & -> & Hh').
  exists argc', argv'. unfold strip. by destruct (drop_flag flag args).
Qed.

Lemma strip_value_ok argc argv flag name args : holds argc argv (name :: args) ->
  exists argc' argv', consume_value_flag argc argv flag = Ok ((strip_value flag args).1, argc', argv') /\
    holds argc' argv' (name :: (strip_value flag args).2).
Proof.
  intros Hh. destruct (consume_value_flag_ok argc argv flag name args Hh) as (argc' & argv' & -> & Hh').
  exists argc', argv'. unfold strip_value. by destruct (drop_pair flag args) as [[v l]|].
Qed.

(** The in-place flag stripping of the three replay programs never leaves
    [argv] and means what it says on lists: on any command line, each program
    removes the first occurrence of each of its flags (an option with a value
    goes with its value, and is left alone when nothing follows it), wherever it
    stands among the arguments, keeps the order of the others, and chooses by
    what is left. *)
Theorem command_lines_exact (name : string) (args : list string) :
  replay_main (name :: args) = (let '(use_map, args) := strip "--map" args in Ok (use_map, choose args)) /\
  threaded_main (name :: args) =
    (let '(use_map, args) := strip "--map" args in
     let '(pin, args) := strip "--pin" args in Ok (use_map, pin, choose args)) /\
  query_main (name :: args) =
    (let '(use_map, args) := strip "--map" args in
     let '(port, args) := strip_value "--port" args in
     let '(every, args) := strip_value "--publish-every" args in
     let '(pace, args) := strip_value "--pace-us" args in
     let '(secs, args) := strip_value "--serve-seconds" args in
     Ok (mkOptions use_map port every pace secs, choose args)).
Proof.
  destruct (strip_ok _ _ "--map" name args (holds_self (name :: args))) as (argc1 & argv1 & E1 & H1).
  unfold replay_main, threaded_main, query_main, consume_bool_flag. rewrite !E1, !bind_Ok.
  destruct (strip "--map" args) as [m a1]. cbn [fst snd] in *. split_and!.
  - by rewrite (dispatch_args_ok _ _ _ _ H1).
  - destruct (strip_ok _ _ "--pin" name a1 H1) as (argc2 & argv2 & -> & H2). rewrite bind_Ok.
    destruct (strip "--pin" a1) as [p a2]. by rewrite (dispatch_args_ok _ _ _ _ H2).
  - destruct (strip_value_ok _ _ "--port" name a1 H1) as (argc2 & argv2 & -> & H2). rewrite bind_Ok.
    destruct (strip_value "--port" a1) as [v2 a2].
    destruct (strip_value_ok _ _ "--publish-every" name a2 H2) as (argc3 & argv3 & -> & H3). rewrite bind_Ok.
    destruct (strip_value "--publish-every" a2) as [v3 a3].
    destruct (strip_value_ok _ _ "--pace-us" name a3 H3) as (argc4 & argv4 & -> & H4). rewrite bind_Ok.
    destruct (strip_value "--pace-us" a3) as [v4 a4].
    destruct (strip_value_ok _ _ "--serve-seconds" name a4 H4) as (argc5 & argv5 & -> & H5). rewrite bind_Ok.
    destruct (strip_value "--serve-seconds" a4) as [v5 a5]. by rewrite (dispatch_args_ok _ _ _ _ H5).
Qed.

Example query_main_sample :
  query_main ["replay_query"; "--selftest"; "--publish-every"; "1"; "--map"; "--pace-us"; "200000"] =
    Ok (mkOptions true None (Some "1") (Some "200000") None, Selftest).
Proof. reflexivity. Qed.

End Args.
