(* ===== verification/Replay.v ===== *)
(** * Replay: the replay program

    Models src/replay_main.cpp around the parts modelled elsewhere: [report]
    (what it prints, less the elapsed time), [run], [run_mmap], [run_gzip],
    [run_legacy], [selftest], and [main] with what it catches.  A program is a
    computation of [Os]: its result is the exit code and the report printed; a
    [Throw] is an exception nothing catches, which ends the process.

    What the files hold is an input: the bytes the kernel shows in a mapping,
    what zlib makes of a .gz file, and what an [ifstream] says of a file. *)

From Stdlib Require Import Sorting.Sorted.
From S2P Require Import Prelude Wire Encode Book OrderBook LadderBook Builder Gzip Os Handles Args.
Import Os.

Module Replay.

(** ** The report *)

Record Report := mkReport {
  r_bytes : Z; r_frames : nat; r_books : nat;
  r_open_orders : Z; r_bid_levels : Z; r_ask_levels : Z;
  r_unknown_refs : Z;
  r_types : list (Z * Z) }.

Section Report.
Context {B : Type} `{Book.BookOps B}.

(** The lambda passed to [for_each]: the three running totals. *)
Definition tally (acc : Z * Z * Z) (lb : Z * B) : Z * Z * Z :=
  let '(orders, bids, asks) := acc in
  (u64 (orders + Z.of_nat (Book.open_orders lb.2)), u64 (bids + Book.bid_levels lb.2), u64 (asks + Book.ask_levels lb.2)).

(** The loop over the message types, from [t] on. *)
Fixpoint types_loop (n t : nat) (counts : list Z) : outcome (list (Z * Z)) :=
  match n with
  | O => Ok []
  | S n =>
    c ← rd counts t;
    rest ← types_loop n (S t) counts;
    Ok (if 0 <? c then (Z.of_nat t, c) :: rest else rest)
  end.

Definition report (h : Builder.BookBuilder B) (bytes : Z) (frames : nat) : outcome Report :=
  let '(orders, bids, asks) := foldl tally (0, 0, 0) (Builder.for_each (Builder.books h)) in
  types ← types_loop 256 0 (Builder.counts h);
  Ok (mkReport bytes frames (Builder.book_count (Builder.books h)) orders bids asks (Builder.unknown_refs h) types).

Definition run (data : list Z) (len : nat) : outcome Report :=
  '(frames, h) ← Wire.parse_stream data len (Ok Builder.init);
  h ← h;
  report h (Z.of_nat len) frames.

(** ** The ways in *)

(** A computation that touches no resource. *)
Definition lift {A} (o : outcome A) : M A := fun w => (o, w).

(** The bytes a mapping of a given length shows. *)
Variable bytes_at : nat -> Z -> list Z.

Definition mapped (src : Handles.MmapSource) : list Z :=
  match Handles.data_ src with Some p => bytes_at p (Handles.size_ src) | None => [] end.

Definition run_mmap : M (Z * option Report) :=
  scope (T := Handles.MmapSource) (fun src =>
    r ← lift (run (mapped src) (Z.to_nat (Handles.size_ src)));
    mret (0, Some r)).

(** [chunk] and [reads]: what [GzipSource::run] finds, as in [Gzip]. *)
Definition run_gzip (chunk : nat) (reads : list Gzip.fread_result) : M (Z * option Report) :=
  scope (T := Handles.GzipSource) (fun _ =>
    '(frames, bytes, h) ← Handles.gzip_run (lift (Gzip.run chunk reads (Ok Builder.init)));
    r ← lift (h ← h; report h bytes frames);
    mret (0, Some r)).

(** What an [ifstream] opened at the end of a file reports: whether it is
    open, [tellg()] (-1 when the position cannot be told), and the bytes that
    can be read from the start. *)
Record stream_file := mkStream { opens : bool; tellg : Z; content : list Z }.

(** [room]: the longest vector of bytes that can be built; asking for a
    longer one throws ([std::length_error] or [std::bad_alloc]). *)
Variable room : Z.

Definition run_legacy (f : stream_file) : M (Z * option Report) :=
  if negb (opens f) then mret (1, None)
  else
    let size := u64 (tellg f) in
    if room <? size then throw "std::bad_alloc"
    else if Z.of_nat (length (content f)) <? size then mret (1, None)
    else
      r ← lift (run (take (Z.to_nat size) (content f)) (Z.to_nat size));
      mret (0, Some r).

Definition selftest_data : list Z :=
  Encode.stream
    [Encode.header [] 83 0 1 ++ [79];
     Encode.add_order 1 100 1001 Wire.Buy 300 [65; 65; 80; 76] 1500000;
     Encode.add_order 1 110 1002 Wire.Buy 200 [65; 65; 80; 76] 1499900;
     Encode.add_order 1 120 2001 Wire.Sell 500 [65; 65; 80; 76] 1500100;
     Encode.add_order 2 130 3001 Wire.Buy 1000 [77; 83; 70; 84] 4200000;
     Encode.executed 1 140 1001 300 90001;
     Encode.cancel 1 150 2001 100;
     Encode.replace 2 160 3001 3002 800 4199500;
     Encode.del 1 170 1002].

Definition selftest : M (Z * option Report) :=
  r ← lift (run selftest_data (length selftest_data));
  mret (0, Some r).

(** [try { ... } catch (const std::exception&) { return 1; }] *)
Definition guarded {R} (m : M (Z * option R)) : M (Z * option R) := fun w =>
  match m w with
  | (Throw _, w) => (Ok (1, None), w)
  | r => r
  end.

(** [dispatch_args]: only the two last cases are inside the [try]. *)
Definition dispatch (f : stream_file) (chunk : nat) (reads : list Gzip.fread_result) (act : Args.action)
  : M (Z * option Report) :=
  match act with
  | Args.Selftest => selftest
  | Args.Legacy _ => run_legacy f
  | Args.Usage => mret (2, None)
  | Args.Gzip _ => guarded (run_gzip chunk reads)
  | Args.Mapped _ => guarded run_mmap
  end.

End Report.

(** [main]: the flag chooses the book. *)
Definition main (bytes_at : nat -> Z -> list Z) (room : Z) (f : stream_file) (chunk : nat) (reads : list Gzip.fread_result)
    (argv : list string) : M (Z * option Report) :=
  '(use_map, act) ← lift (Args.replay_main argv);
  if use_map : bool then dispatch (B := OrderBook.OrderBook) bytes_at room f chunk reads act
  else dispatch (B := LadderBook.LadderBook) bytes_at room f chunk reads act.

(** ** Totals over the locates *)

Definition sum_z (l : list Z) : Z := foldr Z.add 0 l.

(** The sum of a quantity over all 16-bit locates. *)
Definition over_locates (f : nat -> Z) : Z := sum_z (f <$> List.seq 0 (Z.to_nat 65536)).

Lemma sum_z_app l k : sum_z (l ++ k) = sum_z l + sum_z k.
Proof. unfold sum_z. induction l as [|x l IH]; cbn; [done|]. rewrite IH. lia. Qed.

Lemma sum_z_zero {A} (f : A -> Z) l : (forall x, x ∈ l -> f x = 0) -> sum_z (f <$> l) = 0.
Proof.
  induction l as [|x l IH]; intros Hf; cbn; [done|]. rewrite Hf by apply list_elem_of_here.
  unfold sum_z in IH. rewrite IH; [done|]. intros y Hy. apply Hf. by apply list_elem_of_further.
Qed.

Lemma sum_z_ext {A} (f g : A -> Z) l : (forall x, x ∈ l -> f x = g x) -> sum_z (f <$> l) = sum_z (g <$> l).
Proof.
  induction l as [|x l IH]; intros Hf; cbn; [done|]. rewrite Hf by apply list_elem_of_here. f_equal.
  apply IH. intros y Hy. apply Hf. by apply list_elem_of_further.
Qed.

Section Totals.
Context {B : Type}.
Implicit Types (slots : list (option B)).

Lemma for_each_slots (g : B -> Z) k slots :
  sum_z ((fun lb => g lb.2) <$> Builder.for_each_from k slots) = sum_z (from_option g 0 <$> slots).
Proof.
  revert k. induction slots as [|[b|] slots IH]; intros k; cbn; [done| |].
  - f_equal. apply IH.
  - unfold sum_z in IH. by rewrite (IH (S k)).
Qed.

Lemma slots_locates (f : option B -> Z) slots n k : f None = 0 -> (length slots <= n)%nat ->
  sum_z (f <$> slots) = sum_z ((fun i => f (mjoin (slots !! (i - k)%nat))) <$> List.seq k n).
Proof.
  intros Hf. revert n k. induction slots as [|x slots IH]; intros n k Hn.
  - symmetry. apply sum_z_zero. intros i _. done.
  - destruct n as [|n]; [cbn in Hn; lia|]. cbn [fmap list_fmap List.seq sum_z foldr].
    rewrite Nat.sub_diag. cbn. f_equal.
    change (sum_z (f <$> slots) = sum_z ((fun i => f (mjoin ((x :: slots) !! (i - k)%nat))) <$> List.seq (S k) n)).
    rewrite (IH n (S k)) by (cbn in Hn; lia). apply sum_z_ext. intros i Hi.
    apply list_elem_of_In, in_seq in Hi. by replace (i - k)%nat with (S (i - S k)) by lia.
Qed.

(** A total over the table depends only on which locate has which book. *)
Lemma for_each_locates (g : B -> Z) slots : Z.of_nat (length slots) <= 65536 ->
  sum_z ((fun lb => g lb.2) <$> Builder.for_each slots) =
    over_locates (fun i => from_option g 0 (mjoin (slots !! i))).
Proof.
  intros Hlen. unfold Builder.for_each. rewrite for_each_slots.
  rewrite (slots_locates (from_option g 0) slots (Z.to_nat 65536) 0) by (done || lia).
  unfold over_locates. apply sum_z_ext. intros i _. by rewrite Nat.sub_0_r.
Qed.

End Totals.

Lemma report_fields {B} `{Book.BookOps B} (h : Builder.BookBuilder B) bytes frames r : report h bytes frames = Ok r ->
  r_books r = Builder.book_count (Builder.books h) /\
  r_open_orders r = (foldl tally (0, 0, 0) (Builder.for_each (Builder.books h))).1.1 /\
  r_unknown_refs r = Builder.unknown_refs h.
Proof.
  unfold report. destruct (foldl tally _ _) as [[o bl] al]. generalize (types_loop 256 0 (Builder.counts h)).
  intros [t| | |]; [|discriminate..]. by intros [= <-].
Qed.

Lemma tally_sum {B} `{Book.BookOps B} (l : list (Z * B)) x y z : is_u64 x -> is_u64 y -> is_u64 z ->
  foldl tally (x, y, z) l =
    (u64 (x + sum_z ((fun lb => Z.of_nat (Book.open_orders lb.2)) <$> l)),
     u64 (y + sum_z ((fun lb => Book.bid_levels lb.2) <$> l)),
     u64 (z + sum_z ((fun lb => Book.ask_levels lb.2) <$> l))).
Proof.
  revert x y z. induction l as [|lb l IH]; intros x y z Hx Hy Hz; cbn.
  { by rewrite !Z.add_0_r, !u64_id. }
  rewrite IH by apply u64_range. f_equal; [f_equal|]; unfold sum_z; unfold u64; rewrite Zplus_mod_idemp_l; f_equal; lia.
Qed.

(** ** The types line *)

Definition of_type (es : list Wire.event) (t : Z) : Z := Z.of_nat (length (filter (fun e => Builder.event_type e = t) es)).

Definition spec_types (es : list Wire.event) : list (Z * Z) :=
  filter (fun p => 0 < p.2) ((fun t => (Z.of_nat t, of_type es (Z.of_nat t))) <$> List.seq 0 256).

Lemma types_loop_ok n t counts f : (forall i, (t <= i < t + n)%nat -> counts !! i = Some (f (Z.of_nat i))) ->
  types_loop n t counts = Ok (filter (fun p : Z * Z => 0 < p.2) ((fun i => (Z.of_nat i, f (Z.of_nat i))) <$> List.seq t n)).
Proof.
  revert t. induction n as [|n IH]; intros t Hc; cbn [types_loop List.seq fmap list_fmap]; [done|].
  rewrite (rd_lookup _ _ _ (Hc t ltac:(lia))), bind_Ok, IH, bind_Ok by (intros i Hi; apply Hc; lia).
  f_equal. rewrite filter_cons. cbn [snd]. destruct (Z.ltb_spec 0 (f (Z.of_nat t))); case_decide; done || lia.
Qed.

Lemma event_type_range e : 0 <= Builder.event_type e < 256.
Proof. destruct e; cbn; try (unfold Wire.chA, Wire.chE, Wire.chC, Wire.chX, Wire.chD, Wire.chU; lia). apply u8_range. Qed.

(** Every message has one of the 256 types. *)
Lemma types_sum es : sum_z (snd <$> spec_types es) = Z.of_nat (length es).
Proof.
  assert (forall l : list (Z * Z), Forall (fun p => 0 <= p.2) l ->
    sum_z (snd <$> filter (fun p : Z * Z => 0 < p.2) l) = sum_z (snd <$> l)) as Hdrop.
  { induction l as [|[t c] l IH]; intros Hl; [done|]. apply Forall_cons_1 in Hl as [Hc Hl]. cbn in Hc.
    specialize (IH Hl). unfold sum_z in *. rewrite filter_cons. cbn [snd]. case_decide; cbn [fmap list_fmap foldr snd]; lia. }
  unfold spec_types. rewrite Hdrop.
  2: { apply Forall_forall. intros p (t & -> & _)%list_elem_of_fmap. cbn. unfold of_type. lia. }
  rewrite <- list_fmap_compose. induction es as [|e es IH].
  - apply sum_z_zero. intros t _. done.
  - cbn [length]. rewrite Nat2Z.inj_succ, <- Z.add_1_l, <- IH. clear IH.
    pose proof (event_type_range e) as Hr.
    assert (forall k n, sum_z ((snd ∘ fun t => (Z.of_nat t, of_type (e :: es) (Z.of_nat t))) <$> List.seq k n) =
      (if decide (Z.of_nat k <= Builder.event_type e < Z.of_nat (k + n)) then 1 else 0) +
      sum_z ((snd ∘ fun t => (Z.of_nat t, of_type es (Z.of_nat t))) <$> List.seq k n)) as Hgen.
    { intros k n. revert k. induction n as [|n IHn]; intros k; cbn [List.seq fmap list_fmap sum_z foldr].
      - case_decide; [lia|done].
      - change (foldr Z.add 0) with sum_z. rewrite IHn. unfold compose. cbn [snd].
        assert (of_type (e :: es) (Z.of_nat k) = of_type es (Z.of_nat k) + (if decide (Builder.event_type e = Z.of_nat k) then 1 else 0)) as ->.
        { unfold of_type. rewrite filter_cons. case_decide; cbn [length]; lia. }
        repeat case_decide; lia. }
    rewrite (Hgen 0%nat 256%nat). rewrite decide_True by lia. done.
Qed.

(** ** The reference report *)

Definition spec_total (f : gmap Z Book.Order -> Z) (s : Builder.spec) : Z :=
  over_locates (fun i => from_option f 0 (Builder.sp_books s !! i)).

(** What a session leaves: [es] its messages, [s] the reference state. *)
Definition spec_report (bytes : Z) (es : list Wire.event) (s : Builder.spec) : Report :=
  mkReport bytes (length es) (size (Builder.sp_books s))
    (spec_total (fun os => Z.of_nat (size os)) s)
    (spec_total (fun os => Z.of_nat (size (Book.prices true os))) s)
    (spec_total (fun os => Z.of_nat (size (Book.prices false os))) s)
    (Builder.sp_rejected s) (spec_types es).

Lemma sum_z_bound {A} (f : A -> Z) k l : (forall x, 0 <= f x <= k) -> 0 <= sum_z (f <$> l) <= k * Z.of_nat (length l).
Proof.
  intros Hf. induction l as [|x l IH]; cbn [fmap list_fmap sum_z foldr length]; [cbn; lia|].
  change (foldr Z.add 0) with sum_z. pose proof (Hf x). lia.
Qed.

Lemma spec_total_bound f s k : (forall i os, Builder.sp_books s !! i = Some os -> 0 <= f os <= k) -> 0 <= k ->
  0 <= spec_total f s <= k * 65536.
Proof.
  intros Hf Hk. unfold spec_total, over_locates.
  pose proof (sum_z_bound (fun i => from_option f 0 (Builder.sp_books s !! i)) k (List.seq 0 (Z.to_nat 65536))) as Hb.
  rewrite length_seq in Hb. rewrite Z2Nat.id in Hb by lia. apply Hb.
  intros i. destruct (Builder.sp_books s !! i) as [os|] eqn:E; cbn; [by apply (Hf i)|lia].
Qed.

(** The table as a finite map. *)
Fixpoint slot_map {B} (k : nat) (slots : list (option B)) : gmap nat B :=
  match slots with
  | [] => ∅
  | None :: slots => slot_map (S k) slots
  | Some b :: slots => <[k := b]> (slot_map (S k) slots)
  end.

Lemma slot_map_lookup {B} k (slots : list (option B)) i :
  slot_map k slots !! i = if decide (k <= i)%nat then mjoin (slots !! (i - k)%nat) else None.
Proof.
  revert k. induction slots as [|[b|] slots IH]; intros k; cbn [slot_map].
  - case_decide; [|done]. by rewrite lookup_empty.
  - destruct (decide (i = k)) as [->|Hne].
    + rewrite lookup_insert_eq, decide_True by lia. by rewrite Nat.sub_diag.
    + rewrite lookup_insert_ne, IH by done. repeat case_decide; try lia; [|done].
      by replace (i - k)%nat with (S (i - S k)) by lia.
  - rewrite IH. repeat case_decide; try lia; try done.
    + by replace (i - k)%nat with (S (i - S k)) by lia.
    + by replace (i - k)%nat with 0%nat by lia.
Qed.

Lemma slot_map_size {B} k (slots : list (option B)) : size (slot_map k slots) = length (Builder.for_each_from k slots).
Proof.
  revert k. induction slots as [|[b|] slots IH]; intros k; cbn [slot_map Builder.for_each_from length]; [by rewrite map_size_empty| |apply IH].
  rewrite map_size_insert_None, IH; [done|]. rewrite slot_map_lookup, decide_False by lia. done.
Qed.

Lemma spec_run_counts es s t : Builder.sp_counts (Builder.spec_run es s) t = Builder.sp_counts s t + of_type es t.
Proof.
  revert s. induction es as [|e es IH]; intros s; cbn [Builder.spec_run foldl]; [unfold of_type; cbn; lia|].
  change (Builder.sp_counts (Builder.spec_run es (Builder.spec_step true e s)) t = Builder.sp_counts s t + of_type (e :: es) t).
  rewrite IH. assert (Builder.sp_counts (Builder.spec_step true e s) t = Builder.sp_counts s t + (if decide (Builder.event_type e = t) then 1 else 0)) as ->.
  { unfold Builder.spec_step. destruct (Builder.event_op _ e) as [[loc op]|]; [destruct (op _)|]; simpl;
      destruct (Z.eqb_spec t (Builder.event_type e)); case_decide; congruence || lia. }
  unfold of_type. rewrite filter_cons. case_decide; cbn [length]; lia.
Qed.

Lemma spec_run_rejected es s :
  Builder.sp_rejected s <= Builder.sp_rejected (Builder.spec_run es s) <= Builder.sp_rejected s + Z.of_nat (length es).
Proof.
  revert s. induction es as [|e es IH]; intros s; cbn [Builder.spec_run foldl length]; [lia|].
  specialize (IH (Builder.spec_step true e s)). unfold Builder.spec_run in IH.
  assert (Builder.sp_rejected s <= Builder.sp_rejected (Builder.spec_step true e s) <= Builder.sp_rejected s + 1); [|lia].
  unfold Builder.spec_step. destruct (Builder.event_op _ e) as [[loc op]|]; [destruct (op _) as [[] os]|]; simpl; lia.
Qed.

Lemma spec_run_at_most es s k : Builder.at_most k s -> Builder.at_most (k + length es) (Builder.spec_run es s).
Proof.
  revert s k. induction es as [|e es IH]; intros s k Hk; cbn [Builder.spec_run foldl length]; [by rewrite Nat.add_0_r|].
  rewrite Nat.add_succ_r, <- Nat.add_succ_l. apply IH. by apply Builder.at_most_step.
Qed.

(** ** The report is exact *)

Section Exact.
Context {B : Type} `{A : Builder.Admitting B}.

Lemma totals_ok (h : Builder.BookBuilder B) s (g : B -> Z) f : Builder.sim h s ->
  Z.of_nat (length (Builder.books h)) <= 65536 -> (forall b, Book.inv b -> g b = f (Book.orders b)) ->
  sum_z ((fun lb => g lb.2) <$> Builder.for_each (Builder.books h)) = spec_total f s.
Proof.
  intros Hs Hlen Hg. rewrite for_each_locates by done. unfold spec_total, over_locates. apply sum_z_ext. intros i _.
  rewrite <- (Builder.sim_books h s Hs). destruct (mjoin (Builder.books h !! i)) as [b|] eqn:E; cbn; [|done].
  apply Hg. by apply (Builder.sim_inv h s Hs i).
Qed.

Lemma books_ok (h : Builder.BookBuilder B) s : Builder.sim h s -> Builder.book_count (Builder.books h) = size (Builder.sp_books s).
Proof.
  intros Hs. rewrite (Builder.book_count_for_each 0), <- slot_map_size.
  assert (Builder.sp_books s = Book.orders <$> slot_map 0 (Builder.books h)) as ->; [|by rewrite map_size_fmap].
  apply map_eq. intros i. rewrite lookup_fmap, slot_map_lookup, decide_True, Nat.sub_0_r by lia.
  symmetry. apply (Builder.sim_books h s Hs).
Qed.

(** What a builder that followed the reference over [es] reports. *)
Lemma report_ok (h : Builder.BookBuilder B) es bytes :
  Builder.sim h (Builder.spec_run es Builder.spec_init) -> Z.of_nat (length (Builder.books h)) <= 65536 ->
  Z.of_nat (length es) < Book.max_orders ->
  report h bytes (length es) = Ok (spec_report bytes es (Builder.spec_run es Builder.spec_init)).
Proof.
  intros Hs Hlen Hn. set (s := Builder.spec_run es Builder.spec_init) in *.
  assert (Builder.at_most (length es) s) as Hmost.
  { apply (spec_run_at_most es Builder.spec_init 0). intros i os. cbn. by rewrite lookup_empty. }
  assert (forall f, (forall i os, Builder.sp_books s !! i = Some os -> 0 <= f os <= Z.of_nat (size os)) -> is_u64 (spec_total f s)) as Htot.
  { intros f Hf. pose proof (spec_total_bound f s (Z.of_nat (length es))) as Hb.
    unfold Book.max_orders in Hn. unfold is_u64. enough (0 <= spec_total f s <= Z.of_nat (length es) * 65536) by lia.
    apply Hb; [|lia]. intros i os Hi. specialize (Hf i os Hi). specialize (Hmost i os Hi). lia. }
  unfold report. rewrite tally_sum by (unfold is_u64; lia). rewrite !Z.add_0_l.
  rewrite (totals_ok h s (fun b => Z.of_nat (Book.open_orders b)) (fun os => Z.of_nat (size os)) Hs Hlen)
    by (intros b Hb; by rewrite Book.open_orders_law).
  rewrite (totals_ok h s _ (fun os => Z.of_nat (size (Book.prices true os))) Hs Hlen Book.bid_levels_law),
    (totals_ok h s _ (fun os => Z.of_nat (size (Book.prices false os))) Hs Hlen Book.ask_levels_law).
  assert (0 <= Builder.sp_rejected s <= Z.of_nat (length es)) as Hrej by apply (spec_run_rejected es Builder.spec_init).
  rewrite (types_loop_ok _ _ _ (of_type es)).
  - rewrite bind_Ok. unfold spec_report. rewrite (books_ok h s Hs), (Builder.sim_rejected h s Hs).
    rewrite !u64_id; [done| |apply Htot; intros; pose proof (Book.size_prices_le false os); lia
      |apply Htot; intros; pose proof (Book.size_prices_le true os); lia|apply Htot; intros; lia].
    unfold Book.max_orders in Hn. unfold is_u64. lia.
  - intros i Hi. rewrite <- (Nat2Z.id i) at 1. rewrite (Builder.sim_counts h s Hs) by (unfold is_u8; lia).
    unfold s. rewrite spec_run_counts. cbn [Builder.sp_counts Builder.spec_init]. rewrite Z.add_0_l, u64_id; [done|].
    unfold of_type, is_u64. pose proof (length_filter (fun e => Builder.event_type e = Z.of_nat i) es).
    unfold Book.max_orders in Hn. lia.
Qed.

Lemma replay_length es (h h' : Builder.BookBuilder B) : Forall Builder.ranged es ->
  foldl Wire.apply_event (Ok h) es = Ok h' -> Z.of_nat (length (Builder.books h)) <= 65536 ->
  Z.of_nat (length (Builder.books h')) <= 65536.
Proof.
  revert h. induction es as [|e es IH]; intros h Hr; cbn [foldl]; [by intros [= <-]|].
  apply Forall_cons_1 in Hr as [He Hr]. intros Hrun Hlen.
  destruct (Wire.apply_event (Ok h) e) as [h1| | |] eqn:E; [|by rewrite Builder.stuck in Hrun..].
  apply (IH h1 Hr Hrun). by apply (Builder.step_length e h h1).
Qed.

Lemma run_exact data : Wire.bytes data -> Forall Builder.good_event (Wire.events data) ->
  Z.of_nat (length (Wire.frames data)) < Book.max_orders ->
  run data (length data) = Ok (spec_report (Z.of_nat (length data)) (Wire.events data)
    (Builder.spec_run (Wire.events data) Builder.spec_init)).
Proof.
  intros Hb Hg Hn. destruct (Builder.parse_exact data Hb Hg Hn) as (h & Hrun & Hs & _).
  unfold run. rewrite Hrun, !bind_Ok.
  assert (length (Wire.frames data) = length (Wire.events data)) as Hlen by (unfold Wire.events; by rewrite length_fmap).
  rewrite Hlen in *. apply report_ok; [done| |done].
  rewrite Wire.parse_stream_frames, firstn_all in Hrun by done. injection Hrun as Hrun.
  apply (replay_length (Wire.events data) Builder.init); [by apply Builder.events_ranged|done|cbn; lia].
Qed.

End Exact.

Lemma selftest_bytes : Wire.bytes selftest_data.
Proof. apply (bool_decide_unpack _). vm_compute. exact I. Qed.

(** ** The program around the report *)

Section Program.
Context {B : Type} `{L : Book.BookLaws B}.

Lemma types_loop_returns n t counts : (t + n <= length counts)%nat -> exists l, types_loop n t counts = Ok l.
Proof.
  revert t. induction n as [|n IH]; intros t Ht; cbn [types_loop]; [by eexists|].
  destruct (rd_ok counts t ltac:(lia)) as (c & -> & _). rewrite bind_Ok.
  destruct (IH (S t) ltac:(lia)) as (l & ->). by eexists.
Qed.

Lemma run_returns data : Wire.bytes data -> Z.of_nat (length (Wire.frames data)) < Book.max_orders ->
  exists (h : Builder.BookBuilder B) r,
    Wire.parse_stream data (length data) (Ok Builder.init) = Ok (length (Wire.frames data), Ok h) /\
    report h (Z.of_nat (length data)) (length (Wire.frames data)) = Ok r /\ run data (length data) = Ok r.
Proof.
  intros Hb Hn. unfold run. rewrite Wire.parse_stream_frames, firstn_all by done.
  destruct (Builder.replay_total (Wire.events data) Builder.init Builder.spec_init 0 Builder.init_sim) as (h & s & Hrun & Hs & _).
  - by apply Builder.events_ranged.
  - intros i os. cbn. by rewrite lookup_empty.
  - unfold Wire.events. by rewrite length_fmap.
  - destruct (types_loop_returns 256 0 (Builder.counts h)) as (l & Hl); [by rewrite (Builder.sim_length h s Hs)|].
    exists h. rewrite Hrun, !bind_Ok. unfold report. destruct (foldl tally _ _) as [[o bl] al]. rewrite Hl, bind_Ok.
    by eexists.
Qed.

Lemma b_lift {A} w (o : outcome A) a E : o = Ok a -> balanced w (lift o) (fun a' l => a' = a /\ l = answers w) E.
Proof. by intros ->. Qed.

Lemma b_lift_then {A R} w (o : outcome A) a (f : A -> M R) Q E : o = Ok a -> balanced w (f a) Q E -> balanced w (lift o ≫= f) Q E.
Proof. by intros ->. Qed.

(** Success: exit code 0 and the report of [data]. *)
Definition reports (data : list Z) (r : Z * option Report) : Prop :=
  exists rep, run (B := B) data (length data) = Ok rep /\ r = (0, Some rep).

(** Contents a replay is proved for: bytes, and fewer messages than an order
    count can hold. *)
Definition replayable (data : list Z) : Prop :=
  Wire.bytes data /\ Z.of_nat (length (Wire.frames data)) < Book.max_orders.

Lemma b_run_mmap w bytes_at :
  (forall src, Handles.mapping w = Some src -> replayable (mapped bytes_at src) /\ length (mapped bytes_at src) = Z.to_nat (Handles.size_ src)) ->
  balanced w (run_mmap (B := B) bytes_at)
    (fun r _ => exists src, Handles.mapping w = Some src /\ reports (mapped bytes_at src) r) (fun _ => Handles.mapping w = None).
Proof.
  intros Hat. unfold run_mmap. eapply b_scope; [exact Handles.keeps_mmap_destroy|exact (Handles.p_mmap w)|]. intros src w1 _ [Hm _].
  destruct (Hat src Hm) as [Hd <-]. destruct (run_returns (mapped bytes_at src)) as (hb & rep & _ & _ & Hrun); [apply Hd..|].
  eapply b_bind; [by apply b_lift|]. intros r w2 [-> _]. apply b_ret. exists src. split; [done|]. by exists rep.
Qed.

Lemma b_run_gzip w chunk reads : Gzip.ended chunk reads -> replayable (Gzip.unzipped chunk reads).1 ->
  is_u64 (Z.of_nat (length (Gzip.unzipped chunk reads).1)) ->
  balanced w (run_gzip (B := B) chunk reads)
    (fun r _ => succeed 0 2 w = true /\ exists data, Gzip.contents chunk reads = Some data /\ reports data r)
    (fun _ => succeed 0 2 w = false \/ Gzip.contents chunk reads = None).
Proof.
  intros He Hd Hlen. pose proof (Gzip.run_contents chunk reads (Ok (Builder.init (B := B))) He (proj1 Hd)) as Hrun.
  change 2%nat with (1 + 1)%nat. rewrite succeed_app. unfold run_gzip.
  eapply b_scope; [exact Handles.keeps_gzip_destroy|eapply p_conseq; [exact (Handles.p_gzip w)|intros o w' HQ; exact HQ|intros ? ->; by left]|].
  intros o w1 _ [-> Hp]. cbn [andb].
  assert (succeed (0 + 1) 1 w = succeed 0 1 w1) as -> by (symmetry; exact (past_succeed 1 0 1 w w1 Hp)).
  destruct (Gzip.contents chunk reads) as [data|].
  - destruct Hrun as [-> Hrun]. set (data := (Gzip.unzipped chunk reads).1) in *.
    destruct (run_returns data) as (hb & rep & Hparse & Hrep & Hok); [apply Hd..|].
    rewrite Wire.parse_stream_frames, firstn_all in Hparse by (apply Hd || done). injection Hparse as Hparse.
    eapply (b_bind _ _ _ (fun a _ => succeed 0 1 w1 = true /\ a = (length (Wire.frames data), Z.of_nat (length data), Ok hb))).
    + apply Handles.b_gzip_run; [|by left]. intros Hs w2 _. unfold balanced, lift. rewrite Hrun.
      by rewrite Hparse, u64_id.
    + intros ? w2 [Hs ->]. eapply b_bind; [by apply b_lift|]. intros r w3 [-> _]. apply b_ret. split; [done|].
      exists data. split; [done|]. by exists rep.
  - destruct Hrun as [what Hrun]. eapply (b_bind _ _ _ (fun _ _ => False)); [|done].
    apply Handles.b_gzip_run; [|by left]. intros _ w2 _. unfold balanced, lift. rewrite Hrun. by split; [|right].
Qed.

(** An exception inside the [try] becomes exit code 1. *)
Lemma b_guarded {R} w (m : M (Z * option R)) Q E E' : balanced w m Q E ->
  balanced w (guarded m) (fun r l => Q r l \/ r = (1, None) /\ E l) E'.
Proof. intros Hm. unfold balanced, guarded in *. destruct (m w) as [[r|e| |] w']; try done; destruct Hm; auto. Qed.

(** ** What a command line comes to *)

(** The bytes of a mapped file: [open], [fstat] and (for a file that is not
    empty) [mmap] have to succeed. *)
Definition file_shown (bytes_at : nat -> Z -> list Z) (w : world) : option (list Z) :=
  match answer 0 w, answer 1 w with
  | Some _, Some st_size =>
    if u64 st_size =? 0 then Some []
    else if answer 2 w is Some _ then Some (bytes_at (Handles.mapped_at w) (u64 st_size)) else None
  | _, _ => None
  end.

Lemma file_shown_mapped bytes_at w : file_shown bytes_at w = mapped bytes_at <$> Handles.mapping w.
Proof.
  unfold file_shown, Handles.mapping. destruct (answer 0 w), (answer 1 w) as [st|]; try done.
  destruct (u64 st =? 0); [done|]. by destruct (answer 2 w).
Qed.

(** The exit code, and the bytes that are replayed and reported on, if any. *)
Definition comes_to (bytes_at : nat -> Z -> list Z) (f : stream_file) (chunk : nat) (reads : list Gzip.fread_result) (w : world)
    (act : Args.action) : Z * option (list Z) :=
  match act with
  | Args.Selftest => (0, Some selftest_data)
  | Args.Usage => (2, None)
  | Args.Legacy _ =>
    if opens f && (u64 (tellg f) <=? Z.of_nat (length (content f))) then (0, Some (take (Z.to_nat (u64 (tellg f))) (content f)))
    else (1, None)
  | Args.Gzip _ =>
    if succeed 0 2 w then match Gzip.contents chunk reads with Some data => (0, Some data) | None => (1, None) end
    else (1, None)
  | Args.Mapped _ => match file_shown bytes_at w with Some data => (0, Some data) | None => (1, None) end
  end.

(** What is asked of the files: replayable bytes (those of a mapping as many
    as [fstat] says), readings of a .gz file down to their end, and a size
    given by a stream that a vector can have. *)
Definition readable (bytes_at : nat -> Z -> list Z) (room : Z) (f : stream_file) (chunk : nat) (reads : list Gzip.fread_result) (w : world)
    (act : Args.action) : Prop :=
  match act with
  | Args.Mapped _ => forall st_size, answer 1 w = Some st_size ->
      replayable (bytes_at (Handles.mapped_at w) (u64 st_size)) /\ Z.of_nat (length (bytes_at (Handles.mapped_at w) (u64 st_size))) = u64 st_size
  | Args.Gzip _ => Gzip.ended chunk reads /\ replayable (Gzip.unzipped chunk reads).1 /\ is_u64 (Z.of_nat (length (Gzip.unzipped chunk reads).1))
  | Args.Legacy _ => u64 (tellg f) <= room /\ replayable (take (Z.to_nat (u64 (tellg f))) (content f))
  | _ => True
  end.

Lemma readable_mapping bytes_at room f chunk reads w path src : readable bytes_at room f chunk reads w (Args.Mapped path) ->
  Handles.mapping w = Some src -> replayable (mapped bytes_at src) /\ length (mapped bytes_at src) = Z.to_nat (Handles.size_ src).
Proof.
  cbn [readable]. unfold Handles.mapping. intros Hr. destruct (answer 0 w); [|done]. destruct (answer 1 w) as [st|]; [|done].
  destruct (Hr st eq_refl) as [Hd Hl]. destruct (u64 st =? 0).
  - intros [= <-]. split; [|done]. split; [apply Forall_nil_2|done].
  - destruct (answer 2 w); [|done]. intros [= <-]. unfold mapped. cbn. split; [done|lia].
Qed.

(** The result a run should have: [good] is what it prints of the bytes. *)
Definition as_expected {R} (good : list Z -> R -> Prop) (expected : Z * option (list Z)) (r : Z * option R) : Prop :=
  r.1 = expected.1 /\ match expected.2, r.2 with
                      | Some data, Some printed => good data printed
                      | None, None => True
                      | _, _ => False
                      end.

Lemma legacy_taken f : 0 <= u64 (tellg f) <= Z.of_nat (length (content f)) ->
  Z.to_nat (u64 (tellg f)) = length (take (Z.to_nat (u64 (tellg f))) (content f)).
Proof. rewrite length_take. lia. Qed.

Lemma b_dispatch w bytes_at room f chunk reads act : readable bytes_at room f chunk reads w act ->
  balanced w (dispatch (B := B) bytes_at room f chunk reads act)
    (fun r _ => as_expected (fun data rep => run (B := B) data (length data) = Ok rep) (comes_to bytes_at f chunk reads w act) r) (fun _ => False).
Proof.
  intros Hr. destruct act as [|path|path|path|]; cbn [dispatch comes_to].
  - destruct (run_returns selftest_data) as (hb & rep & _ & _ & Hrun); [exact selftest_bytes|vm_compute; reflexivity|].
    unfold selftest. eapply b_bind; [by apply b_lift|]. intros r w1 [-> _]. apply b_ret. split; [done|exact Hrun].
  - destruct Hr as [Hroom Hd]. unfold run_legacy. destruct (opens f); cbn [negb andb]; [|by apply b_ret].
    cbv zeta. rewrite (proj2 (Z.ltb_ge _ _)) by done. pose proof (u64_range (tellg f)) as Hu. unfold is_u64 in Hu.
    rewrite Z.leb_antisym. destruct (Z.ltb_spec (Z.of_nat (length (content f))) (u64 (tellg f))) as [Hlt|Hge]; cbn [negb]; [by apply b_ret|].
    destruct (run_returns _ (proj1 Hd) (proj2 Hd)) as (hb & rep & _ & _ & Hrun).
    rewrite (legacy_taken f) at 2 by lia. eapply b_bind; [by apply b_lift|]. intros r w1 [-> _]. apply b_ret. split; [done|exact Hrun].
  - destruct Hr as (He & Hd & Hlen). eapply b_conseq; [eapply (b_guarded _ _ _ _ (fun _ => False)), b_run_gzip; done| |done]. intros r l.
    intros [(-> & data & -> & rep & Hrun & ->)|[-> [->| ->]]]; [done|done|by destruct (succeed 0 2 w)].
  - eapply b_conseq; [eapply (b_guarded _ _ _ _ (fun _ => False)), b_run_mmap; intros src; by eapply readable_mapping| |done]. intros r l.
    rewrite file_shown_mapped. intros [(src & -> & rep & Hrun & ->)|[-> ->]]; done.
  - by apply b_ret.
Qed.

End Program.

(** ** Properties *)

(** What the built-in session leaves: nine frames, two books, two orders. *)
Definition selftest_report : Report :=
  mkReport (Z.of_nat (length selftest_data)) 9 2 2 1 1 0 [(65, 4); (68, 1); (69, 1); (83, 1); (85, 1); (88, 1)].

Example selftest_prints :
  run (B := OrderBook.OrderBook) selftest_data (length selftest_data) = Ok selftest_report /\
  run (B := LadderBook.LadderBook) selftest_data (length selftest_data) = Ok selftest_report.
Proof. split; vm_compute; reflexivity. Qed.

(** C11: what the replay program prints is right: over any input, with the
    map-based book, the byte and frame counts, the number of books, the totals
    of open orders and of price levels on each side, the rejected messages and
    the per-type line are exactly those of the reference replay, no counter of
    the report having wrapped; on realistic prices the flat-ladder book prints
    the same report, and the counts of the per-type line add up to the number of
    frames. *)
Theorem report_exact (data : list Z) (Hb : Wire.bytes data)
  (Hn : Z.of_nat (length (Wire.frames data)) < Book.max_orders) :
  let es := Wire.events data in
  let r := spec_report (Z.of_nat (length data)) es (Builder.spec_run es Builder.spec_init) in
  run (B := OrderBook.OrderBook) data (length data) = Ok r /\
  (Forall Builder.realistic_event es -> run (B := LadderBook.LadderBook) data (length data) = Ok r) /\
  sum_z (snd <$> r_types r) = Z.of_nat (r_frames r).
Proof.
  cbv zeta. split_and!.
  - apply run_exact; [done| |done]. apply Forall_true. intros e. unfold Builder.good_event. by destruct (Builder.event_price e).
  - intros Hr. by apply run_exact.
  - apply types_sum.
Qed.

Lemma report_exact_witness :
  run (B := LadderBook.LadderBook) selftest_data (length selftest_data) =
    Ok (spec_report (Z.of_nat (length selftest_data)) (Wire.events selftest_data)
      (Builder.spec_run (Wire.events selftest_data) Builder.spec_init)).
Proof.
  apply (report_exact selftest_data selftest_bytes).
  - vm_compute. reflexivity.
  - apply (bool_decide_unpack _). vm_compute. exact I.
Defined.

(** The report of [data] with either book: [run]'s, which is the reference
    one ([report_exact]). *)
Definition reported (use_map : bool) (data : list Z) (rep : Report) : Prop :=
  (if use_map then run (B := OrderBook.OrderBook) data (length data) = Ok rep
   else run (B := LadderBook.LadderBook) data (length data) = Ok rep) /\
  (use_map = true \/ Forall Builder.realistic_event (Wire.events data) ->
   rep = spec_report (Z.of_nat (length data)) (Wire.events data) (Builder.spec_run (Wire.events data) Builder.spec_init)).

Lemma reported_exact (use_map : bool) data rep : replayable data ->
  (if use_map then run (B := OrderBook.OrderBook) data (length data) = Ok rep
   else run (B := LadderBook.LadderBook) data (length data) = Ok rep) -> reported use_map data rep.
Proof.
  intros [Hb Hn] Hrun. split; [done|]. intros Hr. destruct use_map.
  - rewrite run_exact in Hrun; [by injection Hrun|done| |done].
    apply Forall_true. intros e. unfold Builder.good_event. by destruct (Builder.event_price e).
  - destruct Hr as [|Hr]; [done|]. rewrite run_exact in Hrun; [by injection Hrun|done..].
Qed.

Lemma comes_to_replayable bytes_at room f chunk reads w act : readable bytes_at room f chunk reads w act ->
  match (comes_to bytes_at f chunk reads w act).2 with Some data => replayable data | None => True end.
Proof.
  destruct act as [|path|path|path|]; cbn [comes_to].
  - intros _. split; [exact selftest_bytes|vm_compute; reflexivity].
  - intros [_ Hd]. by destruct (opens f && _).
  - intros (_ & Hd & _). destruct (succeed 0 2 w); [|done]. revert Hd. unfold Gzip.contents.
    destruct (Gzip.unzipped chunk reads) as [data [[]|e| |]]; try done. by case_decide.
  - intros Hr. rewrite file_shown_mapped. destruct (Handles.mapping w) as [src|] eqn:E; [|done]. cbn.
    by apply (readable_mapping _ room f chunk reads w path src Hr E).
  - done.
Qed.

(** C30: what the replay program does is decided by its command line, the calls
    that fail and the file: exit code 2 for a command line it does not
    understand; 1 if a call it needs fails (open, fstat, mmap; fopen, inflateInit2;
    an [ifstream]), if a compressed file has a read error, is corrupt or
    truncated or ends inside a message, or if --legacy cannot read as many bytes
    as it was told; and otherwise 0 with the report of exactly the bytes of the
    file named (or of the built-in session; files of fewer than 2^32 messages
    are considered), the reference report with the map-based book, and with the
    other book on realistic prices.  No exception
    leaves [main], and every descriptor, mapping, stream and zlib state has been
    given back exactly once.  (--legacy is taken for sizes a vector can have:
    [legacy_exception_escapes] is about the others.) *)
Theorem replay_program_exact (bytes_at : nat -> Z -> list Z) (room : Z) (f : stream_file) (chunk : nat)
  (reads : list Gzip.fread_result) (argv : list string) (use_map : bool) (act : Args.action) (w : world)
  (Hargs : Args.replay_main argv = Ok (use_map, act)) (Hact : readable bytes_at room f chunk reads w act) :
  exists r w', main bytes_at room f chunk reads argv w = (Ok r, w') /\ held w' = held w /\
    as_expected (reported use_map) (comes_to bytes_at f chunk reads w act) r.
Proof.
  pose proof (comes_to_replayable bytes_at room f chunk reads w act Hact) as Hd.
  unfold main, mbind, M_bind, lift. rewrite Hargs. destruct use_map.
  all: match goal with |- context [dispatch (B := ?b)] =>
    pose proof (b_dispatch (B := b) w bytes_at room f chunk reads act Hact) as H end.
  all: unfold balanced in H; destruct (dispatch _ _ _ _ _ _ w) as [[r| | |] w']; [|by destruct H..]; destruct H as (Hh & Hc & Hr).
  all: exists r, w'; do 2 (split; [done|]); split; [done|]; destruct (comes_to _ _ _ _ _ _).2, r.2; try done; by apply reported_exact.
Qed.

(** A mapping that shows zeros is no frame at all. *)
Lemma zeros_no_frames n : Wire.frames (replicate n 0) = [].
Proof. destruct (Wire.frames_stop (replicate n 0)) as [-> _]; [|done]. by destruct n as [|[|n]]. Qed.

Lemma zeros_replayable n : replayable (replicate n 0).
Proof. split; [apply Forall_replicate; unfold is_u8; lia|by rewrite zeros_no_frames]. Qed.

Definition no_file : stream_file := mkStream false (-1) [].

(** The built-in session as a mapped file: the descriptor is 0, the mapping 1,
    and other mappings show other bytes.  The same when [mmap] fails; and a
    compressed file whose second chunk is corrupt. *)
Definition shows_selftest (p : nat) (n : Z) : list Z := if (p =? 1)%nat then selftest_data else replicate (Z.to_nat n) 0.

Definition corrupt_reads : list Gzip.fread_result :=
  [Gzip.Data [Gzip.mkCall [0; 1; 65] Gzip.Z_OK]; Gzip.Data [Gzip.mkCall [] Gzip.Z_DATA_ERROR]].

Lemma replay_program_exact_witness :
  (exists w', main shows_selftest 0 no_file 0 [] ["replay"; "day.itch"; "--map"] (mkWorld ∅ [Some 0; Some 282; Some 0]) =
     (Ok (0, Some selftest_report), w') /\ held w' = ∅) /\
  (exists w', main shows_selftest 0 no_file 0 [] ["replay"; "day.itch"] (mkWorld ∅ [Some 0; Some 282; None]) = (Ok (1, None), w')) /\
  (exists w', main shows_selftest 0 no_file 8 corrupt_reads ["replay"; "day.gz"] (mkWorld ∅ []) = (Ok (1, None), w')).
Proof.
  assert (replayable selftest_data) as Hself by (split; [exact selftest_bytes|vm_compute; reflexivity]).
  split; [|split].
  - destruct (replay_program_exact shows_selftest 0 no_file 0 [] ["replay"; "day.itch"; "--map"] true (Args.Mapped "day.itch")
      (mkWorld ∅ [Some 0; Some 282; Some 0])) as ([c rep] & w' & H1 & H2 & H3 & H4); [reflexivity| |].
    + intros st [= <-]. split; [exact Hself|reflexivity].
    + cbn in H3, H4. subst c. destruct rep as [rep|]; [|destruct H4].
      exists w'. split; [|exact H2]. rewrite H1. destruct H4 as [H4 _]. vm_compute in H4. injection H4 as <-. vm_compute. reflexivity.
  - destruct (replay_program_exact shows_selftest 0 no_file 0 [] ["replay"; "day.itch"] false (Args.Mapped "day.itch")
      (mkWorld ∅ [Some 0; Some 282; None])) as ([c rep] & w' & H1 & _ & H3 & H4); [reflexivity| |].
    + intros st [= <-]. split; [exact Hself|reflexivity].
    + cbn in H3, H4. subst c. destruct rep; [destruct H4|]. exists w'. exact H1.
  - destruct (replay_program_exact shows_selftest 0 no_file 8 corrupt_reads ["replay"; "day.gz"] false (Args.Gzip "day.gz")
      (mkWorld ∅ [])) as ([c rep] & w' & H1 & _ & H3 & H4); [reflexivity| |].
    + split; [exact I|]. split; [|vm_compute; split; [discriminate|reflexivity]].
      split; [apply (bool_decide_unpack _); vm_compute; exact I|vm_compute; reflexivity].
    + cbn in H3, H4. subst c. destruct rep; [destruct H4|]. exists w'. exact H1.
Defined.

(** With --legacy the same failures are not contained: when the size the
    stream reports is more than a vector can be built for, in particular the -1
    of a stream that cannot tell its position, which becomes 2^64 - 1, the
    exception of the vector's constructor leaves [main]. *)
Theorem legacy_exception_escapes (bytes_at : nat -> Z -> list Z) (room : Z) (f : stream_file) (chunk : nat)
  (reads : list Gzip.fread_result) (argv : list string) (use_map : bool) (path : string) (w : world)
  (Hargs : Args.replay_main argv = Ok (use_map, Args.Legacy path))
  (Hopen : opens f = true) (Hroom : room < u64 (tellg f)) :
  main bytes_at room f chunk reads argv w = (Throw "std::bad_alloc", w).
Proof.
  unfold main, mbind, M_bind, lift. rewrite Hargs.
  destruct use_map; unfold dispatch, run_legacy; rewrite Hopen, (proj2 (Z.ltb_lt _ _) Hroom); reflexivity.
Qed.

Lemma legacy_exception_escapes_witness :
  main (fun _ _ => []) 9223372036854775807 (mkStream true (-1) []) 0 [] ["replay"; "--legacy"; "fifo"] (mkWorld ∅ []) =
    (Throw "std::bad_alloc", mkWorld ∅ []).
Proof. apply (legacy_exception_escapes _ _ _ _ _ _ false "fifo"); reflexivity. Defined.

End Replay.
