(* ===== verification/Corpus.v ===== *)
(** * Corpus: the parser's fuzz target and the seeds of its corpus

    Models fuzz/fuzz_parser.cpp (replaying arbitrary bytes into the default
    book) and fuzz/generate_corpus.cpp (the four seed files).  Printing is left
    out; a program is a computation of [Os]. *)

From S2P Require Import Prelude Wire Encode Book LadderBook Builder Os Replay.
Import Os.

Module Corpus.

(** ** The fuzz target *)

(** [LLVMFuzzerTestOneInput] *)
Definition test_one_input (data : list Z) (size : nat) : outcome Z :=
  '(_, h) ← Wire.parse_stream data size (Ok (Builder.init (B := LadderBook.LadderBook)));
  h ← h;
  Ok 0.

(** ** The seeds *)

(** String literals as the bytes of their characters. *)
Definition AAPL : list Z := [65; 65; 80; 76].
Definition MSFT : list Z := [77; 83; 70; 84].
Definition TSLA : list Z := [84; 83; 76; 65].
Definition IBM : list Z := [73; 66; 77].
Definition NITE : list Z := [78; 73; 84; 69].
Definition DUP : list Z := [68; 85; 80].

Definition selftest_stream : list Z :=
  Encode.stream
    [Encode.header [] 83 0 1 ++ [79];
     Encode.add_order 1 100 1001 Wire.Buy 300 AAPL 1500000;
     Encode.add_order 1 110 1002 Wire.Buy 200 AAPL 1499900;
     Encode.add_order 1 120 2001 Wire.Sell 500 AAPL 1500100;
     Encode.add_order 2 130 3001 Wire.Buy 1000 MSFT 4200000;
     Encode.executed 1 140 1001 300 90001;
     Encode.cancel 1 150 2001 100;
     Encode.replace 2 160 3001 3002 800 4199500;
     Encode.del 1 170 1002].

(** The four bytes of attribution after the message, padded with spaces. *)
Definition push_mpid (m : Encode.Msg) (mpid : list Z) : Encode.Msg :=
  foldl (fun m i => m ++ [match mpid !! i with Some c => u8 c | None => 32 end]) m (seq 0 4).

Definition add_order_attributed (locate ts ref : Z) (side : Wire.Side) (shares : Z) (stock : list Z) (price : Z)
    (mpid : list Z) : outcome Encode.Msg :=
  m ← wr (Encode.add_order locate ts ref side shares stock price) 0 Wire.chF;
  Ok (push_mpid m mpid).

Definition mixed_types_stream : outcome (list Z) :=
  let halt := Encode.header [] 72 9 500 ++ replicate 24 0 in
  attributed ← add_order_attributed 4 20 5002 Wire.Sell 150 TSLA 900500 NITE;
  Ok (Encode.stream
    [Encode.add_order 4 10 5001 Wire.Buy 100 TSLA 900000;
     attributed;
     Encode.executed_price 4 30 5001 40 900001 true 899900;
     halt;
     Encode.cancel 9 40 5002 50;
     Encode.add_order 9 50 6001 Wire.Buy 75 MSFT 4100000;
     Encode.replace 9 60 6001 6002 60 4100500;
     Encode.del 4 70 5002]).

Definition replace_chain_stream : list Z :=
  Encode.stream
    [Encode.add_order 1 10 100 Wire.Buy 1000 IBM 1400000;
     Encode.replace 1 20 100 101 900 1400100;
     Encode.replace 1 30 101 102 800 1400200;
     Encode.replace 1 40 102 103 700 1400300;
     Encode.del 1 50 100;
     Encode.cancel 1 60 101 50;
     Encode.executed 1 70 103 200 77001;
     Encode.del 1 80 103].

Definition boundary_values_stream : list Z :=
  Encode.stream
    [Encode.add_order 0 0 1 Wire.Buy 0 [65] 0;
     Encode.add_order 65535 281474976710655 18446744073709551615 Wire.Sell 4294967295 (replicate 8 90) 4294967295;
     Encode.add_order 1 1 42 Wire.Buy 10 DUP 100;
     Encode.add_order 1 2 42 Wire.Sell 20 DUP 200;
     Encode.executed 65535 3 18446744073709551615 4294967295 0].

(** [None]: the file cannot be opened, and [exit(1)] ends the program. *)
Definition write_file (path : string) (buf : list Z) : M (option (string * list Z)) :=
  f ← acquire KFile 0;
  match f with
  | None => mret None
  | Some f => release KFile f 0;; mret (Some (path, buf))
  end.

Fixpoint write_files (files : list (string * list Z)) : M (Z * list (string * list Z)) :=
  match files with
  | [] => mret (0, [])
  | (path, buf) :: files =>
    written ← write_file path buf;
    match written with
    | None => mret (1, [])
    | Some file => '(code, more) ← write_files files; mret (code, file :: more)
    end
  end.

(** The exit code and the files written. *)
Definition main : M (Z * list (string * list Z)) :=
  mixed ← Replay.lift mixed_types_stream;
  write_files [("fuzz/corpus/selftest.bin"%string, selftest_stream); ("fuzz/corpus/mixed_types.bin"%string, mixed);
    ("fuzz/corpus/replace_chain.bin"%string, replace_chain_stream);
    ("fuzz/corpus/boundary_values.bin"%string, boundary_values_stream)].

(** ** Proofs *)

(** The fuzz target returns 0 on every input it can be given. *)
Lemma test_one_input_clean data : Wire.bytes data -> Z.of_nat (length (Wire.frames data)) < Book.max_orders ->
  test_one_input data (length data) = Ok 0.
Proof.
  intros Hb Hn. unfold test_one_input.
  destruct (Replay.run_returns (B := LadderBook.LadderBook) data Hb Hn) as (h & _ & Hparse & _). by rewrite Hparse, !bind_Ok.
Qed.

(** Reading a field does not see what is appended after it. *)
Lemma field_app f s off n : (off + n <= length f)%nat -> Wire.field (f ++ s) off n = Wire.field f off n.
Proof. intros H. unfold Wire.field. rewrite drop_app_le, take_app_le; [done|rewrite length_drop; lia|lia]. Qed.

Lemma push_mpid_app m mpid : exists s, push_mpid m mpid = m ++ s /\ length s = 4%nat.
Proof. unfold push_mpid. cbn [foldl seq]. eexists. rewrite <- !app_assoc. by split. Qed.

(** The same frame but for its type byte and what follows its 36 bytes. *)
Lemma attributed_frame m s : length m = 36%nat -> length s = 4%nat -> Wire.byte_at m 0 = Wire.chA ->
  Wire.frame_event (<[0%nat := Wire.chF]> m ++ s) = Wire.frame_event m.
Proof.
  destruct m as [|c m]; [done|]. cbn [length]. intros Hm Hs Hc. cbn in Hc. subst c. change (<[0%nat := Wire.chF]> (Wire.chA :: m)) with (Wire.chF :: m).
  assert (forall f off n c, (S off + n <= S (length f))%nat -> Wire.field (c :: f ++ s) (S off) n = Wire.field (Wire.chA :: f) (S off) n) as Hf.
  { intros f off n c H. apply (field_app f s off n). lia. }
  unfold Wire.frame_event, Wire.frame_header, Wire.stock_at. cbn [app].
  rewrite !Hf by lia. change (Wire.byte_at (Wire.chA :: m) 0) with Wire.chA. change (Wire.byte_at (Wire.chF :: m ++ s) 0) with Wire.chF.
  assert (length (Wire.chF :: m ++ s) = 40%nat) as -> by (cbn [length]; rewrite length_app; lia).
  assert (length (Wire.chA :: m) = 36%nat) as -> by (cbn [length]; lia).
  assert (Wire.byte_at (Wire.chF :: m ++ s) 19 = Wire.byte_at (Wire.chA :: m) 19) as ->.
  { unfold Wire.byte_at. f_equal. apply (lookup_app_l m s 18). lia. }
  assert (take 8 (drop 24 (Wire.chF :: m ++ s)) = take 8 (drop 24 (Wire.chA :: m))) as ->.
  { change (take 8 (drop 23 (m ++ s)) = take 8 (drop 23 m)). rewrite drop_app_le, take_app_le; [done|rewrite length_drop; lia|lia]. }
  reflexivity.
Qed.

(** An attributed add is decoded as the add it extends: the attribution is
    never looked at. *)
Theorem attribution_ignored (a : Wire.AddOrder) (mpid : list Z) (Ha : Encode.wf_event (Wire.EAdd a)) :
  exists m, add_order_attributed (Wire.locate (Wire.add_hdr a)) (Wire.timestamp (Wire.add_hdr a)) (Wire.add_ref a)
      (Wire.add_side a) (Wire.add_shares a) (Encode.c_str (Wire.add_stock a)) (Wire.add_price a) mpid = Ok m /\
    length m = 40%nat /\ Wire.frame_event m = Wire.EAdd a.
Proof.
  unfold add_order_attributed. pose proof (Encode.encode_event_frame _ Ha) as Hdec. cbn [Encode.encode_event] in Hdec.
  set (base := Encode.add_order _ _ _ _ _ _ _) in *.
  assert (length base = 36%nat /\ Wire.byte_at base 0 = Wire.chA) as [Hl Hc].
  { unfold base, Encode.add_order. rewrite Encode.header_nf. unfold Encode.be32, Encode.be64.
    rewrite !Encode.stock8_app, !Encode.push_be_app, !length_app, !Encode.length_be_bytes. split; [done|].
    by rewrite <- !app_assoc. }
  unfold wr. rewrite decide_True by lia. rewrite bind_Ok. destruct (push_mpid_app (<[0%nat := Wire.chF]> (base : list Z)) mpid) as (s & -> & Hs).
  eexists. split; [reflexivity|]. split; [rewrite length_app, length_insert; lia|]. by rewrite attributed_frame.
Qed.

(** What the seeds hold, and how many messages the books refuse: the mixed
    seed has an undecoded type but, against its comment, no plain execution. *)
Example seeds :
  (fun d => (Builder.event_type <$> Wire.events d)) <$> mixed_types_stream = Ok [65; 65; 67; 72; 88; 65; 85; 68] /\
  selftest_stream = Replay.selftest_data /\ length (Wire.events replace_chain_stream) = 8%nat /\
  length (Wire.events boundary_values_stream) = 5%nat.
Proof. vm_compute. auto. Qed.

(** Where every file can be opened the program writes its four seeds. *)
Example seeds_written :
  match main (mkWorld ∅ []) with
  | (Ok (code, files), w) => (code, (fun f => length f.2) <$> files, held w) = (0, [282; 276; 249; 185]%nat, ∅)
  | _ => False
  end.
Proof. vm_compute. reflexivity. Qed.

End Corpus.
