(* ===== verification/ReplayQuery.v ===== *)
(** * ReplayQuery: the replay program that serves queries

    Models src/replay_query_main.cpp around [Publish] and [Query]: the options
    and their conversion to numbers, the replay with the server up around it
    ([run], [run_gzip]), the report, the wait for the end of the service, and
    [main] with what it catches.  As in [Replay] a program is a computation of
    [Os]; its result is the exit code and what was printed, elapsed times
    aside.  The server's threads are in [Server]; here it is its listening
    socket.  The readings of the flag that the SIGINT handler sets are an
    input. *)

From S2P Require Import Prelude Wire Encode Book OrderBook LadderBook Builder Gzip Snapshot Publish Query Conv Os Handles Args Replay.
Import Os.

Module ReplayQuery.

(** ** Options *)

Record Options := mkOptions {
  port : Z; publish_every : Z; pace : Z; serve_seconds : Z; use_map : bool }.

(** The options of a command line: the defaults, and what was given. *)
Definition options (o : Args.Options) : outcome Options :=
  port ← (match Args.port o with Some v => v ← Conv.atoi v; Ok (u16 v) | None => Ok 12401 end);
  Ok (mkOptions port
        (match Args.publish_every o with Some v => Conv.strtoull v | None => 2000 end)
        (match Args.pace_us o with Some v => Conv.strtoll v | None => 0 end)
        (match Args.serve_seconds o with Some v => Conv.strtoull v | None => 0 end)
        (Args.use_map o)).

(** ** Serving after the replay *)

Section Serve.
(** Is [g_stop] set at its [i]-th reading? *)
Variable stops : nat -> bool.

(** [while (g_stop == 0) sleep], from the [i]-th reading on: how often it
    sleeps. *)
Fixpoint serve_forever (fuel i : nat) : outcome nat :=
  match fuel with
  | O => NoFuel
  | S fuel => if stops i then Ok i else serve_forever fuel (S i)
  end.

(** [for (i = 0; i < n && g_stop == 0; ++i) sleep] *)
Fixpoint serve_for (fuel i : nat) (n : Z) : outcome nat :=
  match fuel with
  | O => NoFuel
  | S fuel => if negb (Z.of_nat i <? n) then Ok i else if stops i then Ok i else serve_for fuel (S i) n
  end.

(** [serve]: the port it announces, and its sleeps. *)
Definition serve (fuel : nat) (opt : Options) : outcome (Z * nat) :=
  sleeps ← (if serve_seconds opt =? 0 then serve_forever fuel 0 else serve_for fuel 0 (serve_seconds opt));
  Ok (port opt, sleeps).

End Serve.

(** ** The replay *)

Record Output := mkOutput {
  o_bytes : Z; o_frames : nat; o_books : nat; o_open_orders : Z;
  o_version : Z; o_unknown : Z; o_port : Z; o_sleeps : nat }.

Section Program.
Context {B : Type} `{Book.BookOps B}.
Variables (stops : nat -> bool) (patience : nat).

(** The lambda passed to [for_each]. *)
Definition add_orders (n : Z) (lb : Z * B) : Z := u64 (n + Z.of_nat (Book.open_orders lb.2)).

(** What [run] and [run_gzip] do after the final publish: [report], [serve]. *)
Definition finish (opt : Options) (bytes : Z) (frames : nat) (h : Publish.PublishingHandler B) : outcome Output :=
  let open_orders := foldl add_orders 0 (Builder.for_each (Builder.books (Publish.inner h))) in
  '(port, sleeps) ← serve stops patience opt;
  Ok (mkOutput bytes frames (Builder.book_count (Builder.books (Publish.inner h))) open_orders
        (Snapshot.version (Publish.store h)) (Builder.unknown_refs (Publish.inner h)) port sleeps).

(** What happens while the server of [run] is up. *)
Definition session (opt : Options) (data : list Z) (len : nat) : outcome Output :=
  '(frames, h) ← Publish.run (publish_every opt) data len;
  finish opt (Z.of_nat len) frames h.

(** [QueryServer server; ...; server.stop();] and the end of its scope: its
    destructor finds it stopped, unless the block throws. *)
Definition serving {A} (block : M A) : M A :=
  server ← Handles.query_make;
  a ← on_throw block (Handles.query_destroy server);
  server ← Handles.query_stop server;
  Handles.query_destroy server;;
  mret a.

Definition run (opt : Options) (data : list Z) (len : nat) : M (Z * option Output) :=
  serving (out ← Replay.lift (session opt data len); mret (0, Some out)).

Variable bytes_at : nat -> Z -> list Z.

Definition run_mmap (opt : Options) : M (Z * option Output) :=
  scope (T := Handles.MmapSource) (fun src => run opt (Replay.mapped bytes_at src) (Z.to_nat (Handles.size_ src))).

Definition run_gzip (chunk : nat) (reads : list Gzip.fread_result) (opt : Options) : M (Z * option Output) :=
  scope (T := Handles.GzipSource) (fun _ => serving (
    '(frames, bytes, h) ← Handles.gzip_run (Replay.lift (Gzip.run chunk reads (Ok (Publish.start (publish_every opt)))));
    out ← Replay.lift (h ← h; h ← Publish.publish_now h; finish opt bytes frames h);
    mret (0, Some out))).

Variable room : Z.

Definition run_legacy (f : Replay.stream_file) (opt : Options) : M (Z * option Output) :=
  if negb (Replay.opens f) then mret (1, None)
  else
    let size := u64 (Replay.tellg f) in
    if room <? size then throw "std::bad_alloc"
    else if Z.of_nat (length (Replay.content f)) <? size then mret (1, None)
    else run opt (take (Z.to_nat size) (Replay.content f)) (Z.to_nat size).

(** The same session as the other programs'. *)
Definition selftest (opt : Options) : M (Z * option Output) :=
  run opt Replay.selftest_data (length Replay.selftest_data).

(** The body of [main]'s [try]. *)
Definition choose (f : Replay.stream_file) (chunk : nat) (reads : list Gzip.fread_result) (opt : Options) (act : Args.action)
  : M (Z * option Output) :=
  match act with
  | Args.Selftest => selftest opt
  | Args.Legacy _ => run_legacy f opt
  | Args.Usage => mret (2, None)
  | Args.Gzip _ => run_gzip chunk reads opt
  | Args.Mapped _ => run_mmap opt
  end.

End Program.

Definition main (stops : nat -> bool) (patience : nat) (bytes_at : nat -> Z -> list Z) (room : Z) (f : Replay.stream_file)
    (chunk : nat) (reads : list Gzip.fread_result) (argv : list string) : M (Z * option Output) :=
  '(o, act) ← Replay.lift (Args.query_main argv);
  opt ← Replay.lift (options o);
  Replay.guarded (
    if use_map opt then choose (B := OrderBook.OrderBook) stops patience bytes_at room f chunk reads opt act
    else choose (B := LadderBook.LadderBook) stops patience bytes_at room f chunk reads opt act).

(** ** The options are in range *)

(** Options a program can run with. *)
Record wf_options (opt : Options) : Prop := {
  wo_port : is_u16 (port opt); wo_every : is_u64 (publish_every opt); wo_serve : is_u64 (serve_seconds opt) }.

Lemma options_ok o opt : options o = Ok opt -> wf_options opt /\ use_map opt = Args.use_map o.
Proof.
  unfold options. intros Ho.
  assert (exists p, is_u16 p /\ opt = mkOptions p
        (match Args.publish_every o with Some v => Conv.strtoull v | None => 2000 end)
        (match Args.pace_us o with Some v => Conv.strtoll v | None => 0 end)
        (match Args.serve_seconds o with Some v => Conv.strtoull v | None => 0 end) (Args.use_map o)) as (p & Hp & ->).
  { destruct (Args.port o) as [v|]; [destruct (Conv.atoi v) as [n| | |]|]; try discriminate Ho;
      injection Ho as <-; eexists; (split; [|reflexivity]); [apply u16_range|unfold is_u16; lia]. }
  split; [|done]. constructor; cbn; [done| |].
  - destruct (Args.publish_every o); [apply Conv.strtoull_range|unfold is_u64; lia].
  - destruct (Args.serve_seconds o); [apply Conv.strtoull_range|unfold is_u64; lia].
Qed.

(** ** The wait *)

(** The flag is first found set at its [k]-th reading. *)
Definition interrupted (stops : nat -> bool) (k : nat) : Prop :=
  stops k = true /\ forall j, (j < k)%nat -> stops j = false.

(** How often [serve] sleeps. *)
Definition sleeps (opt : Options) (k : nat) : nat :=
  if serve_seconds opt =? 0 then k else Nat.min (Z.to_nat (serve_seconds opt)) k.

Section Wait.
Variables (stops : nat -> bool) (k : nat).
Hypothesis Hk : interrupted stops k.

Lemma serve_forever_ok fuel i : (i <= k < i + fuel)%nat -> serve_forever stops fuel i = Ok k.
Proof.
  destruct Hk as [Hyes Hno]. revert i. induction fuel as [|fuel IH]; intros i Hi; [lia|]. cbn [serve_forever].
  destruct (decide (i = k)) as [->|Hne]; [by rewrite Hyes|]. rewrite Hno by lia. apply IH. lia.
Qed.

Lemma serve_for_ok fuel i n : (i <= k < i + fuel)%nat -> Z.of_nat i <= n ->
  serve_for stops fuel i n = Ok (Nat.min (Z.to_nat n) k).
Proof.
  destruct Hk as [Hyes Hno]. revert i. induction fuel as [|fuel IH]; intros i Hi Hn; [lia|]. cbn [serve_for].
  destruct (Z.ltb_spec (Z.of_nat i) n) as [Hlt|Hge]; cbn [negb]; [|f_equal; lia].
  destruct (decide (i = k)) as [->|Hne]; [rewrite Hyes; f_equal; lia|]. rewrite Hno by lia. apply IH; lia.
Qed.

Lemma serve_ok fuel opt : (k < fuel)%nat -> is_u64 (serve_seconds opt) -> serve stops fuel opt = Ok (port opt, sleeps opt k).
Proof.
  intros Hf Hs. unfold serve, sleeps. unfold is_u64 in Hs.
  destruct (serve_seconds opt =? 0); [rewrite serve_forever_ok by lia|rewrite serve_for_ok by lia]; done.
Qed.

End Wait.

(** ** The program *)

Section Proofs.
Context {B : Type} `{L : Book.BookLaws B}.
Variables (stops : nat -> bool) (patience k : nat).
Hypothesis Hk : interrupted stops k.
Hypothesis Hpatience : (k < patience)%nat.

(** What is printed about a builder [b]. *)
Definition output (opt : Options) (bytes : Z) (frames : nat) (b : Builder.BookBuilder B) (version : Z) : Output :=
  mkOutput bytes frames (Builder.book_count (Builder.books b)) (foldl add_orders 0 (Builder.for_each (Builder.books b)))
    version (Builder.unknown_refs b) (port opt) (sleeps opt k).

Lemma finish_ok opt bytes frames (h : Publish.PublishingHandler B) : wf_options opt ->
  finish stops patience opt bytes frames h = Ok (output opt bytes frames (Publish.inner h) (Snapshot.version (Publish.store h))).
Proof. intros Ho. unfold finish. by rewrite (serve_ok stops k Hk), bind_Ok by (done || apply Ho). Qed.

(** The version the final publish gives. *)
Definition last_version (opt : Options) (data : list Z) : Z :=
  Publish.generation (publish_every opt) (Publish.touching (Wire.events data)) + 1.

Lemma session_ok opt data : wf_options opt -> Replay.replayable data ->
  exists b, Wire.parse_stream data (length data) (Ok Builder.init) = Ok (length (Wire.frames data), Ok b) /\
    session stops patience opt data (length data) =
      Ok (output opt (Z.of_nat (length data)) (length (Wire.frames data)) b (last_version opt data)).
Proof.
  intros Ho [Hb Hn].
  destruct (Publish.ingest_ok (publish_every opt) (wo_every opt Ho) data Hb Hn) as (p & st & Hparse & Hpub & Hin & _ & Hv).
  exists (Publish.inner p). split; [done|]. unfold session, Publish.run.
  rewrite Hparse, !bind_Ok, Hpub, !bind_Ok, finish_ok by done. cbn [Publish.inner Publish.store]. by rewrite Hv.
Qed.

(** The block runs once the socket is up; what the server's own calls find
    afterwards does not matter. *)
Lemma b_serving {A} w (block : M A) (Q : A -> Prop) (X : Prop) :
  (forall w', past 6 w w' -> balanced w' block (fun a _ => Q a) (fun _ => X)) ->
  balanced w (serving block) (fun a _ => succeed 0 6 w = true /\ Q a) (fun _ => succeed 0 6 w = false \/ X).
Proof.
  intros Hblock. pose proof (decided w Handles.query_make _ _ _ _ (make_law (T := Handles.QueryListener) (held w)) (Handles.p_query w)) as Hmake.
  unfold balanced, serving, on_throw, mbind, M_bind in *. destruct (Handles.query_make w) as [[o|e| |] w1]; try done.
  2: { destruct Hmake as [-> Hs]. auto. }
  destruct Hmake as ((Hwf & Hh1 & Hd) & Hs & Hp). specialize (Hblock w1 Hp). cbn [owns Handles.query_raii] in *.
  destruct (block w1) as [[a|e| |] w2]; try done; destruct Hblock as [Hh2 HQ]; rewrite Hh1 in Hh2.
  2: { pose proof (destroy_law (T := Handles.QueryListener) o (held w) Hwf Hd w2 Hh2) as Hdes. cbn [destroy Handles.query_raii] in Hdes.
       destruct (Handles.query_destroy o w2) as [[[]| | |] w3]; try done. auto. }
  pose proof (Handles.t_query_stop o (held w) Hd w2 Hh2) as Hstop.
  destruct (Handles.query_stop o w2) as [[o'| | |] w3]; try done. destruct Hstop as [Hh3 Ho'].
  pose proof (destroy_law (T := Handles.QueryListener) o' (held w) I) as Hdes. cbn [destroy owns Handles.query_raii] in Hdes.
  rewrite Ho', map_empty_union in Hdes. specialize (Hdes (map_disjoint_empty_l _) w3 Hh3).
  by destruct (Handles.query_destroy o' w3) as [[[]| | |] w4].
Qed.

(** Success: exit code 0 and what a session over [data] prints. *)
Definition serves_out (opt : Options) (data : list Z) (r : Z * option Output) : Prop :=
  exists out, session (B := B) stops patience opt data (length data) = Ok out /\ r = (0, Some out).

Lemma b_serve w opt data : wf_options opt -> Replay.replayable data ->
  balanced w (run (B := B) stops patience opt data (length data))
    (fun r _ => succeed 0 6 w = true /\ serves_out opt data r) (fun _ => succeed 0 6 w = false).
Proof.
  intros Ho Hd. destruct (session_ok opt data Ho Hd) as (b & _ & Hs).
  eapply b_conseq; [apply (b_serving w _ (serves_out opt data) False)|done|by intros l [|]].
  intros w' _. eapply b_bind; [by apply Replay.b_lift|]. intros out w2 [-> _]. apply b_ret. by eexists.
Qed.

Lemma b_serve_mmap w bytes_at opt : wf_options opt ->
  (forall src, Handles.mapping w = Some src ->
     Replay.replayable (Replay.mapped bytes_at src) /\ length (Replay.mapped bytes_at src) = Z.to_nat (Handles.size_ src)) ->
  balanced w (run_mmap (B := B) stops patience bytes_at opt)
    (fun r _ => exists src, Handles.mapping w = Some src /\ succeed (Handles.mapping_calls src) 6 w = true /\
       serves_out opt (Replay.mapped bytes_at src) r)
    (fun _ => Handles.mapping w = None \/ exists src, Handles.mapping w = Some src /\ succeed (Handles.mapping_calls src) 6 w = false).
Proof.
  intros Ho Hat. unfold run_mmap.
  eapply b_scope; [exact Handles.keeps_mmap_destroy|eapply p_conseq; [exact (Handles.p_mmap w)|intros o w' HQ; exact HQ|by left]|].
  intros src w1 _ [Hm Hp]. destruct (Hat src Hm) as [Hd <-].
  assert (succeed 0 6 w1 = succeed (Handles.mapping_calls src) 6 w) as Hs by (rewrite (past_succeed _ 0 6 w w1 Hp); f_equal; lia).
  eapply b_conseq; [by apply b_serve| |]; rewrite Hs.
  - intros r l [Hr1 Hr2]. by exists src.
  - intros l Hf. right. by exists src.
Qed.

Lemma b_serve_gzip w chunk reads opt : wf_options opt -> Gzip.ended chunk reads -> Replay.replayable (Gzip.unzipped chunk reads).1 ->
  is_u64 (Z.of_nat (length (Gzip.unzipped chunk reads).1)) ->
  balanced w (run_gzip (B := B) stops patience chunk reads opt)
    (fun r _ => succeed 0 8 w = true /\ exists data, Gzip.contents chunk reads = Some data /\ serves_out opt data r)
    (fun _ => succeed 0 8 w = false \/ Gzip.contents chunk reads = None).
Proof.
  intros Ho He Hd Hlen. pose proof (Gzip.run_contents chunk reads (Ok (Publish.start (B := B) (publish_every opt))) He (proj1 Hd)) as Hrun.
  change 8%nat with (1 + (6 + 1))%nat. rewrite succeed_app. unfold run_gzip.
  eapply b_scope; [exact Handles.keeps_gzip_destroy|eapply p_conseq; [exact (Handles.p_gzip w)|intros o w' HQ; exact HQ|intros ? ->; by left]|].
  intros o w1 _ [-> Hp].
  assert (succeed (0 + 1) (6 + 1) w = succeed 0 6 w1 && succeed 6 1 w1) as ->
    by (transitivity (succeed 0 (6 + 1) w1); [symmetry; exact (past_succeed 1 0 (6 + 1) w w1 Hp)|exact (succeed_app 0 6 1 w1)]). cbn [andb].
  eapply b_conseq; [apply (b_serving w1 _ (fun r => succeed 6 1 w1 = true /\ exists data, Gzip.contents chunk reads = Some data /\ serves_out opt data r)
    (succeed 6 1 w1 = false \/ Gzip.contents chunk reads = None))| |].
  2: { intros r l (-> & -> & Hr). by split. }
  2: { intros l [->|[Hf|Hf]]; [by left| |by right]. left. rewrite Hf. apply andb_false_r. }
  intros w2 Hp2. assert (succeed 6 1 w1 = succeed 0 1 w2) as -> by (symmetry; exact (past_succeed 6 0 1 w1 w2 Hp2)).
  destruct (Gzip.contents chunk reads) as [data|].
  - destruct Hrun as [-> Hrun]. set (data := (Gzip.unzipped chunk reads).1) in *. pose proof Hd as [Hb Hn].
    destruct (Publish.ingest_ok (B := B) (publish_every opt) (wo_every opt Ho) data Hb Hn) as (p & st & Hparse & Hpub & _).
    pose proof Hparse as Hfold. rewrite Wire.parse_stream_frames, firstn_all in Hfold by done. injection Hfold as Hfold.
    eapply (b_bind _ _ _ (fun a _ => succeed 0 1 w2 = true /\ a = (length (Wire.frames data), Z.of_nat (length data), Ok p))).
    + apply Handles.b_gzip_run; [|by left]. intros Hs w3 _. unfold balanced, Replay.lift. rewrite Hrun. by rewrite Hfold, u64_id.
    + intros ? w3 [Hs ->].
      set (h1 := Publish.mkPublishing (Publish.inner p) st (Publish.publish_every p) (Publish.since_publish p)) in *.
      eapply b_bind; [apply Replay.b_lift; rewrite bind_Ok, Hpub, bind_Ok; by apply finish_ok|].
      intros out w4 [-> _]. apply b_ret. split; [done|]. exists data. split; [done|]. eexists; split; [|reflexivity].
      unfold session, Publish.run. rewrite Hparse, !bind_Ok, Hpub, !bind_Ok. by apply finish_ok.
  - destruct Hrun as [what Hrun]. eapply (b_bind _ _ _ (fun _ _ => False)); [|done].
    apply Handles.b_gzip_run; [|by left]. intros _ w3 _. unfold balanced, Replay.lift. rewrite Hrun. by split; [|right].
Qed.

Lemma b_serve_legacy w room f opt : wf_options opt ->
  Replay.replayable (take (Z.to_nat (u64 (Replay.tellg f))) (Replay.content f)) ->
  balanced w (run_legacy (B := B) stops patience room f opt)
    (fun r _ => if Replay.opens f && (u64 (Replay.tellg f) <=? room) && (u64 (Replay.tellg f) <=? Z.of_nat (length (Replay.content f)))
                then succeed 0 6 w = true /\ serves_out opt (take (Z.to_nat (u64 (Replay.tellg f))) (Replay.content f)) r else r = (1, None))
    (fun _ => Replay.opens f && (u64 (Replay.tellg f) <=? room) && (u64 (Replay.tellg f) <=? Z.of_nat (length (Replay.content f))) = false \/
              succeed 0 6 w = false).
Proof.
  intros Ho Hd. unfold run_legacy. destruct (Replay.opens f); cbn [negb andb]; [|by apply b_ret]. cbv zeta.
  rewrite (Z.leb_antisym room). destruct (Z.ltb_spec room (u64 (Replay.tellg f))) as [|_]; cbn [negb andb]; [apply b_throw; by left|].
  rewrite (Z.leb_antisym (Z.of_nat _)).
  destruct (Z.ltb_spec (Z.of_nat (length (Replay.content f))) (u64 (Replay.tellg f))) as [|Hle]; cbn [negb]; [by apply b_ret|].
  pose proof (u64_range (Replay.tellg f)) as Hu. unfold is_u64 in Hu.
  rewrite (Replay.legacy_taken f) at 2 by lia. eapply b_conseq; [by apply b_serve|done|by right].
Qed.

End Proofs.

(** ** The reference *)

(** What the program prints of a session: [k] the reading that finds the
    flag set. *)
Definition spec_output (opt : Options) (data : list Z) (k : nat) : Output :=
  let es := Wire.events data in
  let s := Builder.spec_run es Builder.spec_init in
  mkOutput (Z.of_nat (length data)) (length es) (size (Builder.sp_books s))
    (Replay.spec_total (fun os => Z.of_nat (size os)) s) (last_version opt data) (Builder.sp_rejected s)
    (port opt) (sleeps opt k).

(** The total of this program's report is the one of [Replay]'s. *)
Lemma add_orders_tally {B} `{Book.BookOps B} (l : list (Z * B)) x y z : (foldl Replay.tally (x, y, z) l).1.1 = foldl add_orders x l.
Proof. revert x y z. induction l as [|lb l IH]; intros x y z; cbn; [done|]. apply IH. Qed.

Section Exact.
Context {B : Type} `{A : Builder.Admitting B}.

Lemma served_session_exact stops patience k opt data : interrupted stops k -> (k < patience)%nat -> wf_options opt ->
  Wire.bytes data -> Forall Builder.good_event (Wire.events data) -> Z.of_nat (length (Wire.frames data)) < Book.max_orders ->
  session (B := B) stops patience opt data (length data) = Ok (spec_output opt data k).
Proof.
  intros Hk Hp Ho Hb Hg Hn.
  destruct (session_ok (B := B) stops patience k Hk Hp opt data Ho (conj Hb Hn)) as (b & Hparse & ->).
  destruct (Builder.parse_exact data Hb Hg Hn) as (h & Hrun & Hs & _).
  rewrite Hparse in Hrun. injection Hrun as ->.
  assert (length (Wire.frames data) = length (Wire.events data)) as Hlen by (unfold Wire.events; by rewrite length_fmap).
  assert (Z.of_nat (length (Builder.books h)) <= 65536) as Hslots.
  { rewrite Wire.parse_stream_frames, firstn_all in Hparse by done. injection Hparse as Hparse.
    apply (Replay.replay_length (Wire.events data) Builder.init); [by apply Builder.events_ranged|done|cbn; lia]. }
  rewrite Hlen in *. pose proof (Replay.report_ok h (Wire.events data) (Z.of_nat (length data)) Hs Hslots Hn) as Hr.
  destruct (Replay.report_fields _ _ _ _ Hr) as (E1 & E2 & E3). rewrite add_orders_tally in E2.
  unfold output. rewrite <- E1, <- E2, <- E3. done.
Qed.

(** ** A quote, from the file to the socket *)

Lemma spec_snapshot_wf loc os : is_u16 loc -> Book.wf_orders os -> Z.of_nat (size os) < Book.max_orders ->
  Query.wf_snapshot (Snapshot.spec_snapshot loc os).
Proof.
  intros Hloc Hwf Hsize. unfold Book.max_orders in Hsize.
  assert (forall buy q, Book.spec_best buy os = Some q -> is_u32 (Book.q_price q) /\ is_u64 (Book.q_shares q)) as Hq.
  { intros buy q (Hp & _ & Hs)%Book.spec_best_Some. apply Book.elem_of_prices in Hp as (ref & o & Ho & Hat).
    split; [|rewrite Hs; pose proof (Book.level_shares_bounds buy (Book.q_price q) os Hwf); unfold is_u64; lia].
    destruct (Hwf ref o Ho) as [_ Hpr]. unfold Book.at_level in Hat. apply andb_true_iff in Hat as [_ Hat].
    apply Z.eqb_eq in Hat. by rewrite <- Hat. }
  pose proof (Book.size_prices_le true os). pose proof (Book.size_prices_le false os).
  constructor; cbn; try done; try (unfold is_u64; lia).
  - destruct (Book.spec_best true os) eqn:E; [by apply (Hq true)|unfold is_u32; lia].
  - destruct (Book.spec_best true os) eqn:E; [by apply (Hq true)|unfold is_u64; lia].
  - destruct (Book.spec_best false os) eqn:E; [by apply (Hq false)|unfold is_u32; lia].
  - destruct (Book.spec_best false os) eqn:E; [by apply (Hq false)|unfold is_u64; lia].
Qed.

(** A replay of the first messages follows the reference. *)
Lemma prefix_sim m data (h : Builder.BookBuilder B) : Wire.bytes data -> Forall Builder.good_event (Wire.events data) ->
  Z.of_nat (length (Wire.events data)) < Book.max_orders ->
  foldl Wire.apply_event (Ok Builder.init) (take m (Wire.events data)) = Ok h ->
  let s := Builder.spec_run (take m (Wire.events data)) Builder.spec_init in
  Builder.sim h s /\ is_u64 (Builder.sp_rejected s).
Proof.
  intros Hb Hg Hn Hh s. pose proof (length_take (Wire.events data) m) as Hlen.
  destruct (Builder.replay_exact_from (take m (Wire.events data)) (Builder.init (B := B)) Builder.spec_init 0 Builder.init_sim)
    as (h' & Hrun & Hs & _).
  - intros [|i] b Hi; discriminate Hi.
  - by apply Forall_take, Builder.events_ranged.
  - by apply Forall_take.
  - intros i os. cbn. by rewrite lookup_empty.
  - lia.
  - rewrite Hh in Hrun. injection Hrun as <-. split; [done|].
    pose proof (Replay.spec_run_rejected (take m (Wire.events data)) Builder.spec_init) as Hr. fold s in Hr. cbn in Hr.
    unfold Book.max_orders in Hn. unfold is_u64. lia.
Qed.

(** [p] is the publishing handler after the first [n] messages. *)
Definition at_moment (every : Z) (data : list Z) (n : nat) (p : Publish.PublishingHandler B) : Prop :=
  foldl Wire.apply_event (Ok (Publish.start every)) (take n (Wire.events data)) = Ok p.

(** What the reference replay of the first [m] messages gives. *)
Definition reference (data : list Z) (m : nat) : Builder.spec :=
  Builder.spec_run (take m (Wire.events data)) Builder.spec_init.

(** How far the prefix of [m] messages may lag behind the first [n]. *)
Definition recent (every : Z) (data : list Z) (n m : nat) : Prop :=
  (m <= n)%nat /\ (every <> 0 -> Publish.touching (drop m (take n (Wire.events data))) < every).

(** The store at one moment of a replay: what its version counts, and the
    prefix its snapshots and its rejections are those of. *)
Lemma store_at every data n : is_u64 every -> Wire.bytes data -> Forall Builder.good_event (Wire.events data) ->
  Z.of_nat (length (Wire.frames data)) < Book.max_orders ->
  exists p m h, at_moment every data n p /\
    Snapshot.version (Publish.store p) = Publish.generation every (Publish.touching (take n (Wire.events data))) /\
    is_u64 (Publish.generation every (Publish.touching (take n (Wire.events data)))) /\
    recent every data n m /\ Builder.sim h (reference data m) /\ Publish.exact (Publish.store p) h /\
    is_u64 (Builder.sp_rejected (reference data m)).
Proof.
  intros Hevery Hbytes Hgood Hn.
  assert (Z.of_nat (length (Wire.events data)) < Book.max_orders) as Hlen by (unfold Wire.events; by rewrite length_fmap).
  destruct (Publish.moment_ok (B := B) every Hevery (Wire.events data) n (Builder.events_ranged data Hbytes) Hlen)
    as (p & Hp & Hv & m & h & Hm & Hh & Hex & Hlag).
  destruct (prefix_sim m data h Hbytes Hgood Hlen Hh) as [Hs Hmost]. exists p, m, h. split_and!; try done.
  pose proof (Publish.touching_bounds (take n (Wire.events data))). pose proof (length_take (Wire.events data) n).
  apply Publish.generation_u64; [done|lia].
Qed.

End Exact.

(** ** Properties *)

(** C5: the query program, from the file to the socket: suppose a client asks for
    one locate, in packets cut anyhow, while a file is replayed (with the default
    flat-ladder book, one whose prices are realistic, cent-aligned and below
    $40,000; with the map-based book, any; fewer than 2^32 messages), and that the three locked reads behind the answer
    (the snapshot, the version, the unknown-reference count) are done at three
    moments of the replay, [n_data], [n_version] and [n_unknown], with any
    publishes between them.  The line it gets back, read with the code's own
    scanner, states the best bid and ask with their sizes, the orders and the
    price levels of exactly the book that the reference replay of some prefix
    of the messages up to the first moment gives that locate; as the version
    the number of publishes up to the second; and the number of messages
    rejected in some prefix of those up to the third.  With periodic publishing
    on, each prefix lacks fewer than [publish_every] book-touching messages of
    its moment, and reads at one moment show one prefix.  If the first prefix
    has no book for the locate, the answer is the error. *)
Theorem served_quote_exact {B} `{A : Builder.Admitting B} (every : Z) (data : list Z) (loc : Z) (n_data n_version n_unknown : nat)
  (chunks : list Query.text)
  (Hevery : is_u64 every) (Hbytes : Wire.bytes data) (Hgood : Forall Builder.good_event (Wire.events data))
  (Hn : Z.of_nat (length (Wire.frames data)) < Book.max_orders) (Hloc : is_u16 loc)
  (Hchunks : concat chunks = Query.quote_request loc ++ [Query.lf]) :
  exists p1 p2 p3 m m' answer,
    at_moment every data n_data p1 /\ at_moment every data n_version p2 /\ at_moment every data n_unknown p3 /\
    recent every data n_data m /\ recent every data n_unknown m' /\ (n_unknown = n_data -> m' = m) /\
    Query.handle_connection (fun _ => Query.mkReads (Publish.store p1) (Publish.store p2) (Publish.store p3)) (fun _ => true)
      (Query.Got <$> chunks) [] [] = [answer ++ [Query.lf]] /\
    let read key := Query.extract_uint_field answer (Query.str key) in
    match Builder.sp_books (reference data m) !! Z.to_nat loc with
    | None => answer = Query.error_json_locate "unknown locate" loc
    | Some os =>
        read "locate" = Some loc /\
        read "best_bid" = Book.q_price <$> Book.spec_best true os /\
        read "best_bid_shares" = Book.q_shares <$> Book.spec_best true os /\
        read "best_ask" = Book.q_price <$> Book.spec_best false os /\
        read "best_ask_shares" = Book.q_shares <$> Book.spec_best false os /\
        read "open_orders" = Some (Z.of_nat (size os)) /\
        read "bid_levels" = Some (Z.of_nat (size (Book.prices true os))) /\
        read "ask_levels" = Some (Z.of_nat (size (Book.prices false os))) /\
        read "unknown_refs" = Some (Builder.sp_rejected (reference data m')) /\
        read "snapshot_version" = Some (Publish.generation every (Publish.touching (take n_version (Wire.events data))))
    end.
Proof.
  destruct (store_at every data n_data Hevery Hbytes Hgood Hn) as (p1 & m & h & H1 & _ & _ & Hm & Hs & [Hfind Hunk1] & Hmost1).
  destruct (store_at every data n_version Hevery Hbytes Hgood Hn) as (p2 & _ & _ & H2 & Hver & Hver64 & _).
  assert (exists p3 m', at_moment every data n_unknown p3 /\ recent every data n_unknown m' /\ (n_unknown = n_data -> m' = m) /\
    Snapshot.unknown_refs (Publish.store p3) = Builder.sp_rejected (reference data m') /\ is_u64 (Builder.sp_rejected (reference data m')))
    as (p3 & m' & H3 & Hm' & Hsame & Hunk & Hmost).
  { destruct (decide (n_unknown = n_data)) as [->|Hne].
    - exists p1, m. split_and!; try done. by rewrite Hunk1, (Builder.sim_rejected h _ Hs), (u64_id _ Hmost1).
    - destruct (store_at every data n_unknown Hevery Hbytes Hgood Hn) as (p3 & m' & h' & H3 & _ & _ & Hm' & Hs' & [_ Hunk'] & Hmost').
      exists p3, m'. split_and!; try done. by rewrite Hunk', (Builder.sim_rejected h' _ Hs'), (u64_id _ Hmost'). }
  exists p1, p2, p3, m, m', (Query.handle_line (Query.mkReads (Publish.store p1) (Publish.store p2) (Publish.store p3)) (Query.quote_request loc)).
  assert (is_u64 loc) as Hloc64 by (unfold is_u16 in Hloc; unfold is_u64; lia).
  destruct (Query.quote_request_line loc Hloc64) as (L1 & L2 & L3 & L4).
  split_and!; [done..|by apply Query.one_line|].
  rewrite Query.quote_request_answer, Z.mod_small by (done || unfold is_u16 in Hloc; lia).
  cbn [Query.at_data Query.at_version Query.at_unknown]. rewrite Hfind, Hunk, Hver by (unfold is_u16 in Hloc; lia). cbv zeta.
  rewrite <- (Builder.sim_books h _ Hs).
  destruct (mjoin (Builder.books h !! Z.to_nat loc)) as [b|] eqn:Eb; cbn [fmap option_fmap option_map compose]; [|done].
  destruct (Book.inv_wf b (Builder.sim_inv h _ Hs _ b Eb)) as [Hwf Hsize].
  destruct (Query.quote_response_readable _ _ _ (spec_snapshot_wf loc (Book.orders b) Hloc Hwf Hsize) Hver64 Hmost)
    as (E1 & E2 & E3 & E4 & E5 & E6 & E7 & E8 & E9 & E10).
  rewrite E1, E2, E3, E4, E5, E6, E7, E8, E9, E10. cbn [Snapshot.spec_snapshot Snapshot.locate Snapshot.has_bid Snapshot.bid_price
    Snapshot.bid_shares Snapshot.has_ask Snapshot.ask_price Snapshot.ask_shares Snapshot.open_orders Snapshot.bid_levels Snapshot.ask_levels].
  destruct (Book.spec_best true (Book.orders b)), (Book.spec_best false (Book.orders b)); split_and!; reflexivity.
Qed.

(** Two publishes fall between the three reads. *)
Lemma served_quote_exact_witness : exists p1 p2 p3 answer,
  at_moment (B := OrderBook.OrderBook) 2 Builder.sample_data 3 p1 /\
  at_moment (B := OrderBook.OrderBook) 2 Builder.sample_data 5 p2 /\
  at_moment (B := OrderBook.OrderBook) 2 Builder.sample_data 7 p3 /\
  Query.handle_connection (fun _ => Query.mkReads (Publish.store p1) (Publish.store p2) (Publish.store p3)) (fun _ => true)
    (Query.Got <$> [Query.quote_request 1; [Query.lf]]) [] [] = [answer ++ [Query.lf]].
Proof.
  destruct (served_quote_exact (A := Builder.ob_admitting) 2 Builder.sample_data 1 3 5 7 [Query.quote_request 1; [Query.lf]])
    as (p1 & p2 & p3 & m & m' & answer & H1 & H2 & H3 & _ & _ & _ & H4 & _).
  - u32c.
  - exact Builder.sample_data_bytes.
  - apply Forall_true. intros e. unfold Builder.good_event. destruct (Builder.event_price e); exact I.
  - vm_compute. reflexivity.
  - u32c.
  - reflexivity.
  - exists p1, p2, p3, answer. split; [exact H1|]. split; [exact H2|]. split; [exact H3|exact H4].
Defined.

(** The final report of the query program is exact: with the map-based book
    on any input, and with the flat-ladder book on realistic prices, it states
    the bytes and frames replayed, the number of books, the resting orders and
    the rejected messages of the reference replay, and as snapshot version
    one more than the periodic publishes; and the program then serves until
    the first of its time limit and the interrupt, announcing the port of its
    command line. *)
Theorem served_report_exact (stops : nat -> bool) (patience k : nat) (opt : Options) (data : list Z)
  (Hk : interrupted stops k) (Hpatience : (k < patience)%nat) (Hopt : wf_options opt) (Hb : Wire.bytes data)
  (Hn : Z.of_nat (length (Wire.frames data)) < Book.max_orders) :
  session (B := OrderBook.OrderBook) stops patience opt data (length data) = Ok (spec_output opt data k) /\
  (Forall Builder.realistic_event (Wire.events data) ->
   session (B := LadderBook.LadderBook) stops patience opt data (length data) = Ok (spec_output opt data k)).
Proof.
  split; [|by intros Hr; apply served_session_exact]. apply served_session_exact; try done.
  apply Forall_true. intros e. unfold Builder.good_event. by destruct (Builder.event_price e).
Qed.

(** The built-in session served for one second. *)
Lemma served_report_exact_witness :
  session (B := LadderBook.LadderBook) (fun i => (2 <=? i)%nat) 5 (mkOptions 12401 2 0 1 false) Replay.selftest_data
    (length Replay.selftest_data) =
    Ok (spec_output (mkOptions 12401 2 0 1 false) Replay.selftest_data 2).
Proof.
  apply (served_report_exact (fun i => (2 <=? i)%nat) 5 2 (mkOptions 12401 2 0 1 false) Replay.selftest_data).
  - split; [reflexivity|]. intros [|[|j]] Hj; [reflexivity|reflexivity|lia].
  - lia.
  - constructor; cbn; u32c.
  - exact Replay.selftest_bytes.
  - vm_compute. reflexivity.
  - apply (bool_decide_unpack _). vm_compute. exact I.
Defined.

Example selftest_output :
  session (B := OrderBook.OrderBook) (fun i => (2 <=? i)%nat) 5 (mkOptions 12401 2 0 1 false) Replay.selftest_data
    (length Replay.selftest_data) = Ok (mkOutput 282 9 2 2 5 0 12401 1).
Proof. vm_compute. reflexivity. Qed.

(** ** What a command line comes to *)

(** The exit code and the bytes served, if any.  The calls a run makes, in
    order: those of its input, six for the listening socket, and for a
    compressed file [inflateInit2]. *)
Definition comes_to (bytes_at : nat -> Z -> list Z) (room : Z) (f : Replay.stream_file) (chunk : nat) (reads : list Gzip.fread_result)
    (w : world) (act : Args.action) : Z * option (list Z) :=
  match act with
  | Args.Selftest => if succeed 0 6 w then (0, Some Replay.selftest_data) else (1, None)
  | Args.Usage => (2, None)
  | Args.Legacy _ =>
    let size := u64 (Replay.tellg f) in
    if Replay.opens f && (size <=? room) && (size <=? Z.of_nat (length (Replay.content f))) && succeed 0 6 w
    then (0, Some (take (Z.to_nat size) (Replay.content f))) else (1, None)
  | Args.Gzip _ =>
    if succeed 0 8 w then match Gzip.contents chunk reads with Some data => (0, Some data) | None => (1, None) end
    else (1, None)
  | Args.Mapped _ =>
    match Handles.mapping w, Replay.file_shown bytes_at w with
    | Some src, Some data => if succeed (Handles.mapping_calls src) 6 w then (0, Some data) else (1, None)
    | _, _ => (1, None)
    end
  end.

(** What is asked of the files, as for the replay program, but for --legacy
    with any size. *)
Definition readable (bytes_at : nat -> Z -> list Z) (f : Replay.stream_file) (chunk : nat) (reads : list Gzip.fread_result)
    (w : world) (act : Args.action) : Prop :=
  Replay.readable bytes_at (u64 (Replay.tellg f)) f chunk reads w act.

(** What is printed of [data]: the session's output, which is the reference
    one. *)
Definition printed (stops : nat -> bool) (patience k : nat) (opt : Options) (data : list Z) (out : Output) : Prop :=
  (if use_map opt then session (B := OrderBook.OrderBook) stops patience opt data (length data) = Ok out
   else session (B := LadderBook.LadderBook) stops patience opt data (length data) = Ok out) /\
  (use_map opt = true \/ Forall Builder.realistic_event (Wire.events data) -> out = spec_output opt data k).

Lemma printed_exact stops patience k opt data out : interrupted stops k -> (k < patience)%nat -> wf_options opt -> Replay.replayable data ->
  (if use_map opt then session (B := OrderBook.OrderBook) stops patience opt data (length data) = Ok out
   else session (B := LadderBook.LadderBook) stops patience opt data (length data) = Ok out) -> printed stops patience k opt data out.
Proof.
  intros Hk Hp Ho [Hb Hn] Hs. split; [done|]. intros Hr. destruct (use_map opt).
  - rewrite (served_session_exact stops patience k) in Hs; [by injection Hs|done..| |done].
    apply Forall_true. intros e. unfold Builder.good_event. by destruct (Builder.event_price e).
  - destruct Hr as [|Hr]; [done|]. rewrite (served_session_exact stops patience k) in Hs; [by injection Hs|done..].
Qed.

Lemma served_replayable bytes_at room f chunk reads w act : readable bytes_at f chunk reads w act ->
  match (comes_to bytes_at room f chunk reads w act).2 with Some data => Replay.replayable data | None => True end.
Proof.
  unfold readable. destruct act as [|path|path|path|]; cbn [comes_to Replay.readable].
  - intros _. destruct (succeed 0 6 w); [split; [exact Replay.selftest_bytes|vm_compute; reflexivity]|done].
  - intros [_ Hd]. by destruct (_ && _).
  - intros (_ & Hd & _). destruct (succeed 0 8 w); [|done]. revert Hd. unfold Gzip.contents.
    destruct (Gzip.unzipped chunk reads) as [data [[]|e| |]]; try done. by case_decide.
  - intros Hr. rewrite Replay.file_shown_mapped. destruct (Handles.mapping w) as [src|] eqn:E; [|done]. cbn [fmap option_fmap option_map].
    destruct (succeed (Handles.mapping_calls src) 6 w); [|done]. by apply (Replay.readable_mapping bytes_at (u64 (Replay.tellg f)) f chunk reads w path src Hr E).
  - done.
Qed.

Lemma b_choose {B} `{L : Book.BookLaws B} stops patience k w bytes_at room f chunk reads opt act :
  interrupted stops k -> (k < patience)%nat -> wf_options opt -> readable bytes_at f chunk reads w act ->
  balanced w (Replay.guarded (choose (B := B) stops patience bytes_at room f chunk reads opt act))
    (fun r _ => Replay.as_expected (fun data out => session (B := B) stops patience opt data (length data) = Ok out)
       (comes_to bytes_at room f chunk reads w act) r) (fun _ => False).
Proof.
  intros Hk Hp Ho Hc. destruct act as [|path|path|path|]; cbn [choose comes_to].
  - assert (Replay.replayable Replay.selftest_data) as Hd by (split; [exact Replay.selftest_bytes|vm_compute; reflexivity]).
    eapply b_conseq; [eapply (Replay.b_guarded _ _ _ _ (fun _ => False)), (b_serve stops patience k Hk Hp); done| |done].
    intros r l [(-> & out & Hout & ->)|[-> ->]]; [split; [done|exact Hout]|done].
  - destruct Hc as [_ Hd]. eapply b_conseq; [eapply (Replay.b_guarded _ _ _ _ (fun _ => False)), (b_serve_legacy stops patience k Hk Hp); done| |done].
    intros r l. cbv zeta. destruct (_ && _ && _); cbn [andb].
    + intros [(-> & out & Hout & ->)|[-> [| ->]]]; [split; [done|exact Hout]|done..].
    + by intros [->|[-> _]].
  - destruct Hc as (He & Hd & Hlen). eapply b_conseq; [eapply (Replay.b_guarded _ _ _ _ (fun _ => False)), (b_serve_gzip stops patience k Hk Hp); done| |done].
    intros r l [(-> & data & -> & out & Hout & ->)|[-> [->| ->]]]; [split; [done|exact Hout]|done|by destruct (succeed 0 8 w)].
  - eapply b_conseq; [eapply (Replay.b_guarded _ _ _ _ (fun _ => False)), (b_serve_mmap stops patience k Hk Hp); [done|]| |done].
    + intros src. exact (Replay.readable_mapping bytes_at (u64 (Replay.tellg f)) f chunk reads w path src Hc).
    + intros r l. rewrite Replay.file_shown_mapped.
      intros [(src & -> & Hs & out & Hout & ->)|[-> [->|(src & -> & Hs)]]]; cbn [fmap option_fmap option_map]; rewrite ?Hs; [split; [done|exact Hout]|done..].
  - done.
Qed.

(** C31: what the query program does is decided by its command line, the calls
    that fail and the file: for a command line whose port is a number an [int]
    can hold, exit code 2 if it does not understand it; 1 if the file cannot be
    opened, mapped, read or decompressed to whole messages (--legacy included,
    whatever size is reported), or the listening socket cannot be set up; and
    otherwise 0 with the output of a session that replays and serves exactly
    the bytes of the file named (or of the built-in session; files of fewer
    than 2^32 messages are considered), the reference output with the map-based
    book, and with the other book on realistic prices.
    The process is assumed to be sent SIGINT some time, without which it may
    serve for ever.  No exception leaves [main], with --legacy either, and every
    descriptor (the listening socket included), mapping, stream and zlib state
    is given back exactly once. *)
Theorem query_program_exact (stops : nat -> bool) (patience k : nat) (bytes_at : nat -> Z -> list Z) (room : Z)
  (f : Replay.stream_file) (chunk : nat) (reads : list Gzip.fread_result) (argv : list string)
  (o : Args.Options) (act : Args.action) (opt : Options) (w : world)
  (Hk : interrupted stops k) (Hpatience : (k < patience)%nat) (Hargs : Args.query_main argv = Ok (o, act))
  (Hopt : options o = Ok opt) (Hact : readable bytes_at f chunk reads w act) :
  exists r w', main stops patience bytes_at room f chunk reads argv w = (Ok r, w') /\ held w' = held w /\
    Replay.as_expected (printed stops patience k opt) (comes_to bytes_at room f chunk reads w act) r.
Proof.
  destruct (options_ok o opt Hopt) as [Hwf _]. unfold main, mbind, M_bind, Replay.lift. rewrite Hargs, Hopt.
  assert (match (comes_to bytes_at room f chunk reads w act).2 with Some data => Replay.replayable data | None => True end) as Hd.
  { by eapply served_replayable. }
  destruct (use_map opt) eqn:Hmap.
  all: match goal with |- context [choose (B := ?b)] =>
    pose proof (b_choose (B := b) stops patience k w bytes_at room f chunk reads opt act Hk Hpatience Hwf Hact) as H end.
  all: unfold balanced in H; destruct (Replay.guarded _ w) as [[r| | |] w']; [|by destruct H..]; destruct H as (Hh & Hc & Hr).
  all: exists r, w'; do 2 (split; [done|]); split; [done|].
  all: destruct (comes_to _ _ _ _ _ _ _).2, r.2; try done; apply printed_exact; [done..|]; by rewrite Hmap.
Qed.

(** The built-in session as a mapped file, served; the same when the socket
    cannot be bound; and a command line it does not understand. *)
Lemma query_program_exact_witness :
  (exists w', main (fun _ => true) 1 Replay.shows_selftest 0 Replay.no_file 0 [] ["replay_query"; "--port"; "0"; "--map"; "day.itch"]
     (mkWorld ∅ [Some 0; Some 282; Some 0]) =
     (Ok (0, Some (spec_output (mkOptions 0 2000 0 0 true) Replay.selftest_data 0)), w') /\ held w' = ∅) /\
  (exists w', main (fun _ => true) 1 Replay.shows_selftest 0 Replay.no_file 0 [] ["replay_query"; "--port"; "0"; "day.itch"]
     (mkWorld ∅ [Some 0; Some 282; Some 0; Some 0; Some 4; Some 0; Some 0; None]) = (Ok (1, None), w')) /\
  (exists w', main (fun _ => true) 1 Replay.shows_selftest 0 Replay.no_file 0 [] ["replay_query"] (mkWorld ∅ []) = (Ok (2, None), w')).
Proof.
  assert (interrupted (fun _ => true) 0) as Hk by (split; [reflexivity|intros j Hj; lia]).
  assert (Replay.replayable Replay.selftest_data) as Hself by (split; [exact Replay.selftest_bytes|vm_compute; reflexivity]).
  split; [|split].
  - destruct (query_program_exact (fun _ => true) 1 0 Replay.shows_selftest 0 Replay.no_file 0 [] ["replay_query"; "--port"; "0"; "--map"; "day.itch"]
      (Args.mkOptions true (Some "0") None None None) (Args.Mapped "day.itch") (mkOptions 0 2000 0 0 true) (mkWorld ∅ [Some 0; Some 282; Some 0]) Hk)
      as ([c out] & w' & H1 & H2 & H3 & H4); [lia|reflexivity|reflexivity| |].
    + intros st [= <-]. split; [exact Hself|reflexivity].
    + cbn in H3, H4. subst c. destruct out as [out|]; [|destruct H4]. exists w'. split; [|exact H2]. rewrite H1.
      destruct H4 as [_ H4]. rewrite H4 by (left; reflexivity). reflexivity.
  - destruct (query_program_exact (fun _ => true) 1 0 Replay.shows_selftest 0 Replay.no_file 0 [] ["replay_query"; "--port"; "0"; "day.itch"]
      (Args.mkOptions false (Some "0") None None None) (Args.Mapped "day.itch") (mkOptions 0 2000 0 0 false)
      (mkWorld ∅ [Some 0; Some 282; Some 0; Some 0; Some 4; Some 0; Some 0; None]) Hk) as ([c out] & w' & H1 & _ & H3 & H4); [lia|reflexivity|reflexivity| |].
    + intros st [= <-]. split; [exact Hself|reflexivity].
    + cbn in H3, H4. subst c. destruct out; [destruct H4|]. exists w'. exact H1.
  - destruct (query_program_exact (fun _ => true) 1 0 Replay.shows_selftest 0 Replay.no_file 0 [] ["replay_query"]
      (Args.mkOptions false None None None None) Args.Usage (mkOptions 12401 2000 0 0 false) (mkWorld ∅ []) Hk)
      as ([c out] & w' & H1 & _ & H3 & H4); [lia|reflexivity|reflexivity|exact I|].
    cbn in H3, H4. subst c. destruct out; [destruct H4|]. exists w'. exact H1.
Defined.

End ReplayQuery.
