(* ===== verification/ReplayThreaded.v ===== *)
(** * ReplayThreaded: the two-thread replay program

    Models src/replay_threaded_main.cpp: [report], [run], [run_mmap],
    [run_gzip], [run_legacy], [selftest] and [main], over the pipeline of
    [Threaded], with [run_pipeline] and [RunStats] of
    include/pipeline/threaded_replay.hpp.

    The two threads are an input, [pipeline]: what they leave for a list of
    callbacks, for which some complete interleaving of [Threaded] must account
    ([scheduled]).  An exception that leaves a thread's function calls
    [std::terminate]: the program is then [Terminated], which no handler sees. *)

From S2P Require Import Prelude Wire Encode Book OrderBook LadderBook Builder Spsc Threaded Gzip Os Handles Args Replay.
Import Os.

Module ReplayThreaded.

(** [1u << 16], as the exponent and the number. *)
Definition kQueueBits : Z := 16.
Definition kQueueCapacity : Z := Spsc.capacity kQueueBits.

(** [--pin]'s cores for the parser and the book builder. *)
Definition affinity_for (pin : bool) : option (Z * Z) := if pin then Some (0, 1) else None.

Record ThreadedReport := mkThreadedReport {
  base : Replay.Report; max_queue_occ : Z; capacity : Z; affinity : option (Z * Z) }.

Inductive exit := Exit (code : Z) (report : option ThreadedReport) | Terminated.

(** Run [m] as a thread's function; [None] when an exception leaves it. *)
Definition in_thread {A} (m : M A) : M (option A) := fun w =>
  match m w with
  | (Ok a, w) => (Ok (Some a), w)
  | (Throw _, w) => (Ok None, w)
  | (UB, w) => (UB, w)
  | (NoFuel, w) => (NoFuel, w)
  end.

(** A local object; nothing is destroyed when the process is terminated. *)
Definition scope {T} `{Raii T} (body : T -> M exit) : M exit :=
  o ← make;
  r ← on_throw (body o) (destroy o);
  match r with
  | Terminated => mret Terminated
  | Exit _ _ => destroy o;; mret r
  end.

Section Program.
Context {B : Type} `{Book.BookOps B}.

Record RunStats := mkStats { builder : outcome (Builder.BookBuilder B); frames : nat; max_occupancy : Z }.

Variable pipeline : list Wire.event -> RunStats.

(** [decode] on the parser thread calls the handler with some callbacks, or
    throws. *)
Definition run_pipeline {A} (decode : M (A * list Wire.event)) : M (option (A * RunStats)) :=
  r ← in_thread decode;
  mret (match r with Some (a, es) => Some (a, pipeline es) | None => None end).

Definition report (stats : RunStats) (bytes : Z) (pin : bool) : outcome ThreadedReport :=
  h ← builder stats;
  r ← Replay.report h bytes (frames stats);
  Ok (mkThreadedReport r (max_occupancy stats) kQueueCapacity (affinity_for pin)).

(** The callbacks [parse_stream] makes. *)
Definition parse (data : list Z) (len : nat) : M (unit * list Wire.event) :=
  Replay.lift ('(_, es) ← Wire.parse_stream data len ([] : list Wire.event); Ok (tt, es)).

Definition run (data : list Z) (len : nat) (pin : bool) : M exit :=
  r ← run_pipeline (parse data len);
  match r with
  | None => mret Terminated
  | Some (_, stats) => rep ← Replay.lift (report stats (Z.of_nat len) pin); mret (Exit 0 (Some rep))
  end.

Variable bytes_at : nat -> Z -> list Z.

Definition run_mmap (pin : bool) : M exit :=
  scope (T := Handles.MmapSource) (fun src =>
    r ← run_pipeline (parse (Replay.mapped bytes_at src) (Z.to_nat (Handles.size_ src)));
    match r with
    | None => mret Terminated
    | Some (_, stats) => rep ← Replay.lift (report stats (Handles.size_ src) pin); mret (Exit 0 (Some rep))
    end).

Definition run_gzip (chunk : nat) (reads : list Gzip.fread_result) (pin : bool) : M exit :=
  scope (T := Handles.GzipSource) (fun _ =>
    r ← run_pipeline ('(_, bytes, es) ← Handles.gzip_run (Replay.lift (Gzip.run chunk reads ([] : list Wire.event))); mret (bytes, es));
    match r with
    | None => mret Terminated
    | Some (bytes, stats) => rep ← Replay.lift (report stats bytes pin); mret (Exit 0 (Some rep))
    end).

Definition run_legacy (room : Z) (f : Replay.stream_file) (pin : bool) : M exit :=
  if negb (Replay.opens f) then mret (Exit 1 None)
  else
    let size := u64 (Replay.tellg f) in
    if room <? size then throw "std::bad_alloc"
    else if Z.of_nat (length (Replay.content f)) <? size then mret (Exit 1 None)
    else run (take (Z.to_nat size) (Replay.content f)) (Z.to_nat size) pin.

Definition selftest (pin : bool) : M exit := run Replay.selftest_data (length Replay.selftest_data) pin.

(** [try { ... } catch (const std::exception&) { return 1; }] *)
Definition guarded (m : M exit) : M exit := fun w =>
  match m w with
  | (Throw _, w) => (Ok (Exit 1 None), w)
  | r => r
  end.

Definition dispatch (room : Z) (f : Replay.stream_file) (chunk : nat) (reads : list Gzip.fread_result) (pin : bool)
    (act : Args.action) : M exit :=
  match act with
  | Args.Selftest => selftest pin
  | Args.Legacy _ => run_legacy room f pin
  | Args.Usage => mret (Exit 2 None)
  | Args.Gzip _ => guarded (run_gzip chunk reads pin)
  | Args.Mapped _ => guarded (run_mmap pin)
  end.

End Program.
Arguments RunStats B : clear implicits.

(** [main]: the flag chooses the book. *)
Definition main (ob : list Wire.event -> RunStats OrderBook.OrderBook) (lb : list Wire.event -> RunStats LadderBook.LadderBook)
    (bytes_at : nat -> Z -> list Z) (room : Z) (f : Replay.stream_file) (chunk : nat) (reads : list Gzip.fread_result)
    (argv : list string) : M exit :=
  '(use_map, pin, act) ← Replay.lift (Args.threaded_main argv);
  if use_map : bool then dispatch ob bytes_at room f chunk reads pin act
  else dispatch lb bytes_at room f chunk reads pin act.

(** ** The threads *)

(** [pipeline es] is what some complete run of the two threads leaves. *)
Definition scheduled {B} `{Book.BookOps B} (pipeline : list Wire.event -> RunStats B) (es : list Wire.event) : Prop :=
  exists buf s, length buf = Z.to_nat kQueueCapacity /\ Threaded.reachable kQueueBits buf es s /\
    Threaded.c_at s = Threaded.Finished /\
    pipeline es = mkStats (Threaded.builder s) (Threaded.c_frames s) (Threaded.max_occupancy s).

Lemma parse_log data : Wire.bytes data ->
  Wire.parse_stream data (length data) ([] : list Wire.event) = Ok (length (Wire.frames data), Wire.events data).
Proof. intros Hb. rewrite Wire.parse_stream_frames, firstn_all by done. by rewrite Wire.log_events. Qed.

(** The builder and the counts of a scheduled run are the sequential ones. *)
Lemma scheduled_stats {B} `{Book.BookOps B} (pipeline : list Wire.event -> RunStats B) es : scheduled pipeline es ->
  Forall Threaded.clean es ->
  exists occ, 0 <= occ < kQueueCapacity /\
    pipeline es = mkStats (foldl Wire.apply_event (Ok Builder.init) es) (length es) occ.
Proof.
  intros (buf & s & Hbuf & Hs & Hfin & ->) Hclean.
  destruct (Threaded.finished_ok kQueueBits ltac:(unfold kQueueBits; lia) buf es s Hbuf Hs Hfin) as (-> & -> & _ & _ & Hocc).
  exists (Threaded.max_occupancy s). split; [done|]. by rewrite Threaded.replay_events.
Qed.

Lemma threaded_report_ok {B} `{L : Book.BookLaws B} (pipeline : list Wire.event -> RunStats B) data pin : Wire.bytes data ->
  Forall Threaded.clean (Wire.events data) -> Z.of_nat (length (Wire.frames data)) < Book.max_orders ->
  scheduled pipeline (Wire.events data) ->
  exists r occ, Replay.run (B := B) data (length data) = Ok r /\ 0 <= occ < kQueueCapacity /\
    report (pipeline (Wire.events data)) (Z.of_nat (length data)) pin =
      Ok (mkThreadedReport r occ kQueueCapacity (affinity_for pin)).
Proof.
  intros Hb Hclean Hn Hsched. destruct (scheduled_stats pipeline _ Hsched Hclean) as (occ & Hocc & ->).
  destruct (Replay.run_returns (B := B) data Hb Hn) as (h & r & Hparse & Hrep & Hrun).
  rewrite Wire.parse_stream_frames, firstn_all in Hparse by done. injection Hparse as Hfold.
  exists r, occ. split_and!; [done|apply Hocc..|]. unfold report. cbn [builder frames max_occupancy].
  assert (length (Wire.events data) = length (Wire.frames data)) as -> by (unfold Wire.events; by rewrite length_fmap).
  by rewrite Hfold, bind_Ok, Hrep.
Qed.

(** An input that is not a whole number of frames fails, whatever handles
    its messages. *)
Lemma gzip_leftover {H} `{Wire.Handler H} chunk reads data (h : H) : Gzip.decompresses chunk reads data -> Wire.bytes data ->
  Wire.leftover data <> [] -> Gzip.run chunk reads h = Throw "trailing partial ITCH frame after decompression".
Proof.
  intros Hdec Hb Hleft. rewrite (Gzip.run_whole chunk reads data h _ _ Hdec Hb (Wire.parse_stream_frames data _ h Hb (le_n _))).
  by rewrite decide_False.
Qed.

(** ** A loop that throws *)

Lemma release_top k n v r a : r !! (k, n) = None -> release k n v (mkWorld (<[(k, n) := v]> r) a) = (Ok tt, mkWorld r a).
Proof.
  intros Hn. unfold release. cbn [held answers]. rewrite decide_True by apply lookup_insert_eq. by rewrite delete_insert_id.
Qed.

Lemma bind_ok {A B} (m : M A) (f : A -> M B) w w' a : m w = (Ok a, w') -> (m ≫= f) w = f a w'.
Proof. unfold mbind, M_bind. by intros ->. Qed.

Lemma bind_throw {A B} (m : M A) (f : A -> M B) w w' e : m w = (Throw e, w') -> (m ≫= f) w = (Throw e, w').
Proof. unfold mbind, M_bind. by intros ->. Qed.

Lemma guarded_ok m w w' r : m w = (Ok r, w') -> guarded m w = (Ok r, w').
Proof. unfold guarded. by intros ->. Qed.

Lemma acquire_top k v r : acquire k v (mkWorld r []) = (Ok (Some (fresh (ids r))), mkWorld (<[(k, fresh (ids r)) := v]> r) []).
Proof. reflexivity. Qed.

(** With every call succeeding, [gzip_run] passes the exception on and gives
    its zlib state back. *)
Lemma gzip_run_throws {A} e r : Handles.gzip_run (Replay.lift (Throw e) : M A) (mkWorld r []) = (Throw e, mkWorld r []).
Proof.
  unfold Handles.gzip_run, mbind, M_bind. rewrite acquire_top. unfold on_throw, Replay.lift.
  rewrite release_top; [done|apply fresh_id].
Qed.

Lemma gzip_make_ok r : exists n, r !! (KFile, n) = None /\
  Handles.gzip_make (mkWorld r []) = (Ok (Handles.mkGzip (Some n)), mkWorld (<[(KFile, n) := 0]> r) []).
Proof. exists (fresh (ids r)). split; [apply fresh_id|]. reflexivity. Qed.

Lemma run_gzip_terminates {B} `{Book.BookOps B} (pipeline : list Wire.event -> RunStats B) chunk reads pin e r :
  Gzip.run chunk reads ([] : list Wire.event) = Throw e ->
  exists w, guarded (run_gzip pipeline chunk reads pin) (mkWorld r []) = (Ok Terminated, w).
Proof.
  intros He. destruct (gzip_make_ok r) as (n & Hn & Hmake). unfold run_gzip, scope. eexists. apply guarded_ok.
  rewrite (bind_ok _ _ _ _ _ Hmake). set (w1 := mkWorld _ []).
  assert (forall f : nat * Z * list Wire.event -> M (Z * list Wire.event),
    in_thread (Handles.gzip_run (Replay.lift (Gzip.run chunk reads [])) ≫= f) w1 = (Ok None, w1)) as Hthread.
  { intros f. unfold in_thread. by rewrite (bind_throw _ f _ w1 e) by (rewrite He; apply gzip_run_throws). }
  rewrite (bind_ok _ _ w1 w1 Terminated); [reflexivity|]. unfold on_throw, run_pipeline.
  by rewrite (bind_ok _ _ w1 w1 None) by (by rewrite (bind_ok _ _ w1 w1 None) by apply Hthread).
Qed.

Lemma replay_gzip_exits {B} `{Book.BookOps B} chunk reads e r :
  Gzip.run chunk reads (Ok (Builder.init (B := B))) = Throw e ->
  exists w, Replay.guarded (Replay.run_gzip (B := B) chunk reads) (mkWorld r []) = (Ok (1, None), w).
Proof.
  intros He. destruct (gzip_make_ok r) as (n & Hn & Hmake). unfold Replay.guarded, Replay.run_gzip, Os.scope.
  rewrite (bind_ok _ _ _ _ _ Hmake). set (w1 := mkWorld _ []). eexists.
  erewrite bind_throw; [reflexivity|]. unfold on_throw.
  rewrite (bind_throw _ _ w1 w1 e) by (rewrite He; apply gzip_run_throws).
  cbn [destroy Handles.gzip_raii]. unfold Handles.gzip_destroy. cbn [Handles.file_]. unfold w1. by rewrite release_top.
Qed.

#[global] Instance clean_dec e : Decision (Threaded.clean e).
Proof. destruct e; cbn; apply _. Defined.

(** ** Properties *)

(** The two-thread replay program prints what the single-threaded one
    prints: for an input none of whose skipped frames carries a decoded type
    byte, with either book, pinned or not, however the two threads interleave,
    [run] exits with code 0 and the report of the replay program, to which it adds
    an occupancy below the queue's capacity. *)
Theorem threaded_report_equals {B} `{L : Book.BookLaws B} (pipeline : list Wire.event -> RunStats B) (data : list Z)
  (pin : bool) (w : world) (Hb : Wire.bytes data) (Hclean : Forall Threaded.clean (Wire.events data))
  (Hn : Z.of_nat (length (Wire.frames data)) < Book.max_orders) (Hsched : scheduled pipeline (Wire.events data)) :
  exists r occ, Replay.run (B := B) data (length data) = Ok r /\ 0 <= occ < kQueueCapacity /\
    run pipeline data (length data) pin w =
      (Ok (Exit 0 (Some (mkThreadedReport r occ kQueueCapacity (affinity_for pin)))), w).
Proof.
  destruct (threaded_report_ok pipeline data pin Hb Hclean Hn Hsched) as (r & occ & Hrun & Hocc & Hrep).
  exists r, occ. split_and!; [done|apply Hocc..|].
  unfold run, run_pipeline, in_thread, parse, Replay.lift, mbind, M_bind. rewrite parse_log, bind_Ok by done.
  cbn [mret M_ret]. by rewrite Hrep.
Qed.

(** The callbacks of the built-in session, and a run of the two threads on
    them. *)
Lemma selftest_scheduled (B : Type) `{Book.BookOps B} : exists pipeline : list Wire.event -> RunStats B,
  scheduled pipeline (Wire.events Replay.selftest_data).
Proof.
  set (es := Wire.events Replay.selftest_data). set (buf := replicate (Z.to_nat kQueueCapacity) (Threaded.envelope (Wire.EOther 0 0))).
  assert (length buf = Z.to_nat kQueueCapacity) as Hbuf by apply length_replicate. clearbody buf es.
  assert (Threaded.reachable (B := B) kQueueBits buf es (Threaded.start buf es)) as H0 by constructor.
  destruct (Threaded.can_finish kQueueBits ltac:(unfold kQueueBits; lia) es (Threaded.start (B := B) buf es) ltac:(unfold kQueueBits; lia)
    (Threaded.pipe_start_inv kQueueBits ltac:(unfold kQueueBits; lia) buf es Hbuf)) as (s & Hs & Hf).
  exists (fun _ => mkStats (Threaded.builder s) (Threaded.c_frames s) (Threaded.max_occupancy s)).
  exists buf, s. split_and!; [done| |done|done]. clear Hf. induction Hs; eauto using Threaded.reach_step.
Qed.

Lemma threaded_report_equals_witness : exists pipeline : list Wire.event -> RunStats OrderBook.OrderBook, exists r occ,
  Replay.run (B := OrderBook.OrderBook) Replay.selftest_data (length Replay.selftest_data) = Ok r /\
  selftest pipeline true (mkWorld ∅ []) = (Ok (Exit 0 (Some (mkThreadedReport r occ kQueueCapacity (Some (0, 1))))), mkWorld ∅ []).
Proof.
  destruct (selftest_scheduled OrderBook.OrderBook) as (pipeline & Hp). exists pipeline.
  destruct (threaded_report_equals (L := OrderBook.ob_laws) pipeline Replay.selftest_data true (mkWorld ∅ []) Replay.selftest_bytes)
    as (r & occ & H1 & _ & H2).
  - apply (bool_decide_unpack _). vm_compute. exact I.
  - vm_compute. reflexivity.
  - exact Hp.
  - exists r, occ. split; [exact H1|exact H2].
Defined.

(** C40: a compressed file that ends inside a message brings the two-thread
    program down: the exception is thrown on the parser thread, where nothing
    catches it, so the [try] of [dispatch_args], which gives the single-threaded
    program exit code 1 for the same file, is never reached.  (The file is
    opened and every other system call is taken to succeed.) *)
Theorem gzip_failure_terminates (ob : list Wire.event -> RunStats OrderBook.OrderBook)
  (lb : list Wire.event -> RunStats LadderBook.LadderBook) (bytes_at : nat -> Z -> list Z) (room : Z) (f : Replay.stream_file)
  (chunk : nat) (reads : list Gzip.fread_result) (data : list Z) (path : string) (pin use_map : bool) (argv : list string)
  (r : resources) (Hthreaded : Args.threaded_main argv = Ok (use_map, pin, Args.Gzip path))
  (Hsingle : Args.replay_main argv = Ok (use_map, Args.Gzip path))
  (Hdec : Gzip.decompresses chunk reads data) (Hb : Wire.bytes data) (Hleft : Wire.leftover data <> []) :
  (exists w, main ob lb bytes_at room f chunk reads argv (mkWorld r []) = (Ok Terminated, w)) /\
  (exists w, Replay.main bytes_at room f chunk reads argv (mkWorld r []) = (Ok (1, None), w)).
Proof.
  split.
  - unfold main, mbind, M_bind, Replay.lift. rewrite Hthreaded.
    destruct use_map; unfold dispatch; eapply run_gzip_terminates, gzip_leftover; done.
  - unfold Replay.main, mbind, M_bind, Replay.lift. rewrite Hsingle.
    destruct use_map; unfold Replay.dispatch; eapply replay_gzip_exits, gzip_leftover; done.
Qed.

(** A file of one whole message and the first byte of another. *)
Definition cut_reads : list Gzip.fread_result := [Gzip.Data [Gzip.mkCall [0; 1; 65; 0] Gzip.Z_STREAM_END]].

Lemma gzip_failure_terminates_witness :
  exists w, main (fun _ => mkStats UB 0 0) (fun _ => mkStats UB 0 0) (fun _ _ => []) 0 Replay.no_file 8 cut_reads ["replay"; "day.gz"] (mkWorld ∅ []) = (Ok Terminated, w).
Proof.
  apply (gzip_failure_terminates (fun _ => mkStats UB 0 0) (fun _ => mkStats UB 0 0) (fun _ _ => []) 0 Replay.no_file 8 cut_reads [0; 1; 65; 0] "day.gz" false false).
  - reflexivity.
  - reflexivity.
  - apply (Gzip.dec_last 8 [Gzip.mkCall [0; 1; 65; 0] Gzip.Z_STREAM_END]). cbn. split; [lia|]. split; [reflexivity|]. right. right. reflexivity.
  - apply (bool_decide_unpack _). vm_compute. exact I.
  - vm_compute. discriminate.
Defined.

End ReplayThreaded.
