(* ===== verification/Live.v ===== *)
(** * Live: the live replay program

    Models src/live_replay_main.cpp: its own [BookBuilder] (an
    [unordered_map] of map-based books and no per-message price hint),
    [report] and the receive loop of [run].  [main] is in [Demo].

    The network and the signal are inputs: each turn of the loop says whether
    SIGINT has arrived by its test, and gives the datagram [poll] receives
    with what its request channel sees ([Receiver]).  When the inputs end the
    signal arrives.  The builder is shown equal to the pipeline's
    ([Builder], [Replay]). *)

From S2P Require Import Prelude Wire Encode Book OrderBook Builder Mold Receiver Replay.

Module Live.

(** ** BookBuilder *)

(** Locates are the naturals they index by. *)
Record BookBuilder := mkBuilder {
  books : gmap nat OrderBook.OrderBook;
  counts : list Z;
  unknown_refs : Z }.

Definition init : BookBuilder := mkBuilder ∅ (replicate 256 0) 0.

Definition bump (t : Z) (h : BookBuilder) : outcome BookBuilder :=
  c ← rd (counts h) (Z.to_nat (u8 t));
  cs ← wr (counts h) (Z.to_nat (u8 t)) (u64 (c + 1));
  Ok (mkBuilder (books h) cs (unknown_refs h)).

(** [if (!books[locate].op(...)) ++unknown_refs;] *)
Definition at_book (locate : Z) (op : OrderBook.OrderBook -> bool * OrderBook.OrderBook) (h : BookBuilder) : BookBuilder :=
  let '(ok, b) := op (default OrderBook.init (books h !! Z.to_nat locate)) in
  mkBuilder (<[Z.to_nat locate := b]> (books h)) (counts h)
    (if ok : bool then unknown_refs h else u64 (unknown_refs h + 1)).

Definition on_add (m : Wire.AddOrder) (h : BookBuilder) : outcome BookBuilder :=
  h ← bump Wire.chA h;
  Ok (at_book (Wire.locate (Wire.add_hdr m))
    (OrderBook.add (Wire.add_ref m) (Wire.add_side m) (Wire.add_shares m) (Wire.add_price m)) h).

Definition on_execute (m : Wire.OrderExecuted) (h : BookBuilder) : outcome BookBuilder :=
  h ← bump Wire.chE h;
  Ok (at_book (Wire.locate (Wire.exec_hdr m)) (OrderBook.execute (Wire.exec_ref m) (Wire.exec_shares m)) h).

Definition on_execute_price (m : Wire.OrderExecutedPrice) (h : BookBuilder) : outcome BookBuilder :=
  h ← bump Wire.chC h;
  Ok (at_book (Wire.locate (Wire.execp_hdr m)) (OrderBook.execute (Wire.execp_ref m) (Wire.execp_shares m)) h).

Definition on_cancel (m : Wire.OrderCancel) (h : BookBuilder) : outcome BookBuilder :=
  h ← bump Wire.chX h;
  Ok (at_book (Wire.locate (Wire.cancel_hdr m)) (OrderBook.cancel (Wire.cancel_ref m) (Wire.cancel_canceled m)) h).

Definition on_delete (m : Wire.OrderDelete) (h : BookBuilder) : outcome BookBuilder :=
  h ← bump Wire.chD h;
  Ok (at_book (Wire.locate (Wire.delete_hdr m)) (OrderBook.remove (Wire.delete_ref m)) h).

Definition on_replace (m : Wire.OrderReplace) (h : BookBuilder) : outcome BookBuilder :=
  h ← bump Wire.chU h;
  Ok (at_book (Wire.locate (Wire.replace_hdr m))
    (OrderBook.replace (Wire.replace_orig_ref m) (Wire.replace_new_ref m) (Wire.replace_shares m) (Wire.replace_price m)) h).

Definition on_other (type : Z) (len : nat) (h : BookBuilder) : outcome BookBuilder := bump type h.

#[global] Instance live_handler : Wire.Handler (outcome BookBuilder) := {
  on_add m h := h ← h; on_add m h;
  on_execute m h := h ← h; on_execute m h;
  on_execute_price m h := h ← h; on_execute_price m h;
  on_cancel m h := h ← h; on_cancel m h;
  on_delete m h := h ← h; on_delete m h;
  on_replace m h := h ← h; on_replace m h;
  on_other t n h := h ← h; on_other t n h
}.

(** ** The report *)

Record Summary := mkSummary {
  m_frames : Z; m_books : nat;
  m_open_orders : Z; m_bid_levels : Z; m_ask_levels : Z;
  m_unknown_refs : Z;
  m_next_seq : Z; m_pending : nat; m_requests : Z; m_ended : bool;
  m_types : list (Z * Z) }.

Definition tally (acc : Z * Z * Z) (lb : nat * OrderBook.OrderBook) : Z * Z * Z :=
  let '(orders, bids, asks) := acc in
  (u64 (orders + Z.of_nat (OrderBook.open_orders lb.2)), u64 (bids + Z.of_nat (OrderBook.bid_levels lb.2)),
   u64 (asks + Z.of_nat (OrderBook.ask_levels lb.2))).

(** The order in which an [unordered_map] is iterated is unspecified; this is
    one, and the totals do not depend on it. *)
Definition report (h : BookBuilder) (frames : Z) (recv : Receiver.MoldUdp64Receiver) : outcome Summary :=
  let '(orders, bids, asks) := foldl tally (0, 0, 0) (map_to_list (books h)) in
  types ← Replay.types_loop 256 0 (counts h);
  Ok (mkSummary frames (size (books h)) orders bids asks (unknown_refs h)
    (Receiver.next_seq_ recv) (size (Receiver.pending_ recv)) (Receiver.requests_sent_ recv) (Receiver.ended_ recv) types).

(** ** The loop *)

(** A turn: is [g_stop] set, and if not what [poll] receives. *)
Record turn := mkTurn { g_stop : bool; datagram : list Z; requests : list Receiver.turn }.

Record state := mkState { recv : Receiver.MoldUdp64Receiver; h : outcome BookBuilder; frames : Z; printed : list Summary }.

Definition due (report_every frames : Z) : bool :=
  (0 <? report_every) && (0 <? frames) && (frames mod report_every =? 0).

(** One turn of the loop's body. *)
Definition body (report_every : Z) (t : turn) (s : state) : outcome state :=
  '(n, r, hb) ← Receiver.poll (datagram t) (requests t) (recv s) (h s);
  let frames := u64 (frames s + Z.of_nat n) in
  if due report_every frames then
    hv ← hb;
    summary ← report hv frames r;
    Ok (mkState r hb frames (printed s ++ [summary]))
  else Ok (mkState r hb frames (printed s)).

Fixpoint loop (report_every : Z) (turns : list turn) (s : state) : outcome state :=
  match turns with
  | [] => Ok s
  | t :: turns =>
    if g_stop t || Receiver.ended_ (recv s) then Ok s
    else s ← body report_every t s; loop report_every turns s
  end.

(** [run] once the receiver is built: the summaries printed on the way, and
    the last one. *)
Definition run (session : Mold.SessionId) (report_every : Z) (turns : list turn) : outcome (list Summary * Summary) :=
  s ← loop report_every turns (mkState (Receiver.construct session) (Ok init) 0 []);
  hv ← h s;
  summary ← report hv (frames s) (recv s);
  Ok (printed s, summary).

(** ** The same builder as the pipeline's *)

Record same (l : BookBuilder) (g : Builder.BookBuilder OrderBook.OrderBook) : Prop := {
  same_books : books l = Replay.slot_map 0 (Builder.books g);
  same_counts : counts l = Builder.counts g;
  same_unknown : unknown_refs l = Builder.unknown_refs g;
  same_length : length (counts l) = 256%nat }.

Lemma init_same : same init Builder.init.
Proof. by constructor. Qed.

Lemma bump_same t l g : same l g -> exists l' g', bump t l = Ok l' /\ Builder.bump t g = Ok g' /\ same l' g'.
Proof.
  intros [Hb Hc Hu Hl]. unfold bump, Builder.bump. rewrite <- Hc. pose proof (u8_range t) as Ht. unfold is_u8 in Ht.
  destruct (rd_ok (counts l) (Z.to_nat (u8 t)) ltac:(lia)) as (c & -> & _). rewrite !bind_Ok.
  unfold wr. rewrite decide_True, !bind_Ok by lia. eexists _, _. split_and!; [done..|].
  constructor; cbn; try done. by rewrite length_insert.
Qed.

Lemma slots_book locate hint (slots : list (option OrderBook.OrderBook)) : exists slots',
  Builder.get_or_create locate hint slots = Ok (default OrderBook.init (Replay.slot_map 0 slots !! Z.to_nat locate), slots') /\
  (Z.to_nat locate < length slots')%nat /\
  (forall i, i <> Z.to_nat locate -> mjoin (slots' !! i) = mjoin (slots !! i)).
Proof.
  rewrite Replay.slot_map_lookup, decide_True, Nat.sub_0_r by lia.
  unfold Builder.get_or_create. set (idx := Z.to_nat locate).
  destruct (Builder.grow_slots idx slots) as [Hlen Hsame].
  set (slots1 := if (length slots <=? idx)%nat then _ else _) in *. rewrite <- Hsame.
  destruct (rd_ok slots1 idx Hlen) as (slot & -> & Hslot). rewrite bind_Ok, Hslot. destruct slot as [b|]; cbn [mjoin option_join default from_option].
  - exists slots1. by split_and!.
  - change (Book.make hint) with (Ok OrderBook.init : outcome OrderBook.OrderBook). rewrite bind_Ok.
    unfold wr. rewrite decide_True, bind_Ok by done. eexists. split_and!; [done|by rewrite length_insert|].
    intros i Hi. by rewrite list_lookup_insert_ne.
Qed.

Lemma at_book_same locate hint opg op l g : same l g -> (forall b, opg b = Ok (op b)) ->
  exists g', Builder.at_book locate hint opg g = Ok g' /\ same (at_book locate op l) g'.
Proof.
  intros [Hb Hc Hu Hl] Hop. unfold Builder.at_book, at_book. rewrite Hb.
  destruct (slots_book locate hint (Builder.books g)) as (slots' & -> & Hlen & Hsame). rewrite bind_Ok, Hop, bind_Ok.
  destruct (op _) as [ok b]. unfold wr. rewrite decide_True, bind_Ok by done. eexists. split; [done|].
  constructor; cbn; [|done| |done]; [|destruct ok; by rewrite Hu].
  apply map_eq. intros i. rewrite Replay.slot_map_lookup, decide_True, Nat.sub_0_r by lia.
  destruct (decide (i = Z.to_nat locate)) as [->|Hne].
  - by rewrite lookup_insert_eq, list_lookup_insert_eq.
  - rewrite lookup_insert_ne, list_lookup_insert_ne by done.
    rewrite Replay.slot_map_lookup, decide_True, Nat.sub_0_r by lia. by rewrite Hsame.
Qed.

(** Any message, even one a decoder would not make. *)
Lemma event_same e l g : same l g ->
  exists l' g', Wire.apply_event (Ok l) e = Ok l' /\ Wire.apply_event (Ok g) e = Ok g' /\ same l' g'.
Proof.
  intros Hs. destruct (bump_same (Builder.event_type e) l g Hs) as (l1 & g1 & Hl & Hg & Hs1).
  destruct e as [m|m|m|m|m|m|t n]; cbn [Wire.apply_event live_handler Builder.builder_handler Wire.on_add Wire.on_execute
    Wire.on_execute_price Wire.on_cancel Wire.on_delete Wire.on_replace Wire.on_other Builder.event_type] in *; rewrite !bind_Ok;
    unfold on_add, on_execute, on_execute_price, on_cancel, on_delete, on_replace, on_other, Builder.on_add, Builder.on_execute,
      Builder.on_execute_price, Builder.on_cancel, Builder.on_delete, Builder.on_replace, Builder.on_other.
  7: { by apply bump_same. }
  all: rewrite Hl, Hg, !bind_Ok.
  all: match goal with
    Hs1 : same ?l1 ?g1 |- context [Builder.at_book ?lc ?p ?opg ?g1] =>
    match goal with |- context [at_book lc ?op l1] =>
      destruct (at_book_same lc p opg op l1 g1 Hs1 (fun b => eq_refl)) as (g2 & -> & Hs2); by eexists _, g2 end end.
Qed.

Lemma events_same es l g : same l g ->
  exists l' g', foldl Wire.apply_event (Ok l) es = Ok l' /\ foldl Wire.apply_event (Ok g) es = Ok g' /\ same l' g'.
Proof.
  revert l g. induction es as [|e es IH]; intros l g Hs; cbn [foldl]; [by exists l, g|].
  destruct (event_same e l g Hs) as (l1 & g1 & -> & -> & Hs1). by apply IH.
Qed.

(** ** The same report *)

Lemma tally_replay l acc : foldl tally acc l = foldl Replay.tally acc ((fun lb => (Z.of_nat lb.1, lb.2)) <$> l).
Proof. revert acc. induction l as [|lb l IH]; intros acc; cbn [foldl fmap list_fmap]; [done|]. rewrite IH. by destruct acc as [[? ?] ?]. Qed.

(** The table's books, in either container, up to the order. *)
Lemma slot_map_books {B} k (slots : list (option B)) :
  (map_to_list (Replay.slot_map k slots)).*2 ≡ₚ (Builder.for_each_from k slots).*2.
Proof.
  revert k. induction slots as [|[b|] slots IH]; intros k; cbn [Replay.slot_map Builder.for_each_from fmap list_fmap]; [|cbn|apply IH].
  - by rewrite map_to_list_empty.
  - rewrite map_to_list_insert by (rewrite Replay.slot_map_lookup, decide_False by lia; done).
    cbn. by rewrite IH.
Qed.

Lemma sum_z_perm l k : l ≡ₚ k -> Replay.sum_z l = Replay.sum_z k.
Proof. unfold Replay.sum_z. induction 1; cbn; lia. Qed.

(** What is printed for a builder of the replay program. *)
Definition summary_of (r : Replay.Report) (frames : Z) (recv : Receiver.MoldUdp64Receiver) : Summary :=
  mkSummary frames (Replay.r_books r) (Replay.r_open_orders r) (Replay.r_bid_levels r) (Replay.r_ask_levels r)
    (Replay.r_unknown_refs r) (Receiver.next_seq_ recv) (size (Receiver.pending_ recv)) (Receiver.requests_sent_ recv)
    (Receiver.ended_ recv) (Replay.r_types r).

Lemma report_same l g bytes k frames recv : same l g ->
  exists r, Replay.report g bytes k = Ok r /\ report l frames recv = Ok (summary_of r frames recv).
Proof.
  intros [Hb Hc Hu Hl]. unfold Replay.report, report.
  assert (forall f : OrderBook.OrderBook -> Z,
    Replay.sum_z ((fun lb => f lb.2) <$> ((fun lb => (Z.of_nat lb.1, lb.2)) <$> map_to_list (books l))) =
    Replay.sum_z ((fun lb => f lb.2) <$> Builder.for_each (Builder.books g))) as Hsum.
  { intros f. rewrite <- list_fmap_compose. rewrite Hb.
    transitivity (Replay.sum_z (f <$> (map_to_list (Replay.slot_map 0 (Builder.books g))).*2)); [by rewrite <- (list_fmap_compose snd f)|].
    transitivity (Replay.sum_z (f <$> (Builder.for_each (Builder.books g)).*2)); [|by rewrite <- (list_fmap_compose snd f)].
    apply sum_z_perm. f_equiv. apply slot_map_books. }
  rewrite tally_replay, !Replay.tally_sum by (unfold is_u64; lia).
  rewrite !Hsum, (Hsum (fun b => Z.of_nat (Book.open_orders b))).
  destruct (Replay.types_loop_returns 256 0 (counts l)) as (ts & Hts); [by rewrite Hl|].
  rewrite <- Hc, Hts, !bind_Ok. eexists. split; [done|].
  unfold summary_of. cbn. rewrite Hb, Replay.slot_map_size, <- Builder.book_count_for_each. by rewrite Hu.
Qed.

(** ** The loop over a genuine network *)

Section Feed.
Variable feed : list (list Z).
Variable session : Mold.SessionId.
Hypothesis wf_sess : Mold.wf_session session.
Hypothesis feed_len : Z.of_nat (length feed) < 9223372036854775808.

(** The pipeline's builder after the first [k] messages of the session. *)
Definition after (k : nat) : outcome (Builder.BookBuilder OrderBook.OrderBook) :=
  foldl Wire.apply_event (Ok Builder.init) (Wire.frame_event <$> take k feed).

(** The reference: the pipeline's builder behind the same receiver, after the
    first [j] turns' datagrams. *)
Definition polled (turns : list turn) (j : nat)
  : outcome (nat * Receiver.MoldUdp64Receiver * outcome (Builder.BookBuilder OrderBook.OrderBook)) :=
  Receiver.run ((fun t => (datagram t, requests t)) <$> take j turns) 0 (Receiver.construct session) (Ok Builder.init).

(** The replay program's report on it, with the receiver's own figures. *)
Definition shown (turns : list turn) (j : nat) : option Summary :=
  match polled turns j with
  | Ok (k, r, Ok g) => match Replay.report g 0 k with Ok rep => Some (summary_of rep (Z.of_nat k) r) | _ => None end
  | _ => None
  end.

(** Whether a summary is due after [j] polls: the messages delivered by then
    are a positive multiple of [report_every]. *)
Definition periodic (report_every : Z) (turns : list turn) (j : nat) : option Summary :=
  match polled turns j with
  | Ok (k, _, _) => if decide (0 < report_every /\ (0 < k)%nat /\ Z.of_nat k mod report_every = 0) then shown turns j else None
  | _ => None
  end.

Definition is_ended (turns : list turn) (j : nat) : bool :=
  match polled turns j with Ok (_, r, _) => Receiver.ended_ r | _ => false end.

Record at_poll (report_every : Z) (turns : list turn) (j k : nat) (s : state) : Prop := {
  ap_recv : Receiver.rcv_inv feed session (recv s);
  ap_next : Receiver.next_seq_ (recv s) = Z.of_nat k + 1;
  ap_frames : frames s = Z.of_nat k;
  ap_h : exists l g, h s = Ok l /\ after k = Ok g /\ polled turns j = Ok (k, recv s, Ok g) /\ same l g;
  ap_printed : printed s = omap (periodic report_every turns) (seq 1 j) }.

Lemma due_periodic every k : due every (Z.of_nat k) = bool_decide (0 < every /\ (0 < k)%nat /\ Z.of_nat k mod every = 0).
Proof.
  unfold due. apply eq_true_iff_eq. rewrite bool_decide_eq_true, !andb_true_iff, !Z.ltb_lt, Z.eqb_eq.
  split; [intros [[H1 H2] H3]|intros (H1 & H2 & H3)]; split_and!; lia.
Qed.

(** The summary the program makes is the one shown. *)
Lemma shows_report turns j k l g r : polled turns j = Ok (k, r, Ok g) -> same l g ->
  exists m, report l (Z.of_nat k) r = Ok m /\ shown turns j = Some m.
Proof.
  intros Hp Hs. destruct (report_same l g 0 k (Z.of_nat k) r Hs) as (rep & Hrep & Hm). eexists. split; [exact Hm|].
  unfold shown. by rewrite Hp, Hrep.
Qed.

Lemma body_ok every turns j k t s : at_poll every turns j k s -> turns !! j = Some t ->
  Receiver.genuine_input feed session (datagram t, requests t) ->
  exists k' s', body every t s = Ok s' /\ at_poll every turns (S j) k' s'.
Proof.
  intros [Hr Hn Hf (l & g & Hl & Hg & Hpo & Hs) Hp] Ht [Hd Hts]. cbn in Hd, Hts. unfold body.
  destruct (Receiver.poll_ok feed session wf_sess feed_len (datagram t) (requests t) (recv s) (h s) Hr Hd Hts)
    as (n & r' & h' & Hpoll & Hr' & Hn' & ->).
  destruct (Receiver.poll_ok feed session wf_sess feed_len (datagram t) (requests t) (recv s) (Ok g : outcome (Builder.BookBuilder OrderBook.OrderBook)) Hr Hd Hts)
    as (n2 & r2 & h2 & Hpoll2 & _ & _ & ->).
  pose proof (Receiver.poll_control feed session wf_sess feed_len (datagram t) (requests t) (recv s) (h s)
    (Ok g : outcome (Builder.BookBuilder OrderBook.OrderBook)) Hr Hd Hts) as Hctl.
  rewrite Hpoll, Hpoll2 in Hctl. injection Hctl as <- <-.
  rewrite Hpoll, bind_Ok, Hl. unfold Receiver.from in *. rewrite Hn in *. replace (Z.to_nat (Z.of_nat k + 1 - 1)) with k in * by lia.
  unfold Receiver.deliver in *. destruct (events_same (Wire.frame_event <$> take n (drop k feed)) l g Hs) as (l' & g' & Hl' & Hg' & Hs').
  rewrite Hl'. rewrite Hg' in Hpoll2.
  assert (after (k + n) = Ok g') as Hafter.
  { unfold after in *. by rewrite <- take_take_drop, fmap_app, foldl_app, Hg. }
  assert (polled turns (S j) = Ok ((k + n)%nat, r', Ok g')) as Hpo'.
  { unfold polled in *. rewrite (take_S_r _ _ t Ht), fmap_app. cbn [fmap list_fmap].
    by rewrite Receiver.run_snoc, Hpo, bind_Ok, Hpoll2, bind_Ok. }
  assert (u64 (frames s + Z.of_nat n) = Z.of_nat (k + n)) as ->.
  { rewrite Hf, u64_id; [lia|]. pose proof (Receiver.rc_next _ _ _ Hr'). unfold is_u64. lia. }
  assert (Receiver.next_seq_ r' = Z.of_nat (k + n) + 1) as Hnext by lia.
  destruct (shows_report turns (S j) (k + n) l' g' r' Hpo' Hs') as (m & Hm & Hshow).
  assert (omap (periodic every turns) (seq 1 (S j)) = printed s ++ if due every (Z.of_nat (k + n)) then [m] else []) as Hout.
  { rewrite seq_S, omap_app, <- Hp. f_equal. cbn. unfold periodic. rewrite Hpo', due_periodic, Hshow.
    by case_decide; case_bool_decide. }
  exists (k + n)%nat. destruct (due every (Z.of_nat (k + n))); [rewrite bind_Ok, Hm, bind_Ok|]; (eexists; split; [done|]);
    constructor; cbn [recv h frames printed]; try done; try (by exists l', g'); by rewrite ?Hout, ?app_nil_r.
Qed.

(** The loop polls up to the first turn by which it is told to stop or the
    session has ended. *)
Definition stops_after (turns : list turn) (n : nat) : Prop :=
  (forall j, (j < n)%nat -> exists t, turns !! j = Some t /\ g_stop t = false /\ is_ended turns j = false) /\
  match turns !! n with None => n = length turns | Some t => g_stop t = true \/ is_ended turns n = true end.

Lemma loop_ok every turns j k s : at_poll every turns j k s -> (j <= length turns)%nat ->
  (forall i, (i < j)%nat -> exists t, turns !! i = Some t /\ g_stop t = false /\ is_ended turns i = false) ->
  Forall (fun t => Receiver.genuine_input feed session (datagram t, requests t)) turns ->
  exists n k' s', loop every (drop j turns) s = Ok s' /\ at_poll every turns n k' s' /\ stops_after turns n.
Proof.
  intros Hs Hj Hbefore Hg. remember (length turns - j)%nat as d eqn:Ed. revert j k s Hs Hj Hbefore Ed.
  induction d as [|d IH]; intros j k s Hs Hj Hbefore Ed.
  { assert (j = length turns) as -> by lia. rewrite drop_ge by lia. exists (length turns), k, s. split_and!; [done..|].
    split; [done|]. by rewrite (lookup_ge_None_2 turns) by lia. }
  destruct (lookup_lt_is_Some_2 turns j ltac:(lia)) as [t Ht]. rewrite (drop_S _ _ _ Ht). cbn [loop].
  assert (is_ended turns j = Receiver.ended_ (recv s)) as Hend.
  { destruct (ap_h _ _ _ _ _ Hs) as (l & g & _ & _ & Hpo & _). unfold is_ended. by rewrite Hpo. }
  destruct (g_stop t) eqn:Hstop; cbn [orb].
  { exists j, k, s. split_and!; [done..|]. split; [done|]. rewrite Ht. by left. }
  destruct (Receiver.ended_ (recv s)) eqn:He.
  { exists j, k, s. split_and!; [done..|]. split; [done|]. rewrite Ht. by right. }
  destruct (body_ok every turns j k t s Hs Ht (Forall_lookup_1 _ _ _ _ Hg Ht)) as (k1 & s1 & -> & Hs1). rewrite bind_Ok.
  apply (IH (S j) k1); [done|lia| |lia]. intros i Hi. destruct (decide (i = j)) as [->|]; [by exists t|apply Hbefore; lia].
Qed.

Lemma start_poll every turns : at_poll every turns 0 0 (mkState (Receiver.construct session) (Ok init) 0 []).
Proof.
  constructor; cbn [recv h frames printed]; try done; [apply Receiver.construct_rcv_inv|].
  exists init, Builder.init. split_and!; [done|done|done|apply init_same].
Qed.

End Feed.

(** ** Properties *)

(** C29: the live program prints what the replay program would: over a network
    that loses, repeats, reorders and cuts a session's packets in any way (no
    packet of the session carrying other messages than its own), whenever the
    signal arrives, it never fails.  It polls until the signal or the end of the
    session; the last summary is the replay program's report (map-based books) on
    the messages the receiver has delivered in those polls, which are a prefix of
    the session, with the receiver's own figures; and on the way it prints, after
    each poll by which the messages delivered are a positive multiple of
    [report_every], that report as it stands after that poll, and nothing
    else. *)
Theorem live_summaries_exact (feed : list (list Z)) (session : Mold.SessionId) (report_every : Z) (turns : list turn)
  (Hsession : Mold.wf_session session) (Hlen : Z.of_nat (length feed) < 9223372036854775808)
  (Hin : Forall (fun t => Receiver.genuine_input feed session (datagram t, requests t)) turns) :
  exists n k r g last,
    stops_after session turns n /\ polled session turns n = Ok (k, r, Ok g) /\ after feed k = Ok g /\
    Receiver.next_seq_ r = Z.of_nat k + 1 /\ shown session turns n = Some last /\
    run session report_every turns = Ok (omap (periodic session report_every turns) (seq 1 n), last).
Proof.
  unfold run.
  destruct (loop_ok feed session Hsession Hlen report_every turns 0 0 _ (start_poll feed session report_every turns)) as
    (n & k & s & Hrun & [Hr Hn Hf (l & g & Hl & Hg & Hpo & Hs) Hp] & Hstop); [lia|lia|done|].
  rewrite drop_0 in Hrun. destruct (shows_report session turns n k l g (recv s) Hpo Hs) as (m & Hm & Hshow).
  exists n, k, (recv s), g, m. split_and!; try done. by rewrite Hrun, bind_Ok, Hl, bind_Ok, Hf, Hm, bind_Ok, Hp.
Qed.

(** The built-in session over the network: the first three messages; then the
    last four, whose gap is filled by a request; a poll that times out; and the
    signal.  Summaries are printed after 3 and 9 messages, the second again
    after the time-out. *)
Definition sample_feed : list (list Z) := Wire.frames Replay.selftest_data.

Definition sample_packet (first count : nat) : list Z :=
  Mold.packed (Mold.mkHeader Receiver.sample_session (Z.of_nat first + 1) (Z.of_nat count)) ++
  Encode.stream (take count (drop first sample_feed)).

Definition sample_turns : list turn :=
  [mkTurn false (sample_packet 0 3) []; mkTurn false (sample_packet 5 4) [Receiver.Recv (sample_packet 3 2) false];
   mkTurn false [] []; mkTurn true [] []].

Lemma sample_turns_genuine :
  Forall (fun t => Receiver.genuine_input sample_feed Receiver.sample_session (datagram t, requests t)) sample_turns.
Proof.
  repeat apply Forall_cons_2; try apply Forall_nil_2; (split; [apply Receiver.packet_genuine; vm_compute; reflexivity|]);
    repeat apply Forall_cons_2; try apply Forall_nil_2. apply Receiver.packet_genuine; vm_compute; reflexivity.
Qed.

Lemma live_summaries_exact_witness :
  exists out last, run Receiver.sample_session 3 sample_turns = Ok (out, last) /\
    m_frames <$> out = [3; 9; 9] /\ m_frames last = 9 /\ m_books last = 2%nat /\ m_open_orders last = 2 /\
    m_requests last = 1 /\ m_unknown_refs last = 0.
Proof.
  destruct (live_summaries_exact sample_feed Receiver.sample_session 3 sample_turns (proj1 Mold.sample_header_wf))
    as (n & k & r & g & last & H1 & H2 & H3 & H4 & H5 & H6).
  - reflexivity.
  - exact sample_turns_genuine.
  - eexists _, last. split; [exact H6|].
    assert (n = 3%nat) as Hn.
    { destruct H1 as [Hb Ha]. destruct n as [|[|[|[|n]]]].
      - destruct Ha as [Ha|Ha]; vm_compute in Ha; discriminate Ha.
      - destruct Ha as [Ha|Ha]; vm_compute in Ha; discriminate Ha.
      - destruct Ha as [Ha|Ha]; vm_compute in Ha; discriminate Ha.
      - reflexivity.
      - destruct (Hb 3%nat ltac:(lia)) as (t & Ht & Hs & _). injection Ht as <-. discriminate Hs. }
    subst n. vm_compute in H5. injection H5 as <-. vm_compute. repeat split; reflexivity.
Defined.

(** "a summary every N decoded frames" is not what the loop prints: once
    the count stands at a multiple of N, every poll that times out prints the
    same summary again, one per turn. *)
Theorem idle_polls_repeat_summary (report_every : Z) (n : nat) (s : state) (hb : BookBuilder)
  (Hdue : due report_every (frames s) = true) (Hframes : is_u64 (frames s)) (Hrunning : Receiver.ended_ (recv s) = false)
  (Hh : h s = Ok hb) (Hcounts : length (counts hb) = 256%nat) :
  exists m, report hb (frames s) (recv s) = Ok m /\
    loop report_every (replicate n (mkTurn false [] [])) s =
      Ok (mkState (recv s) (h s) (frames s) (printed s ++ replicate n m)).
Proof.
  assert (exists m, report hb (frames s) (recv s) = Ok m) as (m & Hm).
  { unfold report. destruct (foldl _ _ _) as [[o b] a].
    destruct (Replay.types_loop_returns 256 0 (counts hb)) as (ts & ->); [by rewrite Hcounts|]. by eexists. }
  exists m. split; [done|]. destruct s as [r hh f out]. cbn in *. revert out.
  induction n as [|n IH]; intros out; cbn [replicate loop]; [by rewrite app_nil_r|].
  cbn [g_stop orb]. cbn [recv]. rewrite Hrunning. unfold body. cbn [datagram requests recv h frames printed].
  unfold Receiver.poll. cbn [length]. rewrite (proj2 (Nat.ltb_lt _ _)) by (unfold Mold.kHeaderLen, Mold.kSessionLen; lia).
  rewrite bind_Ok, Z.add_0_r, u64_id, Hdue, Hh, bind_Ok, Hm, bind_Ok by done. rewrite <- Hh.
  rewrite bind_Ok, IH.
  do 2 f_equal. by rewrite <- app_assoc.
Qed.

Lemma idle_polls_repeat_summary_witness :
  exists m, loop 5 (replicate 3 (mkTurn false [] [])) (mkState (Receiver.construct Receiver.sample_session) (Ok init) 10 []) =
    Ok (mkState (Receiver.construct Receiver.sample_session) (Ok init) 10 [m; m; m]).
Proof.
  destruct (idle_polls_repeat_summary 5 3 (mkState (Receiver.construct Receiver.sample_session) (Ok init) 10 []) init)
    as (m & _ & H); try reflexivity; [cbn; u32c|].
  exists m. exact H.
Defined.

End Live.
