(* ===== verification/Demo.v ===== *)
(** * Demo: the multicast sender program and the live program's command line

    Models src/multicast_sender_main.cpp (its session, options, and [main]
    with the grace period in which it serves retransmission requests) and
    [main] of src/live_replay_main.cpp around [Live.run].  The two programs
    are written to be run as a pair; the theorems run them so, over a network
    that loses nothing and over one whose losses the receiver can repair.

    What the request channel receives until the deadline, one datagram (or
    nothing) per call, is an input of the sender program. *)

From S2P Require Import Prelude Wire Encode Book OrderBook Builder Mold Sender Receiver Session Recovery Conv Os Handles Replay Live.
Import Os.

Module Demo.

(** ** The sender program *)

(** The string literals of the two programs, as bytes. *)
Definition kSessionId : list Z := [73; 84; 67; 72; 68; 69; 77; 79; 48; 49].
Definition kLiveSessionId : list Z := [73; 84; 67; 72; 68; 69; 77; 79; 48; 49].

Definition synthetic_session : list Z :=
  Encode.stream
    [Encode.header [] 83 0 1 ++ [79];
     Encode.add_order 1 100 1001 Wire.Buy 300 [65; 65; 80; 76] 1500000;
     Encode.add_order 1 110 1002 Wire.Buy 200 [65; 65; 80; 76] 1499900;
     Encode.add_order 1 120 2001 Wire.Sell 500 [65; 65; 80; 76] 1500100;
     Encode.add_order 2 130 3001 Wire.Buy 1000 [77; 83; 70; 84] 4200000;
     Encode.executed 1 140 1001 300 90001;
     Encode.cancel 1 150 2001 100;
     Encode.replace 2 160 3001 3002 800 4199500;
     Encode.del 1 170 1002].

(** Group and ports. *)
Record channel := mkChannel { group : string; data_port : Z; request_port : Z }.

(** The options of the sender's [main]; [None] is the usage text. *)
Definition sender_options (argv : list string) : outcome (option channel) :=
  if (length argv =? 4)%nat then
    group ← rd argv 1;
    a2 ← rd argv 2; data ← Conv.atoi a2;
    a3 ← rd argv 3; request ← Conv.atoi a3;
    Ok (Some (mkChannel group (u16 data) (u16 request)))
  else if negb (length argv =? 1)%nat then Ok None
  else Ok (Some (mkChannel "239.255.0.1" 12345 12346)).

(** The grace period: [serve_one_request] until the deadline.  The datagrams
    sent in reply. *)
Fixpoint grace (tx : Sender.MoldUdp64Sender) (received : list (list Z)) : outcome (list (list Z)) :=
  match received with
  | [] => Ok []
  | buf :: received =>
    '(_, pkts) ← Sender.serve_one_request tx buf;
    more ← grace tx received;
    Ok (pkts ++ more)
  end.

(** What the sender program puts on its two channels. *)
Record wire := mkWire { sent : list (list Z); replies : list (list Z) }.

Definition sender_body (received : list (list Z)) : outcome wire :=
  session ← Mold.make_session kSessionId;
  tx ← Sender.load synthetic_session (Sender.mkSender session []);
  sent ← Sender.send_all tx (fun _ => false);
  replies ← grace tx received;
  Ok (mkWire sent replies).

Definition sender_main (argv : list string) (received : list (list Z)) : M (Z * option wire) :=
  opts ← Replay.lift (sender_options argv);
  match opts with
  | None => mret (2, None)
  | Some _ =>
    Replay.guarded (scope (T := Handles.MoldSender) (fun _ =>
      out ← Replay.lift (sender_body received); mret (0, Some out)))
  end.

(** ** The live program *)

Record live_options := mkLive { channels : channel; report_every : Z; request_host : string }.

Definition live_main_options (argv : list string) : outcome (option live_options) :=
  let argc := length argv in
  if (argc =? 5)%nat || (argc =? 6)%nat then
    group ← rd argv 1;
    a2 ← rd argv 2; data ← Conv.atoi a2;
    a3 ← rd argv 3; request ← Conv.atoi a3;
    a4 ← rd argv 4; every ← Conv.atoll a4;
    host ← (if (argc =? 6)%nat then rd argv 5 else Ok "127.0.0.1"%string);
    Ok (Some (mkLive (mkChannel group (u16 data) (u16 request)) (u64 every) host))
  else if negb (argc =? 1)%nat then Ok None
  else Ok (Some (mkLive (mkChannel "239.255.0.1" 12345 12346) 5 "127.0.0.1")).

(** [run], with the receiver around [Live.run], inside [main]. *)
Definition live_main (argv : list string) (turns : list Live.turn) : M (Z * option (list Live.Summary * Live.Summary)) :=
  opts ← Replay.lift (live_main_options argv);
  match opts with
  | None => mret (2, None)
  | Some o =>
    Replay.guarded (
      session ← Replay.lift (Mold.make_session kLiveSessionId);
      @scope _ _ (Handles.mold_receiver_raii true) (fun _ =>
        out ← Replay.lift (Live.run session (report_every o) turns); mret (0, Some out)))
  end.

(** ** What the sender sends *)

Definition demo_session : Mold.SessionId := kSessionId.

Lemma demo_session_wf : Mold.wf_session demo_session.
Proof. split; [reflexivity|]. apply (bool_decide_unpack _). vm_compute. exact I. Qed.

Lemma both_sessions : Mold.make_session kSessionId = Ok demo_session /\ Mold.make_session kLiveSessionId = Ok demo_session.
Proof. split; reflexivity. Qed.

Lemma synthetic_selftest : synthetic_session = Replay.selftest_data.
Proof. reflexivity. Qed.

Definition demo_messages : list (list Z) := Wire.frames synthetic_session.

Lemma demo_count : length demo_messages = 9%nat.
Proof. vm_compute. reflexivity. Qed.

Definition demo_sent : list (list Z) :=
  Sender.sent demo_session (fun _ => false) 0 (Sender.block <$> demo_messages) ++
    [Session.end_packet demo_session (length demo_messages)].

Definition demo_sender : Sender.MoldUdp64Sender := Sender.mkSender demo_session (Sender.block <$> demo_messages).

Lemma demo_sends received replies : grace demo_sender received = Ok replies ->
  sender_body received = Ok (mkWire demo_sent replies).
Proof.
  intros Hg. unfold sender_body. rewrite (proj1 both_sessions), bind_Ok, Sender.load_ok, bind_Ok
    by (rewrite synthetic_selftest; exact Replay.selftest_bytes).
  cbn [Sender.session_]. fold demo_messages. rewrite Session.send_all_ok, bind_Ok
    by (exact demo_session_wf || (vm_compute; reflexivity)).
  fold demo_sender. by rewrite Hg.
Qed.

(** Any datagram can be served. *)
Lemma reply_loop_returns s hdr n k : Mold.wf_session (Sender.session_ s) -> exists pkts, Sender.reply_loop s hdr n k = Ok pkts.
Proof.
  intros Hs. revert k. induction n as [|n IH]; intros k; cbn [Sender.reply_loop]; [by eexists|]. cbv zeta.
  pose proof (u64_range (Mold.seq hdr + k)) as Hr. unfold is_u64 in Hr. set (seq := u64 (Mold.seq hdr + k)) in *.
  destruct (Z.ltb_spec seq 1) as [|H1]; [by eexists|].
  destruct (Z.ltb_spec (Z.of_nat (length (Sender.messages_ s))) seq) as [|H2]; [by eexists|]. cbn [orb].
  destruct (rd_ok (Sender.messages_ s) (Z.to_nat (seq - 1)) ltac:(lia)) as (m & -> & _).
  destruct (IH (k + 1)) as (pkts & ->). rewrite bind_Ok, Sender.packet_ok, !bind_Ok by done. by eexists.
Qed.

Lemma grace_returns received : Forall Wire.bytes received -> exists replies, grace demo_sender received = Ok replies.
Proof.
  induction 1 as [|buf received Hb Hr (more & IH)]; cbn [grace]; [by eexists|].
  assert (exists r, Sender.serve_one_request demo_sender buf = Ok r) as ([ok pkts] & ->).
  { unfold Sender.serve_one_request. destruct (Nat.ltb_spec (length buf) Mold.kHeaderLen); [by eexists|].
    rewrite Mold.decode_ok, bind_Ok by (done || lia). destruct (negb _); [by eexists|].
    destruct (reply_loop_returns demo_sender (Mold.header_at buf 0) (Z.to_nat (Mold.count (Mold.header_at buf 0))) 0) as (pkts & ->);
      [exact demo_session_wf|]. by eexists. }
  rewrite bind_Ok, IH, bind_Ok. by eexists.
Qed.

(** ** The live program on a network *)

(** The polls that receive a datagram; the others time out. *)
Definition polls (turns : list Live.turn) : list (list Z * list Receiver.turn) :=
  filter (fun p => p.1 <> []) ((fun t => (Live.datagram t, Live.requests t)) <$> turns).

Definition busy (turns : list Live.turn) : list (list Z) := (polls turns).*1.

(** The packets, numbered from [i], that a network losing those of
    [should_drop] brings. *)
Fixpoint carried (should_drop : Z -> bool) (i : nat) (pkts : list (list Z)) : list (list Z) :=
  match pkts with
  | [] => []
  | p :: pkts => (if should_drop (Z.of_nat i + 1) then [] else [p]) ++ carried should_drop (S i) pkts
  end.

Lemma carried_sent session should_drop i ms e : should_drop (Z.of_nat (i + length ms) + 1) = false ->
  carried should_drop i (Sender.sent session (fun _ => false) i ms ++ [e]) = Sender.sent session should_drop i ms ++ [e].
Proof.
  revert i. induction ms as [|m ms IH]; intros i; cbn [length Sender.sent app carried].
  - rewrite Nat.add_0_r. by intros ->.
  - rewrite Nat.add_succ_r, <- app_assoc. intros Hd. by rewrite (IH (S i) Hd).
Qed.

Lemma carried_all i pkts : carried (fun _ => false) i pkts = pkts.
Proof. revert i. induction pkts as [|p pkts IH]; intros i; [done|]. cbn. by rewrite IH. Qed.

Section Network.
Variables (session : Mold.SessionId) (every : Z).
Hypothesis wf_sess : Mold.wf_session session.

(** The loop has decoded [k] messages and its builder is [g], the replay
    program's. *)
Definition stands (k : nat) (g : Builder.BookBuilder OrderBook.OrderBook) (s : Live.state) : Prop :=
  Live.frames s = Z.of_nat k /\ exists l, Live.h s = Ok l /\ Live.same l g.

(** A turn whose poll is known. *)
Lemma body_polled t s k n r l g : Live.frames s = Z.of_nat k -> Z.of_nat (k + n) < 9223372036854775808 ->
  Receiver.poll (Live.datagram t) (Live.requests t) (Live.recv s) (Live.h s) = Ok (n, r, Ok l) -> Live.same l g ->
  exists out, Live.body every t s = Ok (Live.mkState r (Ok l) (Z.of_nat (k + n)) out).
Proof.
  intros Hf Hk Hp Hs. unfold Live.body. rewrite Hp, bind_Ok, Hf. cbv zeta.
  assert (u64 (Z.of_nat k + Z.of_nat n) = Z.of_nat (k + n)) as -> by (rewrite u64_id; [|unfold is_u64]; lia).
  destruct (Live.due every (Z.of_nat (k + n))); [|by eexists]. rewrite bind_Ok.
  destruct (Live.report_same l g 0 0%nat (Z.of_nat (k + n)) r Hs) as (rep & _ & ->). rewrite bind_Ok. by eexists.
Qed.

Lemma loop_follows tx q pkts turns k l asks g s :
  Recovery.leads session tx q pkts (Live.recv s) (Live.h s) l asks -> busy turns = pkts ->
  Recovery.served tx (polls turns) (Live.recv s) (Live.h s) -> Forall (fun t => Live.g_stop t = false) turns ->
  Z.of_nat (k + length l) < 9223372036854775808 -> stands k g s ->
  exists s' g', Live.loop every turns s = Ok s' /\ Session.idle session q true (Live.recv s') /\
    length (Receiver.requests_ (Live.recv s')) = (length (Receiver.requests_ (Live.recv s)) + asks)%nat /\
    stands (k + length l) g' s' /\ foldl Wire.apply_event (Ok g) (Wire.frame_event <$> l) = Ok g'.
Proof.
  intros Hl Hbusy Hserved Hgo. revert pkts k l asks g s Hl Hbusy Hserved.
  induction Hgo as [|t turns Ht Hgo IH]; intros [|buf pkts] k l asks g s; cbn [Recovery.leads]; try done.
  1,2: intros (Hidle & -> & ->) _ _ _ Hs; exists s, g; cbn [length fmap list_fmap foldl]; rewrite !Nat.add_0_r;
    pose proof Hidle as (_ & _ & _ & Hend); cbn [Live.loop]; rewrite ?Hend, ?orb_true_r; done.
  intros Hl Hbusy Hserved Hk (Hf & b & Hb & Hsame). pose proof Hl as [Hend Hnext]. cbn [Live.loop]. rewrite Ht, Hend. cbn [orb].
  unfold busy, polls in Hbusy, Hserved. cbn [fmap list_fmap] in Hbusy, Hserved. rewrite filter_cons in Hbusy, Hserved.
  cbn [fst] in Hbusy, Hserved. case_decide as Hd.
  2: {
    destruct (body_polled t s k 0 (Live.recv s) b g Hf ltac:(lia)) as (out & ->); [by rewrite Hd, Hb|done|].
    rewrite bind_Ok, Nat.add_0_r. rewrite Hb in Hl, Hserved. apply (IH (buf :: pkts) k l asks g (Live.mkState (Live.recv s) (Ok b) (Z.of_nat k) out)); try done. split; [done|]. by exists b. }
  cbn [fmap list_fmap fst Recovery.served] in Hbusy, Hserved. injection Hbusy as <- Hbusy.
  destruct Hnext as (l1 & l2 & s1 & a1 & a2 & -> & -> & [Hadv _] & Hreq & Hl2), Hserved as (n & s1' & h1 & Hp & Ha & Hserved).
  destruct (Hadv _ _ _ _ Hp Ha) as (-> & -> & ->). rewrite length_app in Hk. rewrite Hb in *.
  destruct (Live.events_same (Wire.frame_event <$> l1) b g Hsame) as (b1 & g1 & E1 & E2 & Hsame1). rewrite E1 in *.
  destruct (body_polled t s k (length l1) s1 b1 g1 Hf ltac:(lia)) as (out & ->); [by rewrite Hb|done|]. rewrite bind_Ok.
  destruct (IH pkts (k + length l1)%nat l2 a2 g1 (Live.mkState s1 (Ok b1) (Z.of_nat (k + length l1)) out)) as (s' & g' & -> & Hi & Hr & Hs' & Hg');
    [done..|lia|split; [done|by exists b1]|].
  exists s', g'. rewrite fmap_app, foldl_app, E2, length_app. cbn [Live.recv] in Hr.
  replace (k + (length l1 + length l2))%nat with (k + length l1 + length l2)%nat by lia. split_and!; try done. lia.
Qed.

(** Over a network whose losses the receiver recovers from the last summary is
    the replay program's report of the file. *)
Lemma network_run framed should_drop turns : Wire.bytes framed -> Z.of_nat (length framed) < 4611686018427387904 ->
  let fs := Wire.frames framed in
  Recovery.recovers (Recovery.losses should_drop 0 (length fs)) 0 0 = true ->
  Forall (fun t => Live.g_stop t = false) turns ->
  busy turns = Sender.sent session should_drop 0 (Sender.block <$> fs) ++ [Session.end_packet session (length fs)] ->
  Recovery.served (Sender.mkSender session (Sender.block <$> fs)) (polls turns) (Receiver.construct session) (Ok Live.init) ->
  exists printed recv (g : Builder.BookBuilder OrderBook.OrderBook) r,
    Live.run session every turns = Ok (printed, Live.summary_of r (Z.of_nat (length fs)) recv) /\
    Session.idle session (Z.of_nat (length fs) + 1) true recv /\
    length (Receiver.requests_ recv) = Recovery.count_losses (Recovery.losses should_drop 0 (length fs)) /\
    Wire.parse_stream framed (length framed) (Ok Builder.init) = Ok (length fs, Ok g) /\
    Replay.report g (Z.of_nat (length framed)) (length fs) = Ok r.
Proof.
  intros Hb Hlen fs Hrec Hgo Hbusy Hserved. pose proof (Session.frames_count framed) as Hc. fold fs in Hc.
  pose proof (Recovery.whole_session session wf_sess fs should_drop (Ok Live.init) (Wire.frames_wf framed Hb) ltac:(lia) Hrec) as Hl.
  destruct (loop_follows _ _ _ turns 0 fs _ Builder.init (Live.mkState (Receiver.construct session) (Ok Live.init) 0 []) Hl)
    as (s & g & Hrun & Hidle & Hreq & (Hf & l & Hh & Hs) & Hg); [done..|lia| |].
  { split; [done|]. exists Live.init. split; [done|apply Live.init_same]. }
  destruct (Live.report_same l g (Z.of_nat (length framed)) (length fs) (Live.frames s) (Live.recv s) Hs) as (r & Hr & Hrep).
  exists (Live.printed s), (Live.recv s), g, r. unfold Live.run. rewrite Hrun, bind_Ok, Hh, bind_Ok, Hrep, bind_Ok, Hf.
  do 3 (split; [done|]). split; [|done].
  rewrite Wire.parse_stream_frames, firstn_all by done. unfold Wire.events. fold fs. by rewrite Hg.
Qed.

(** A live loop for given polls. *)
Lemma turns_for inputs : Forall (fun p => p.1 <> []) inputs ->
  polls ((fun p => Live.mkTurn false p.1 p.2) <$> inputs) = inputs.
Proof.
  intros Hin. unfold polls. induction Hin as [|[d r] inputs Hp Hin IH]; [done|].
  cbn [fmap list_fmap Live.datagram Live.requests fst snd] in *. rewrite filter_cons, decide_True by done. by rewrite IH.
Qed.

End Network.

(** ** The programs *)

Lemma b_sender w argv received o : sender_options argv = Ok (Some o) -> Forall Wire.bytes received ->
  exists replies, grace demo_sender received = Ok replies /\
    balanced w (sender_main argv received)
      (fun r _ => r = if Handles.sender_opens w then (0, Some (mkWire demo_sent replies)) else (1, None)) (fun _ => False).
Proof.
  intros Ho Hb. destruct (grace_returns received Hb) as (replies & Hg). exists replies. split; [done|].
  unfold sender_main. eapply Replay.b_lift_then; [exact Ho|].
  eapply b_conseq; [apply (Replay.b_guarded _ _ (fun r _ => r = (0, Some (mkWire demo_sent replies)) /\ Handles.sender_opens w = true)
    (fun _ => Handles.sender_opens w = false) (fun _ => False))| |done].
  - apply (b_scope w _ (fun _ _ => Handles.sender_opens w = true)); [apply Handles.keeps_mold_sender_destroy|apply Handles.p_mold_sender|].
    intros tx w1 _ Hopen. eapply Replay.b_lift_then; [by apply demo_sends|]. by apply b_ret.
  - by intros r l [[-> ->]|[-> ->]].
Qed.

Lemma b_live w argv turns o res : live_main_options argv = Ok (Some o) -> Live.run demo_session (report_every o) turns = Ok res ->
  balanced w (live_main argv turns) (fun r _ => r = if succeed 0 8 w then (0, Some res) else (1, None)) (fun _ => False).
Proof.
  intros Ho Hrun. unfold live_main. eapply Replay.b_lift_then; [exact Ho|].
  eapply b_conseq; [apply (Replay.b_guarded _ _ (fun r _ => r = (0, Some res) /\ succeed 0 8 w = true)
    (fun _ => succeed 0 8 w = false) (fun _ => False))| |done].
  - eapply Replay.b_lift_then; [apply both_sessions|].
    apply (@b_scope _ _ (Handles.mold_receiver_raii true) w _ (fun _ _ => succeed 0 8 w = true));
      [apply Handles.keeps_mold_receiver_destroy|apply Handles.p_mold_receiver|].
    intros rx w1 _ Hopen. eapply Replay.b_lift_then; [exact Hrun|]. by apply b_ret.
  - by intros r l [[-> ->]|[-> ->]].
Qed.

(** The network between the programs: it loses the packets of [should_drop],
    the others come in order with any number of polls that time out between
    them, and the request channel brings the sender's answers. *)
Record hears (should_drop : Z -> bool) (out : wire) (turns : list Live.turn) : Prop := {
  hears_on : Forall (fun t => Live.g_stop t = false) turns;
  hears_data : busy turns = carried should_drop 0 (sent out);
  hears_replies : Recovery.served demo_sender (polls turns) (Receiver.construct demo_session) (Ok Live.init) }.

(** Every loss among the nine messages is repaired, and the end of the session
    is heard. *)
Definition recoverable (should_drop : Z -> bool) : bool :=
  Recovery.recovers (Recovery.losses should_drop 0 9) 0 0 && negb (should_drop 10).

Lemma carried_demo should_drop replies : should_drop 10 = false ->
  carried should_drop 0 (sent (mkWire demo_sent replies)) =
    Sender.sent demo_session should_drop 0 (Sender.block <$> demo_messages) ++ [Session.end_packet demo_session 9].
Proof. intros Hd. by apply carried_sent. Qed.

(** Nothing in the session is an empty datagram. *)
Lemma carried_nonempty should_drop : Forall (fun d => d <> []) (carried should_drop 0 demo_sent).
Proof.
  assert (Forall (fun d => d <> []) demo_sent) as Hd by (apply (bool_decide_unpack _); vm_compute; exact I).
  generalize 0%nat. induction Hd as [|d ds Hd Hds IH]; intros i; [by apply Forall_nil_2|]. cbn [carried].
  apply Forall_app_2; [|apply IH]. case_match; [apply Forall_nil_2|by apply Forall_singleton].
Qed.

(** Such a network exists. *)
Lemma can_hear should_drop replies : recoverable should_drop = true -> exists turns, hears should_drop (mkWire demo_sent replies) turns.
Proof.
  intros [Hrec Hend%negb_true_iff]%andb_true_iff.
  pose proof (Recovery.whole_session demo_session demo_session_wf demo_messages should_drop (Ok Live.init)
    (Wire.frames_wf _ Replay.selftest_bytes) ltac:(vm_compute; reflexivity) Hrec) as Hl.
  apply Recovery.leads_served in Hl as (inputs & Hin & Hserved).
  exists ((fun p => Live.mkTurn false p.1 p.2) <$> inputs).
  assert (polls ((fun p => Live.mkTurn false p.1 p.2) <$> inputs) = inputs) as Hpolls.
  { apply turns_for. apply (Forall_fmap fst (fun d => d <> [])). rewrite Hin.
    change (length demo_messages) with 9%nat. rewrite <- (carried_demo should_drop []) by done. apply carried_nonempty. }
  constructor; unfold busy; rewrite ?Hpolls; [|by rewrite Hin, carried_demo|done].
  apply Forall_fmap, Forall_true. done.
Qed.

(** The live program on such a network. *)
Lemma live_reproduces rx_argv o should_drop replies turns w : live_main_options rx_argv = Ok (Some o) ->
  recoverable should_drop = true -> hears should_drop (mkWire demo_sent replies) turns ->
  exists printed recv w',
    live_main rx_argv turns w =
      (Ok (if succeed 0 8 w then (0, Some (printed, Live.summary_of Replay.selftest_report 9 recv)) else (1, None)), w') /\
    held w' = held w /\ Session.idle demo_session 10 true recv /\
    length (Receiver.requests_ recv) = Recovery.count_losses (Recovery.losses should_drop 0 9).
Proof.
  intros Ho [Hrec Hend%negb_true_iff]%andb_true_iff [Hgo Hbusy Hserved]. rewrite carried_demo in Hbusy by done.
  pose proof (network_run demo_session (report_every o) demo_session_wf synthetic_session should_drop turns
    Replay.selftest_bytes ltac:(vm_compute; reflexivity)) as Hnet.
  cbv zeta in Hnet. fold demo_messages in Hnet. rewrite demo_count in Hnet.
  destruct (Hnet Hrec Hgo Hbusy Hserved) as (printed & recv & g & r & Hrun & Hidle & Hreq & Hparse & Hrep).
  assert (r = Replay.selftest_report) as ->.
  { pose proof (proj1 Replay.selftest_prints) as Hself. unfold Replay.run in Hself.
    rewrite <- synthetic_selftest, Hparse, !bind_Ok, Hrep in Hself. by injection Hself. }
  pose proof (b_live w rx_argv turns o _ Ho Hrun) as Hrx. unfold balanced in Hrx.
  destruct (live_main rx_argv turns w) as [[rx| | |] w']; [|destruct Hrx as [_ []]|destruct Hrx..]. destruct Hrx as [Hw ->].
  exists printed, recv, w'. split; [reflexivity|]. split; [exact Hw|]. split; [exact Hidle|exact Hreq].
Qed.

(** ** Properties *)

(** With no arguments the two programs use the same group and ports. *)
Example default_channels_agree :
  sender_options ["multicast_sender"%string] = Ok (Some (mkChannel "239.255.0.1" 12345 12346)) /\
  channels <$> (match live_main_options ["live_replay"%string] with Ok o => o | _ => None end) =
    Some (mkChannel "239.255.0.1" 12345 12346).
Proof. split; reflexivity. Qed.

(** C14: run as a pair over a network that loses packets, the sender and the live
    program reproduce the replay program's self test: the sender ends with exit
    code 0, having put its session on the wire and served the requests of its
    grace period, if the calls that open its sockets succeed
    ([Handles.sender_opens]), and otherwise with exit code 1 having sent nothing;
    and if the network then loses any of its messages so that every loss is
    followed by the arrivals that repair it ([recoverable]), the others arriving
    in order with any number of idle polls between them, and the request channel
    brings what the sender answers to each poll's first request (which it always
    can), the live program ends by itself (no signal is needed): with exit code 1
    if one of the eight calls that open its sockets fails, and otherwise with
    exit code 0 and a last summary of exactly the books, totals and message
    counts of the self test, the session ended, nothing missing and one request
    made per lost message.  Either program gives back every descriptor. *)
Theorem lossy_pair_exact (tx_argv rx_argv : list string) (o1 : channel) (o2 : live_options) (received : list (list Z))
  (should_drop : Z -> bool) (w : world)
  (H1 : sender_options tx_argv = Ok (Some o1)) (H2 : live_main_options rx_argv = Ok (Some o2))
  (Hreceived : Forall Wire.bytes received) (Hlosses : recoverable should_drop = true) :
  exists replies w', grace demo_sender received = Ok replies /\
    let out := mkWire demo_sent replies in
    sender_main tx_argv received w = (Ok (if Handles.sender_opens w then (0, Some out) else (1, None)), w') /\ held w' = held w /\
    (exists turns, hears should_drop out turns) /\
    forall turns w2, hears should_drop out turns ->
      exists printed recv w2',
        live_main rx_argv turns w2 =
          (Ok (if succeed 0 8 w2 then (0, Some (printed, Live.summary_of Replay.selftest_report 9 recv)) else (1, None)), w2') /\
        held w2' = held w2 /\ Session.idle demo_session 10 true recv /\
        length (Receiver.requests_ recv) = Recovery.count_losses (Recovery.losses should_drop 0 9).
Proof.
  destruct (b_sender w tx_argv received o1 H1 Hreceived) as (replies & Hg & Htx). unfold balanced in Htx.
  destruct (sender_main tx_argv received w) as [[tx| | |] w']; [|destruct Htx as [_ []]|destruct Htx..]. destruct Htx as [Hw ->].
  exists replies, w'. cbv zeta. split; [exact Hg|]. split; [reflexivity|]. split; [exact Hw|]. split; [by apply can_hear|]. intros turns w2 Hh. by eapply live_reproduces.
Qed.

(** The second, fourth and fifth messages are lost. *)
Definition sample_losses (q : Z) : bool := (q =? 2) || (q =? 4) || (q =? 5).

Lemma lossy_pair_exact_witness :
  recoverable sample_losses = true /\
  (exists w', sender_main ["multicast_sender"%string] [] (mkWorld ∅ []) = (Ok (0, Some (mkWire demo_sent [])), w') /\ held w' = ∅) /\
  (exists w', sender_main ["multicast_sender"%string] [] (mkWorld ∅ [Some 0; Some 0; Some 0; Some 0; Some 0; None]) = (Ok (1, None), w')) /\
  exists turns w2', live_main ["live_replay"%string] turns (mkWorld ∅ [None]) = (Ok (1, None), w2').
Proof.
  destruct (lossy_pair_exact ["multicast_sender"%string] ["live_replay"%string] (mkChannel "239.255.0.1" 12345 12346)
    (mkLive (mkChannel "239.255.0.1" 12345 12346) 5 "127.0.0.1") [] sample_losses (mkWorld ∅ []))
    as (replies & w' & E0 & E1 & E2 & (turns & Hh) & Hrx); [reflexivity|reflexivity|apply Forall_nil_2|reflexivity|].
  destruct (lossy_pair_exact ["multicast_sender"%string] ["live_replay"%string] (mkChannel "239.255.0.1" 12345 12346)
    (mkLive (mkChannel "239.255.0.1" 12345 12346) 5 "127.0.0.1") [] sample_losses
    (mkWorld ∅ [Some 0; Some 0; Some 0; Some 0; Some 0; None])) as (replies2 & w2 & _ & F1 & _);
    [reflexivity|reflexivity|apply Forall_nil_2|reflexivity|].
  destruct (Hrx turns (mkWorld ∅ [None]) Hh) as (printed & recv & w2' & G1 & _).
  injection E0 as <-. split; [reflexivity|]. split; [exists w'; split; [exact E1|exact E2]|]. split; [exists w2; exact F1|].
  exists turns, w2'. exact G1.
Defined.

(** A poll receives packet [n] of the session, and packet [m] in reply to its
    request. *)
Definition arrives_with (n : nat) (m : option nat) : Live.turn :=
  Live.mkTurn false (nth (n - 1) demo_sent []) (from_option (fun m => [Receiver.Recv (nth (m - 1) demo_sent []) false]) [] m).

Example lossy_pair_run :
  let turns := [arrives_with 1 None; arrives_with 3 (Some 2%nat); Live.mkTurn false [] []; arrives_with 6 (Some 4%nat);
    arrives_with 7 (Some 5%nat); arrives_with 8 None; arrives_with 9 None; arrives_with 10 None] in
  busy turns = carried sample_losses 0 demo_sent /\
  match Live.run demo_session 5 turns with
  | Ok (_, last) => (Live.m_frames last, Live.m_books last, Live.m_next_seq last, Live.m_pending last, Live.m_requests last, Live.m_ended last)
      = (9, 2%nat, 10, 0%nat, 3, true)
  | _ => False
  end.
Proof. split; vm_compute; reflexivity. Qed.

(** Without losses the request channel does not matter: the pair of programs
    as they are written, in which [should_drop] is never true. *)
Theorem demo_pair_exact (tx_argv rx_argv : list string) (o1 : channel) (o2 : live_options) (received : list (list Z)) (w : world)
  (H1 : sender_options tx_argv = Ok (Some o1)) (H2 : live_main_options rx_argv = Ok (Some o2))
  (Hreceived : Forall Wire.bytes received) :
  exists replies w', grace demo_sender received = Ok replies /\
    let out := mkWire demo_sent replies in
    sender_main tx_argv received w = (Ok (if Handles.sender_opens w then (0, Some out) else (1, None)), w') /\ held w' = held w /\
    forall turns w2, Forall (fun t => Live.g_stop t = false) turns -> busy turns = sent out ->
      exists printed recv w2',
        live_main rx_argv turns w2 =
          (Ok (if succeed 0 8 w2 then (0, Some (printed, Live.summary_of Replay.selftest_report 9 recv)) else (1, None)), w2') /\
        held w2' = held w2 /\ Session.idle demo_session 10 true recv.
Proof.
  destruct (b_sender w tx_argv received o1 H1 Hreceived) as (replies & Hg & Htx). unfold balanced in Htx.
  destruct (sender_main tx_argv received w) as [[tx| | |] w']; [|destruct Htx as [_ []]|destruct Htx..]. destruct Htx as [Hw ->].
  exists replies, w'. cbv zeta. split; [exact Hg|]. split; [reflexivity|]. split; [exact Hw|]. intros turns w2 Hgo Hbusy.
  destruct (live_reproduces rx_argv o2 (fun _ => false) replies turns w2 H2) as (printed & recv & w2' & E1 & E2 & E3 & _); [done| |].
  { constructor; [done|by rewrite carried_all|].
    apply (Recovery.lossless_served demo_session demo_session_wf demo_sender 9 demo_messages 0);
      [exact (Wire.frames_wf _ Replay.selftest_bytes)|by split_and!|vm_compute; reflexivity..|exact Hbusy]. }
  exists printed, recv, w2'. split; [exact E1|]. split; [exact E2|exact E3].
Qed.

Lemma demo_pair_exact_witness :
  exists w', sender_main ["multicast_sender"%string] [] (mkWorld ∅ []) = (Ok (0, Some (mkWire demo_sent [])), w') /\ held w' = ∅.
Proof.
  destruct (demo_pair_exact ["multicast_sender"%string] ["live_replay"%string] (mkChannel "239.255.0.1" 12345 12346)
    (mkLive (mkChannel "239.255.0.1" 12345 12346) 5 "127.0.0.1") [] (mkWorld ∅ [])) as (replies & w' & E0 & E1 & E2 & _).
  - reflexivity.
  - reflexivity.
  - apply Forall_nil_2.
  - injection E0 as <-. exists w'. split; [exact E1|exact E2].
Defined.

(** The pair on a network where nothing fails, an idle poll before each
    datagram. *)
Example demo_pair_run :
  match sender_main ["multicast_sender"%string] [[]; []] (mkWorld ∅ []) with
  | (Ok (0, Some out), _) =>
    match live_main ["live_replay"%string] (sent out ≫= fun d => [Live.mkTurn false [] []; Live.mkTurn false d []]) (mkWorld ∅ []) with
    | (Ok (0, Some (printed, last)), _) => (length printed, Live.m_frames last, Live.m_books last, Live.m_ended last) = (2%nat, 9, 2%nat, true)
    | _ => False
    end
  | _ => False
  end.
Proof. vm_compute. reflexivity. Qed.

End Demo.
