(* ===== verification/Synthetic.v ===== *)
(** * Synthetic: the benchmark's session generator

    Models bench/synthetic_session.hpp: [generate_synthetic_session] with its
    nine symbols, their pools of open orders, [wiggle_price] in binary64 and
    [lot_shares].  The standard library's random numbers are a class,
    [Random]: all that is used of a distribution is that its values are in its
    range.

    The reference is the replay of [Builder]: what the generator believes to
    be open is what every book holds, so that no message of the session is
    rejected. *)

From Stdlib Require Import SpecFloat.
From S2P Require Import Prelude Wire Encode Book OrderBook LadderBook Doubles Builder.

Module Synthetic.

(** ** Random numbers *)

(** An engine's states, with the two kinds of distribution drawn from. *)
Class Random (R : Type) := {
  uniform_int : Z -> Z -> R -> Z * R;
  discrete : list Z -> R -> nat * R;
  uniform_law a b r : a <= b -> a <= (uniform_int a b r).1 <= b;
  discrete_law weights r : Exists (fun w => 0 < w) weights -> ((discrete weights r).1 < length weights)%nat
}.

(** ** Constants *)

Definition kSeed : Z := 1234567.
Definition kTotalMessages : Z := 2200000.
Definition kTickSize : Z := 100.

Record SymbolSpec := mkSpec { spec_ticker : list Z; spec_mid : Z }.

(** Tickers as the bytes of their characters. *)
Definition kSymbols : list SymbolSpec :=
  [mkSpec [65; 65; 80; 76] 1500000; mkSpec [77; 83; 70; 84] 4200000; mkSpec [65; 77; 90; 78] 1785000;
   mkSpec [71; 79; 79; 71; 76] 1418000; mkSpec [77; 69; 84; 65] 5052500; mkSpec [78; 70; 76; 88] 6250000;
   mkSpec [84; 83; 76; 65] 2485000; mkSpec [78; 86; 68; 65] 1187500; mkSpec [65; 77; 68] 1672000].

Definition kNumSymbols : Z := 9.

Record OpenOrder := mkOpen { ref : Z; side : Wire.Side; price : Z; shares : Z }.

Definition kMsgTypes : list Z := [Wire.chA; Wire.chE; Wire.chC; Wire.chX; Wire.chD; Wire.chU].
Definition kMsgWeights : list Z := [55; 17; 5; 13; 6; 4].

Definition kBaseTs : Z := 34200000000000.
Definition kTsStep : Z := 9000000.

(** ** The generator *)

(** [static_cast<std::uint32_t>(x)]: undefined when the truncated value does
    not fit. *)
Definition to_u32 (x : Doubles.double) : outcome Z :=
  match Doubles.trunc x with
  | Some v => if (0 <=? v) && (v <? 4294967296) then Ok v else UB
  | None => UB
  end.

(** The price [mid] moved by [bps] hundredths of a percent, before rounding. *)
Definition moved (mid bps : Z) : outcome Z :=
  let factor := Doubles.add (Doubles.of_Z 1) (Doubles.div (Doubles.of_Z bps) (Doubles.of_Z 10000)) in
  to_u32 (Doubles.mul (Doubles.of_Z mid) factor).

Record Symbol := mkSymbol { locate : Z; ticker : list Z; mid_price : Z; open : list OpenOrder }.

Section Generator.
Context {R : Type} `{Random R}.

Definition wiggle_price (mid : Z) (rng : R) : outcome (Z * R) :=
  let '(bps, rng) := uniform_int (-500) 500 rng in
  raw ← moved mid bps;
  Ok (u32 (raw / kTickSize * kTickSize), rng).

Definition lot_shares (rng : R) : Z * R :=
  let '(lots, rng) := uniform_int 1 20 rng in (u32 (lots * 100), rng).

Record state := mkState {
  symbols : list Symbol; raw : list Z; next_ref : Z; next_match : Z; engine : R }.

Definition swap_remove (i : nat) (l : list OpenOrder) : outcome (list OpenOrder) :=
  back ← rd l (length l - 1);
  l ← wr l i back;
  Ok (take (length l - 1) l).

Definition with_open (sym : Symbol) (l : list OpenOrder) : Symbol :=
  mkSymbol (locate sym) (ticker sym) (mid_price sym) l.

(** [o.shares -= qty; if (o.shares == 0) swap_remove(idx);] *)
Definition reduce (l : list OpenOrder) (idx : nat) (o : OpenOrder) (qty : Z) : outcome (list OpenOrder) :=
  let o := mkOpen (ref o) (side o) (price o) (u32 (shares o - qty)) in
  l ← wr l idx o;
  if shares o =? 0 then swap_remove idx l else Ok l.

Definition side_of (pick : Z) : Wire.Side := if pick =? 0 then Wire.Buy else Wire.Sell.

(** The branch for an add. *)
Definition gen_add (s : state) (sym : Symbol) (ts : Z) (rng : R) : outcome (Symbol * state) :=
  let '(pick, rng) := uniform_int 0 1 rng in
  let side := side_of pick in
  '(price, rng) ← wiggle_price (mid_price sym) rng;
  let '(shares, rng) := lot_shares rng in
  let ref := next_ref s in
  Ok (with_open sym (open sym ++ [mkOpen ref side price shares]),
      mkState (symbols s) (Encode.frame (raw s) (Encode.add_order (locate sym) ts ref side shares (ticker sym) price))
        (u64 (next_ref s + 1)) (next_match s) rng).

(** The branches for a message about the open order at [idx]. *)
Definition gen_other (t : Z) (s : state) (sym : Symbol) (ts : Z) (idx : nat) (rng : R) : outcome (Symbol * state) :=
  o ← rd (open sym) idx;
  if t =? Wire.chE then
    let '(qty, rng) := uniform_int 1 (shares o) rng in
    l ← reduce (open sym) idx o qty;
    Ok (with_open sym l,
        mkState (symbols s) (Encode.frame (raw s) (Encode.executed (locate sym) ts (ref o) qty (next_match s)))
          (next_ref s) (u64 (next_match s + 1)) rng)
  else if t =? Wire.chC then
    let '(qty, rng) := uniform_int 1 (shares o) rng in
    let '(pick, rng) := uniform_int 0 1 rng in
    l ← reduce (open sym) idx o qty;
    Ok (with_open sym l,
        mkState (symbols s)
          (Encode.frame (raw s) (Encode.executed_price (locate sym) ts (ref o) qty (next_match s) (pick =? 0) (price o)))
          (next_ref s) (u64 (next_match s + 1)) rng)
  else if t =? Wire.chX then
    let '(qty, rng) := uniform_int 1 (shares o) rng in
    l ← reduce (open sym) idx o qty;
    Ok (with_open sym l,
        mkState (symbols s) (Encode.frame (raw s) (Encode.cancel (locate sym) ts (ref o) qty)) (next_ref s) (next_match s) rng)
  else if t =? Wire.chD then
    l ← swap_remove idx (open sym);
    Ok (with_open sym l,
        mkState (symbols s) (Encode.frame (raw s) (Encode.del (locate sym) ts (ref o))) (next_ref s) (next_match s) rng)
  else if t =? Wire.chU then
    let new_ref := next_ref s in
    '(new_price, rng) ← wiggle_price (mid_price sym) rng;
    let '(new_shares, rng) := lot_shares rng in
    l ← swap_remove idx (open sym);
    Ok (with_open sym (l ++ [mkOpen new_ref (side o) new_price new_shares]),
        mkState (symbols s)
          (Encode.frame (raw s) (Encode.replace (locate sym) ts (ref o) new_ref new_shares new_price))
          (u64 (next_ref s + 1)) (next_match s) rng)
  else Ok (sym, mkState (symbols s) (raw s) (next_ref s) (next_match s) rng).

(** The body of the loop over the messages. *)
Definition gen (i : nat) (s : state) : outcome state :=
  let '(pick, rng) := uniform_int 0 (kNumSymbols - 1) (engine s) in
  sym ← rd (symbols s) (Z.to_nat pick);
  let ts := u64 (kBaseTs + Z.of_nat i * kTsStep) in
  '(t, rng) ← match open sym with
    | [] => Ok (Wire.chA, rng)
    | _ => let '(k, rng) := discrete kMsgWeights rng in t ← rd kMsgTypes k; Ok (t, rng)
    end;
  '(sym, s) ←
    (if t =? Wire.chA then gen_add s sym ts rng
     else
       let '(idx, rng) := uniform_int 0 (Z.of_nat (length (open sym)) - 1) rng in
       gen_other t s sym ts (Z.to_nat idx) rng);
  symbols ← wr (symbols s) (Z.to_nat pick) sym;
  Ok (mkState symbols (raw s) (next_ref s) (next_match s) (engine s)).

Fixpoint gen_loop (n i : nat) (s : state) : outcome state :=
  match n with
  | O => Ok s
  | S n => s ← gen i s; gen_loop n (S i) s
  end.

Definition start (seeded : R) : state :=
  mkState (imap (fun i sp => mkSymbol (u16 (Z.of_nat i)) (spec_ticker sp) (spec_mid sp) []) kSymbols) [] 1 1 seeded.

Definition generate_synthetic_session (seeded : R) : outcome (list Z) :=
  s ← gen_loop (Z.to_nat kTotalMessages) 0 (start seeded);
  Ok (raw s).

End Generator.
Arguments state R : clear implicits.

(** ** Prices and quantities *)

Definition in_range (mid : Z) (k : nat) : bool :=
  match moved mid (Z.of_nat k - 500) with Ok raw => (0 <=? raw) && (raw <? 400000000) | _ => false end.

(** Every price the generator can draw, computed. *)
Lemma all_moves : forallb (fun mid => forallb (in_range mid) (List.seq 0 1001)) (spec_mid <$> kSymbols) = true.
Proof. vm_cast_no_check (eq_refl true). Qed.

Lemma moved_ok mid bps : mid ∈ spec_mid <$> kSymbols -> -500 <= bps <= 500 ->
  exists raw, moved mid bps = Ok raw /\ 0 <= raw < 400000000.
Proof.
  intros Hmid Hbps. pose proof all_moves as Hall. rewrite forallb_forall in Hall.
  specialize (Hall mid (proj1 (list_elem_of_In _ _) Hmid)). rewrite forallb_forall in Hall.
  specialize (Hall (Z.to_nat (bps + 500)) ltac:(apply in_seq; lia)). unfold in_range in Hall.
  replace (Z.of_nat (Z.to_nat (bps + 500)) - 500) with bps in Hall by lia.
  destruct (moved mid bps) as [raw| | |]; try done. exists raw. split; [done|]. lia.
Qed.

(** ** Pools *)

Definition resting (o : OpenOrder) : Z * Book.Order := (ref o, Book.mkOrder (shares o) (price o) (side o)).

(** The resting orders a pool stands for. *)
Definition pool (l : list OpenOrder) : gmap Z Book.Order := list_to_map (resting <$> l).

Definition refs (l : list OpenOrder) : list Z := ref <$> l.

Lemma resting_refs l : (resting <$> l).*1 = refs l.
Proof. unfold refs. rewrite <- list_fmap_compose. done. Qed.

Lemma pool_perm l k : NoDup (refs l) -> l ≡ₚ k -> pool l = pool k.
Proof. intros Hl Hp. apply list_to_map_proper; [by rewrite resting_refs|by rewrite Hp]. Qed.

Lemma pool_cons o l : pool (o :: l) = <[ref o := Book.mkOrder (shares o) (price o) (side o)]> (pool l).
Proof. done. Qed.

Lemma pool_None r l : r ∉ refs l -> pool l !! r = None.
Proof. intros Hr. apply not_elem_of_list_to_map_1. by rewrite resting_refs. Qed.

(** An order of a pool, the rest, and what the operations on its index leave. *)
Lemma pool_at (l : list OpenOrder) idx o : l !! idx = Some o ->
  exists rest, l ≡ₚ o :: rest /\ (forall o', <[idx := o']> l ≡ₚ o' :: rest) /\
    (exists l', swap_remove idx l = Ok l' /\ l' ≡ₚ rest).
Proof.
  intros Ho. pose proof (lookup_lt_Some _ _ _ Ho) as Hidx.
  exists (delete idx l). split_and!.
  - by apply delete_Permutation.
  - intros o'. rewrite insert_take_drop by done. rewrite delete_take_drop. by rewrite <- Permutation_middle.
  - unfold swap_remove. destruct (rd_ok l (length l - 1) ltac:(lia)) as (b & -> & Hb). rewrite bind_Ok.
    unfold wr. rewrite decide_True, bind_Ok by done. eexists. split; [done|]. rewrite length_insert.
    destruct (decide (idx = length l - 1)%nat) as [->|Hne].
    + rewrite take_insert_ge by lia. rewrite delete_take_drop. rewrite drop_ge by lia. by rewrite app_nil_r.
    + assert (l = take (length l - 1) l ++ [b]) as Hl.
      { rewrite <- take_S_r by done. by rewrite take_ge by lia. }
      rewrite take_insert_lt by lia. set (k := take (length l - 1) l) in *.
      assert (k !! idx = Some o) as Hk by (unfold k; rewrite lookup_take_lt by lia; done).
      rewrite insert_take_drop by (by eapply lookup_lt_Some). rewrite Hl at 1. rewrite delete_take_drop.
      pose proof (lookup_lt_Some _ _ _ Hk).
      rewrite take_app_le, drop_app_le by lia. rewrite <- Permutation_middle.
      rewrite (app_assoc (take idx k)). apply Permutation_cons_append.
Qed.

(** Pools of a symbol: distinct references already used, one to two thousand
    shares, prices every book admits. *)
Record good_pool (next : Z) (l : list OpenOrder) : Prop := {
  gp_nodup : NoDup (refs l);
  gp_orders : Forall (fun o => 1 <= ref o < next /\ 1 <= shares o <= 2000 /\ LadderBook.realistic_price (price o)) l }.

Lemma good_pool_perm next l k : l ≡ₚ k -> good_pool next l -> good_pool next k.
Proof. intros Hp [H1 H2]. constructor; [unfold refs in *; by rewrite <- Hp|by rewrite <- Hp]. Qed.

Lemma good_pool_tail next o l : good_pool next (o :: l) -> good_pool next l.
Proof. intros [H1 H2]. apply NoDup_cons in H1 as [_ H1]. apply Forall_cons_1 in H2 as [_ H2]. by constructor. Qed.

Lemma good_pool_mono next next' l : next <= next' -> good_pool next l -> good_pool next' l.
Proof. intros Hn [H1 H2]. constructor; [done|]. eapply Forall_impl; [exact H2|]. cbn. intros o (? & ? & ?). split_and!; lia || done. Qed.

Lemma good_pool_push next o l : good_pool next l -> ref o = next -> 1 <= next ->
  1 <= shares o <= 2000 -> LadderBook.realistic_price (price o) -> good_pool (next + 1) (o :: l) /\ pool l !! ref o = None.
Proof.
  intros Hl Hr Hn Hs Hp.
  assert (ref o ∉ refs l) as Hnew.
  { intros (x & Hx & Hin)%list_elem_of_fmap. pose proof (proj1 (Forall_forall _ _) (gp_orders _ _ Hl) _ Hin) as Hb. cbn in Hb. lia. }
  split; [|by apply pool_None]. apply (good_pool_mono _ (next + 1)) in Hl; [|lia]. destruct Hl as [H1 H2].
  constructor; [by apply NoDup_cons_2|]. apply Forall_cons_2; [|done]. split_and!; lia || done.
Qed.

(** Reducing an order of the pool is what the reference does to it. *)
Lemma reduce_ok next l idx o qty : good_pool next l -> l !! idx = Some o -> 1 <= qty <= shares o ->
  exists l', reduce l idx o qty = Ok l' /\ good_pool next l' /\
    Book.spec_reduce (ref o) qty (pool l) = (true, pool l').
Proof.
  intros Hg Ho Hq. destruct (pool_at l idx o Ho) as (rest & Hl & Hset & _).
  pose proof (good_pool_perm _ _ _ Hl Hg) as Hg'. pose proof (good_pool_tail _ _ _ Hg') as Hrest.
  pose proof (Forall_lookup_1 _ _ _ _ (gp_orders _ _ Hg) Ho) as (Hr & Hs & Hp).
  assert (ref o ∉ refs rest) as Hnew by (destruct Hg' as [Hn _]; by apply NoDup_cons in Hn as [? _]).
  unfold reduce. set (o' := mkOpen (ref o) (side o) (price o) (u32 (shares o - qty))).
  assert (u32 (shares o - qty) = shares o - qty) as Hu by (apply u32_id; unfold is_u32; lia).
  unfold wr. rewrite decide_True, bind_Ok by (by eapply lookup_lt_Some).
  assert (Book.spec_reduce (ref o) qty (pool l) =
    (true, if shares o - qty =? 0 then pool rest else pool (o' :: rest))) as ->.
  { rewrite (pool_perm l _ (gp_nodup _ _ Hg) Hl), pool_cons. unfold Book.spec_reduce. rewrite lookup_insert_eq.
    cbn [Book.ord_shares Book.ord_price Book.ord_side]. rewrite Z.min_l by lia. f_equal.
    destruct (shares o - qty =? 0); [by apply delete_insert_id, pool_None|].
    rewrite insert_insert_eq. unfold o'. by rewrite pool_cons, Hu. }
  cbv zeta. fold o'. replace (shares o') with (shares o - qty) by (cbn; lia).
  destruct (Z.eqb_spec (shares o - qty) 0) as [Hz|Hz].
  - destruct (pool_at (<[idx := o']> l) idx o') as (rest' & Hl' & _ & l' & -> & Hp').
    { apply list_lookup_insert_eq. by eapply lookup_lt_Some. }
    assert (l' ≡ₚ rest) as Hperm.
    { apply (Permutation_cons_inv (a := o')). rewrite Hp', <- Hl'. apply Hset. }
    exists l'. split_and!; [done|by apply (good_pool_perm _ rest)|]. f_equal. symmetry. apply pool_perm; [|done].
    destruct (good_pool_perm next rest l' (symmetry Hperm) Hrest). done.
  - assert (good_pool next (o' :: rest)) as Hg2.
    { destruct Hrest as [H1 H2]. constructor; [by apply NoDup_cons_2|]. apply Forall_cons_2; [|done]. cbn. split_and!; lia || done. }
    eexists. split_and!; [done|by apply (good_pool_perm _ (o' :: rest)); [rewrite Hset|]|]. f_equal. apply pool_perm; [apply Hg2|].
    by rewrite Hset.
Qed.

(** ** What one turn of the loop does *)

Definition wf_ticker (t : list Z) : Prop := (length t <= 8)%nat /\ Forall (fun c => 0 < c < 256) t /\ last t <> Some 32.

Definition pad (t : list Z) : list Z := t ++ replicate (9 - length t) 0.

Lemma pad_stock t : wf_ticker t -> Encode.wf_stock (pad t) /\ Encode.c_str (pad t) = t.
Proof. intros (H1 & H2 & H3). split; [by exists t|]. by apply Encode.c_str_wf. Qed.

(** Decide the tests on the message type. *)
Ltac pick_type :=
  repeat match goal with |- context [?a =? ?b] =>
    let c := eval vm_compute in (a =? b) in
    match c with true => change (a =? b) with true | false => change (a =? b) with false end; cbv iota
  end.

(** A message built from fields in range is well-formed. *)
Ltac wf_message := cbn; unfold Encode.wf_header; unfold_words; cbn; split_and!; lia || done.

Section Turn.
Context {R : Type} `{Random R}.

Lemma lot_shares_ok (rng : R) : exists sh rng', lot_shares rng = (sh, rng') /\ 1 <= sh <= 2000.
Proof.
  unfold lot_shares. pose proof (uniform_law 1 20 rng ltac:(lia)) as Hl. destruct (uniform_int 1 20 rng) as [lots rng'].
  cbn in Hl. eexists _, _. split; [done|]. rewrite u32_id by (unfold is_u32; lia). lia.
Qed.

Lemma wiggle_ok mid (rng : R) : mid ∈ spec_mid <$> kSymbols ->
  exists p rng', wiggle_price mid rng = Ok (p, rng') /\ LadderBook.realistic_price p.
Proof.
  intros Hmid. unfold wiggle_price. pose proof (uniform_law (-500) 500 rng ltac:(lia)) as Hl.
  destruct (uniform_int (-500) 500 rng) as [bps rng']. cbn in Hl.
  destruct (moved_ok mid bps Hmid Hl) as (raw & -> & Hraw). rewrite bind_Ok. eexists _, _. split; [done|].
  unfold kTickSize, LadderBook.realistic_price. rewrite u32_id by (unfold is_u32; Z.div_mod_to_equations; lia).
  split; [Z.div_mod_to_equations; lia|]. by rewrite Z.mod_mul.
Qed.

Lemma wf_side n : is_u8 (side_of n).
Proof. unfold side_of, is_u8, Wire.Buy, Wire.Sell. destruct (n =? 0); lia. Qed.

Definition wf_symbol (s : state R) (sym : Symbol) : Prop :=
  is_u16 (locate sym) /\ mid_price sym ∈ spec_mid <$> kSymbols /\ wf_ticker (ticker sym) /\ good_pool (next_ref s) (open sym).

(** Appends one message, which the reference accepts and which leaves the
    pool as the generator has it. *)
Definition emits (s : state R) (sym : Symbol) (r : outcome (Symbol * state R)) : Prop :=
  exists e op l s', r = Ok (with_open sym l, s') /\ Encode.wf_event e /\ Builder.realistic_event e /\
    Builder.event_op true e = Some (locate sym, op) /\ op (pool (open sym)) = (true, pool l) /\
    symbols s' = symbols s /\ raw s' = Encode.frame (raw s) (Encode.encode_event e) /\
    next_ref s <= next_ref s' <= next_ref s + 1 /\ next_match s <= next_match s' <= next_match s + 1 /\
    good_pool (next_ref s') l.

Definition counters_ok (s : state R) : Prop := 1 <= next_ref s <= kTotalMessages /\ 1 <= next_match s <= kTotalMessages.

Lemma gen_add_ok s sym ts (rng : R) : counters_ok s -> wf_symbol s sym -> is_u48 ts -> emits s sym (gen_add s sym ts rng).
Proof.
  intros [Hr Hm] (Hloc & Hmid & Htick & Hpool) Hts. unfold kTotalMessages in *. unfold gen_add.
  destruct (uniform_int 0 1 rng) as [pick rng1]. destruct (wiggle_ok (mid_price sym) rng1 Hmid) as (p & rng2 & -> & Hp).
  rewrite bind_Ok. destruct (lot_shares_ok rng2) as (sh & rng3 & -> & Hsh).
  set (o := mkOpen (next_ref s) (side_of pick) p sh).
  destruct (good_pool_push (next_ref s) o (open sym) Hpool eq_refl ltac:(lia) Hsh Hp) as [Hpush Hnone].
  destruct (pad_stock _ Htick) as [Hstock Hc].
  assert (u64 (next_ref s + 1) = next_ref s + 1) as Hu by (apply u64_id; unfold is_u64; lia).
  exists (Wire.EAdd (Wire.mkAddOrder (Wire.mkHeader (locate sym) ts) (next_ref s) (side_of pick) sh (pad (ticker sym)) p)).
  eexists _, (open sym ++ [o]), _. split; [reflexivity|].
  cbn [symbols raw next_ref next_match]. rewrite Hu. split_and!; try lia; try done.
  - destruct Hp as [Hp _]. pose proof (wf_side pick) as Hside. unfold is_u8 in Hside.
    wf_message.
  - cbn. unfold Book.spec_add. cbn in Hnone. rewrite Hnone. f_equal.
    rewrite (pool_perm (open sym ++ [o]) (o :: open sym)); [done|unfold refs; rewrite <- Permutation_cons_append; apply Hpush|].
    by rewrite <- Permutation_cons_append.
  - cbn [Encode.encode_event Wire.add_hdr Wire.locate Wire.timestamp Wire.add_ref Wire.add_side Wire.add_shares Wire.add_stock Wire.add_price].
    by rewrite Hc.
  - apply (good_pool_perm _ (o :: open sym)); [|done]. by rewrite <- Permutation_cons_append.
Qed.

Lemma swap_remove_ok next l idx o : good_pool next l -> l !! idx = Some o ->
  exists l', swap_remove idx l = Ok l' /\ good_pool next l' /\ pool l !! ref o = Some (Book.mkOrder (shares o) (price o) (side o)) /\
    delete (ref o) (pool l) = pool l'.
Proof.
  intros Hg Ho. destruct (pool_at l idx o Ho) as (rest & Hl & _ & l' & Hs & Hp).
  pose proof (good_pool_perm _ _ _ Hl Hg) as Hg'. pose proof (good_pool_tail _ _ _ Hg') as Hrest.
  assert (ref o ∉ refs rest) as Hnew by (destruct Hg' as [Hn _]; by apply NoDup_cons in Hn as [? _]).
  assert (good_pool next l') as Hgl by (by apply (good_pool_perm _ rest)).
  exists l'. split_and!; [done|done| |]; rewrite (pool_perm l _ (gp_nodup _ _ Hg) Hl), pool_cons.
  - by rewrite lookup_insert_eq.
  - rewrite delete_insert_id by (by apply pool_None). apply pool_perm; [apply Hrest|done].
Qed.

(** A replacement: the order drawn leaves the pool, its successor joins. *)
Lemma gen_replace_ok s sym ts idx (rng : R) : counters_ok s -> wf_symbol s sym -> is_u48 ts ->
  (idx < length (open sym))%nat -> emits s sym (gen_other Wire.chU s sym ts idx rng).
Proof.
  intros [Hr Hm] (Hloc & Hmid & Htick & Hpool) Hts Hidx. unfold kTotalMessages in *. unfold gen_other.
  destruct (rd_ok (open sym) idx Hidx) as (o & -> & Ho). rewrite bind_Ok.
  pose proof (Forall_lookup_1 _ _ _ _ (gp_orders _ _ Hpool) Ho) as (Hro & Hso & Hpo).
  assert (u64 (next_ref s + 1) = next_ref s + 1) as Hur by (apply u64_id; unfold is_u64; lia).
  destruct (swap_remove_ok _ _ _ _ Hpool Ho) as (l' & Hswap & Hgl & Hin & Hdel).
  pick_type. cbv zeta.
  destruct (wiggle_ok (mid_price sym) rng Hmid) as (p & rng2 & -> & Hp). rewrite bind_Ok.
  destruct (lot_shares_ok rng2) as (sh & rng3 & -> & Hsh). rewrite Hswap, bind_Ok.
  set (o' := mkOpen (next_ref s) (side o) p sh).
  destruct (good_pool_push (next_ref s) o' l' Hgl eq_refl ltac:(lia) Hsh Hp) as [Hpush Hnone].
  assert (o' :: l' ≡ₚ l' ++ [o']) as Hperm by apply Permutation_cons_append.
  exists (Wire.EReplace (Wire.mkOrderReplace (Wire.mkHeader (locate sym) ts) (ref o) (next_ref s) sh p)).
  eexists _, (l' ++ [o']), _. split; [reflexivity|]. cbn [symbols raw next_ref next_match]. rewrite Hur.
  split_and!; try lia; try done.
  - destruct Hp. wf_message.
  - cbn. unfold Book.spec_replace. rewrite Hin, Hdel. unfold Book.spec_add. cbn in Hnone. rewrite Hnone. f_equal.
    rewrite <- (pool_perm _ _ (gp_nodup _ _ Hpush) Hperm). done.
  - by apply (good_pool_perm _ (o' :: l')).
Qed.

Lemma gen_other_ok t s sym ts idx (rng : R) : counters_ok s -> wf_symbol s sym -> is_u48 ts ->
  t ∈ kMsgTypes -> t <> Wire.chA -> (idx < length (open sym))%nat -> emits s sym (gen_other t s sym ts idx rng).
Proof.
  intros Hc Hw Hts Ht HtA Hidx. destruct (decide (t = Wire.chU)) as [->|HtU]; [by apply gen_replace_ok|].
  destruct Hc as [Hr Hm], Hw as (Hloc & Hmid & Htick & Hpool). unfold kTotalMessages in *. unfold gen_other.
  destruct (rd_ok (open sym) idx Hidx) as (o & -> & Ho). rewrite bind_Ok.
  pose proof (Forall_lookup_1 _ _ _ _ (gp_orders _ _ Hpool) Ho) as (Hro & Hso & Hpo).
  assert (u64 (next_match s + 1) = next_match s + 1) as Hum by (apply u64_id; unfold is_u64; lia).
  pose proof (uniform_law 1 (shares o) rng ltac:(lia)) as Hq.
  destruct (swap_remove_ok _ _ _ _ Hpool Ho) as (l' & Hswap & Hgl & Hin & Hdel).
  unfold kMsgTypes in Ht. rewrite !elem_of_cons in Ht.
  destruct Ht as [->|[->|[->|[->|[->|[->|Ht]]]]]]; [done| | | | | |by apply not_elem_of_nil in Ht].
  - pick_type. destruct (uniform_int 1 (shares o) rng) as [qty rng1]. cbn in Hq.
    destruct (reduce_ok _ _ _ _ qty Hpool Ho Hq) as (l & -> & Hg & Hop). rewrite bind_Ok.
    exists (Wire.EExec (Wire.mkOrderExecuted (Wire.mkHeader (locate sym) ts) (ref o) qty (next_match s))).
    eexists _, l, _. split; [reflexivity|]. cbn [symbols raw next_ref next_match]. rewrite Hum.
    split_and!; try lia; try done. wf_message.
  - pick_type.
    destruct (uniform_int 1 (shares o) rng) as [qty rng1]. cbn in Hq. destruct (uniform_int 0 1 rng1) as [pick rng2].
    destruct (reduce_ok _ _ _ _ qty Hpool Ho Hq) as (l & -> & Hg & Hop). rewrite bind_Ok.
    exists (Wire.EExecPrice (Wire.mkOrderExecutedPrice (Wire.mkHeader (locate sym) ts) (ref o) qty (next_match s) (pick =? 0) (price o))).
    eexists _, l, _. split; [reflexivity|]. cbn [symbols raw next_ref next_match]. rewrite Hum.
    split_and!; try lia; try done. destruct Hpo. wf_message.
  - pick_type.
    destruct (uniform_int 1 (shares o) rng) as [qty rng1]. cbn in Hq.
    destruct (reduce_ok _ _ _ _ qty Hpool Ho Hq) as (l & -> & Hg & Hop). rewrite bind_Ok.
    exists (Wire.ECancel (Wire.mkOrderCancel (Wire.mkHeader (locate sym) ts) (ref o) qty)).
    eexists _, l, _. split; [reflexivity|]. cbn [symbols raw next_ref next_match].
    split_and!; try lia; try done. wf_message.
  - pick_type.
    rewrite Hswap, bind_Ok. exists (Wire.EDelete (Wire.mkOrderDelete (Wire.mkHeader (locate sym) ts) (ref o))).
    eexists _, l', _. split; [reflexivity|]. cbn [symbols raw next_ref next_match].
    split_and!; try lia; try done.
    + wf_message.
    + cbn. unfold Book.spec_remove. by rewrite Hin, Hdel.
  - done.
Qed.

End Turn.

(** ** The whole session *)

Section Session.
Context {R : Type} `{Random R}.

(** After [i] messages: the bytes are the messages', all accepted by the
    reference, whose books are the pools. *)
Record session_inv (i : nat) (es : list Wire.event) (s : state R) : Prop := {
  iv_raw : raw s = Encode.stream (Encode.encode_event <$> es);
  iv_events : Forall (fun e => Encode.wf_event e /\ Builder.realistic_event e) es;
  iv_count : length es = i;
  iv_refs : 1 <= next_ref s <= Z.of_nat i + 1;
  iv_match : 1 <= next_match s <= Z.of_nat i + 1;
  iv_length : length (symbols s) = 9%nat;
  iv_symbol : forall j sym, symbols s !! j = Some sym -> locate sym = Z.of_nat j /\ wf_symbol s sym /\
    default ∅ (Builder.sp_books (Builder.spec_run es Builder.spec_init) !! j) = pool (open sym);
  iv_rejected : Builder.sp_rejected (Builder.spec_run es Builder.spec_init) = 0 }.

(** A message appended for symbol [j]. *)
Lemma emits_inv i es s j sym r : session_inv i es s -> symbols s !! j = Some sym -> emits s sym r ->
  exists e sym' s' rng', r = Ok (sym', s') /\ wr (symbols s') j sym' = Ok (<[j := sym']> (symbols s)) /\
    session_inv (S i) (es ++ [e]) (mkState (<[j := sym']> (symbols s)) (raw s') (next_ref s') (next_match s') rng') /\ rng' = engine s'.
Proof.
  intros Hs Hj (e & op & l & s' & -> & Hwf & Hreal & Hop & Hres & Hsym & Hraw & Hr & Hm & Hl).
  pose proof (lookup_lt_Some _ _ _ Hj) as Hlt. destruct (iv_symbol _ _ _ Hs j sym Hj) as (Hloc & Hw & Hbook).
  exists e, (with_open sym l), s', (engine s'). split_and!; [done|unfold wr; by rewrite Hsym, decide_True| |done].
  assert (Builder.spec_run (es ++ [e]) Builder.spec_init = Builder.spec_step true e (Builder.spec_run es Builder.spec_init)) as Hrun.
  { unfold Builder.spec_run. by rewrite foldl_app. }
  pose proof (iv_refs _ _ _ Hs). pose proof (iv_match _ _ _ Hs).
  assert (exists counts, Builder.spec_step true e (Builder.spec_run es Builder.spec_init) =
    Builder.mkSpec (<[j := pool l]> (Builder.sp_books (Builder.spec_run es Builder.spec_init))) counts 0) as [counts Hstep].
  { eexists. unfold Builder.spec_step. rewrite Hop, Hloc, Nat2Z.id, Hbook, Hres. cbn. by rewrite (iv_rejected _ _ _ Hs). }
  constructor; cbn [symbols raw next_ref next_match]; rewrite ?Hrun, ?Hstep; try done.
  - rewrite Hraw, (iv_raw _ _ _ Hs), fmap_app. symmetry. apply Encode.stream_app.
  - apply Forall_app. split; [apply (iv_events _ _ _ Hs)|]. by apply Forall_singleton.
  - rewrite length_app, (iv_count _ _ _ Hs). cbn. lia.
  - lia.
  - lia.
  - rewrite length_insert. apply (iv_length _ _ _ Hs).
  - intros j' sym'. cbn [Builder.sp_books]. destruct (decide (j' = j)) as [->|Hne].
    + rewrite list_lookup_insert_eq by done. intros [= <-]. rewrite lookup_insert_eq. cbn.
      destruct Hw as (W1 & W2 & W3 & _). by split_and!.
    + rewrite list_lookup_insert_ne, lookup_insert_ne by done. intros Hj'.
      destruct (iv_symbol _ _ _ Hs j' sym' Hj') as (L1 & (W1 & W2 & W3 & W4) & B1).
      split; [done|]. split; [|done]. split_and!; try done. apply (good_pool_mono (next_ref s)); [cbn; lia|done].
Qed.

Lemma gen_ok i es s : session_inv i es s -> Z.of_nat i < kTotalMessages ->
  exists e s', gen i s = Ok s' /\ session_inv (S i) (es ++ [e]) s'.
Proof.
  intros Hs Hi. unfold gen. unfold kNumSymbols, kTotalMessages in *.
  pose proof (uniform_law 0 8 (engine s) ltac:(lia)) as Hpick. change (9 - 1) with 8.
  destruct (uniform_int 0 8 (engine s)) as [pick rng1]. cbn in Hpick.
  destruct (rd_ok (symbols s) (Z.to_nat pick)) as (sym & -> & Hsym); [rewrite (iv_length _ _ _ Hs); lia|]. rewrite bind_Ok.
  destruct (iv_symbol _ _ _ Hs _ _ Hsym) as (Hloc & Hw & _).
  assert (u64 (kBaseTs + Z.of_nat i * kTsStep) = kBaseTs + Z.of_nat i * kTsStep) as Hts.
  { apply u64_id. unfold kBaseTs, kTsStep, is_u64. lia. }
  cbv zeta. rewrite Hts. set (ts := kBaseTs + Z.of_nat i * kTsStep).
  assert (is_u48 ts) as Hts48 by (unfold ts, kBaseTs, kTsStep, is_u48; lia).
  pose proof (iv_refs _ _ _ Hs). pose proof (iv_match _ _ _ Hs).
  assert (counters_ok s) as Hc by (unfold counters_ok, kTotalMessages; lia).
  assert (forall r, emits s sym r -> exists e s', ('(sym', s') ← r;
      symbols ← wr (symbols s') (Z.to_nat pick) sym';
      Ok (mkState symbols (raw s') (next_ref s') (next_match s') (engine s'))) = Ok s' /\ session_inv (S i) (es ++ [e]) s') as Hfinish.
  { intros r Hr. destruct (emits_inv i es s _ sym r Hs Hsym Hr) as (e & sym' & s' & rng' & -> & Hwr & Hinv & ->).
    rewrite bind_Ok, Hwr, bind_Ok. by exists e, (mkState (<[Z.to_nat pick := sym']> (symbols s)) (raw s') (next_ref s') (next_match s') (engine s')). }
  destruct (open sym) as [|o0 os] eqn:Eopen.
  { rewrite bind_Ok. cbv iota beta. pick_type. by apply Hfinish, gen_add_ok. }
  pose proof (discrete_law kMsgWeights rng1 ltac:(apply Exists_cons_hd; lia)) as Hk.
  destruct (discrete kMsgWeights rng1) as [k rng2]. cbn [fst] in Hk. change (length kMsgWeights) with 6%nat in Hk.
  destruct (rd_ok kMsgTypes k) as (t & -> & Ht); [done|]. rewrite !bind_Ok.
  destruct (Z.eqb_spec t Wire.chA) as [->|HtA]; [by apply Hfinish, gen_add_ok|].
  pose proof (uniform_law 0 (Z.of_nat (length (o0 :: os)) - 1) rng2 ltac:(cbn; lia)) as Hidx.
  destruct (uniform_int 0 (Z.of_nat (length (o0 :: os)) - 1) rng2) as [idx rng3]. cbn [fst] in Hidx.
  apply Hfinish, gen_other_ok; try done; [by eapply list_elem_of_lookup_2|]. rewrite Eopen. lia.
Qed.

Lemma gen_loop_ok n i es s : session_inv i es s -> Z.of_nat (i + n) <= kTotalMessages ->
  exists es' s', gen_loop n i s = Ok s' /\ session_inv (i + n) es' s'.
Proof.
  revert i es s. induction n as [|n IH]; intros i es s Hs Hn; cbn [gen_loop]; [rewrite Nat.add_0_r; by exists es, s|].
  destruct (gen_ok i es s Hs ltac:(lia)) as (e & s1 & -> & Hs1). rewrite bind_Ok, Nat.add_succ_r, <- Nat.add_succ_l.
  apply (IH (S i) _ _ Hs1). lia.
Qed.

Lemma start_session_inv seeded : session_inv 0 [] (start seeded).
Proof.
  constructor; cbn [start symbols raw next_ref next_match]; try done; try lia.
  intros j sym. rewrite list_lookup_imap. destruct (kSymbols !! j) as [sp|] eqn:E; [|done]. intros [= <-]. cbn.
  pose proof (lookup_lt_Some _ _ _ E) as Hj. cbn in Hj.
  rewrite u16_id by (unfold is_u16; lia). split_and!; [done| |by rewrite lookup_empty].
  unfold wf_symbol. cbn. split_and!; [unfold is_u16; lia| | |constructor; [apply NoDup_nil_2|apply Forall_nil_2]].
  - change (spec_mid sp ∈ spec_mid <$> kSymbols). apply list_elem_of_fmap. exists sp. split; [done|]. by eapply list_elem_of_lookup_2.
  - assert (Forall (fun sp => wf_ticker (spec_ticker sp)) kSymbols) as Hall; [|by apply (Forall_lookup_1 _ _ _ _ Hall E)].
    repeat apply Forall_cons_2; try apply Forall_nil_2; (split_and!; [cbn; lia|repeat apply Forall_cons_2; try apply Forall_nil_2; lia|done]).
Qed.

(** ** Replaying the session *)

(** A builder that has accepted every message and whose books are the
    pools. *)
Definition accepted {B} `{Book.BookLaws B} (data : list Z) (n : nat) (pools : list Symbol) : Prop :=
  exists h, Wire.parse_stream data (length data) (Ok (Builder.init (B := B))) = Ok (n, Ok h) /\
    Builder.unknown_refs h = 0 /\
    forall j sym, pools !! j = Some sym -> default ∅ (Book.orders <$> mjoin (Builder.books h !! j)) = pool (open sym).

Lemma session_events i es s : session_inv i es s ->
  Wire.bytes (raw s) /\ Wire.events (raw s) = es /\ length (Wire.frames (raw s)) = i.
Proof.
  intros Hs. assert (Forall Encode.wf_event es) as Hwf.
  { eapply Forall_impl; [apply (iv_events _ _ _ Hs)|]. by intros e [? _]. }
  assert (Wire.events (raw s) = es) as He.
  { rewrite (iv_raw _ _ _ Hs), <- (app_nil_r (Encode.stream _)). by apply Encode.events_stream. }
  split_and!; [|done|].
  - rewrite (iv_raw _ _ _ Hs). apply Encode.bytes_stream, Forall_fmap, Forall_true. intros e. apply Encode.bytes_encode_event.
  - rewrite <- (iv_count _ _ _ Hs), <- He at 1. unfold Wire.events. by rewrite length_fmap.
Qed.

Lemma session_accepted {B} `{A : Builder.Admitting B} i es s : session_inv i es s -> Z.of_nat i <= kTotalMessages ->
  (forall p, LadderBook.realistic_price p -> Builder.good_price (B := B) p) -> accepted (B := B) (raw s) i (symbols s).
Proof.
  intros Hs Hi Hgood. destruct (session_events i es s Hs) as (Hb & He & Hn). unfold kTotalMessages in Hi.
  destruct (Builder.parse_exact (B := B) (raw s) Hb) as (h & Hrun & Hsim & _).
  - rewrite He. eapply Forall_impl; [apply (iv_events _ _ _ Hs)|]. intros e [_ Hr].
    unfold Builder.good_event, Builder.realistic_event in *. destruct (Builder.event_price e); [by apply Hgood|done].
  - rewrite Hn. unfold Book.max_orders. lia.
  - rewrite Hn, He in *. exists h. split_and!; [done|by rewrite (Builder.sim_rejected _ _ Hsim), (iv_rejected _ _ _ Hs)|].
    intros j sym Hj. rewrite (Builder.sim_books _ _ Hsim). by destruct (iv_symbol _ _ _ Hs j sym Hj) as (_ & _ & ->).
Qed.

(** The session is generated, and has its messages. *)
Lemma generated (seeded : R) : exists data, generate_synthetic_session seeded = Ok data /\
  Wire.bytes data /\ Z.of_nat (length (Wire.frames data)) = kTotalMessages.
Proof.
  unfold generate_synthetic_session.
  assert (Z.of_nat (Z.to_nat kTotalMessages) = kTotalMessages) as Hk by (rewrite Z2Nat.id; unfold kTotalMessages; lia).
  generalize dependent (Z.to_nat kTotalMessages). intros n Hn.
  destruct (gen_loop_ok n 0 [] (start seeded) (start_session_inv seeded)) as (es & s & -> & Hs); [lia|].
  rewrite bind_Ok. exists (raw s). destruct (session_events _ _ _ Hs) as (Hb & _ & Hl). split_and!; [done|done|]. rewrite Hl. lia.
Qed.

End Session.

(** ** Properties *)

(** C32: the benchmark's session is what it claims to be: whatever the random
    numbers are, as long as each is in the range asked for, the generator never
    reads outside its tables or converts a double out of range, produces exactly
    2,200,000 well-framed messages, and every one of them is accepted: replayed
    with either book no message counts as unknown, and each symbol's book ends
    holding exactly the orders the generator believes to be open, with their
    shares and prices. *)
Theorem synthetic_session_accepted {R} `{Random R} (seeded : R) :
  exists s, gen_loop (Z.to_nat kTotalMessages) 0 (start seeded) = Ok s /\
    generate_synthetic_session seeded = Ok (raw s) /\ Wire.bytes (raw s) /\ length (symbols s) = 9%nat /\
    accepted (B := OrderBook.OrderBook) (raw s) (Z.to_nat kTotalMessages) (symbols s) /\
    accepted (B := LadderBook.LadderBook) (raw s) (Z.to_nat kTotalMessages) (symbols s).
Proof.
  unfold generate_synthetic_session.
  assert (Z.of_nat (Z.to_nat kTotalMessages) <= kTotalMessages) as Hn by (rewrite Z2Nat.id; unfold kTotalMessages; lia).
  generalize dependent (Z.to_nat kTotalMessages). intros n Hn.
  destruct (gen_loop_ok n 0 [] (start seeded) (start_session_inv seeded) Hn) as (es & s & -> & Hs).
  exists s. split; [done|]. rewrite bind_Ok. split; [done|]. destruct (session_events _ _ _ Hs) as (Hb & _ & _).
  split_and!; [done|apply (iv_length _ _ _ Hs)| |]; by eapply session_accepted.
Qed.

(** An engine that counts. *)
#[local, refine] Instance counting : Random Z := {
  uniform_int a b r := (a + r mod (b - a + 1), r + 7);
  discrete weights r := (Z.to_nat (r mod Z.of_nat (length weights)), r + 11) }.
Proof.
  - intros a b r Hab. cbn. pose proof (Z.mod_pos_bound r (b - a + 1)). lia.
  - intros weights r Hw. cbn. assert (0 < Z.of_nat (length weights)) as Hl by (destruct Hw; cbn; lia).
    pose proof (Z.mod_pos_bound r (Z.of_nat (length weights)) Hl). lia.
Defined.

(** Its first messages. *)
Example counting_session : exists data, (s ← gen_loop 40 0 (start kSeed); Ok (raw s)) = Ok data /\
  length (Wire.frames data) = 40%nat /\ length (filter (fun e => Builder.event_type e = Wire.chA) (Wire.events data)) <> 40%nat.
Proof. eexists. split; [vm_compute; reflexivity|]. vm_compute. split; [reflexivity|discriminate]. Qed.

Lemma synthetic_session_accepted_witness : exists s : state Z,
  generate_synthetic_session kSeed = Ok (raw s) /\
  accepted (B := LadderBook.LadderBook) (raw s) (Z.to_nat kTotalMessages) (symbols s).
Proof.
  destruct (synthetic_session_accepted kSeed) as (s & _ & H1 & _ & _ & _ & H2). exists s. split; [exact H1|exact H2].
Defined.

End Synthetic.
