(* ===== verification/Bench.v ===== *)
(** * Bench: the latency benchmark

    Models bench/bench_main.cpp: [BenchHandler], which times each call into a
    book, [run_pass], [merge_into], [percentile_sorted], [finalize_rows] and
    [run_book_type].  The steady clock is an input: [now k] is what its [k]-th
    reading returns, in nanoseconds.

    The measurements themselves mean nothing here; what is proved is that the
    harness does the production work, on the same calls, and counts it. *)

From Stdlib Require Import SpecFloat Sorting.Sorted.
From stdpp Require Import sorting.
From S2P Require Import Prelude Wire Encode Book OrderBook LadderBook Doubles Builder Gzip Synthetic Query Csv.

Module Bench.

(** [std::array<std::vector<std::uint64_t>, 256>] *)
Abbreviation LatBuckets := (list (list Z)).

Definition no_samples : LatBuckets := replicate 256 [].

(** [dst[t].insert(end, src[t])] for [t] from [t0] on. *)
Fixpoint merge_loop (n t : nat) (dst src : LatBuckets) : outcome LatBuckets :=
  match n with
  | O => Ok dst
  | S n =>
    more ← rd src t;
    dst ← (if (length more =? 0)%nat then Ok dst else bucket ← rd dst t; wr dst t (bucket ++ more));
    merge_loop n (S t) dst src
  end.

Definition merge_into (dst src : LatBuckets) : outcome LatBuckets := merge_loop 256 0 dst src.

Section Handler.
Context {B : Type} `{Book.BookOps B}.
Variable now : nat -> Z.

Record BenchHandler := mkHandler {
  store : list (option B); lat : LatBuckets; unknown_refs : Z; calls : nat }.

Definition ns_between (a b : Z) : Z := u64 (b - a).

(** One timed call: the lookup is outside the timed window. *)
Definition timed (t locate price_hint : Z) (op : B -> outcome (bool * B)) (h : BenchHandler) : outcome BenchHandler :=
  '(b, slots) ← Builder.get_or_create locate price_hint (store h);
  let t0 := now (calls h) in
  '(ok, b) ← op b;
  let t1 := now (S (calls h)) in
  slots ← wr slots (Z.to_nat locate) (Some b);
  bucket ← rd (lat h) (Z.to_nat t);
  lat ← wr (lat h) (Z.to_nat t) (bucket ++ [ns_between t0 t1]);
  Ok (mkHandler slots lat (if ok : bool then unknown_refs h else u64 (unknown_refs h + 1)) (S (S (calls h)))).

Definition on_add (m : Wire.AddOrder) : BenchHandler -> outcome BenchHandler :=
  timed Wire.chA (Wire.locate (Wire.add_hdr m)) (Wire.add_price m)
    (Book.add (Wire.add_ref m) (Wire.add_side m) (Wire.add_shares m) (Wire.add_price m)).

Definition on_execute (m : Wire.OrderExecuted) : BenchHandler -> outcome BenchHandler :=
  timed Wire.chE (Wire.locate (Wire.exec_hdr m)) 0 (Book.execute (Wire.exec_ref m) (Wire.exec_shares m)).

Definition on_execute_price (m : Wire.OrderExecutedPrice) : BenchHandler -> outcome BenchHandler :=
  timed Wire.chC (Wire.locate (Wire.execp_hdr m)) 0 (Book.execute (Wire.execp_ref m) (Wire.execp_shares m)).

Definition on_cancel (m : Wire.OrderCancel) : BenchHandler -> outcome BenchHandler :=
  timed Wire.chX (Wire.locate (Wire.cancel_hdr m)) 0 (Book.cancel (Wire.cancel_ref m) (Wire.cancel_canceled m)).

Definition on_delete (m : Wire.OrderDelete) : BenchHandler -> outcome BenchHandler :=
  timed Wire.chD (Wire.locate (Wire.delete_hdr m)) 0 (Book.remove (Wire.delete_ref m)).

Definition on_replace (m : Wire.OrderReplace) : BenchHandler -> outcome BenchHandler :=
  timed Wire.chU (Wire.locate (Wire.replace_hdr m)) (Wire.replace_price m)
    (Book.replace (Wire.replace_orig_ref m) (Wire.replace_new_ref m) (Wire.replace_shares m) (Wire.replace_price m)).

Definition on_other (type : Z) (len : nat) (h : BenchHandler) : outcome BenchHandler := Ok h.

#[global] Instance bench_handler : Wire.Handler (outcome BenchHandler) := {
  on_add m h := h ← h; on_add m h;
  on_execute m h := h ← h; on_execute m h;
  on_execute_price m h := h ← h; on_execute_price m h;
  on_cancel m h := h ← h; on_cancel m h;
  on_delete m h := h ← h; on_delete m h;
  on_replace m h := h ← h; on_replace m h;
  on_other t n h := h ← h; on_other t n h
}.

(** ** Passes *)

Record PassResult := mkPass { pass_lat : LatBuckets; pass_unknown_refs : Z; pass_book_count : nat }.

(** [calls]: how often the clock has been read before the pass; the number
    after it is returned. *)
Definition run_pass (data : list Z) (len calls0 : nat) : outcome (PassResult * nat) :=
  '(_, h) ← Wire.parse_stream data len (Ok (mkHandler [] no_samples 0 calls0));
  h ← h;
  Ok (mkPass (lat h) (unknown_refs h) (Builder.book_count (store h)), calls h).

(** The same pass over a .gz file, as [Gzip] reads it. *)
Definition run_pass_gz (chunk : nat) (reads : list Gzip.fread_result) (calls0 : nat) : outcome (PassResult * nat) :=
  '(_, _, h) ← Gzip.run chunk reads (Ok (mkHandler [] no_samples 0 calls0));
  h ← h;
  Ok (mkPass (lat h) (unknown_refs h) (Builder.book_count (store h)), calls h).

End Handler.
Arguments BenchHandler B : clear implicits.

Definition kMeasuredPasses : nat := 3.

Fixpoint measured (pass : nat -> outcome (PassResult * nat)) (n calls0 : nat) (agg : LatBuckets) (unknown : Z) (books : nat)
  : outcome (LatBuckets * Z * nat) :=
  match n with
  | O => Ok (agg, unknown, books)
  | S n =>
    '(r, calls0) ← pass calls0;
    agg ← merge_into agg (pass_lat r);
    measured pass n calls0 agg (u64 (unknown + pass_unknown_refs r)) (pass_book_count r)
  end.

(** ** Rows *)

Definition percentile_sorted (sorted : list Z) (p : Doubles.double) : outcome Z :=
  if (length sorted =? 0)%nat then Ok 0
  else
    idx ← Doubles.to_u64 (Doubles.mul p (Doubles.of_Z (Z.of_nat (length sorted - 1))));
    rd sorted (Z.to_nat idx).

Record CsvRow := mkRow { book_type : string; message_type : Z; count : nat; p50 : Z; p99 : Z; p999 : Z }.

Definition row_of (name : string) (t : Z) (bucket : list Z) : outcome CsvRow :=
  let v := merge_sort Z.le bucket in
  p50 ← percentile_sorted v (Doubles.literal 50 100);
  p99 ← percentile_sorted v (Doubles.literal 99 100);
  p999 ← percentile_sorted v (Doubles.literal 999 1000);
  Ok (mkRow name t (length v) p50 p99 p999).

Fixpoint finalize_rows (name : string) (types : list Z) (agg : LatBuckets) (rows : list CsvRow) : outcome (list CsvRow) :=
  match types with
  | [] => Ok rows
  | t :: types =>
    bucket ← rd agg (Z.to_nat (u8 t));
    if (length bucket =? 0)%nat then finalize_rows name types agg rows
    else row ← row_of name t bucket; finalize_rows name types agg (rows ++ [row])
  end.

(** A discarded pass, the measured ones, and the rows: the total of rejected
    messages, the number of books and the rows. *)
Definition run_passes (pass : nat -> outcome (PassResult * nat)) (name : string) (rows : list CsvRow)
  : outcome (Z * nat * list CsvRow) :=
  '(_, calls0) ← pass 0%nat;
  '(agg, unknown, books) ← measured pass kMeasuredPasses calls0 no_samples 0 0;
  rows ← finalize_rows name Synthetic.kMsgTypes agg rows;
  Ok (unknown, books, rows).

Definition run_book_type {B} `{Book.BookOps B} (now : nat -> Z) (name : string) (data : list Z) (len : nat)
    (rows : list CsvRow) : outcome (Z * nat * list CsvRow) :=
  run_passes (run_pass (B := B) now data len) name rows.

Definition run_book_type_gz {B} `{Book.BookOps B} (now : nat -> Z) (name : string) (chunk : nat)
    (reads : list Gzip.fread_result) (rows : list CsvRow) : outcome (Z * nat * list CsvRow) :=
  run_passes (run_pass_gz (B := B) now chunk reads) name rows.

(** ** The report *)

Definition print_row (book_type type count p50 p99 p999 : Query.text) : Query.text :=
  Csv.pad_right 12 book_type ++ [32] ++ Csv.pad_right 5 type ++ [32] ++ Csv.pad_left 12 count ++ [32] ++
  Csv.pad_left 10 p50 ++ [32] ++ Csv.pad_left 10 p99 ++ [32] ++ Csv.pad_left 10 p999 ++ [Query.lf].

Definition print_table (rows : list CsvRow) : Query.text :=
  [Query.lf] ++ print_row (Query.str "book_type") (Query.str "type") (Query.str "count") (Query.str "p50_ns") (Query.str "p99_ns")
    (Query.str "p999_ns") ++
  (rows ≫= fun r => print_row (Query.str (book_type r)) [message_type r] (Query.to_string (Z.of_nat (count r)))
    (Query.to_string (p50 r)) (Query.to_string (p99 r)) (Query.to_string (p999 r))).

(** What the file holds. *)
Definition write_csv (rows : list CsvRow) : Query.text :=
  Query.str "book_type,message_type,count,p50_ns,p99_ns,p999_ns" ++ [Query.lf] ++
  (rows ≫= fun r => Query.str (book_type r) ++ [Query.comma] ++ [message_type r] ++ [Query.comma] ++
     Query.to_string (Z.of_nat (count r)) ++ [Query.comma] ++ Query.to_string (p50 r) ++ [Query.comma] ++
     Query.to_string (p99 r) ++ [Query.comma] ++ Query.to_string (p999 r) ++ [Query.lf]).

(** A reader of that file: the book, the type and the four numbers. *)
Definition values : Type := Query.text * Query.text * Z * Z * Z * Z.

Definition read_row (ws : list Query.text) : option values :=
  match ws with
  | [b; t; n; x; y; z] => Some (b, t, Query.dec_val n, Query.dec_val x, Query.dec_val y, Query.dec_val z)
  | _ => None
  end.

Definition header : list Query.text :=
  [Query.str "book_type"; Query.str "message_type"; Query.str "count"; Query.str "p50_ns"; Query.str "p99_ns"; Query.str "p999_ns"].

Definition read_csv (s : Query.text) : option (list values) := rows ← Csv.with_header header s; mapM read_row rows.

Definition row_values (r : CsvRow) : values :=
  (Query.str (book_type r), [message_type r], Z.of_nat (count r), p50 r, p99 r, p999 r).

(** Rows whose names hold no separator and whose numbers fit. *)
Record wf_row (r : CsvRow) : Prop := {
  wf_book : Csv.cell (Query.str (book_type r));
  wf_type : Csv.cell [message_type r];
  wf_count : is_u64 (Z.of_nat (count r));
  wf_p50 : is_u64 (p50 r); wf_p99 : is_u64 (p99 r); wf_p999 : is_u64 (p999 r) }.

Definition cells (r : CsvRow) : list Query.text :=
  [Query.str (book_type r); [message_type r]; Query.to_string (Z.of_nat (count r)); Query.to_string (p50 r);
   Query.to_string (p99 r); Query.to_string (p999 r)].

Lemma csv_reads_back rows : Forall wf_row rows -> read_csv (write_csv rows) = Some (row_values <$> rows).
Proof.
  intros Hrows. unfold read_csv.
  assert (Csv.with_header header (write_csv rows) = Some (cells <$> rows)) as ->.
  { unfold write_csv. rewrite (Csv.written_lines _ cells) 
      by (intros r; cbn [Csv.line cells app]; by repeat (rewrite <- app_assoc; cbn [app])).
    apply (Csv.with_header_lines header); [done|apply (bool_decide_unpack _); vm_compute; exact I|].
    apply Forall_fmap. eapply Forall_impl; [exact Hrows|]. intros r [H1 H2 [H3 _] [H4 _] [H5 _] [H6 _]]. split; [done|]. unfold cells.
    repeat (apply Forall_cons_2; [first [assumption|apply Csv.digits_cell; assumption]|]). apply Forall_nil_2. }
  cbn [mbind option_bind]. induction Hrows as [|r rows [H1 H2 H3 H4 H5 H6] Hrows IH]; [done|].
  rewrite !fmap_cons. cbn [mapM]. rewrite IH. unfold cells. cbn [read_row mbind option_bind mret option_ret].
  by rewrite !Csv.to_string_reads.
Qed.

(** ** Counting samples *)

(** The type under which a message is timed; undecoded messages are not. *)
Definition timed_type (e : Wire.event) : option Z :=
  match e with Wire.EOther _ _ => None | _ => Some (Builder.event_type e) end.

Definition timed_count (es : list Wire.event) (t : Z) : nat := length (filter (fun e => timed_type e = Some t) es).

Lemma timed_count_snoc es e t : timed_count (es ++ [e]) t = (timed_count es t + if decide (timed_type e = Some t) then 1 else 0)%nat.
Proof. unfold timed_count. rewrite filter_app, length_app, filter_cons. cbn. case_decide; cbn; lia. Qed.

Lemma timed_count_le es t : (timed_count es t <= length es)%nat.
Proof. apply length_filter. Qed.

(** The time between two consecutive readings of the clock. *)
Definition sample (now : nat -> Z) (x : Z) : Prop := exists c, x = ns_between (now c) (now (S c)).

Lemma sample_u64 now x : sample now x -> is_u64 x.
Proof. intros (c & ->). apply u64_range. Qed.

(** 256 buckets, of the given sizes, of samples. *)
Definition sized (now : nat -> Z) (l : LatBuckets) (f : nat -> nat) : Prop :=
  length l = 256%nat /\ forall t, (t < 256)%nat -> exists b, l !! t = Some b /\ length b = f t /\ Forall (sample now) b.

Lemma no_samples_sized now : sized now no_samples (fun _ => 0%nat).
Proof.
  split; [apply length_replicate|]. intros t Ht. exists []. split; [|by split; [|apply Forall_nil_2]]. unfold no_samples. by apply lookup_replicate_2.
Qed.

Lemma sized_ext now l f g : (forall t, (t < 256)%nat -> f t = g t) -> sized now l f -> sized now l g.
Proof. intros Hfg [H1 H2]. split; [done|]. intros t Ht. rewrite <- Hfg by done. by apply H2. Qed.

(** ** The handler does what the builder does *)

Section Follow.
Context {B : Type} `{Book.BookOps B}.
Variable now : nat -> Z.

Record follows (es : list Wire.event) (hb : BenchHandler B) (h : Builder.BookBuilder B) : Prop := {
  fo_store : store hb = Builder.books h;
  fo_unknown : unknown_refs hb = Builder.unknown_refs h;
  fo_lat : sized now (lat hb) (fun t => timed_count es (Z.of_nat t)) }.

Lemma timed_follows e es t locate hint op hb h h1 h' : follows es hb h -> Builder.bump (Builder.event_type e) h = Ok h1 ->
  Builder.at_book locate hint op h1 = Ok h' -> timed_type e = Some t -> 0 <= t < 256 ->
  exists hb', timed now t locate hint op hb = Ok hb' /\ follows (es ++ [e]) hb' h'.
Proof.
  intros [Hs Hu [Hlen Hlat]] Hbump Hat Ht Hr. unfold Builder.bump in Hbump. invert_ok. unfold Builder.at_book in Hat. cbn in Hat.
  unfold timed. rewrite Hs. destruct (Builder.get_or_create _ _ _) as [[b slots]| | |]; try done. cbn in Hat. rewrite bind_Ok.
  destruct (op b) as [[ok b']| | |]; try done. cbn in Hat. rewrite bind_Ok.
  destruct (wr slots _ _) as [slots'| | |]; try done. cbn in Hat. injection Hat as <-. rewrite bind_Ok.
  destruct (Hlat (Z.to_nat t) ltac:(lia)) as (bk & Hbk & Hbl & Hbs).
  rewrite (rd_lookup _ _ _ Hbk), bind_Ok. unfold wr. rewrite decide_True, bind_Ok by (rewrite Hlen; lia).
  eexists. split; [done|]. constructor; cbn; [done|by rewrite Hu|]. split; [by rewrite length_insert|].
  intros i Hi. destruct (decide (i = Z.to_nat t)) as [->|Hne].
  - rewrite list_lookup_insert_eq by (rewrite Hlen; lia). eexists. split; [done|].
    split; [|apply Forall_app; split; [done|]; apply Forall_singleton; by eexists].
    rewrite length_app, Hbl, timed_count_snoc, decide_True; [done|]. rewrite Ht. f_equal. lia.
  - rewrite list_lookup_insert_ne by done. destruct (Hlat i Hi) as (bi & Hbi & Hbil & Hbs'). exists bi. split; [done|]. split; [|done].
    rewrite timed_count_snoc, decide_False; [lia|]. rewrite Ht. intros [= ->]. lia.
Qed.

Lemma event_follows e es hb h h' : follows es hb h -> Wire.apply_event (Ok h) e = Ok h' ->
  exists hb', Wire.apply_event (H := bench_handler now) (Ok hb) e = Ok hb' /\ follows (es ++ [e]) hb' h'.
Proof.
  intros Hf Hrun. destruct e as [m|m|m|m|m|m|t n]; cbn [Wire.apply_event bench_handler Builder.builder_handler Wire.on_add Wire.on_execute
    Wire.on_execute_price Wire.on_cancel Wire.on_delete Wire.on_replace Wire.on_other] in *; rewrite bind_Ok in Hrun; rewrite bind_Ok;
    unfold Builder.on_add, Builder.on_execute, Builder.on_execute_price, Builder.on_cancel, Builder.on_delete,
      Builder.on_replace, Builder.on_other in Hrun;
    unfold on_add, on_execute, on_execute_price, on_cancel, on_delete, on_replace, on_other.
  7: { exists hb. split; [done|]. unfold Builder.bump in Hrun. invert_ok. destruct Hf as [Hs Hu Hl].
       constructor; [done|done|]. eapply sized_ext; [|exact Hl]. intros i _. cbn beta. rewrite timed_count_snoc, decide_False by done. lia. }
  all: match goal with Hr : context [Builder.bump ?t ?h] |- _ => destruct (Builder.bump t h) as [h1| | |] eqn:Hbump; try done; cbn in Hr end.
  - by apply (timed_follows (Wire.EAdd m) es _ _ _ _ hb h h1).
  - by apply (timed_follows (Wire.EExec m) es _ _ _ _ hb h h1).
  - by apply (timed_follows (Wire.EExecPrice m) es _ _ _ _ hb h h1).
  - by apply (timed_follows (Wire.ECancel m) es _ _ _ _ hb h h1).
  - by apply (timed_follows (Wire.EDelete m) es _ _ _ _ hb h h1).
  - by apply (timed_follows (Wire.EReplace m) es _ _ _ _ hb h h1).
Qed.

Lemma events_follow es es0 hb h h' : follows es0 hb h -> foldl Wire.apply_event (Ok h) es = Ok h' ->
  exists hb', foldl (Wire.apply_event (H := bench_handler now)) (Ok hb) es = Ok hb' /\ follows (es0 ++ es) hb' h'.
Proof.
  revert es0 hb h. induction es as [|e es IH]; intros es0 hb h Hf Hrun; cbn [foldl] in *.
  { injection Hrun as <-. exists hb. by rewrite app_nil_r. }
  destruct (Wire.apply_event (Ok h) e) as [h1| | |] eqn:E; [|by rewrite Builder.stuck in Hrun..].
  destruct (event_follows e es0 hb h h1 Hf E) as (hb1 & -> & Hf1).
  destruct (IH (es0 ++ [e]) hb1 h1 Hf1 Hrun) as (hb' & Hb & Hf'). exists hb'. split; [done|]. by rewrite <- app_assoc in Hf'.
Qed.

(** A pass, given that the builder gets through. *)
Lemma run_pass_ok data h n c0 : Wire.bytes data ->
  Wire.parse_stream data (length data) (Ok (Builder.init (B := B))) = Ok (n, Ok h) ->
  exists r c1, run_pass (B := B) now data (length data) c0 = Ok (r, c1) /\
    pass_unknown_refs r = Builder.unknown_refs h /\ pass_book_count r = Builder.book_count (Builder.books h) /\
    sized now (pass_lat r) (fun t => timed_count (Wire.events data) (Z.of_nat t)).
Proof.
  intros Hb. unfold run_pass. rewrite !Wire.parse_stream_frames, firstn_all by done. intros [= _ Hrun].
  destruct (events_follow (Wire.events data) [] (mkHandler [] no_samples 0 c0) Builder.init h) as (hb & Hhb & [Hs Hu Hl]).
  - constructor; [done|done|]. apply no_samples_sized.
  - done.
  - rewrite bind_Ok, Hhb, bind_Ok. eexists _, _. split; [done|]. cbn. by rewrite Hs.
Qed.

End Follow.

(** ** Merging *)

Lemma merge_loop_ok now n t dst src f g : sized now dst f -> sized now src g -> (t + n <= 256)%nat ->
  exists dst', merge_loop n t dst src = Ok dst' /\ sized now dst' (fun i => if decide (t <= i < t + n)%nat then (f i + g i)%nat else f i).
Proof.
  revert t dst f. induction n as [|n IH]; intros t dst f Hd Hs Hn; cbn [merge_loop].
  { exists dst. split; [done|]. eapply sized_ext; [|exact Hd]. intros i _. cbn beta. by rewrite decide_False by lia. }
  destruct (proj2 Hs t ltac:(lia)) as (more & Hmore & Hml & Hms). destruct (proj2 Hd t ltac:(lia)) as (bk & Hbk & Hbl & Hbs).
  rewrite (rd_lookup _ _ _ Hmore), bind_Ok.
  assert (exists dst1, (if (length more =? 0)%nat then Ok dst else bucket ← rd dst t; wr dst t (bucket ++ more)) = Ok dst1 /\
    sized now dst1 (fun i => if decide (i = t) then (f i + g i)%nat else f i)) as (dst1 & -> & Hd1).
  { destruct (Nat.eqb_spec (length more) 0) as [Hz|Hz].
    - exists dst. split; [done|]. eapply sized_ext; [|exact Hd]. intros i _. cbn beta. case_decide as E; [|done]. subst i. lia.
    - rewrite (rd_lookup _ _ _ Hbk), bind_Ok. unfold wr. destruct Hd as [Hdl Hd]. rewrite decide_True by lia.
      eexists. split; [done|]. split; [by rewrite length_insert|]. intros i Hi. case_decide as E.
      + subst i. rewrite list_lookup_insert_eq by lia. eexists. split; [done|]. split; [rewrite length_app; lia|by apply Forall_app_2].
      + rewrite list_lookup_insert_ne by done. by apply Hd. }
  rewrite bind_Ok. destruct (IH (S t) dst1 _ Hd1 Hs ltac:(lia)) as (dst' & Hrun & Hd'). exists dst'. split; [done|].
  eapply sized_ext; [|exact Hd']. intros i _. cbn beta. repeat case_decide; lia.
Qed.

Lemma merge_into_ok now dst src f g : sized now dst f -> sized now src g ->
  exists dst', merge_into dst src = Ok dst' /\ sized now dst' (fun i => (f i + g i)%nat).
Proof.
  intros Hd Hs. destruct (merge_loop_ok now 256 0 dst src f g Hd Hs (le_n _)) as (dst' & Hrun & Hd'). exists dst'.
  split; [done|]. eapply sized_ext; [|exact Hd']. intros i Hi. cbn beta. by rewrite decide_True by lia.
Qed.

Lemma measured_ok {B} `{Book.BookOps B} now n data (h : Builder.BookBuilder B) k c0 agg unknown books f :
  Wire.bytes data -> Wire.parse_stream data (length data) (Ok Builder.init) = Ok (k, Ok h) -> sized now agg f ->
  exists agg', measured (run_pass (B := B) now data (length data)) n c0 agg unknown books =
      Ok (agg', Nat.iter n (fun u => u64 (u + Builder.unknown_refs h)) unknown,
          match n with O => books | S _ => Builder.book_count (Builder.books h) end) /\
    sized now agg' (fun i => (f i + n * timed_count (Wire.events data) (Z.of_nat i))%nat).
Proof.
  intros Hb Hrun. revert c0 agg unknown books f. induction n as [|n IH]; intros c0 agg unknown books f Ha; cbn [measured].
  { exists agg. split; [done|]. eapply sized_ext; [|exact Ha]. intros i _. cbn beta. lia. }
  destruct (run_pass_ok now data h k c0 Hb Hrun) as (r & c1 & -> & Hu & Hbc & Hl). rewrite bind_Ok.
  destruct (merge_into_ok now agg (pass_lat r) _ _ Ha Hl) as (agg1 & -> & Ha1). rewrite bind_Ok.
  destruct (IH c1 agg1 (u64 (unknown + pass_unknown_refs r)) (pass_book_count r) _ Ha1) as (agg' & -> & Ha').
  exists agg'. rewrite Hu, Hbc. split.
  - rewrite Nat.iter_succ_r. by destruct n.
  - eapply sized_ext; [|exact Ha']. intros i _. cbn beta. lia.
Qed.

(** ** Percentiles and rows *)

Lemma percentile_ok sorted p : Doubles.unit_fraction p -> sorted <> [] -> Z.of_nat (length sorted) < 4294967296 ->
  exists v, percentile_sorted sorted p = Ok v /\ v ∈ sorted.
Proof.
  intros Hp Hne Hlen. unfold percentile_sorted. destruct (Nat.eqb_spec (length sorted) 0) as [Hz|Hz].
  { by apply nil_length_inv in Hz. }
  destruct (Doubles.scaled_range (Z.of_nat (length sorted - 1)) p) as (idx & Hidx & Hr); [unfold is_u32; lia|done|].
  rewrite Doubles.mul_comm, Hidx, bind_Ok. destruct (rd_ok sorted (Z.to_nat idx)) as (v & -> & Hv); [lia|].
  exists v. split; [done|]. by eapply list_elem_of_lookup_2.
Qed.

(** A row that summarises [n] samples of a bucket. *)
Definition row_for (name : string) (t : Z) (bucket : list Z) (r : CsvRow) : Prop :=
  book_type r = name /\ message_type r = t /\ count r = length bucket /\
  p50 r ∈ bucket /\ p99 r ∈ bucket /\ p999 r ∈ bucket.

Lemma row_of_ok name t bucket : bucket <> [] -> Z.of_nat (length bucket) < 4294967296 ->
  exists r, row_of name t bucket = Ok r /\ row_for name t bucket r.
Proof.
  intros Hne Hlen. unfold row_of. pose proof (merge_sort_Permutation Z.le bucket) as Hp.
  set (v := merge_sort Z.le bucket) in *.
  assert (v <> []) as Hv by (intros Hv; rewrite Hv in Hp; by apply Permutation_nil_l in Hp).
  assert (Z.of_nat (length v) < 4294967296) as Hvl by (by rewrite Hp).
  destruct (percentile_ok v (Doubles.literal 50 100)) as (a & -> & Ha); [apply (bool_decide_unpack _); vm_compute; exact I|done|done|].
  destruct (percentile_ok v (Doubles.literal 99 100)) as (b & -> & Hb); [apply (bool_decide_unpack _); vm_compute; exact I|done|done|].
  destruct (percentile_ok v (Doubles.literal 999 1000)) as (c & -> & Hc); [apply (bool_decide_unpack _); vm_compute; exact I|done|done|].
  rewrite !bind_Ok. eexists. split; [done|]. unfold row_for. cbn. rewrite Hp in Ha, Hb, Hc. split_and!; try done. by rewrite Hp.
Qed.

(** What is counted per type, the types without a sample left out. *)
Definition counted (types : list Z) (f : nat -> nat) : list (Z * nat) :=
  filter (fun p => p.2 <> 0%nat) ((fun t => (t, f (Z.to_nat t))) <$> types).

Lemma finalize_ok now name types agg rows f : sized now agg f -> Forall (fun t => 0 <= t < 256) types ->
  (forall t, (t < 256)%nat -> Z.of_nat (f t) < 4294967296) ->
  exists more, finalize_rows name types agg rows = Ok (rows ++ more) /\
    ((fun r => (message_type r, count r)) <$> more) = counted types f /\
    Forall (fun r => exists b, Forall (sample now) b /\ row_for name (message_type r) b r) more.
Proof.
  intros Ha Ht Hf. revert rows. induction types as [|t types IH]; intros rows; cbn [finalize_rows].
  { exists []. by rewrite app_nil_r. }
  apply Forall_cons_1 in Ht as [Htr Ht]. specialize (IH Ht). rewrite (u8_id t) by (unfold is_u8; lia).
  destruct (proj2 Ha (Z.to_nat t) ltac:(lia)) as (b & Hb & Hbl & Hbs). rewrite (rd_lookup _ _ _ Hb), bind_Ok.
  unfold counted. rewrite fmap_cons, filter_cons. cbn [snd]. destruct (Nat.eqb_spec (length b) 0) as [Hz|Hz].
  - rewrite decide_False by (rewrite Hbl in Hz; cbn; lia). apply IH.
  - destruct (row_of_ok name t b) as (r & -> & Hr); [by intros ->|rewrite Hbl; apply Hf; lia|]. rewrite bind_Ok.
    rewrite decide_True by (by rewrite <- Hbl). destruct (IH (rows ++ [r])) as (more & -> & Hm & Hall).
    exists (r :: more). split; [by rewrite <- app_assoc|]. pose proof Hr as (_ & R2 & R3 & _). split.
    + rewrite fmap_cons, Hm, R2, R3, Hbl. done.
    + apply Forall_cons_2; [|done]. exists b. by rewrite R2.
Qed.

(** Passes that agree for every clock make the same rows. *)
Lemma run_passes_ext pass pass' name rows : (forall c, pass c = pass' c) -> run_passes pass name rows = run_passes pass' name rows.
Proof.
  intros Heq. unfold run_passes. rewrite Heq. destruct (pass' 0%nat) as [[r c]| | |]; [|done..]. rewrite !bind_Ok.
  assert (forall n c agg u b, measured pass n c agg u b = measured pass' n c agg u b) as ->; [|done].
  induction n as [|n IH]; intros; cbn [measured]; [done|]. rewrite Heq. destruct (pass' _) as [[r' c']| | |]; [|done..].
  rewrite !bind_Ok. destruct (merge_into _ _); [|done..]. by rewrite !bind_Ok.
Qed.

(** A pass over a compressed file is a pass over its contents. *)
Lemma run_pass_gz_eq {B} `{Book.BookOps B} now chunk reads data c : Gzip.decompresses chunk reads data -> Wire.bytes data ->
  Wire.leftover data = [] -> run_pass_gz (B := B) now chunk reads c = run_pass (B := B) now data (length data) c.
Proof.
  intros Hdec Hb Hl. unfold run_pass_gz, run_pass.
  rewrite (Gzip.run_whole chunk reads data _ _ _ Hdec Hb (Wire.parse_stream_frames data _ _ Hb (le_n _))).
  by rewrite decide_True, Wire.parse_stream_frames.
Qed.

(** ** Properties *)

(** Whatever the clock says, the benchmark measures the production work and
    counts it right: on any input, with either book, every pass makes exactly the
    book calls of the replay program's builder and ends with its books; the
    rejected messages reported are three times the builder's; and the rows are,
    in the order of the message types, one for each type the input has, its
    count three times the number of decoded messages of that type (an undecoded
    message is never timed), its percentiles among the samples.  Read from a
    compressed file, in any chunks, the input gives the same. *)
Theorem bench_counts_exact {B} `{L : Book.BookLaws B} (now : nat -> Z) (name : string) (data : list Z) (rows : list CsvRow)
  (Hb : Wire.bytes data) (Hn : 3 * Z.of_nat (length (Wire.frames data)) < 4294967296) :
  exists (h : Builder.BookBuilder B) more,
    Wire.parse_stream data (length data) (Ok Builder.init) = Ok (length (Wire.frames data), Ok h) /\
    run_book_type (B := B) now name data (length data) rows =
      Ok (3 * Builder.unknown_refs h, Builder.book_count (Builder.books h), rows ++ more) /\
    ((fun r => (message_type r, count r)) <$> more) =
      counted Synthetic.kMsgTypes (fun t => 3 * timed_count (Wire.events data) (Z.of_nat t))%nat /\
    Forall (fun r => exists b, Forall (sample now) b /\ row_for name (message_type r) b r) more /\
    (forall chunk reads, Gzip.decompresses chunk reads data -> Wire.leftover data = [] ->
      run_book_type_gz (B := B) now name chunk reads rows = run_book_type (B := B) now name data (length data) rows).
Proof.
  assert (length (Wire.events data) = length (Wire.frames data)) as Hlen by (unfold Wire.events; by rewrite length_fmap).
  destruct (Builder.replay_total (Wire.events data) Builder.init Builder.spec_init 0 Builder.init_sim) as (h & s & Hrun & Hs & _ & Hrej).
  - by apply Builder.events_ranged.
  - intros i os. cbn. by rewrite lookup_empty.
  - unfold Book.max_orders. lia.
  - assert (Wire.parse_stream data (length data) (Ok Builder.init) = Ok (length (Wire.frames data), Ok h)) as Hparse.
    { rewrite Wire.parse_stream_frames, firstn_all by done. by rewrite Hrun. }
    cbn in Hrej. exists h.
    assert (forall chunk reads, Gzip.decompresses chunk reads data -> Wire.leftover data = [] ->
      run_book_type_gz (B := B) now name chunk reads rows = run_book_type (B := B) now name data (length data) rows) as Hgz.
    { intros chunk reads Hdec Hl. apply run_passes_ext. intros c. by apply run_pass_gz_eq. }
    unfold run_book_type at 1, run_passes.
    destruct (run_pass_ok now data h _ 0 Hb Hparse) as (r & c1 & -> & _). rewrite bind_Ok.
    destruct (measured_ok now kMeasuredPasses data h _ c1 no_samples 0 0 _ Hb Hparse (no_samples_sized now)) as (agg & -> & Ha).
    rewrite bind_Ok. cbn [Nat.iter kMeasuredPasses nat_rect].
    destruct (finalize_ok now name Synthetic.kMsgTypes agg rows _ Ha) as (more & -> & Hm & Hall).
    + repeat apply Forall_cons_2; try apply Forall_nil_2; unfold Wire.chA, Wire.chE, Wire.chC, Wire.chX, Wire.chD, Wire.chU; lia.
    + intros t _. pose proof (timed_count_le (Wire.events data) (Z.of_nat t)). unfold kMeasuredPasses. lia.
    + exists more. rewrite bind_Ok. split_and!; [done| |done|done|done].
      * rewrite (Builder.sim_rejected _ _ Hs), (u64_id (Builder.sp_rejected s)) by (unfold is_u64; lia).
        do 3 f_equal. word_lia.
Qed.

Lemma bench_counts_exact_witness : exists (h : Builder.BookBuilder LadderBook.LadderBook) more,
  run_book_type (B := LadderBook.LadderBook) (fun k => 40 * Z.of_nat k) "LadderBook" Builder.sample_data
    (length Builder.sample_data) [] = Ok (3 * Builder.unknown_refs h, Builder.book_count (Builder.books h), more) /\
  ((fun r => (message_type r, count r)) <$> more) = [(65, 6%nat); (69, 3%nat); (88, 3%nat); (68, 3%nat); (85, 3%nat)].
Proof.
  destruct (bench_counts_exact (L := LadderBook.lb_laws) (fun k => 40 * Z.of_nat k) "LadderBook" Builder.sample_data []
    Builder.sample_data_bytes) as (h & more & _ & H1 & H2 & _); [vm_compute; reflexivity|].
  exists h, more. split; [exact H1|]. rewrite H2. vm_compute. reflexivity.
Defined.

End Bench.
