(* ===== verification/BenchMain.v ===== *)
(** * BenchMain: the latency benchmark's program

    Models [main] of bench/bench_main.cpp around [Bench]: the choice between a
    .gz file that is streamed anew in every pass, a mapped file, and the
    synthetic session it falls back to.  As in [Replay] a program is a
    computation of [Os], what the files hold is an input, and a [Throw] is an
    exception nothing catches.  The clock is read from [now_ob] while the
    map-based book is measured and from [now_lb] for the other. *)

From S2P Require Import Prelude Wire Encode Book OrderBook LadderBook Builder Gzip Os Handles Args Replay Query Csv Synthetic Bench.
Import Os.

Module BenchMain.

(** ** Passes over a .gz file *)

Section Gz.
Context {B : Type} `{Book.BookOps B}.
Variable now : nat -> Z.

(** Each pass opens the file itself. *)
Definition run_pass_gz (chunk : nat) (reads : list Gzip.fread_result) (calls : nat) : M (Bench.PassResult * nat) :=
  scope (T := Handles.GzipSource) (fun _ => Handles.gzip_run (Replay.lift (Bench.run_pass_gz (B := B) now chunk reads calls))).

Fixpoint measured_gz (pass : nat -> M (Bench.PassResult * nat)) (n calls : nat) (agg : Bench.LatBuckets) (unknown : Z)
    (books : nat) : M (Bench.LatBuckets * Z * nat) :=
  match n with
  | O => mret (agg, unknown, books)
  | S n =>
    '(r, calls) ← pass calls;
    agg ← Replay.lift (Bench.merge_into agg (Bench.pass_lat r));
    measured_gz pass n calls agg (u64 (unknown + Bench.pass_unknown_refs r)) (Bench.pass_book_count r)
  end.

Definition run_book_type_gz (name : string) (chunk : nat) (reads : list Gzip.fread_result) (rows : list Bench.CsvRow)
  : M (Z * nat * list Bench.CsvRow) :=
  '(_, calls) ← run_pass_gz chunk reads 0;
  '(agg, unknown, books) ← measured_gz (run_pass_gz chunk reads) Bench.kMeasuredPasses calls Bench.no_samples 0 0;
  rows ← Replay.lift (Bench.finalize_rows name Synthetic.kMsgTypes agg rows);
  mret (unknown, books, rows).

End Gz.

(** ** The program *)

(** [try { x = ...; } catch (const std::exception&) { warning }] *)
Definition attempt {A} (m : M A) : M (option A) := fun w =>
  match m w with
  | (Ok a, w) => (Ok (Some a), w)
  | (Throw _, w) => (Ok None, w)
  | (UB, w) => (UB, w)
  | (NoFuel, w) => (NoFuel, w)
  end.

(** A [std::optional] local that [emplace] may have filled: destroyed, if it
    was, when the block ends. *)
Definition optional {T A} `{Raii T} (body : option T -> M A) : M A :=
  o ← attempt make;
  let end_of_scope := match o with Some o => destroy o | None => mret tt end in
  a ← on_throw (body o) end_of_scope;
  end_of_scope;;
  mret a.

Section Main.
Context {R : Type} `{Synthetic.Random R}.
Variables (now_ob now_lb : nat -> Z) (seeded : R) (bytes_at : nat -> Z -> list Z).

(** Both books over bytes in memory. *)
Definition in_memory (data : list Z) (len : nat) : outcome (list Bench.CsvRow) :=
  '(_, _, rows) ← Bench.run_book_type (B := OrderBook.OrderBook) now_ob "OrderBook" data len [];
  '(_, _, rows) ← Bench.run_book_type (B := LadderBook.LadderBook) now_lb "LadderBook" data len rows;
  Ok rows.

Definition synthetic : outcome (list Bench.CsvRow) :=
  data ← Synthetic.generate_synthetic_session seeded; in_memory data (length data).

Definition streamed (chunk : nat) (reads : list Gzip.fread_result) : M (list Bench.CsvRow) :=
  '(_, _, rows) ← run_book_type_gz (B := OrderBook.OrderBook) now_ob "OrderBook" chunk reads [];
  '(_, _, rows) ← run_book_type_gz (B := LadderBook.LadderBook) now_lb "LadderBook" chunk reads rows;
  mret rows.

(** What the program prints in the end, and what the file bench/results.csv
    then holds, if it could be [opened]: an [ofstream] that could not says
    nothing. *)
Record output := mkOutput { printed : Query.text; results : option Query.text }.

Definition output_of (opened : bool) (rows : list Bench.CsvRow) : output :=
  mkOutput (Bench.print_table rows) (if opened then Some (Bench.write_csv rows) else None).

(** The exit code and the output. *)
Definition main (chunk : nat) (reads : list Gzip.fread_result) (opened : bool) (argv : list string) : M (Z * output) :=
  rows ← (if (2 <=? length argv)%nat then
            path ← Replay.lift (rd argv 1);
            if Args.is_gz path then streamed chunk reads
            else optional (T := Handles.MmapSource) (fun src =>
              Replay.lift (match src with
                           | Some src => in_memory (Replay.mapped bytes_at src) (Z.to_nat (Handles.size_ src))
                           | None => synthetic
                           end))
          else Replay.lift synthetic);
  mret (0, output_of opened rows).

End Main.

(** ** Proofs *)

(** A block with an optional object, built or not. *)
Lemma b_optional {T A} `{Raii T} w (body : option T -> M A) (Qm : T -> world -> Prop) (X : Prop) Q E :
  (forall o, keeps (destroy o)) -> partial w make Qm (fun _ => X) ->
  (forall o w', wf o -> Qm o w' -> balanced w' (body (Some o)) Q E) -> (forall w', X -> balanced w' (body None) Q E) ->
  balanced w (optional body) Q E.
Proof.
  intros Hd Hm Hsome Hnone. unfold balanced, optional, attempt, partial, mbind, M_bind in *.
  pose proof (make_law (held w) w eq_refl) as Hl. destruct (make w) as [[o|e| |] w1]; try done.
  - destruct Hl as (Hwf & Hh1 & Hdis). specialize (Hsome o w1 Hwf Hm).
    pose proof (destroy_law o (held w) Hwf Hdis) as Hdes. unfold on_throw. destruct (body (Some o) w1) as [[a|e| |] w2]; try done;
      destruct Hsome as [Hh2 HQ]; rewrite Hh1 in Hh2; specialize (Hdes w2 Hh2); specialize (Hd o w2);
      destruct (destroy o w2) as [[[]|e'| |] w3]; try done; cbn; by rewrite Hd.
  - specialize (Hnone w1 Hm). unfold on_throw. destruct (body None w1) as [[a|e'| |] w2]; try done;
      destruct Hnone as [Hh2 HQ]; cbn; by rewrite Hh2.
Qed.

(** From [w], the result is [res] if the next [n] calls succeed, after exactly
    those, and otherwise an exception. *)
Definition takes {A} (n : nat) (w : world) (m : M A) (res : A) : Prop :=
  balanced w m (fun a l => succeed 0 n w = true /\ a = res /\ l = drop n (answers w)) (fun _ => succeed 0 n w = false).

Lemma takes_bind {A B} n k w (m : M A) (f : A -> M B) a b : takes n w m a -> (forall w', takes k w' (f a) b) ->
  takes (n + k) w (m ≫= f) b.
Proof.
  intros Hm Hf. unfold takes in *. rewrite succeed_app. cbn [Nat.add].
  eapply b_bind; [eapply b_conseq; [exact Hm|intros a' l HQ; exact HQ|by intros _ ->]|].
  intros a' w1 (Hs & -> & Hp). rewrite Hs. cbn [andb].
  assert (succeed 0 k w1 = succeed n k w) as Hsucc.
  { pose proof (past_succeed n 0 k w w1 Hp) as E. by rewrite Nat.add_0_r in E. }
  eapply b_conseq; [apply Hf| |]; rewrite Hsucc; [|done].
  intros b' l (Hs2 & -> & ->). by rewrite Hp, drop_drop.
Qed.

Lemma takes_lift {A} w (o : outcome A) a : o = Ok a -> takes 0 w (Replay.lift o) a.
Proof. intros ->. unfold takes, balanced, Replay.lift. by rewrite drop_0. Qed.

Lemma takes_ret {A} w (a : A) : takes 0 w (mret a) a.
Proof. by apply (takes_lift w (Ok a)). Qed.

(** From [w], an exception. *)
Definition fails {A} (w : world) (m : M A) : Prop := balanced w m (fun _ _ => False) (fun _ => True).

Lemma fails_bind {A B} w (m : M A) (f : A -> M B) : fails w m -> fails w (m ≫= f).
Proof. intros Hm. unfold fails in *. eapply b_bind; [exact Hm|done]. Qed.

(** One pass over a compressed file: the pass over its contents, after two
    calls; or an exception when the readings fail or something is left over. *)
Lemma pass_gz {B} `{Book.BookOps B} now chunk reads w c : Gzip.ended chunk reads -> Wire.bytes (Gzip.unzipped chunk reads).1 ->
  match Gzip.contents chunk reads with
  | Some data => forall r, Bench.run_pass (B := B) now data (length data) c = Ok r -> takes 2 w (run_pass_gz (B := B) now chunk reads c) r
  | None => fails w (run_pass_gz (B := B) now chunk reads c)
  end.
Proof.
  intros He Hb. pose proof (Gzip.run_contents (H0 := Bench.bench_handler now) chunk reads (Ok (Bench.mkHandler (B := B) [] Bench.no_samples 0 c)) He Hb) as Hrun.
  destruct (Gzip.contents chunk reads) as [data|].
  - destruct Hrun as [-> Hrun]. intros r Hr. unfold Bench.run_pass in Hr. rewrite Wire.parse_stream_frames, firstn_all, bind_Ok in Hr by done.
    unfold takes, run_pass_gz. change 2%nat with (1 + 1)%nat. rewrite succeed_app. cbn [Nat.add].
    eapply b_scope; [exact Handles.keeps_gzip_destroy|eapply p_conseq; [exact (Handles.p_gzip w)|intros o w' HQ; exact HQ|by intros ? ->]|].
    intros o w1 _ [-> Hp]. cbn [andb].
    assert (succeed 1 1 w = succeed 0 1 w1) as -> by (symmetry; exact (past_succeed 1 0 1 w w1 Hp)).
    apply Handles.b_gzip_run; [|done]. intros Hs w2 Hp2. unfold Replay.lift, Bench.run_pass_gz, balanced.
    rewrite Hrun, bind_Ok, Hr. split_and!; try done. by rewrite Hp2, Hp, drop_drop.
  - destruct Hrun as [what Hrun]. unfold fails, run_pass_gz.
    eapply b_scope; [exact Handles.keeps_gzip_destroy|eapply p_conseq; [exact (Handles.p_gzip w)|intros o w' HQ; exact HQ|done]|].
    intros o w1 _ _. apply Handles.b_gzip_run; [|done]. intros _ w2 _. unfold Replay.lift, Bench.run_pass_gz, balanced. by rewrite Hrun.
Qed.

Lemma takes_measured (pass : nat -> M (Bench.PassResult * nat)) (f : nat -> outcome (Bench.PassResult * nat)) n :
  (forall w c r, f c = Ok r -> takes 2 w (pass c) r) ->
  forall w c agg u b res, Bench.measured f n c agg u b = Ok res -> takes (n * 2) w (measured_gz pass n c agg u b) res.
Proof.
  intros Hpass. induction n as [|n IH]; intros w c agg u b res Hres; cbn [Bench.measured measured_gz Nat.mul] in *.
  { injection Hres as <-. apply takes_ret. }
  destruct (f c) as [[r c']| | |] eqn:Hf; try discriminate. rewrite bind_Ok in Hres.
  destruct (Bench.merge_into agg (Bench.pass_lat r)) as [agg'| | |] eqn:Hm; try discriminate. rewrite bind_Ok in Hres.
  eapply takes_bind; [by apply Hpass|]. intros w1. change (n * 2)%nat with (0 + n * 2)%nat.
  eapply takes_bind; [by apply takes_lift|]. intros w2. by apply IH.
Qed.

(** A book: eight calls. *)
Lemma book_type_gz {B} `{L : Book.BookLaws B} w now name chunk reads rows : Gzip.ended chunk reads ->
  Wire.bytes (Gzip.unzipped chunk reads).1 -> 3 * Z.of_nat (length (Wire.frames (Gzip.unzipped chunk reads).1)) < 4294967296 ->
  match Gzip.contents chunk reads with
  | Some data => forall r, Bench.run_book_type (B := B) now name data (length data) rows = Ok r ->
      takes 8 w (run_book_type_gz (B := B) now name chunk reads rows) r
  | None => fails w (run_book_type_gz (B := B) now name chunk reads rows)
  end.
Proof.
  intros He Hb Hn. pose proof (fun w c => pass_gz (B := B) now chunk reads w c He Hb) as Hpass.
  destruct (Gzip.contents chunk reads) as [data|]; [|apply fails_bind, Hpass].
  intros res. unfold Bench.run_book_type, Bench.run_passes, run_book_type_gz.
  destruct (Bench.run_pass now data (length data) 0) as [[r c]| | |] eqn:E0; [|discriminate..]. rewrite bind_Ok.
  destruct (Bench.measured _ _ c _ _ _) as [[[agg u] b]| | |] eqn:Em; [|discriminate..]. rewrite bind_Ok.
  destruct (Bench.finalize_rows _ _ agg rows) as [out| | |] eqn:Ef; [|discriminate..]. rewrite bind_Ok. intros [= <-].
  change 8%nat with (2 + (3 * 2 + (0 + 0)))%nat. eapply takes_bind; [by apply Hpass|]. intros w1.
  eapply takes_bind; [by eapply takes_measured|]. intros w2.
  eapply takes_bind; [by apply takes_lift|]. intros w3. apply takes_ret.
Qed.

(** What the rows of a book state of the messages timed. *)
Definition counts_of (rows : list Bench.CsvRow) : list (Z * nat) := (fun r => (Bench.message_type r, Bench.count r)) <$> rows.

(** Rows for both books, over the same messages of [data]. *)
Definition measures (now_ob now_lb : nat -> Z) (data : list Z) (rows : list Bench.CsvRow) : Prop :=
  exists ob lb, rows = ob ++ lb /\
    Forall (fun r => exists b, Forall (Bench.sample now_ob) b /\ Bench.row_for "OrderBook" (Bench.message_type r) b r) ob /\
    Forall (fun r => exists b, Forall (Bench.sample now_lb) b /\ Bench.row_for "LadderBook" (Bench.message_type r) b r) lb /\
    counts_of ob = counts_of lb /\
    counts_of ob = Bench.counted Synthetic.kMsgTypes (fun t => 3 * Bench.timed_count (Wire.events data) (Z.of_nat t))%nat.

Lemma in_memory_ok now_ob now_lb data : Wire.bytes data -> 3 * Z.of_nat (length (Wire.frames data)) < 4294967296 ->
  exists r1 r2 rows, Bench.run_book_type (B := OrderBook.OrderBook) now_ob "OrderBook" data (length data) [] = Ok r1 /\
    Bench.run_book_type (B := LadderBook.LadderBook) now_lb "LadderBook" data (length data) r1.2 = Ok r2 /\ rows = r2.2 /\
    in_memory now_ob now_lb data (length data) = Ok rows /\ measures now_ob now_lb data rows.
Proof.
  intros Hb Hn.
  destruct (Bench.bench_counts_exact (B := OrderBook.OrderBook) now_ob "OrderBook" data [] Hb Hn) as (h1 & ob & _ & Hob & Cob & Nob & _).
  destruct (Bench.bench_counts_exact (B := LadderBook.LadderBook) now_lb "LadderBook" data ob Hb Hn) as (h2 & lb & _ & Hlb & Clb & Nlb & _).
  eexists _, _, (ob ++ lb). split_and!; [exact Hob|exact Hlb|done| |].
  - unfold in_memory. rewrite Hob, bind_Ok. cbn [app]. by rewrite Hlb, bind_Ok.
  - exists ob, lb. unfold counts_of. by rewrite Cob, Clb.
Qed.

(** Such rows can be written and read back. *)
Lemma measures_wf now_ob now_lb data rows : 3 * Z.of_nat (length (Wire.frames data)) < 4294967296 ->
  measures now_ob now_lb data rows -> Forall Bench.wf_row rows.
Proof.
  intros Hn (ob & lb & -> & Hob & Hlb & Heq & Hcounts).
  assert (forall book now l, Csv.cell (Query.str book) -> counts_of l = counts_of ob ->
    Forall (fun r => exists b, Forall (Bench.sample now) b /\ Bench.row_for book (Bench.message_type r) b r) l -> Forall Bench.wf_row l) as Hall.
  { intros book now l Hbook Hl Hrows. apply Forall_forall. intros r Hr. rewrite Forall_forall in Hrows.
    destruct (Hrows r Hr) as (b & Hs & Hname & _ & _ & Hp1 & Hp2 & Hp3). rewrite Forall_forall in Hs.
    assert ((Bench.message_type r, Bench.count r) ∈ counts_of l) as Hin by (by apply (list_elem_of_fmap_2 (fun r => (Bench.message_type r, Bench.count r)))).
    rewrite Hl, Hcounts in Hin. unfold Bench.counted in Hin. apply list_elem_of_filter in Hin as [_ Hin].
    apply list_elem_of_fmap in Hin as (t & [= Ht Hc] & Htypes).
    constructor; [by rewrite Hname| | |eapply Bench.sample_u64, Hs; eassumption..].
    - rewrite Ht. clear -Htypes. revert t Htypes. apply Forall_forall. apply (bool_decide_unpack _). vm_compute. exact I.
    - rewrite Hc. pose proof (Bench.timed_count_le (Wire.events data) (Z.of_nat (Z.to_nat t))) as Hle.
      unfold Wire.events in Hle at 2. rewrite length_fmap in Hle. unfold is_u64. lia. }
  apply Forall_app_2; [apply (Hall "OrderBook"%string now_ob)|apply (Hall "LadderBook"%string now_lb)]; try done;
    apply (bool_decide_unpack _); vm_compute; exact I.
Qed.

Lemma synthetic_measured {R} `{Synthetic.Random R} now_ob now_lb (seeded : R) : exists data rows,
  Synthetic.generate_synthetic_session seeded = Ok data /\ synthetic now_ob now_lb seeded = Ok rows /\ measures now_ob now_lb data rows.
Proof.
  destruct (Synthetic.generated seeded) as (data & Hgen & Hb & Hl).
  destruct (in_memory_ok now_ob now_lb data Hb) as (r1 & r2 & rows & _ & _ & _ & Hrun & Hm); [rewrite Hl; vm_compute; reflexivity|].
  exists data, rows. unfold synthetic. by rewrite Hgen, bind_Ok.
Qed.

Lemma streamed_gz w now_ob now_lb chunk reads : Gzip.ended chunk reads ->
  Wire.bytes (Gzip.unzipped chunk reads).1 -> 3 * Z.of_nat (length (Wire.frames (Gzip.unzipped chunk reads).1)) < 4294967296 ->
  match Gzip.contents chunk reads with
  | Some data => exists rows, measures now_ob now_lb data rows /\ takes 16 w (streamed now_ob now_lb chunk reads) rows
  | None => fails w (streamed now_ob now_lb chunk reads)
  end.
Proof.
  intros He Hb Hn. unfold streamed.
  pose proof (fun w => book_type_gz (B := OrderBook.OrderBook) w now_ob "OrderBook" chunk reads [] He Hb Hn) as Hob.
  pose proof (fun w rows => book_type_gz (B := LadderBook.LadderBook) w now_lb "LadderBook" chunk reads rows He Hb Hn) as Hlb.
  pose proof (Gzip.run_contents chunk reads ([] : list Wire.event) He Hb) as Hc.
  destruct (Gzip.contents chunk reads) as [data|]; [|by apply fails_bind]. destruct Hc as [-> _].
  destruct (in_memory_ok now_ob now_lb _ Hb Hn) as (r1 & r2 & rows & H1 & H2 & -> & _ & Hm). exists r2.2. split; [done|].
  change 16%nat with (8 + (8 + 0))%nat. eapply takes_bind; [by apply Hob|]. intros w1. destruct r1 as [[u b] rows1]. cbn [snd] in H2.
  eapply takes_bind; [by apply Hlb|]. intros w2. destruct r2 as [[u2 b2] rows2]. apply takes_ret.
Qed.

Section Contents.
Context {R : Type} `{Synthetic.Random R}.
Variables (now_ob now_lb : nat -> Z) (seeded : R) (bytes_at : nat -> Z -> list Z).

(** The input that a command line and the calls that fail come to, the
    synthetic session being [sdata]; [None] is an exception. *)
Definition measured_data (sdata : list Z) (chunk : nat) (reads : list Gzip.fread_result) (argv : list string) (w : world) : option (list Z) :=
  match argv !! 1%nat with
  | Some path =>
    if Args.is_gz path then if succeed 0 16 w then Gzip.contents chunk reads else None
    else Some (default sdata (Replay.file_shown bytes_at w))
  | None => Some sdata
  end.

(** What is asked of the file that is named: bytes, as many as [fstat] says
    if it is mapped, of so many messages that they can be counted; and
    readings of a .gz file down to its end. *)
Definition measurable (chunk : nat) (reads : list Gzip.fread_result) (argv : list string) (w : world) : Prop :=
  match argv !! 1%nat with
  | Some path =>
    if Args.is_gz path then Gzip.ended chunk reads /\ Wire.bytes (Gzip.unzipped chunk reads).1 /\
      3 * Z.of_nat (length (Wire.frames (Gzip.unzipped chunk reads).1)) < 4294967296
    else forall st_size, answer 1 w = Some st_size ->
      let data := bytes_at (Handles.mapped_at w) (u64 st_size) in
      Wire.bytes data /\ Z.of_nat (length data) = u64 st_size /\ 3 * Z.of_nat (length (Wire.frames data)) < 4294967296
  | None => True
  end.

Lemma measurable_mapping chunk reads argv path w src : measurable chunk reads argv w -> argv !! 1%nat = Some path ->
  Args.is_gz path = false -> Handles.mapping w = Some src ->
  Wire.bytes (Replay.mapped bytes_at src) /\ length (Replay.mapped bytes_at src) = Z.to_nat (Handles.size_ src) /\
  3 * Z.of_nat (length (Wire.frames (Replay.mapped bytes_at src))) < 4294967296.
Proof.
  unfold measurable. intros Hm Hp Hgz. rewrite Hp, Hgz in Hm. unfold Handles.mapping.
  destruct (answer 0 w); [|done]. destruct (answer 1 w) as [st|]; [|done]. destruct (Hm st eq_refl) as (Hd & Hl & Hf).
  destruct (u64 st =? 0); [intros [= <-]; split_and!; [apply Forall_nil_2|done|done]|].
  destruct (answer 2 w); [|done]. intros [= <-]. unfold Replay.mapped. cbn. split_and!; [done|lia|done].
Qed.

(** What a run should end with. *)
Definition ends_with (opened : bool) (input : option (list Z)) (r : outcome (Z * output)) : Prop :=
  match input with
  | Some data => exists rows, r = Ok (0, output_of opened rows) /\ measures now_ob now_lb data rows /\
      3 * Z.of_nat (length (Wire.frames data)) < 4294967296
  | None => exists what, r = Throw what
  end.

Lemma main_ends chunk reads opened argv w : measurable chunk reads argv w ->
  exists sdata r w', Synthetic.generate_synthetic_session seeded = Ok sdata /\
    main now_ob now_lb seeded bytes_at chunk reads opened argv w = (r, w') /\ held w' = held w /\
    ends_with opened (measured_data sdata chunk reads argv w) r.
Proof.
  intros Hm. destruct (synthetic_measured now_ob now_lb seeded) as (sdata & srows & Hgen & Hsyn & Hsm).
  assert (3 * Z.of_nat (length (Wire.frames sdata)) < 4294967296) as Hsl.
  { destruct (Synthetic.generated seeded) as (sdata' & Hgen' & _ & Hl). rewrite Hgen in Hgen'. injection Hgen' as <-.
    rewrite Hl. vm_compute. reflexivity. }
  exists sdata. unfold main, measured_data. destruct (argv !! 1%nat) as [path|] eqn:Hpath.
  2: { apply lookup_ge_None in Hpath. rewrite (proj2 (Nat.leb_gt _ _)) by lia. unfold mbind, M_bind, Replay.lift. rewrite Hsyn.
       eexists _, w. split_and!; [done..|]. by exists srows. }
  rewrite (proj2 (Nat.leb_le _ _)) by (apply lookup_lt_Some in Hpath; lia).
  assert (forall m : M (list Bench.CsvRow), balanced w m
      (fun rows _ => ends_with opened (measured_data sdata chunk reads argv w) (Ok (0, output_of opened rows)))
      (fun _ => measured_data sdata chunk reads argv w = None) ->
    exists r w', Synthetic.generate_synthetic_session seeded = Ok sdata /\
      (rows ← m; mret (0, output_of opened rows)) w = (r, w') /\ held w' = held w /\
      ends_with opened (measured_data sdata chunk reads argv w) r) as Hend.
  { intros m Hb. unfold balanced, mbind, M_bind in *. destruct (m w) as [[rows|e| |] w']; try done; destruct Hb as [Hh Hb];
      eexists _, w'; (split_and!; [done..|]); [exact Hb|]. rewrite Hb. by exists e. }
  revert Hend. unfold measured_data. rewrite Hpath. intros Hend. apply Hend. clear Hend.
  eapply Replay.b_lift_then; [by apply rd_lookup|]. destruct (Args.is_gz path) eqn:Hgz.
  - unfold measurable in Hm. rewrite Hpath, Hgz in Hm. destruct Hm as (He & Hb & Hn).
    pose proof (streamed_gz w now_ob now_lb chunk reads He Hb Hn) as Hs.
    pose proof (Gzip.run_contents chunk reads ([] : list Wire.event) He Hb) as Hc.
    destruct (Gzip.contents chunk reads) as [data|].
    + destruct Hs as (rows & Hrows & Hs), Hc as [-> _]. eapply b_conseq; [exact Hs|intros rows' l (-> & -> & _); by exists rows|by intros _ ->].
    + eapply b_conseq; [exact Hs|done|intros _ _; by destruct (succeed 0 16 w)].
  - rewrite Replay.file_shown_mapped. eapply b_optional; [exact Handles.keeps_mmap_destroy|exact (Handles.p_mmap w)|..].
    + intros src w' _ [Hmap _]. destruct (measurable_mapping chunk reads argv path w src Hm Hpath Hgz Hmap) as (Hd & <- & Hf).
      destruct (in_memory_ok now_ob now_lb _ Hd Hf) as (_ & _ & rows & _ & _ & _ & Hrun & Hrows). rewrite Hmap.
      eapply b_conseq; [by eapply Replay.b_lift|intros ? l [-> _]|intros l HF; exact HF]. by exists rows.
    + intros w' ->. eapply b_conseq; [by eapply (Replay.b_lift _ _ _ (fun _ => False))|intros ? l [-> _]|done]. by exists srows.
Qed.

End Contents.

(** ** Properties *)

(** C38: the benchmark compares the two books on the same messages, those of the
    input its command line and the calls that fail decide: without an argument
    the synthetic session; the bytes of the file named if it can be opened,
    measured and (unless empty) mapped, and the synthetic session if it cannot;
    and for a .gz file, opened anew for each of the eight passes, its
    decompressed contents.  On that input the program ends with exit code 0
    and rows for both books, with equal counts per message type, each three
    times the number of such messages in the input, and percentiles among so
    many differences of consecutive clock readings; the results file, if it can
    be opened, reads back to exactly these rows.  The one other result is for a
    .gz file that cannot be opened or decompressed to whole messages in every
    pass: an exception, which leaves [main].  Every resource is given back. *)
Theorem bench_main_exact {R} `{Synthetic.Random R} (now_ob now_lb : nat -> Z) (seeded : R) (bytes_at : nat -> Z -> list Z)
  (chunk : nat) (reads : list Gzip.fread_result) (opened : bool) (argv : list string) (w : world)
  (Hfile : measurable bytes_at chunk reads argv w) :
  exists sdata r w', Synthetic.generate_synthetic_session seeded = Ok sdata /\
    main now_ob now_lb seeded bytes_at chunk reads opened argv w = (r, w') /\ held w' = held w /\
    match measured_data bytes_at sdata chunk reads argv w with
    | Some data => exists rows, r = Ok (0, output_of opened rows) /\ measures now_ob now_lb data rows /\
        Bench.read_csv (Bench.write_csv rows) = Some (Bench.row_values <$> rows)
    | None => exists what, r = Throw what
    end.
Proof.
  destruct (main_ends now_ob now_lb seeded bytes_at chunk reads opened argv w Hfile) as (sdata & r & w' & H1 & H2 & H3 & H4).
  exists sdata, r, w'. do 3 (split; [done|]). unfold ends_with in H4.
  destruct (measured_data _ _ _ _ _ _) as [data|]; [|done]. destruct H4 as (rows & -> & Hm & Hn).
  exists rows. split_and!; [done..|]. by apply Bench.csv_reads_back, (measures_wf now_ob now_lb data).
Qed.

#[local] Existing Instance Synthetic.counting.

(** The built-in session as a mapped file; the same when it cannot be mapped;
    and a compressed file that is opened once but not a second time. *)
Lemma bench_main_exact_witness :
  (exists rows w', main (fun k => 40 * Z.of_nat k) (fun k => 15 * Z.of_nat k) Synthetic.kSeed Replay.shows_selftest 0 [] true
     ["bench"; "day.itch"]%string (mkWorld ∅ [Some 0; Some 282; Some 0]) = (Ok (0, output_of true rows), w') /\ held w' = ∅ /\
   counts_of rows = [(65, 12%nat); (69, 3%nat); (88, 3%nat); (68, 3%nat); (85, 3%nat);
                     (65, 12%nat); (69, 3%nat); (88, 3%nat); (68, 3%nat); (85, 3%nat)]) /\
  (exists sdata rows w', Synthetic.generate_synthetic_session Synthetic.kSeed = Ok sdata /\
   main (fun k => 40 * Z.of_nat k) (fun k => 15 * Z.of_nat k) Synthetic.kSeed Replay.shows_selftest 0 [] true
     ["bench"; "day.itch"]%string (mkWorld ∅ [Some 0; Some 282; None]) = (Ok (0, output_of true rows), w') /\
   measures (fun k => 40 * Z.of_nat k) (fun k => 15 * Z.of_nat k) sdata rows) /\
  (exists what w', main (fun k => 40 * Z.of_nat k) (fun k => 15 * Z.of_nat k) Synthetic.kSeed Replay.shows_selftest
     1000 [Gzip.Data [Gzip.mkCall Builder.sample_data Gzip.Z_STREAM_END]] true
     ["bench"; "day.gz"]%string (mkWorld ∅ [Some 0; Some 0; None]) = (Throw what, w') /\ held w' = ∅).
Proof.
  assert (forall a, measurable Replay.shows_selftest 0 [] ["bench"; "day.itch"]%string (mkWorld ∅ [Some 0; Some 282; a])) as Hf.
  { intros a st [= <-]. split; [exact Replay.selftest_bytes|]. split; [reflexivity|vm_compute; reflexivity]. }
  split; [|split].
  - destruct (bench_main_exact (fun k => 40 * Z.of_nat k) (fun k => 15 * Z.of_nat k) Synthetic.kSeed Replay.shows_selftest 0 [] true
      ["bench"; "day.itch"]%string (mkWorld ∅ [Some 0; Some 282; Some 0]) (Hf (Some 0))) as (sdata & r & w' & _ & H1 & H2 & rows & -> & H3 & _).
    exists rows, w'. split; [exact H1|]. split; [exact H2|]. destruct H3 as (ob & lb & -> & _ & _ & E & C).
    unfold counts_of in *. rewrite fmap_app, <- E, C. vm_compute. reflexivity.
  - destruct (bench_main_exact (fun k => 40 * Z.of_nat k) (fun k => 15 * Z.of_nat k) Synthetic.kSeed Replay.shows_selftest 0 [] true
      ["bench"; "day.itch"]%string (mkWorld ∅ [Some 0; Some 282; None]) (Hf None)) as (sdata & r & w' & H0 & H1 & _ & rows & -> & H3 & _).
    exists sdata, rows, w'. split; [exact H0|]. split; [exact H1|exact H3].
  - destruct (bench_main_exact (fun k => 40 * Z.of_nat k) (fun k => 15 * Z.of_nat k) Synthetic.kSeed Replay.shows_selftest
      1000 [Gzip.Data [Gzip.mkCall Builder.sample_data Gzip.Z_STREAM_END]] true ["bench"; "day.gz"]%string (mkWorld ∅ [Some 0; Some 0; None]))
      as (sdata & r & w' & _ & H1 & H2 & H3).
    + split; [exact I|]. split; [apply (bool_decide_unpack _); vm_compute; exact I|vm_compute; reflexivity].
    + destruct H3 as [what ->]. exists what, w'. split; [exact H1|exact H2].
Defined.

(** A results file that cannot be opened is not noticed: the program still ends
    with exit code 0, and says that it wrote it. *)
Example unopened_results_file rows : results (output_of false rows) = None.
Proof. reflexivity. Qed.

End BenchMain.
