(* ===== verification/BenchThreaded.v ===== *)
(** * BenchThreaded: the threaded benchmark

    Models bench/bench_threaded_main.cpp around [Roundtrip]: the three kinds of
    timed pass over one input, [run_path] (a discarded pass, three measured
    ones, the median and the best), [percentile_sorted], and the rows [main]
    writes.  As in [Bench] the clock is an input; what the two threads of a
    pass leave is constrained as in [ReplayThreaded]. *)

From Stdlib Require Import SpecFloat Sorting.Sorted.
From stdpp Require Import sorting.
From S2P Require Import Prelude Wire Encode Book OrderBook LadderBook Doubles Builder Spsc Threaded ReplayThreaded Replay Synthetic Bench Roundtrip Query Csv.

Module BenchThreaded.

Definition kMeasuredPasses : nat := 3.

(** ** Passes *)

Record PassTiming := mkTiming { frames : nat; elapsed_s : Doubles.double }.

(** [duration<double>(t1 - t0).count()] of two readings in nanoseconds. *)
Definition seconds (t0 t1 : Z) : Doubles.double := Doubles.div (Doubles.of_Z (t1 - t0)) (Doubles.of_Z 1000000000).

Section Passes.
Variable now : nat -> Z.

(** [calls]: the clock readings so far; the number after the pass is
    returned. *)
Definition run_single_threaded_pass (data : list Z) (len calls : nat) : outcome (PassTiming * nat) :=
  '(frames, h) ← Wire.parse_stream data len (Ok (Builder.init (B := LadderBook.LadderBook)));
  h ← h;
  Ok (mkTiming frames (seconds (now calls) (now (S calls))), S (S calls)).

(** [threads]: what the two threads leave for the callbacks of a parse. *)
Definition run_threaded_pass (threads : list Wire.event -> ReplayThreaded.RunStats LadderBook.LadderBook)
    (data : list Z) (len calls : nat) : outcome (PassTiming * nat) :=
  '(_, es) ← Wire.parse_stream data len ([] : list Wire.event);
  let stats := threads es in
  h ← ReplayThreaded.builder stats;
  Ok (mkTiming (ReplayThreaded.frames stats) (seconds (now calls) (now (S calls))), S (S calls)).

(** Cores 0 and 1: pinning changes where the threads run, not what they do. *)
Definition run_threaded_pinned_pass := run_threaded_pass.

End Passes.

(** ** Paths *)

Record PathResult := mkPath {
  name : string; path_frames : nat;
  median_elapsed_s : Doubles.double; median_msgs_per_sec : Doubles.double; best_msgs_per_sec : Doubles.double }.

(** The loop over the measured passes: the last pass's frames and the times. *)
Fixpoint measured (pass_fn : nat -> outcome (PassTiming * nat)) (n calls frames0 : nat) (elapsed : list Doubles.double)
  : outcome (nat * list Doubles.double * nat) :=
  match n with
  | O => Ok (frames0, elapsed, calls)
  | S n =>
    '(t, calls) ← pass_fn calls;
    measured pass_fn n calls (frames t) (elapsed ++ [elapsed_s t])
  end.

(** The order [sort] puts the times in. *)
Definition dle (x y : Doubles.double) : Prop := Doubles.leb x y = true.
#[global] Instance dle_dec : RelDecision dle := fun x y => decide (Doubles.leb x y = true).

Definition run_path (name : string) (pass_fn : nat -> outcome (PassTiming * nat)) (calls : nat) : outcome (PathResult * nat) :=
  '(_, calls) ← pass_fn calls;
  '(frames, elapsed, calls) ← measured pass_fn kMeasuredPasses calls 0 [];
  let sorted := merge_sort dle elapsed in
  median_elapsed ← rd sorted (kMeasuredPasses / 2);
  min_elapsed ← rd sorted 0;
  Ok (mkPath name frames median_elapsed
        (Doubles.div (Doubles.of_Z (Z.of_nat frames)) median_elapsed)
        (Doubles.div (Doubles.of_Z (Z.of_nat frames)) min_elapsed), calls).

(** ** Rows *)

Definition percentile_sorted : list Z -> Doubles.double -> outcome Z := Bench.percentile_sorted.

Record CsvRow := mkRow {
  metric : string; path : string; count : nat;
  row_elapsed_s : Doubles.double; messages_per_sec : Doubles.double; row_best : Doubles.double;
  p50_ns : Z; p99_ns : Z; p999_ns : Z; min_ns : Z }.

Definition throughput_row (r : PathResult) : CsvRow :=
  mkRow "throughput" (name r) (path_frames r) (median_elapsed_s r) (median_msgs_per_sec r) (best_msgs_per_sec r) 0 0 0 0.

(** [sort], [front] and the three percentiles of a measurement. *)
Definition roundtrip_row (path : string) (latency_ns : list Z) : outcome CsvRow :=
  let v := merge_sort Z.le latency_ns in
  min ← rd v 0;
  p50 ← percentile_sorted v (Doubles.literal 50 100);
  p99 ← percentile_sorted v (Doubles.literal 99 100);
  p999 ← percentile_sorted v (Doubles.literal 999 1000);
  Ok (mkRow "spsc_roundtrip" path (length v) (Doubles.of_Z 0) (Doubles.of_Z 0) (Doubles.of_Z 0) p50 p99 p999 min).

(** The rows of [main] over the session [data] and the two measurements. *)
Definition main (now : nat -> Z) (threads pinned_threads : list Wire.event -> ReplayThreaded.RunStats LadderBook.LadderBook)
    (data : list Z) (saturated isolated : list Z) : outcome (list CsvRow) :=
  '(single, calls) ← run_path "single_threaded" (run_single_threaded_pass now data (length data)) 0;
  '(threaded, calls) ← run_path "threaded_pipeline" (run_threaded_pass now threads data (length data)) calls;
  '(pinned, calls) ← run_path "threaded_pinned" (run_threaded_pinned_pass now pinned_threads data (length data)) calls;
  sat ← roundtrip_row "envelope_roundtrip_saturated" saturated;
  iso ← roundtrip_row "envelope_roundtrip_isolated" isolated;
  Ok [throughput_row single; throughput_row threaded; throughput_row pinned; sat; iso].

(** ** The results file *)

Section Report.

(** [ostream << double]; it prints neither commas nor line ends. *)
Variable show : Doubles.double -> Query.text.

Definition write_csv (rows : list CsvRow) : Query.text :=
  Query.str "metric,path,count,elapsed_s,messages_per_sec,best_msgs_per_sec,p50_ns,p99_ns,p999_ns,min_ns" ++ [Query.lf] ++
  (rows ≫= fun r => Query.str (metric r) ++ [Query.comma] ++ Query.str (path r) ++ [Query.comma] ++
     Query.to_string (Z.of_nat (count r)) ++ [Query.comma] ++ show (row_elapsed_s r) ++ [Query.comma] ++
     show (messages_per_sec r) ++ [Query.comma] ++ show (row_best r) ++ [Query.comma] ++
     Query.to_string (p50_ns r) ++ [Query.comma] ++ Query.to_string (p99_ns r) ++ [Query.comma] ++
     Query.to_string (p999_ns r) ++ [Query.comma] ++ Query.to_string (min_ns r) ++ [Query.lf]).

Definition header : list Query.text :=
  Query.str <$> ["metric"; "path"; "count"; "elapsed_s"; "messages_per_sec"; "best_msgs_per_sec"; "p50_ns"; "p99_ns"; "p999_ns"; "min_ns"]%string.

Definition cells (r : CsvRow) : list Query.text :=
  [Query.str (metric r); Query.str (path r); Query.to_string (Z.of_nat (count r)); show (row_elapsed_s r);
   show (messages_per_sec r); show (row_best r); Query.to_string (p50_ns r); Query.to_string (p99_ns r);
   Query.to_string (p999_ns r); Query.to_string (min_ns r)].

Hypothesis Hshow : forall d, Csv.cell (show d).

(** The file has one line per row, and each line its ten fields. *)
Lemma threaded_csv_reads_back rows :
  Forall (fun r => Csv.cell (Query.str (metric r)) /\ Csv.cell (Query.str (path r)) /\
    0 <= p50_ns r /\ 0 <= p99_ns r /\ 0 <= p999_ns r /\ 0 <= min_ns r) rows ->
  Csv.with_header header (write_csv rows) = Some (cells <$> rows).
Proof.
  intros Hrows. unfold write_csv. rewrite (Csv.written_lines _ cells)
    by (intros r; cbn [Csv.line cells app]; by repeat (rewrite <- app_assoc; cbn [app])).
  apply (Csv.with_header_lines header); [done|apply (bool_decide_unpack _); vm_compute; exact I|].
  apply Forall_fmap. eapply Forall_impl; [exact Hrows|]. intros r (H1 & H2 & H3 & H4 & H5 & H6). split; [done|]. unfold cells.
  repeat (apply Forall_cons_2; [first [assumption|apply Hshow|apply Csv.digits_cell; first [assumption|lia]]|]). apply Forall_nil_2.
Qed.

End Report.

(** ** Proofs *)

(** One of the times a pass of this path can take. *)
Definition timed (now : nat -> Z) (d : Doubles.double) : Prop := exists c, d = seconds (now c) (now (S c)).

Section Paths.
Variables (now : nat -> Z) (frames0 : nat) (pass_fn : nat -> outcome (PassTiming * nat)).

(** Every pass gets through, with the same number of frames. *)
Hypothesis Hpass : forall calls, pass_fn calls = Ok (mkTiming frames0 (seconds (now calls) (now (S calls))), S (S calls)).

Lemma run_path_ok path calls : exists r, run_path path pass_fn calls = Ok (r, (calls + 8)%nat) /\
  name r = path /\ path_frames r = frames0 /\ timed now (median_elapsed_s r) /\
  median_msgs_per_sec r = Doubles.div (Doubles.of_Z (Z.of_nat frames0)) (median_elapsed_s r) /\
  exists best, timed now best /\ best_msgs_per_sec r = Doubles.div (Doubles.of_Z (Z.of_nat frames0)) best.
Proof.
  unfold run_path, kMeasuredPasses. cbn [measured]. rewrite Hpass, bind_Ok. cbn [measured]. rewrite !Hpass, !bind_Ok.
  rewrite !Hpass, !bind_Ok. rewrite !Hpass, !bind_Ok. cbn [app elapsed_s frames].
  set (l := [seconds _ _; seconds _ _; seconds _ _]). pose proof (merge_sort_Permutation dle l) as Hp.
  assert (Forall (timed now) (merge_sort dle l)) as Hall.
  { rewrite Hp. repeat (apply Forall_cons_2; [by eexists|]). apply Forall_nil_2. }
  assert (length (merge_sort dle l) = 3%nat) as Hlen by (by rewrite Hp).
  destruct (rd_ok (merge_sort dle l) (3 / 2) ltac:(rewrite Hlen; cbn; lia)) as (med & -> & Hmed).
  destruct (rd_ok (merge_sort dle l) 0 ltac:(rewrite Hlen; lia)) as (best & -> & Hbest). rewrite !bind_Ok.
  eexists. split; [do 2 f_equal; lia|]. cbn. split_and!; try done; [by eapply Forall_lookup_1|].
  exists best. split; [by eapply Forall_lookup_1|done].
Qed.

End Paths.

Lemma single_pass_ok now data calls : Wire.bytes data -> Z.of_nat (length (Wire.frames data)) < Book.max_orders ->
  run_single_threaded_pass now data (length data) calls =
    Ok (mkTiming (length (Wire.frames data)) (seconds (now calls) (now (S calls))), S (S calls)).
Proof.
  intros Hb Hn. destruct (Replay.run_returns (B := LadderBook.LadderBook) data Hb Hn) as (h & _ & Hparse & _).
  unfold run_single_threaded_pass. by rewrite Hparse, !bind_Ok.
Qed.

Lemma threaded_pass_ok now threads data calls : Wire.bytes data -> Z.of_nat (length (Wire.frames data)) < Book.max_orders ->
  Forall Threaded.clean (Wire.events data) -> ReplayThreaded.scheduled threads (Wire.events data) ->
  run_threaded_pass now threads data (length data) calls =
    Ok (mkTiming (length (Wire.frames data)) (seconds (now calls) (now (S calls))), S (S calls)).
Proof.
  intros Hb Hn Hclean Hsched. destruct (Replay.run_returns (B := LadderBook.LadderBook) data Hb Hn) as (h & _ & Hparse & _).
  rewrite Wire.parse_stream_frames, firstn_all in Hparse by done. injection Hparse as Hfold.
  destruct (ReplayThreaded.scheduled_stats threads _ Hsched Hclean) as (occ & _ & Hstats).
  unfold run_threaded_pass. rewrite ReplayThreaded.parse_log, bind_Ok, Hstats by done. cbv zeta. cbn [ReplayThreaded.builder ReplayThreaded.frames].
  rewrite Hfold, bind_Ok. unfold Wire.events. by rewrite length_fmap.
Qed.

(** The ranks the three percentiles read, of 2.2 million samples. *)
Lemma percentile_ranks (v : list Z) : Z.of_nat (length v) = Synthetic.kTotalMessages ->
  percentile_sorted v (Doubles.literal 50 100) = rd v (Z.to_nat 1099999) /\
  percentile_sorted v (Doubles.literal 99 100) = rd v (Z.to_nat 2177999) /\
  percentile_sorted v (Doubles.literal 999 1000) = rd v (Z.to_nat 2197799).
Proof.
  unfold Synthetic.kTotalMessages. intros Hv. unfold percentile_sorted, Bench.percentile_sorted.
  destruct (Nat.eqb_spec (length v) 0) as [Hz|_]; [lia|].
  replace (Z.of_nat (length v - 1)) with 2199999 by lia.
  split_and!; (match goal with |- context [Doubles.to_u64 ?x] =>
    let y := eval vm_compute in (Doubles.to_u64 x) in change (Doubles.to_u64 x) with y end); by rewrite bind_Ok.
Qed.

Lemma sorted_le (v : list Z) a b x y : StronglySorted Z.le v -> (a <= b)%nat -> v !! a = Some x -> v !! b = Some y -> x <= y.
Proof.
  intros Hs. revert a b. induction Hs as [|z v Hs IH Hz]; intros [|a] [|b] Hab Ha Hb; cbn in *; try done; try lia.
  - injection Ha as ->. injection Hb as ->. lia.
  - injection Ha as ->. by eapply Forall_lookup_1.
  - apply (IH a b); [lia|done|done].
Qed.

Lemma roundtrip_row_ok p l : Z.of_nat (length l) = Synthetic.kTotalMessages ->
  exists r, roundtrip_row p l = Ok r /\ metric r = "spsc_roundtrip"%string /\ path r = p /\
    count r = length l /\ min_ns r ∈ l /\ Forall (fun x => min_ns r <= x) l /\
    min_ns r <= p50_ns r <= p99_ns r /\ p99_ns r <= p999_ns r /\ p50_ns r ∈ l /\ p99_ns r ∈ l /\ p999_ns r ∈ l.
Proof.
  intros Hl. unfold roundtrip_row. pose proof (merge_sort_Permutation Z.le l) as Hperm.
  pose proof (StronglySorted_merge_sort Z.le l) as Hs.
  set (v := merge_sort Z.le l) in *. assert (length v = length l) as Hlen by (by rewrite Hperm).
  destruct (percentile_ranks v) as (E1 & E2 & E3); [by rewrite Hlen|]. unfold Synthetic.kTotalMessages in Hl.
  destruct (rd_ok v 0 ltac:(lia)) as (a & Ra & Ha). rewrite Ra, bind_Ok, E1.
  destruct (rd_ok v (Z.to_nat 1099999) ltac:(lia)) as (b & -> & Hb). rewrite bind_Ok, E2.
  destruct (rd_ok v (Z.to_nat 2177999) ltac:(lia)) as (c & -> & Hc). rewrite bind_Ok, E3.
  destruct (rd_ok v (Z.to_nat 2197799) ltac:(lia)) as (d & -> & Hd). rewrite bind_Ok.
  eexists. split; [done|]. cbn.
  assert (forall n x, v !! n = Some x -> x ∈ l) as Hin by (intros n x Hx; rewrite <- Hperm; by eapply list_elem_of_lookup_2).
  split_and!; [done|done|done|by eapply Hin| |..]; try (by eapply Hin).
  - apply Forall_forall. intros x Hx. rewrite <- Hperm in Hx. apply list_elem_of_lookup in Hx as [m Hm].
    apply (sorted_le v 0 m a x Hs (Nat.le_0_l _) Ha Hm).
  - apply (sorted_le v _ _ a b Hs (Nat.le_0_l _) Ha Hb).
  - eapply (sorted_le v _ _ b c Hs); [|exact Hb|exact Hc]. lia.
  - eapply (sorted_le v _ _ c d Hs); [|exact Hc|exact Hd]. lia.
Qed.

(** What a finished run of the measurement returns. *)
Definition measurement (isolated : bool) (l : list Z) : Prop :=
  exists buf now s, length buf = Z.to_nat ReplayThreaded.kQueueCapacity /\
    Roundtrip.reachable ReplayThreaded.kQueueBits (Z.to_nat Synthetic.kTotalMessages) isolated buf now s /\
    Roundtrip.finished (Z.to_nat Synthetic.kTotalMessages) s /\ l = Roundtrip.latency_ns s.

(** A sample: the time between two readings of the clock, the later one second. *)
Definition sample (x : Z) : Prop := exists t0 t1, t0 <= t1 /\ x = u64 (t1 - t0).

Lemma total_range : Z.of_nat (Z.to_nat Synthetic.kTotalMessages) = Synthetic.kTotalMessages.
Proof. by rewrite Z2Nat.id. Qed.

Lemma measurement_ok isolated l : measurement isolated l -> Z.of_nat (length l) = Synthetic.kTotalMessages /\ Forall sample l.
Proof.
  intros (buf & now & s & Hb & Hs & [_ Hf] & ->). revert Hs Hf. generalize total_range.
  generalize (Z.to_nat Synthetic.kTotalMessages) as n. intros n Hn Hs Hf.
  assert (Z.of_nat n < 18446744073709551616) as Hn64 by (rewrite Hn; unfold Synthetic.kTotalMessages; lia).
  pose proof (Roundtrip.rt_reachable_inv ReplayThreaded.kQueueBits n isolated ltac:(unfold ReplayThreaded.kQueueBits; lia) Hn64 buf now s Hb Hs) as Hinv.
  rewrite (Roundtrip.rt_lats _ _ _ _ Hinv). split; [done|].
  apply Forall_lookup_2. intros j x Hj. pose proof (lookup_lt_Some _ _ _ Hj) as Hlt. rewrite (Roundtrip.rt_lats _ _ _ _ Hinv) in Hlt.
  destruct (Roundtrip.rt_samples _ _ _ _ Hinv j ltac:(lia)) as (t0 & t1 & _ & _ & _ & Hx & Hle). rewrite Hx in Hj. injection Hj as <-.
  exists t0, t1. split; [lia|done].
Qed.

Lemma measurement_exists isolated : exists l, measurement isolated l.
Proof.
  assert (forall n, Z.of_nat n = Synthetic.kTotalMessages -> exists s,
    Roundtrip.reachable ReplayThreaded.kQueueBits n isolated (replicate (Z.to_nat ReplayThreaded.kQueueCapacity) (Roundtrip.numbered 0)) 0 s /\
    Roundtrip.finished n s) as H.
  { intros n Hn. set (buf := replicate _ _). set (s0 := Roundtrip.start n isolated buf 0).
    assert (Z.of_nat n < 18446744073709551616) as Hn64 by (rewrite Hn; unfold Synthetic.kTotalMessages; lia).
    assert (1 <= ReplayThreaded.kQueueBits <= 63) as Hk by (unfold ReplayThreaded.kQueueBits; lia).
    assert (length buf = Z.to_nat ReplayThreaded.kQueueCapacity) as Hb by apply length_replicate.
    destruct (Roundtrip.roundtrip_can_finish ReplayThreaded.kQueueBits n isolated Hk Hn64 s0) as (s & Hr & Hf);
      [by apply Roundtrip.rt_start_inv|].
    exists s. split; [|done]. apply (Roundtrip.rtc_reachable _ _ _ buf 0 s0 s); [apply Roundtrip.reach_start|done]. }
  destruct (H _ total_range) as (s & Hs & Hf). exists (Roundtrip.latency_ns s).
  eexists _, 0, s. split; [apply length_replicate|]. by split.
Qed.

(** ** Properties *)

(** A throughput row of a path over [n] messages. *)
Definition throughput_for (now : nat -> Z) (p : string) (n : nat) (r : CsvRow) : Prop :=
  metric r = "throughput"%string /\ path r = p /\ count r = n /\ timed now (row_elapsed_s r) /\
  messages_per_sec r = Doubles.div (Doubles.of_Z (Z.of_nat n)) (row_elapsed_s r) /\
  exists best, timed now best /\ row_best r = Doubles.div (Doubles.of_Z (Z.of_nat n)) best.

(** A round-trip row of some samples. *)
Definition roundtrip_for (p : string) (l : list Z) (r : CsvRow) : Prop :=
  metric r = "spsc_roundtrip"%string /\ path r = p /\ Z.of_nat (count r) = Synthetic.kTotalMessages /\
  Forall (fun x => min_ns r <= x) l /\ min_ns r <= p50_ns r <= p99_ns r /\ p99_ns r <= p999_ns r /\
  sample (min_ns r) /\ sample (p50_ns r) /\ sample (p99_ns r) /\ sample (p999_ns r).

Lemma roundtrip_for_ok p isolated l : measurement isolated l -> exists r, roundtrip_row p l = Ok r /\ roundtrip_for p l r.
Proof.
  intros Hl. destruct (measurement_ok isolated l Hl) as [Hlen Hall].
  destruct (roundtrip_row_ok p l Hlen) as (r & Hr & Em & Ep & Hc & Hmin & Hle & H1 & H2 & H3 & H4 & H5). exists r. split; [done|].
  assert (forall x, x ∈ l -> sample x) as Hin by (by apply Forall_forall).
  unfold roundtrip_for. rewrite Hc. split_and!; auto; lia.
Qed.

Lemma throughput_for_ok now p n r : name r = p -> path_frames r = n -> timed now (median_elapsed_s r) ->
  median_msgs_per_sec r = Doubles.div (Doubles.of_Z (Z.of_nat n)) (median_elapsed_s r) ->
  (exists best, timed now best /\ best_msgs_per_sec r = Doubles.div (Doubles.of_Z (Z.of_nat n)) best) ->
  throughput_for now p n (throughput_row r).
Proof. intros <- <- H1 H2 H3. by split_and!. Qed.

(** The threaded benchmark compares like with like: on any input of well-formed
    messages, under any scheduling of the two threads, the single-threaded,
    the threaded and the pinned path all count every message of the input, and
    each speed is that count over a time one of the passes took; and each
    round-trip row counts all 2.2 million samples of its measurement, with
    its minimum below them all, the percentiles in order, and every number
    it states a difference of two clock readings taken in that order. *)
Theorem bench_rows_exact (now : nat -> Z) (threads pinned : list Wire.event -> ReplayThreaded.RunStats LadderBook.LadderBook)
  (data saturated isolated : list Z) (Hb : Wire.bytes data) (Hn : Z.of_nat (length (Wire.frames data)) < Book.max_orders)
  (Hclean : Forall Threaded.clean (Wire.events data))
  (Ht : ReplayThreaded.scheduled threads (Wire.events data)) (Hp : ReplayThreaded.scheduled pinned (Wire.events data))
  (Hsat : measurement false saturated) (Hiso : measurement true isolated) :
  exists r1 r2 r3 r4 r5, main now threads pinned data saturated isolated = Ok [r1; r2; r3; r4; r5] /\
    throughput_for now "single_threaded" (length (Wire.frames data)) r1 /\
    throughput_for now "threaded_pipeline" (length (Wire.frames data)) r2 /\
    throughput_for now "threaded_pinned" (length (Wire.frames data)) r3 /\
    roundtrip_for "envelope_roundtrip_saturated" saturated r4 /\
    roundtrip_for "envelope_roundtrip_isolated" isolated r5.
Proof.
  unfold main.
  destruct (run_path_ok now _ _ (fun c => single_pass_ok now data c Hb Hn) "single_threaded" 0) as (p1 & -> & A1 & A2 & A3 & A4 & A5).
  rewrite bind_Ok.
  destruct (run_path_ok now _ _ (fun c => threaded_pass_ok now threads data c Hb Hn Hclean Ht) "threaded_pipeline" (0 + 8)) as (p2 & -> & B1 & B2 & B3 & B4 & B5).
  rewrite bind_Ok.
  destruct (run_path_ok now _ _ (fun c => threaded_pass_ok now pinned data c Hb Hn Hclean Hp) "threaded_pinned" (0 + 8 + 8)) as (p3 & Hp3 & Q1 & Q2 & Q3 & Q4 & Q5).
  unfold run_threaded_pinned_pass. rewrite Hp3, bind_Ok. clear Hp3.
  destruct (roundtrip_for_ok "envelope_roundtrip_saturated" false saturated Hsat) as (r4 & -> & H4). rewrite bind_Ok.
  destruct (roundtrip_for_ok "envelope_roundtrip_isolated" true isolated Hiso) as (r5 & -> & H5). rewrite bind_Ok.
  eexists _, _, _, r4, r5. split; [reflexivity|]. split_and!; try done; by apply throughput_for_ok.
Qed.

(** Two schedules of the built-in session, and two measurements. *)
Lemma bench_rows_exact_witness : exists threads saturated isolated r1 r2 r3 r4 r5,
  main (fun k => 40 * Z.of_nat k) threads threads Replay.selftest_data saturated isolated = Ok [r1; r2; r3; r4; r5] /\
  count r1 = 9%nat /\ count r2 = 9%nat.
Proof.
  destruct (ReplayThreaded.selftest_scheduled LadderBook.LadderBook) as (threads & Ht).
  destruct (measurement_exists false) as (sat & Hsat), (measurement_exists true) as (iso & Hiso).
  destruct (bench_rows_exact (fun k => 40 * Z.of_nat k) threads threads Replay.selftest_data sat iso Replay.selftest_bytes)
    as (r1 & r2 & r3 & r4 & r5 & H & (_ & _ & H1 & _) & (_ & _ & H2 & _) & _).
  - vm_compute. reflexivity.
  - apply (bool_decide_unpack _). vm_compute. exact I.
  - exact Ht.
  - exact Ht.
  - exact Hsat.
  - exact Hiso.
  - exists threads, sat, iso, r1, r2, r3, r4, r5. split; [exact H|].
    split; [rewrite H1; vm_compute; reflexivity|rewrite H2; vm_compute; reflexivity].
Defined.

End BenchThreaded.
