(* ===== verification/Almgren.v ===== *)
(** * Almgren: the risk-averse schedule

    Models include/exec/almgren_chriss.hpp: the constructor's trajectory, its
    rounding into integer shares, and [advance].  [std::acosh] and [std::sinh]
    are the C library's: they are parameters, and the theorems hold for any
    functions. *)

From S2P Require Import Prelude Wire Doubles ExecTypes Twap.

Module Almgren.

Record AlmgrenChrissParams := mkParams {
  side : Wire.Side; tot_shares : Z; start_ts : Z; end_ts : Z; bin_ns : Z;
  risk_aversion : Doubles.double; volatility : Doubles.double; impact_coefficient : Doubles.double;
  child_type : ExecTypes.OrderType; limit_price : Z }.

Record AlmgrenChriss := mkAlmgrenChriss {
  params_ : AlmgrenChrissParams;
  schedule_ : list Z;
  bin_count_ : Z;
  next_bin_ : Z;
  queue_ : ExecTypes.ChildOrderQueue }.

(** Signed 64-bit addition: overflow is undefined. *)
Definition i64_add (a b : Z) : outcome Z :=
  if (-9223372036854775808 <=? a + b) && (a + b <? 9223372036854775808) then Ok (a + b) else UB.

Definition zero : Doubles.double := Doubles.of_Z 0.
Definition kMinKappaHorizon : Doubles.double := Doubles.literal 1 1000000.
Definition kMaxKappaHorizon : Doubles.double := Doubles.of_Z 50.

Section Libm.
Variables acosh sinh : Doubles.double -> Doubles.double.

(** [kappa] before it is clamped. *)
Definition raw_kappa (p : AlmgrenChrissParams) (tau : Doubles.double) : Doubles.double :=
  if Doubles.ltb zero (risk_aversion p) then
    let acosh_arg := Doubles.add (Doubles.of_Z 1)
      (Doubles.div
         (Doubles.mul (Doubles.mul (Doubles.mul (Doubles.mul (risk_aversion p) (volatility p)) (volatility p)) tau) tau)
         (Doubles.mul (Doubles.of_Z 2) (impact_coefficient p))) in
    Doubles.div (acosh acosh_arg) tau
  else zero.

(** The loop over [j] of the non-uniform trajectory. *)
Fixpoint trajectory (k : nat) (j : Z) (total tau horizon kappa denom remaining_prev : Doubles.double) : list Doubles.double :=
  match k with
  | O => []
  | S k =>
    let t_remaining := Doubles.sub horizon (Doubles.mul (Doubles.of_Z j) tau) in
    let remaining := Doubles.div (Doubles.mul total (sinh (Doubles.mul kappa t_remaining))) denom in
    Doubles.sub remaining_prev remaining :: trajectory k (j + 1) total tau horizon kappa denom remaining
  end.

(** [shares_to_trade], its first [n] entries. *)
Definition shares_to_trade (p : AlmgrenChrissParams) (n : Z) : list Doubles.double :=
  let tau := Doubles.of_Z (bin_ns p) in
  let horizon := Doubles.mul tau (Doubles.of_Z n) in
  let kappa := raw_kappa p tau in
  let kappa := if Doubles.ltb kMaxKappaHorizon (Doubles.mul kappa horizon) then Doubles.div kMaxKappaHorizon horizon else kappa in
  if Doubles.ltb (Doubles.mul kappa horizon) kMinKappaHorizon then
    replicate (Z.to_nat n) (Doubles.div (Doubles.of_Z (tot_shares p)) (Doubles.of_Z n))
  else
    trajectory (Z.to_nat n) 1 (Doubles.of_Z (tot_shares p)) tau horizon kappa (sinh (Doubles.mul kappa horizon))
      (Doubles.of_Z (tot_shares p)).

(** The rounding loop from index [i]. *)
Fixpoint round_loop (amounts : list Doubles.double) (i : nat) (schedule : list Z) (rounded_sum : Z) : outcome (list Z * Z) :=
  match amounts with
  | [] => Ok (schedule, rounded_sum)
  | x :: amounts =>
    match Doubles.llround x with
    | None => UB
    | Some rounded =>
      schedule ← wr schedule i (u32 rounded);
      rounded_sum ← i64_add rounded_sum rounded;
      round_loop amounts (S i) schedule rounded_sum
    end
  end.

(** The remainder goes to the last bin. *)
Definition finish_schedule (p : AlmgrenChrissParams) (n : Z) (amounts : list Doubles.double) : outcome (list Z) :=
  '(schedule, rounded_sum) ← round_loop amounts 0 (replicate (Z.to_nat ExecTypes.kMaxScheduleBins) 0) 0;
  diff ← i64_add (tot_shares p) (- rounded_sum);
  last ← rd schedule (Z.to_nat n - 1);
  adjusted_last ← i64_add last diff;
  wr schedule (Z.to_nat n - 1) (u32 (if adjusted_last <? 0 then 0 else adjusted_last)).

Definition construct (p : AlmgrenChrissParams) : outcome AlmgrenChriss :=
  if end_ts p <=? start_ts p then Throw "AlmgrenChriss: start_ts must be < end_ts"
  else if bin_ns p =? 0 then Throw "AlmgrenChriss: bin_ns must be > 0"
  else if Doubles.ltb (risk_aversion p) zero then Throw "AlmgrenChriss: risk_aversion must be >= 0"
  else if Doubles.ltb (volatility p) zero then Throw "AlmgrenChriss: volatility must be >= 0"
  else if Doubles.leb (impact_coefficient p) zero then Throw "AlmgrenChriss: impact_coefficient must be > 0"
  else
    let span := u64 (end_ts p - start_ts p) in
    let bin_count := u64 (u64 (span + bin_ns p) - 1) / bin_ns p in
    if (bin_count =? 0) || (ExecTypes.kMaxScheduleBins <? bin_count)
    then Throw "AlmgrenChriss: bin_count out of range for kMaxScheduleBins"
    else
      schedule ← finish_schedule p bin_count (shares_to_trade p bin_count);
      Ok (mkAlmgrenChriss p schedule bin_count 0 (ExecTypes.empty_queue ExecTypes.default_order)).

End Libm.

Definition done (a : AlmgrenChriss) : bool := bin_count_ a <=? next_bin_ a.

Definition boundary (a : AlmgrenChriss) (bin : Z) : Z :=
  u64 (start_ts (params_ a) + u64 (u64 (bin + 1) * bin_ns (params_ a))).

Fixpoint advance_loop (fuel : nat) (now pushed : Z) (a : AlmgrenChriss) : outcome (Z * AlmgrenChriss) :=
  match fuel with
  | O => NoFuel
  | S fuel =>
    if next_bin_ a <? bin_count_ a then
      if now <? boundary a (next_bin_ a) then Ok (pushed, a)
      else if ExecTypes.full (queue_ a) then Ok (pushed, a)
      else
        shares ← rd (schedule_ a) (Z.to_nat (next_bin_ a));
        '(_, q) ← ExecTypes.push
          (ExecTypes.mkChildOrder now (side (params_ a)) (child_type (params_ a))
             (if decide (child_type (params_ a) = ExecTypes.Limit) then limit_price (params_ a) else 0)
             shares) (queue_ a);
        advance_loop fuel now (u64 (pushed + 1))
          (mkAlmgrenChriss (params_ a) (schedule_ a) (bin_count_ a) (u64 (next_bin_ a + 1)) q)
    else Ok (pushed, a)
  end.

(** Every iteration moves to the next bin. *)
Definition advance (now : Z) (a : AlmgrenChriss) : outcome (Z * AlmgrenChriss) :=
  advance_loop (Z.to_nat (bin_count_ a - next_bin_ a) + 1) now 0 a.

(** ** The same clock as TWAP

    [advance] is [Twap.advance] on the corresponding TWAP state. *)

Definition as_twap (a : AlmgrenChriss) : Twap.Twap :=
  Twap.mkTwap
    (Twap.mkTwapParams (side (params_ a)) (tot_shares (params_ a)) (start_ts (params_ a)) (end_ts (params_ a))
       (bin_ns (params_ a)) (child_type (params_ a)) (limit_price (params_ a)))
    (schedule_ a) (bin_count_ a) (next_bin_ a) (queue_ a).

Definition from_twap (p : AlmgrenChrissParams) (t : Twap.Twap) : AlmgrenChriss :=
  mkAlmgrenChriss p (Twap.schedule_ t) (Twap.bin_count_ t) (Twap.next_bin_ t) (Twap.queue_ t).

Lemma advance_loop_twap fuel now pushed a :
  advance_loop fuel now pushed a =
    (fun r => (r.1, from_twap (params_ a) r.2)) <$> Twap.advance_loop fuel now pushed (as_twap a).
Proof.
  revert pushed a. induction fuel as [|fuel IH]; intros pushed a; [done|].
  cbn [advance_loop Twap.advance_loop as_twap Twap.next_bin_ Twap.bin_count_ Twap.queue_ Twap.schedule_ Twap.params_
       Twap.side Twap.child_type Twap.limit_price].
  change (Twap.boundary (as_twap a)) with (boundary a).
  destruct (next_bin_ a <? bin_count_ a); [|by destruct a]. unfold as_twap at 1.
  change (Twap.boundary _ (next_bin_ a)) with (boundary a (next_bin_ a)).
  destruct (now <? boundary a (next_bin_ a)); [by destruct a|].
  destruct (ExecTypes.full (queue_ a)); [by destruct a|].
  destruct (rd (schedule_ a) (Z.to_nat (next_bin_ a))) as [shares| | |]; try done. rewrite !bind_Ok.
  destruct (ExecTypes.push _ (queue_ a)) as [[b q]| | |]; try done. rewrite !bind_Ok. by rewrite IH.
Qed.

Lemma advance_twap now a :
  advance now a = (fun r => (r.1, from_twap (params_ a) r.2)) <$> Twap.advance now (as_twap a).
Proof. apply advance_loop_twap. Qed.

(** ** Rounding *)

Definition sum (l : list Z) : Z := foldr Z.add 0 l.

Lemma almgren_sum_app l1 l2 : sum (l1 ++ l2) = sum l1 + sum l2.
Proof. unfold sum. induction l1 as [|x l1 IH]; simpl; lia. Qed.

Lemma sum_range l : Forall is_u32 l -> 0 <= sum l <= Z.of_nat (length l) * 4294967296.
Proof. induction 1 as [|x l Hx Hl IH]; [done|]. cbn [sum foldr length]. fold (sum l). unfold is_u32 in Hx. lia. Qed.

(** What every amount rounds to. *)
Definition rounds_to (amounts : list Doubles.double) (rs : list Z) : Prop :=
  Forall2 (fun x r => Doubles.llround x = Some r) amounts rs.

Lemma round_loop_ok amounts rs pre post s0 : rounds_to amounts rs -> Forall is_u32 rs ->
  length post = length rs -> 0 <= s0 -> s0 + Z.of_nat (length rs) * 4294967296 < 9223372036854775808 -> forall tl,
  round_loop amounts (length pre) (pre ++ post ++ tl) s0 = Ok (pre ++ rs ++ tl, s0 + sum rs).
Proof.
  intros Hr. revert pre post s0. induction Hr as [|x r amounts rs Hx Hr IH]; intros pre post s0 Hrs Hlen Hs0 Hmax tl; cbn [round_loop].
  { apply nil_length_inv in Hlen as ->. cbn. by rewrite Z.add_0_r. }
  destruct post as [|y post]; [done|]. injection Hlen as Hlen. apply Forall_cons_1 in Hrs as [Hr1 Hrs]. cbn [length] in Hmax.
  pose proof (sum_range rs Hrs) as Hsum. unfold is_u32 in Hr1.
  rewrite Hx. unfold wr. rewrite decide_True by (rewrite length_app; cbn [length app]; lia). rewrite bind_Ok.
  rewrite insert_app_r_alt, Nat.sub_diag by lia. cbn [app list_insert insert].
  unfold i64_add. rewrite (proj2 (Z.leb_le _ _)), (proj2 (Z.ltb_lt _ _)) by lia. cbn [andb]. rewrite bind_Ok.
  rewrite u32_id by done.
  replace (S (length pre)) with (length (pre ++ [r])) by (rewrite length_app; cbn; lia).
  replace (pre ++ r :: post ++ tl) with ((pre ++ [r]) ++ post ++ tl) by (by rewrite <- app_assoc).
  rewrite IH by (done || lia). cbn [sum foldr]. fold (sum rs). rewrite <- app_assoc. cbn [app]. do 2 f_equal. lia.
Qed.

Lemma i64_add_ok a b : -9223372036854775808 <= a + b < 9223372036854775808 -> i64_add a b = Ok (a + b).
Proof. intros Hab. unfold i64_add. by rewrite (proj2 (Z.leb_le _ _)), (proj2 (Z.ltb_lt _ _)) by lia. Qed.

Lemma finish_total p n amounts rs : is_u32 (tot_shares p) -> 0 < n <= 512 -> length rs = Z.to_nat n ->
  rounds_to amounts rs -> Forall is_u32 rs ->
  exists schedule, finish_schedule p n amounts = Ok schedule /\
    let before := take (Z.to_nat n - 1) rs in
    take (Z.to_nat n) schedule = before ++ [Z.max 0 (tot_shares p - sum before)].
Proof.
  intros Htot Hn Hlen Hr Hrs. unfold finish_schedule.
  assert (replicate (Z.to_nat ExecTypes.kMaxScheduleBins) 0 = replicate (Z.to_nat n) 0 ++ replicate (Z.to_nat ExecTypes.kMaxScheduleBins - Z.to_nat n) 0) as ->.
  { rewrite <- replicate_add. f_equal. unfold ExecTypes.kMaxScheduleBins. lia. }
  set (tl := replicate (_ - _) 0).
  pose proof (round_loop_ok amounts rs [] (replicate (Z.to_nat n) 0) 0 Hr Hrs) as Hloop. cbn [length app] in Hloop.
  rewrite Hloop, bind_Ok by (rewrite ?length_replicate; lia). clear Hloop.
  pose proof (sum_range rs Hrs) as Hsum. unfold is_u32 in Htot. rewrite Z.add_0_l, i64_add_ok, bind_Ok by lia.
  destruct (exists_last (l := rs)) as (before & l & ->); [by intros ->; cbn in Hlen; lia|].
  rewrite length_app in Hlen. cbn [length] in Hlen.
  assert (Z.to_nat n - 1 = length before)%nat as -> by lia. rewrite take_app_length. cbv zeta.
  apply Forall_app in Hrs as [Hb Hl]. apply Forall_cons_1 in Hl as [Hl _]. pose proof (sum_range before Hb) as Hsb.
  rewrite <- app_assoc. cbn [app].
  rewrite (rd_lookup _ _ l), bind_Ok by (rewrite lookup_app_r, Nat.sub_diag by lia; done).
  unfold is_u32 in Hl. rewrite almgren_sum_app in *. cbn [sum foldr] in *. rewrite length_app in Hsum. cbn [length] in Hsum.
  rewrite i64_add_ok, bind_Ok by lia.
  unfold wr. rewrite decide_True by (rewrite length_app; cbn [length]; lia).
  eexists. split; [reflexivity|]. rewrite insert_app_r_alt, Nat.sub_diag by lia. cbn [list_insert insert].
  replace (Z.to_nat n) with (length before + 1)%nat by lia. rewrite take_app_add. cbn [take]. do 2 f_equal.
  destruct (Z.ltb_spec (l + (tot_shares p + - (sum before + (l + 0)))) 0); rewrite u32_id by (unfold is_u32; lia); lia.
Qed.

(** What a constructor that returns has built. *)
Lemma almgren_construct_ok acosh sinh p a : is_u64 (bin_ns p) -> construct acosh sinh p = Ok a ->
  start_ts p < end_ts p /\ 0 < bin_ns p /\
  (params_ a = p /\ next_bin_ a = 0 /\ queue_ a = ExecTypes.empty_queue ExecTypes.default_order) /\ 0 < bin_count_ a <= 512 /\
  bin_count_ a = u64 (u64 (u64 (end_ts p - start_ts p) + bin_ns p) - 1) / bin_ns p /\
  finish_schedule p (bin_count_ a) (shares_to_trade acosh sinh p (bin_count_ a)) = Ok (schedule_ a).
Proof.
  intros Hbin Hrun. unfold construct in Hrun. repeat (case_match; try discriminate).
  match goal with H : _ || _ = false |- _ => apply orb_false_iff in H as [Hn0 Hn1] end.
  match goal with H : (end_ts p <=? start_ts p) = false |- _ => apply Z.leb_gt in H end.
  match goal with H : (bin_ns p =? 0) = false |- _ => apply Z.eqb_neq in H end.
  set (n := _ / bin_ns p) in *. apply Z.eqb_neq in Hn0. apply Z.ltb_ge in Hn1. unfold ExecTypes.kMaxScheduleBins in Hn1.
  assert (0 <= n) as Hn by (apply Z.div_pos; [apply u64_range|unfold is_u64 in Hbin; lia]).
  destruct (finish_schedule p n (shares_to_trade acosh sinh p n)) as [schedule| | |] eqn:Hfin; try discriminate.
  rewrite bind_Ok in Hrun. injection Hrun as <-. cbn. unfold is_u64 in Hbin. split_and!; (done || lia).
Qed.

(** ** Properties *)

(** C39: whatever [acosh] and [sinh] compute, if the amounts of a valid
    parent order round to 32-bit numbers of shares, the schedule is those
    numbers with the last bin adjusted, and it adds up to the parent size
    unless the bins before the last already add up to more: then the
    clamped last bin leaves a schedule that sends more than the parent
    order.  (The witness is such an order: 2 shares over 4 equal bins send 3.) *)
Theorem almgren_schedule_total (acosh sinh : Doubles.double -> Doubles.double) (p : AlmgrenChrissParams)
  (a : AlmgrenChriss) (rs : list Z)
  (Htot : is_u32 (tot_shares p)) (Hbin : is_u64 (bin_ns p)) (Hrun : construct acosh sinh p = Ok a)
  (Hlen : length rs = Z.to_nat (bin_count_ a))
  (Hrounds : rounds_to (shares_to_trade acosh sinh p (bin_count_ a)) rs) (Hrs : Forall is_u32 rs) :
  let before := take (Z.to_nat (bin_count_ a) - 1) rs in
  take (Z.to_nat (bin_count_ a)) (schedule_ a) = before ++ [Z.max 0 (tot_shares p - sum before)] /\
  sum (take (Z.to_nat (bin_count_ a)) (schedule_ a)) = Z.max (tot_shares p) (sum before).
Proof.
  destruct (almgren_construct_ok acosh sinh p a Hbin Hrun) as (_ & _ & _ & Hn & _ & Hfin).
  destruct (finish_total p (bin_count_ a) _ rs Htot Hn Hlen Hrounds Hrs) as (schedule & Hf & Htake).
  rewrite Hfin in Hf. injection Hf as <-. cbv zeta in *. split; [exact Htake|].
  rewrite Htake, almgren_sum_app. cbn [sum foldr]. lia.
Qed.

(** Two shares over four bins without risk aversion: every bin is half a share. *)
Definition sample_params : AlmgrenChrissParams :=
  mkParams Wire.Buy 2 0 4000 1000 zero zero (Doubles.of_Z 1) ExecTypes.Limit 5000.

Definition sample_schedule : list Z := [1; 1; 1; 0] ++ replicate (Z.to_nat 508) 0.

Lemma almgren_schedule_total_witness : exists a,
  construct (fun x => x) (fun x => x) sample_params = Ok a /\ bin_count_ a = 4 /\
  tot_shares sample_params = 2 /\ sum (take 4 (schedule_ a)) = 3.
Proof.
  exists (mkAlmgrenChriss sample_params sample_schedule 4 0 (ExecTypes.empty_queue ExecTypes.default_order)).
  split; [vm_compute; reflexivity|]. split; [reflexivity|]. split; [reflexivity|].
  apply (almgren_schedule_total (fun x => x) (fun x => x) sample_params
    (mkAlmgrenChriss sample_params sample_schedule 4 0 (ExecTypes.empty_queue ExecTypes.default_order)) [1; 1; 1; 1]).
  - cbn. u32c.
  - cbn. u32c.
  - vm_compute. reflexivity.
  - reflexivity.
  - repeat constructor.
  - repeat (apply Forall_cons_2; [u32c|]). apply Forall_nil_2.
Defined.

End Almgren.
