(* ===== verification/Strategy.v ===== *)
(** * Strategy: the interface the execution strategies share

    Models include/exec/execution_strategy.hpp: the CRTP base whose two
    callbacks are the derived class's, as a type class.  Its contract, stated
    in the headers' comments (a strategy sends child orders into its own queue,
    the caller drains it, the parent order is the most it sends), is a second
    class; [Pov], [Vwap], [Twap] and [Almgren] are instances of both.  Two of
    them act on prints and two on the clock, for which they have [advance], so
    the class has that entry point too. *)

From S2P Require Import Prelude Wire ExecTypes Twap Vwap Pov Almgren.

Module Strategy.

(** ** The interface *)

Class ExecutionStrategy (S : Type) := {
  on_bbo_change_impl : ExecTypes.Bbo -> S -> outcome S;
  on_trade_tick_impl : ExecTypes.TradeTick -> S -> outcome S;
  advance : Z -> S -> outcome S;
  child_orders : S -> ExecTypes.ChildOrderQueue;
  drain : S -> S   (** [child_orders().clear()] *)
}.

Definition on_bbo_change {S} `{ExecutionStrategy S} : ExecTypes.Bbo -> S -> outcome S := on_bbo_change_impl.
Definition on_trade_tick {S} `{ExecutionStrategy S} : ExecTypes.TradeTick -> S -> outcome S := on_trade_tick_impl.

(** What can happen to a strategy. *)
Inductive event := Quote (b : ExecTypes.Bbo) | Trade (t : ExecTypes.TradeTick) | Clock (now : Z).

Definition react {S} `{ExecutionStrategy S} (e : event) (s : S) : outcome S :=
  match e with
  | Quote b => on_bbo_change b s
  | Trade t => on_trade_tick t s
  | Clock now => advance now s
  end.

(** Field widths. *)
Definition wf_event (e : event) : Prop :=
  match e with
  | Quote b => is_u32 (ExecTypes.bid_price b) /\ is_u32 (ExecTypes.ask_price b)
  | Trade t => ExecTypes.wf_tick t
  | Clock now => is_u64 now
  end.

(** ** The contract *)

(** The result [r] of a reaction in state [s]: it returns, the parent order is
    the same one, and what it counts as sent is what it put into the queue,
    in orders of the right widths. *)
Definition sends {S} `{ExecutionStrategy S} (inv : S -> Prop) (parent sent : S -> Z) (s : S) (r : outcome S) : Prop :=
  exists s', r = Ok s' /\ inv s' /\ parent s' = parent s /\
    sent s' = sent s + ExecTypes.total_shares (ExecTypes.items (child_orders s')) /\
    Forall ExecTypes.wf_child (ExecTypes.items (child_orders s')).

Class StrategyLaws (S : Type) `{ExecutionStrategy S} := {
  inv : S -> Prop;
  parent : S -> Z;   (** the shares of the parent order *)
  sent : S -> Z;     (** of which given to child orders *)
  inv_queue s : inv s -> ExecTypes.queue_inv (child_orders s);
  inv_sent s : inv s -> 0 <= sent s <= parent s /\ is_u32 (parent s);
  drain_law s : inv s -> inv (drain s) /\ ExecTypes.items (child_orders (drain s)) = [] /\
    parent (drain s) = parent s /\ sent (drain s) = sent s;
  react_law e s : inv s -> ExecTypes.items (child_orders s) = [] -> wf_event e ->
    sends inv parent sent s (react e s)
}.

(** A reaction that does nothing keeps the contract. *)
Lemma no_reaction {S} `{ExecutionStrategy S} inv parent sent (s : S) :
  inv s -> ExecTypes.items (child_orders s) = [] -> sends inv parent sent s (Ok s).
Proof. intros Hs Hq. exists s. rewrite Hq. split_and!; [done..| |apply Forall_nil_2]. cbn. lia. Qed.

(** ** POV *)

#[global] Instance pov_strategy : ExecutionStrategy Pov.Pov := {
  on_bbo_change_impl b p := Ok (Pov.on_bbo_change b p);
  on_trade_tick_impl := Pov.on_trade_tick;
  advance _ p := Ok p;
  child_orders := Pov.queue_;
  drain p := Pov.mkPov (Pov.params_ p) (Pov.shares_sent_ p) (ExecTypes.clear (Pov.queue_ p))
}.

#[global, refine] Instance pov_laws : StrategyLaws Pov.Pov := {
  inv := Pov.pov_inv;
  parent p := Pov.max_shares (Pov.params_ p);
  sent := Pov.shares_sent_
}.
Proof.
  - apply Pov.pv_queue.
  - intros p Hp. split; [apply (Pov.pv_sent p Hp)|apply (Pov.pv_max p Hp)].
  - intros p [H1 H2 H3 H4]. destruct (ExecTypes.clear_ok _ H4) as [Hq Hi]. split_and!; [by constructor|exact Hi|done..].
  - intros [b|t|now] p Hp Hq He; [by apply no_reaction| |by apply no_reaction].
    destruct (Pov.tick_ok p t Hp He) as (p' & Hrun & Hp' & Hpar & Hsent & Hi). exists p'.
    assert (ExecTypes.full (Pov.queue_ p) = false) as Hf.
    { apply ExecTypes.full_false; [apply (Pov.pv_queue p Hp)|]. cbn [child_orders pov_strategy] in Hq. rewrite Hq. unfold ExecTypes.kMaxChildOrders. cbn [length]. lia. }
    cbn [child_orders pov_strategy] in *. rewrite Hq, Hf, orb_false_r in Hi. cbn [app] in Hi.
    split_and!; [exact Hrun|done|by rewrite Hpar| |]; rewrite Hi; destruct (Z.eqb_spec (Pov.slice p t) 0) as [Hz|Hz]; cbn [ExecTypes.total_shares foldr ExecTypes.co_shares];
      try lia;
      [apply Forall_nil_2|].
    apply Forall_singleton. pose proof (Pov.pv_sent p' Hp') as Hs'. pose proof (Pov.pv_max p' Hp') as Hm. rewrite Hpar in *.
    pose proof (Pov.pv_sent p Hp). destruct He as (Ht & _ & Hsh). unfold ExecTypes.wf_child. cbn. split_and!; [done|u32c|].
    unfold Pov.slice in *. pose proof (Pov.pv_bps p Hp). unfold is_u32 in *.
    assert (0 <= ExecTypes.tick_shares t * Pov.participation_bps (Pov.params_ p) / 10000) by (apply Z.div_pos; nia).
    destruct (negb _ && _); lia.
Defined.

(** ** VWAP *)

#[global] Instance vwap_strategy : ExecutionStrategy Vwap.Vwap := {
  on_bbo_change_impl b v := Ok (Vwap.on_bbo_change b v);
  on_trade_tick_impl := Vwap.on_trade_tick;
  advance _ v := Ok v;
  child_orders := Vwap.queue_;
  drain v := Vwap.mkVwap (Vwap.params_ v) (Vwap.curve_ v) (Vwap.shares_sent_ v) (Vwap.market_shares_seen_ v)
    (ExecTypes.clear (Vwap.queue_ v))
}.

Lemma vwap_tick_params tick v v' : Vwap.on_trade_tick tick v = Ok v' -> Vwap.params_ v' = Vwap.params_ v.
Proof.
  unfold Vwap.on_trade_tick. case_match; [by intros [= <-]|]. cbv zeta. case_match; [by intros [= <-]|].
  destruct (Vwap.target_shares _ _) as [target| | |]; try discriminate. rewrite bind_Ok.
  case_match; [by intros [= <-]|]. case_match; [by intros [= <-]|].
  destruct (ExecTypes.push _ _) as [[ok q]| | |]; try discriminate. rewrite bind_Ok. by intros [= <-].
Qed.

#[global, refine] Instance vwap_laws : StrategyLaws Vwap.Vwap := {
  inv v := Vwap.vwap_inv v /\ is_u32 (Vwap.limit_price (Vwap.params_ v));
  parent v := Vwap.tot_shares (Vwap.params_ v);
  sent := Vwap.shares_sent_
}.
Proof.
  - intros v [Hv _]. apply (Vwap.vw_queue v Hv).
  - intros v [Hv _]. split; [apply (Vwap.vw_sent v Hv)|apply (Vwap.vw_tot v Hv)].
  - intros v [[H1 H2 H3 H4 H5 H6 H7] Hp]. destruct (ExecTypes.clear_ok _ H7) as [Hq Hi].
    split_and!; [by constructor|done|exact Hi|done..].
  - intros [b|t|now] v [Hv Hp] Hq He; [by apply no_reaction| |by apply no_reaction].
    destruct (Vwap.tick_catches_up v t Hv He) as (v' & Hrun & Hv' & _ & Hsent & Hi). exists v'.
    pose proof (vwap_tick_params t v v' Hrun) as Hpar. cbn [child_orders vwap_strategy] in *. rewrite Hq in Hi. cbn [app] in Hi.
    split_and!; [exact Hrun|done|by rewrite Hpar|by rewrite Hpar|rewrite Hi, ?Hsent..].
    + destruct (_ && _); cbn; lia.
    + destruct ((Vwap.start_ts (Vwap.params_ v) <=? ExecTypes.tick_ts t) && (ExecTypes.tick_ts t <=? Vwap.end_ts (Vwap.params_ v))
        && (Vwap.shares_sent_ v <? Vwap.ideal_target v (ExecTypes.tick_ts t))) eqn:E; cbn [andb]; [|apply Forall_nil_2].
      apply andb_true_iff in E as [[E1%Z.leb_le E2]%andb_true_iff E3%Z.ltb_lt].
      destruct (negb _); [|apply Forall_nil_2]. apply Forall_singleton. unfold ExecTypes.wf_child. cbn.
      split_and!; [apply He|done|]. pose proof (Vwap.ideal_target_range v _ Hv E1). pose proof (Vwap.vw_sent v Hv).
      pose proof (Vwap.vw_tot v Hv). unfold is_u32 in *. lia.
Defined.

(** ** TWAP and Almgren-Chriss *)

(** The shares of the schedule, and those of the bins that are gone.  The
    invariant asks that the schedule is no more than the parent order, which
    rounding can break for Almgren-Chriss. *)
Definition scheduled (t : Twap.Twap) : Z := Twap.shares_from t 0.
Definition executed (t : Twap.Twap) : Z := scheduled t - Twap.shares_from t (Twap.next_bin_ t).

Record schedule_inv (t : Twap.Twap) : Prop := {
  sc_twap : Twap.twap_inv t;
  sc_no_wrap : Twap.no_wrap t;
  sc_total : is_u32 (Twap.tot_shares (Twap.params_ t));
  sc_parent : scheduled t <= Twap.tot_shares (Twap.params_ t);
  sc_bins : Forall is_u32 (take (Z.to_nat (Twap.bin_count_ t)) (Twap.schedule_ t));
  sc_price : is_u32 (Twap.limit_price (Twap.params_ t)) }.

Lemma sum_nonneg l : Forall is_u32 l -> 0 <= Twap.sum l.
Proof. induction 1 as [|x l Hx _ IH]; cbn; [lia|]. fold (Twap.sum l). unfold is_u32 in Hx. lia. Qed.

Lemma executed_range t : schedule_inv t -> 0 <= executed t <= scheduled t.
Proof.
  intros [Ht _ _ _ Hb _]. unfold executed, scheduled, Twap.shares_from. change (Z.to_nat 0) with 0%nat. rewrite drop_0.
  set (l := take _ _) in *. pose proof Hb as Hl.
  rewrite <- (take_drop (Z.to_nat (Twap.next_bin_ t)) l) in Hl. apply Forall_app in Hl as [H1%sum_nonneg H2%sum_nonneg].
  assert (Twap.sum l = Twap.sum (take (Z.to_nat (Twap.next_bin_ t)) l) + Twap.sum (drop (Z.to_nat (Twap.next_bin_ t)) l)) as Hsum
    by (by rewrite <- Twap.sum_app, take_drop).
  lia.
Qed.

Lemma drain_schedule t : schedule_inv t -> schedule_inv (Twap.drain t) /\ ExecTypes.items (Twap.queue_ (Twap.drain t)) = [].
Proof. intros [H1 H2 H3 H4 H5 H6]. destruct (Twap.drain_inv t H1) as [Hd Hi]. split; [by constructor|done]. Qed.

Lemma bin_orders_wf t now i n : schedule_inv t -> is_u64 now -> Z.of_nat (i + n) <= Twap.bin_count_ t ->
  Forall ExecTypes.wf_child (Twap.bin_order t now <$> seq i n).
Proof.
  intros [Ht _ _ _ Hb Hp] Hnow Hin. apply Forall_fmap, Forall_forall. intros j [Hj1 Hj2]%elem_of_seq.
  unfold compose, ExecTypes.wf_child, Twap.bin_order. cbn. split_and!; [done|case_decide; [done|u32c]|].
  pose proof (Twap.tw_len t Ht). pose proof (Twap.tw_bins t Ht).
  destruct (lookup_lt_is_Some_2 (Twap.schedule_ t) j ltac:(lia)) as [x Hx]. rewrite (nth_lookup_Some _ _ _ _ Hx).
  apply (Forall_lookup_1 _ _ j _ Hb). by rewrite lookup_take_lt by lia.
Qed.

Lemma advance_sends now t : schedule_inv t -> ExecTypes.items (Twap.queue_ t) = [] -> is_u64 now ->
  exists n t', Twap.advance now t = Ok (n, t') /\ schedule_inv t' /\ Twap.params_ t' = Twap.params_ t /\
    scheduled t' = scheduled t /\ executed t' = executed t + ExecTypes.total_shares (ExecTypes.items (Twap.queue_ t')) /\
    Forall ExecTypes.wf_child (ExecTypes.items (Twap.queue_ t')).
Proof.
  intros Hs Hq Hnow. pose proof Hs as [Ht Hw Htot Hpar Hb Hp].
  destruct (Twap.twap_advance_ok now t Ht Hw) as (n & t' & Hrun & Hadv). exists (Z.of_nat n), t'.
  pose proof (Twap.advanced_shares now t n t' Ht Hadv) as Hsum.
  destruct Hadv as (Ht' & E1 & E2 & E3 & E4 & E5 & _). rewrite Hq in E5. cbn [app] in E5.
  assert (scheduled t' = scheduled t) as Hsch by (unfold scheduled, Twap.shares_from; by rewrite E2, E3).
  split_and!; [done| |done|done| |].
  - constructor; [done| |by rewrite E1|by rewrite Hsch, E1|by rewrite E2, E3|by rewrite E1]. unfold Twap.no_wrap in *. by rewrite E1, E3.
  - unfold executed. rewrite Hsch, E5. lia.
  - rewrite E5. apply bin_orders_wf; [done..|]. pose proof (Twap.tw_next t' Ht') as Hn'. pose proof (Twap.tw_next t Ht). lia.
Qed.

#[global] Instance twap_strategy : ExecutionStrategy Twap.Twap := {
  on_bbo_change_impl _ t := Ok t;
  on_trade_tick_impl _ t := Ok t;
  advance now t := '(_, t) ← Twap.advance now t; Ok t;
  child_orders := Twap.queue_;
  drain := Twap.drain
}.

#[global, refine] Instance twap_laws : StrategyLaws Twap.Twap := {
  inv := schedule_inv;
  parent t := Twap.tot_shares (Twap.params_ t);
  sent := executed
}.
Proof.
  - intros t Ht. apply (Twap.tw_queue t), Ht.
  - intros t Ht. pose proof (executed_range t Ht). pose proof (sc_parent t Ht). split; [lia|apply (sc_total t Ht)].
  - intros t Ht. destruct (drain_schedule t Ht) as [Hd Hi]. by split_and!.
  - intros [b|tick|now] t Ht Hq He; [by apply no_reaction|by apply no_reaction|].
    destruct (advance_sends now t Ht Hq He) as (n & t' & Hrun & Ht' & Hpar & Hsch & Hex & Hwf).
    exists t'. cbn [react advance twap_strategy]. by rewrite Hrun, bind_Ok, Hpar.
Defined.

(** [Almgren.advance] is TWAP's on the corresponding state. *)
#[global] Instance almgren_strategy : ExecutionStrategy Almgren.AlmgrenChriss := {
  on_bbo_change_impl _ a := Ok a;
  on_trade_tick_impl _ a := Ok a;
  advance now a := '(_, a) ← Almgren.advance now a; Ok a;
  child_orders := Almgren.queue_;
  drain a := Almgren.mkAlmgrenChriss (Almgren.params_ a) (Almgren.schedule_ a) (Almgren.bin_count_ a) (Almgren.next_bin_ a)
    (ExecTypes.clear (Almgren.queue_ a))
}.

Lemma from_as_twap a t : Twap.params_ t = Twap.params_ (Almgren.as_twap a) ->
  Almgren.as_twap (Almgren.from_twap (Almgren.params_ a) t) = t.
Proof. intros Hp. destruct t. unfold Almgren.as_twap, Almgren.from_twap in *. cbn in *. by rewrite Hp. Qed.

#[global, refine] Instance almgren_laws : StrategyLaws Almgren.AlmgrenChriss := {
  inv a := schedule_inv (Almgren.as_twap a);
  parent a := Almgren.tot_shares (Almgren.params_ a);
  sent a := executed (Almgren.as_twap a)
}.
Proof.
  - intros a Ha. apply (Twap.tw_queue (Almgren.as_twap a)), Ha.
  - intros a Ha. pose proof (executed_range _ Ha). pose proof (sc_parent _ Ha). split; [cbn in *; lia|apply (sc_total _ Ha)].
  - intros a Ha. destruct (drain_schedule _ Ha) as [Hd Hi]. by split_and!.
  - intros [b|tick|now] a Ha Hq He; [by apply no_reaction|by apply no_reaction|].
    destruct (advance_sends now (Almgren.as_twap a) Ha Hq He) as (n & t' & Hrun & Ht' & Hpar & Hsch & Hex & Hwf).
    exists (Almgren.from_twap (Almgren.params_ a) t'). rewrite from_as_twap by done.
    cbn [react advance almgren_strategy]. rewrite Almgren.advance_twap, Hrun. by split_and!.
Defined.

(** ** A strategy just constructed *)

(** It is ready for a session and has sent none of the [shares] of its parent order. *)
Definition fresh {S} `{StrategyLaws S} (s : S) (shares : Z) : Prop :=
  inv s /\ ExecTypes.items (child_orders s) = [] /\ parent s = shares /\ sent s = 0.

Lemma fresh_pov p : is_u32 (Pov.max_shares p) -> is_u32 (Pov.participation_bps p) ->
  fresh (Pov.construct p) (Pov.max_shares p).
Proof. intros Hm Hb. split_and!; [by apply Pov.construct_inv|apply ExecTypes.empty_queue_inv|done..]. Qed.

Lemma fresh_vwap p : is_u32 (Vwap.tot_shares p) -> is_u64 (Vwap.start_ts p) -> is_u64 (Vwap.end_ts p) ->
  is_u32 (Vwap.limit_price p) -> Vwap.start_ts p < Vwap.end_ts p ->
  exists v, Vwap.construct p = Ok v /\ fresh v (Vwap.tot_shares p).
Proof.
  intros Ht Hs He Hl Hw. destruct (Vwap.vwap_construct_ok p Ht Hs He Hw) as (v & Hrun & Hv & Hp & Hsent & Hi).
  exists v. split; [done|]. split_and!; [by split; [|rewrite Hp]|done|by cbn; rewrite Hp|done].
Qed.

(** For the two clock-driven ones: nothing of the schedule is executed yet. *)
Lemma fresh_schedule t : schedule_inv t -> Twap.next_bin_ t = 0 -> executed t = 0.
Proof. intros _ Hn. unfold executed, scheduled. rewrite Hn. lia. Qed.

Lemma fresh_twap p : Twap.wf_params p -> Twap.start_ts p < Twap.end_ts p -> 0 < Twap.bin_ns p ->
  Twap.end_ts p + Twap.bin_ns p < 18446744073709551616 -> Twap.bins p <= 512 ->
  exists t, Twap.construct p = Ok t /\ fresh t (Twap.tot_shares p).
Proof.
  intros Hp Hw Hns Hfit Hbins. pose proof Hp as (Hts & Hs & He & Hb & Hl). unfold is_u64 in Hs.
  destruct (Twap.twap_construct_ok p Hp Hw Hns ltac:(lia) Hbins) as (t & Hrun & Ht & Epar & Ebc & Enb & Eq & Hsched & Hsum).
  assert (scheduled t = Twap.tot_shares p) as Htot
    by (unfold scheduled, Twap.shares_from; rewrite Ebc; exact Hsum).
  assert (schedule_inv t) as Hi.
  { constructor; [done| |by rewrite Epar|rewrite Htot, Epar; lia| |by rewrite Epar].
    - unfold Twap.no_wrap. rewrite Epar, Ebc. unfold Twap.bins.
      pose proof (Z.mul_div_le (Twap.end_ts p - Twap.start_ts p + Twap.bin_ns p - 1) (Twap.bin_ns p) Hns). lia.
    - rewrite Ebc. apply Forall_lookup_2. intros i x Hx.
      destruct (decide (i < Z.to_nat (Twap.bins p))%nat) as [Hi|Hi]; [|by rewrite lookup_take_ge in Hx by lia].
      rewrite lookup_take_lt, Hsched in Hx by lia. injection Hx as <-.
      assert (1 <= Twap.bins p) as Hpos by (unfold Twap.bins; apply Z.div_le_lower_bound; lia).
      pose proof (Z.div_mod (Twap.tot_shares p) (Twap.bins p) ltac:(lia)).
      pose proof (Z.mod_pos_bound (Twap.tot_shares p) (Twap.bins p) ltac:(lia)).
      unfold is_u32 in *. pose proof (Z.div_pos (Twap.tot_shares p) (Twap.bins p) ltac:(lia) ltac:(lia)).
      destruct (Z.ltb_spec (Z.of_nat i) (Twap.tot_shares p mod Twap.bins p)); nia. }
  exists t. split; [done|]. split_and!; [done..|cbn; by rewrite Epar|by apply fresh_schedule].
Qed.

(** The invariant holds unless rounding makes the schedule more than the parent
    order, which it can ([Almgren.almgren_schedule_total]); such an instance
    sends more than it was asked and is not covered. *)
Lemma fresh_almgren acosh sinh p a : is_u64 (Almgren.bin_ns p) -> Almgren.construct acosh sinh p = Ok a ->
  schedule_inv (Almgren.as_twap a) -> fresh a (Almgren.tot_shares p).
Proof.
  intros Hb Hrun Ha. destruct (Almgren.almgren_construct_ok acosh sinh p a Hb Hrun) as (_ & _ & (Hp & Hn & Hq) & _).
  split_and!; [done|by cbn; rewrite Hq|by cbn; rewrite Hp|]. by apply fresh_schedule.
Qed.

End Strategy.
