(* ===== verification/Execution.v ===== *)
(** * Execution: a strategy, the risk gate and the fill simulator together

    What the headers of include/exec promise of a strategy behind [RiskGate]
    and before [FillSimulator] (the chain docs/architecture.md draws), whatever
    client drives them.  The repository has no such client, and none is made up
    here: [command] lists the calls a client can make, [act] is what a call does
    by the modelled components, and the theorem is about every sequence of calls
    that respects the protocol of the headers ([allowed]), proved against the
    interface [Strategy] only. *)

From S2P Require Import Prelude Wire ExecTypes Twap Vwap Pov Almgren RiskGate FillSim Strategy.

Module Execution.

Section Desk.
Context {S : Type} `{Strategy.StrategyLaws S}.

(** The three objects, and what their client knows: the orders the gate has
    accepted, each with the reference price it was judged by; those of them
    since the last [reset]; and those not given to the simulator yet. *)
Record desk := mkDesk {
  strategy : S; gate : RiskGate.RiskGate; sim : FillSim.FillSimulator;
  accepted : list (Z * ExecTypes.ChildOrder);
  window : list ExecTypes.ChildOrder;
  held : list ExecTypes.ChildOrder }.

Definition start (s : S) (limits : RiskGate.RiskLimits) (reference_price : Z) : desk :=
  mkDesk s (RiskGate.construct limits reference_price) FillSim.construct [] [] [].

Inductive command :=
| Show (e : Strategy.event)           (** a quote, a print or the time, to the strategy *)
| FeedQuote (b : ExecTypes.Bbo)       (** to the simulator *)
| FeedTrade (t : ExecTypes.TradeTick)
| Reference (price : Z)               (** [set_reference_price] *)
| Submit                              (** [apply] to the strategy's queue, then clear it *)
| Fill (i : nat)                      (** [fill] of a held order *)
| Reset.                              (** the gate's [reset] *)

(** The protocol: the strategy's queue is drained before the next event, an
    order is evaluated once, and arguments have the widths of their types. *)
Definition allowed (c : command) (d : desk) : Prop :=
  match c with
  | Show e => ExecTypes.items (Strategy.child_orders (strategy d)) = [] /\ Strategy.wf_event e
  | FeedQuote b => FillSim.wf_event (FillSim.Quote b)
  | FeedTrade t => FillSim.wf_event (FillSim.Print_ t)
  | Reference price => is_u32 price
  | Fill i => (i < length (held d))%nat
  | Submit | Reset => True
  end.

Definition act (c : command) (d : desk) : outcome desk :=
  let '(mkDesk s g f acc win hld) := d in
  match c with
  | Show e => s ← Strategy.react e s; Ok (mkDesk s g f acc win hld)
  | FeedQuote b => Ok (mkDesk s g (FillSim.on_bbo_change b f) acc win hld)
  | FeedTrade t => Ok (mkDesk s g (FillSim.on_trade_tick t f) acc win hld)
  | Reference price => Ok (mkDesk s (RiskGate.set_reference_price price g) f acc win hld)
  | Submit =>
    '(_, g', out, _) ← RiskGate.apply g (Strategy.child_orders s) (ExecTypes.empty_queue ExecTypes.default_order) None;
    let new := ExecTypes.items out in
    Ok (mkDesk (Strategy.drain s) g' f (acc ++ (pair (RiskGate.reference_price_ g) <$> new)) (win ++ new) (hld ++ new))
  | Fill i =>
    o ← rd hld i; '(_, f) ← FillSim.fill o f;
    Ok (mkDesk s g f acc win (delete i hld))
  | Reset => Ok (mkDesk s (RiskGate.reset g) f acc [] hld)
  end.

Fixpoint run (script : list command) (d : desk) : outcome desk :=
  match script with
  | [] => Ok d
  | c :: script => d ← act c d; run script d
  end.

(** Every call of a script respects the protocol when it is made. *)
Fixpoint obeys (script : list command) (d : desk) : Prop :=
  match script with
  | [] => True
  | c :: script => allowed c d /\ forall d', act c d = Ok d' -> obeys script d'
  end.

(** ** Sums *)

Lemma total_nonneg l : Forall ExecTypes.wf_child l -> 0 <= ExecTypes.total_shares l.
Proof. induction 1 as [|o l (_ & _ & Ho) _ IH]; cbn; [lia|]. fold (ExecTypes.total_shares l). unfold is_u32 in Ho. lia. Qed.

Lemma total_sublist l k : sublist l k -> Forall ExecTypes.wf_child k -> ExecTypes.total_shares l <= ExecTypes.total_shares k.
Proof.
  induction 1 as [|x l k _ IH|x l k _ IH]; intros Hk; [done|..]; apply Forall_cons_1 in Hk as [(_ & _ & Hx) Hk];
    cbn; fold (ExecTypes.total_shares l); fold (ExecTypes.total_shares k); specialize (IH Hk); unfold is_u32 in Hx; lia.
Qed.

Lemma total_delete l i o : l !! i = Some o -> ExecTypes.total_shares l = ExecTypes.co_shares o + ExecTypes.total_shares (delete i l).
Proof.
  intros Hi. rewrite <- (take_drop_middle l i o Hi) at 1. rewrite delete_take_drop, !ExecTypes.total_shares_app.
  cbn [ExecTypes.total_shares foldr]. fold (ExecTypes.total_shares (drop (Datatypes.S i) l)). lia.
Qed.

Definition shares (l : list (Z * ExecTypes.ChildOrder)) : Z := ExecTypes.total_shares l.*2.

Lemma shares_app l1 l2 : shares (l1 ++ l2) = shares l1 + shares l2.
Proof. unfold shares. by rewrite fmap_app, ExecTypes.total_shares_app. Qed.

Lemma shares_pair p l : shares (pair p <$> l) = ExecTypes.total_shares l.
Proof. unfold shares. rewrite <- list_fmap_compose. f_equal. apply list_fmap_id. Qed.

(** ** The invariant *)

Context (s0 : S) (limits : RiskGate.RiskLimits).

(** Accepted under [limits], with the reference price it is paired with. *)
Definition within (po : Z * ExecTypes.ChildOrder) : Prop :=
  RiskGate.order_ok (RiskGate.construct limits po.1) po.2 /\ ExecTypes.wf_child po.2.

(** Where a desk stands after the simulator has seen [past]. *)
Record stands (past : list FillSim.Event) (d : desk) : Prop := {
  d_strategy : Strategy.inv (strategy d);
  d_queued : Forall ExecTypes.wf_child (ExecTypes.items (Strategy.child_orders (strategy d)));
  d_parent : Strategy.parent (strategy d) = Strategy.parent s0;
  d_gate : RiskGate.gate_inv (gate d);
  d_limits : RiskGate.limits_ (gate d) = limits;
  d_sim : FillSim.sim_inv past (sim d);
  d_past : Forall FillSim.wf_event past;
  d_accepted : Forall within (accepted d);
  d_held : Forall ExecTypes.wf_child (held d);
  d_sent : shares (accepted d) + ExecTypes.total_shares (ExecTypes.items (Strategy.child_orders (strategy d)))
    <= Strategy.sent (strategy d) - Strategy.sent s0;
  d_shares : RiskGate.cumulative_shares_ (gate d) = ExecTypes.total_shares (window d);
  d_notional : RiskGate.cumulative_notional_ (gate d) = RiskGate.total_notional (window d);
  d_attempted : FillSim.attempted past + ExecTypes.total_shares (held d) = shares (accepted d) }.

Lemma start_stands reference_price : Strategy.inv s0 -> ExecTypes.items (Strategy.child_orders s0) = [] ->
  RiskGate.gate_inv (RiskGate.construct limits reference_price) -> stands [] (start s0 limits reference_price).
Proof.
  intros Hs Hq Hg. constructor; cbn [start strategy gate sim accepted window held]; rewrite ?Hq; try done; try apply Forall_nil_2.
  - apply FillSim.construct_sim_inv.
  - cbn. lia.
Qed.

Lemma show_ok past d e : stands past d -> allowed (Show e) d -> exists d', act (Show e) d = Ok d' /\ stands past d'.
Proof.
  destruct d as [s g f acc win hld]. intros [] [Hd He]. cbn [strategy gate sim accepted window held act] in *.
  destruct (Strategy.react_law e s d_strategy0 Hd He) as (s' & -> & Hs' & Hpar & Hsent & Hwf). rewrite bind_Ok.
  eexists. split; [reflexivity|]. rewrite Hd in d_sent0. cbn in d_sent0.
  constructor; cbn [strategy gate sim accepted window held]; try done; [congruence|lia].
Qed.

Lemma submit_ok past d : stands past d -> exists d', act Submit d = Ok d' /\ stands past d' /\
  (RiskGate.tripped (gate d) = true -> accepted d' = accepted d /\ gate d' = gate d).
Proof.
  destruct d as [s g f acc win hld]. intros []. cbn [strategy gate sim accepted window held act] in *.
  destruct (Strategy.drain_law s d_strategy0) as (Hs2 & Hd2 & Hpar2 & Hsent2).
  destruct (ExecTypes.empty_queue_inv ExecTypes.default_order) as [Hq Hi].
  destruct (RiskGate.apply_loop_ok (ExecTypes.items (Strategy.child_orders s)) 0 0 g _ None d_gate0 d_queued0 Hq I)
    as (new & g' & out & rs & Hrun & A1 & [A2 _] & A3 & A4 & A5 & A6 & A7 & A8 & A9).
  unfold RiskGate.apply. rewrite Hrun, bind_Ok. rewrite Hi in A4. cbn [app] in A4. rewrite A4.
  assert (Forall ExecTypes.wf_child new) as Hnew by (eapply Forall_sublist; [exact A5|done]).
  pose proof (total_sublist _ _ A5 d_queued0) as Hle.
  eexists. split; [reflexivity|]. split.
  - constructor; cbn [strategy gate sim accepted window held];
      rewrite ?Hd2, ?Hpar2, ?Hsent2, ?shares_app, ?shares_pair, ?ExecTypes.total_shares_app, ?RiskGate.total_notional_app, ?A7, ?A8, ?Forall_app;
      try done; try lia.
    + congruence.
    + split; [done|]. apply Forall_fmap. eapply Forall_impl; [apply Forall_and; split; [exact A6|exact Hnew]|].
      intros o [Ho Hw]. split; [|done]. unfold RiskGate.order_ok in *. cbn. by rewrite <- d_limits0.
    + cbn. lia.
  - intros Ht. destruct (A9 Ht) as [-> ->]. by rewrite app_nil_r.
Qed.

Lemma fill_ok past d i : stands past d -> allowed (Fill i) d -> exists d' past', act (Fill i) d = Ok d' /\ stands past' d'.
Proof.
  destruct d as [s g f acc win hld]. intros [] Hi. cbn [strategy gate sim accepted window held act allowed] in *.
  destruct (lookup_lt_is_Some_2 hld i Hi) as [o Ho]. unfold rd. rewrite Ho, bind_Ok.
  pose proof (Forall_lookup_1 _ _ _ _ d_held0 Ho) as Hwf.
  destruct (FillSim.fill_inv past f o d_sim0 d_past0 Hwf) as (f' & Hf & Hf'). cbn [FillSim.step] in Hf.
  destruct (FillSim.fill o f) as [[ok f2]| | |]; try discriminate Hf. rewrite bind_Ok in *. injection Hf as ->.
  eexists _, _. split; [reflexivity|]. pose proof (total_delete hld i o Ho) as Htot.
  constructor; cbn [strategy gate sim accepted window held]; try done.
  - apply Forall_app. split; [done|by apply Forall_singleton].
  - by apply Forall_delete.
  - rewrite FillSim.attempted_app. cbn. lia.
Qed.

Lemma feed_ok past d e f' : stands past d -> FillSim.wf_event e -> (forall o, e <> FillSim.Child o) -> FillSim.step e (sim d) = Ok f' ->
  stands (past ++ [e]) (mkDesk (strategy d) (gate d) f' (accepted d) (window d) (held d)).
Proof.
  intros [] He Hno Hf. destruct (FillSim.feed_inv past (sim d) e d_sim0 Hno) as (f & Hf2 & Hinv). rewrite Hf in Hf2. injection Hf2 as <-.
  constructor; cbn [strategy gate sim accepted window held]; try done.
  - apply Forall_app. split; [done|by apply Forall_singleton].
  - rewrite FillSim.attempted_app. destruct e as [b|t|o]; [cbn; lia..|by destruct (Hno o)].
Qed.

Lemma reset_inv g : RiskGate.gate_inv g -> RiskGate.gate_inv (RiskGate.reset g).
Proof. intros []. constructor; cbn; try done; lia. Qed.

Lemma act_ok past d c : stands past d -> allowed c d -> exists d' past', act c d = Ok d' /\ stands past' d'.
Proof.
  intros Hd Hc. destruct c as [e|b|t|price| |i|].
  - destruct (show_ok past d e Hd Hc) as (d' & ? & ?). by exists d', past.
  - pose proof (feed_ok past d _ _ Hd Hc ltac:(done) eq_refl) as H1. destruct d. by eexists _, _.
  - pose proof (feed_ok past d _ _ Hd Hc ltac:(done) eq_refl) as H1. destruct d. by eexists _, _.
  - destruct d, Hd. cbn in *. eexists _, past. split; [reflexivity|]. constructor; cbn; try done. by destruct d_gate0; constructor.
  - destruct (submit_ok past d Hd) as (d' & ? & ? & _). by exists d', past.
  - by apply (fill_ok past).
  - destruct d, Hd. cbn in *. eexists _, past. split; [reflexivity|]. constructor; cbn; try done. by apply reset_inv.
Qed.

(** A latched switch stays latched, and nothing more is accepted, until [reset]. *)
Lemma act_tripped past d c d' : stands past d -> allowed c d -> act c d = Ok d' -> c <> Reset -> RiskGate.tripped (gate d) = true ->
  accepted d' = accepted d /\ RiskGate.tripped (gate d') = true.
Proof.
  intros Hd Hc Hrun Hr Ht. destruct c as [e|b|t|price| |i|].
  5: { destruct (submit_ok past d Hd) as (d2 & Hd2 & _ & Hk). rewrite Hrun in Hd2. injection Hd2 as <-.
       destruct (Hk Ht) as [-> ->]. done. }
  all: destruct d; cbn in *; try done; try by injection Hrun as <-.
  - destruct (Strategy.react e _); [|done..]. rewrite bind_Ok in Hrun. by injection Hrun as <-.
  - destruct (rd _ i); [|done..]. rewrite bind_Ok in Hrun. destruct (FillSim.fill _ _) as [[??]| | |]; [|done..]. rewrite bind_Ok in Hrun. by injection Hrun as <-.
Qed.

Lemma obeys_run script past d : stands past d -> obeys script d ->
  exists d' past', run script d = Ok d' /\ stands past' d' /\
    (RiskGate.tripped (gate d) = true -> Reset ∉ script -> accepted d' = accepted d).
Proof.
  revert past d. induction script as [|c script IH]; intros past d Hd Hob; [by exists d, past|]. destruct Hob as [Hc Hob].
  destruct (act_ok past d c Hd Hc) as (d1 & past1 & Hrun & Hd1). cbn [run]. rewrite Hrun, bind_Ok.
  destruct (IH past1 d1 Hd1 (Hob d1 Hrun)) as (d2 & past2 & -> & Hd2 & Hk). exists d2, past2. split_and!; [done..|].
  intros Ht [Hne Hnot]%not_elem_of_cons. destruct (act_tripped past d c d1 Hd Hc Hrun ltac:(congruence) Ht) as [<- Ht1]. by apply Hk.
Qed.

Lemma run_app c1 c2 d : run (c1 ++ c2) d = (d ← run c1 d; run c2 d).
Proof.
  revert d. induction c1 as [|c c1 IH]; intros d; cbn [run app]; [done|].
  destruct (act c d) as [d1| | |]; [|done..]. by rewrite !bind_Ok, IH.
Qed.

Lemma obeys_app c1 c2 d d1 : obeys (c1 ++ c2) d -> run c1 d = Ok d1 -> obeys c1 d /\ obeys c2 d1.
Proof.
  revert d. induction c1 as [|c c1 IH]; intros d; cbn [run app obeys]; [by intros Hob [= <-]|]. intros [Hc Hob] Hrun.
  destruct (act c d) as [d2| | |]; try discriminate Hrun. rewrite bind_Ok in Hrun. destruct (IH d2 (Hob d2 eq_refl) Hrun) as [H1 H2].
  split; [split; [done|]|done]. by intros ? [= <-].
Qed.

End Desk.
Arguments desk S : clear implicits.

(** ** The score *)

Lemma filled_nonneg l : Forall FillSim.wf_fill l -> 0 <= FillSim.filled l.
Proof. induction 1 as [|f l [_ Hf] _ IH]; cbn; [lia|]. fold (FillSim.filled l). unfold is_u32 in Hf. lia. Qed.

Lemma filled_bounds l past : Forall FillSim.wf_event l ->
  0 <= FillSim.filled (FillSim.expected past l) <= FillSim.attempted l /\
  forall k, FillSim.filled (take k (FillSim.expected past l)) <= FillSim.attempted l.
Proof.
  assert (forall fs k, Forall (fun f => 0 <= FillSim.fill_shares f) fs ->
    0 <= FillSim.filled (take k fs) <= FillSim.filled fs) as Htake.
  { intros fs k Hfs. revert k. induction Hfs as [|f fs Hf _ IH]; intros [|k]; cbn; try lia.
    - fold (FillSim.filled fs). specialize (IH 0%nat). rewrite take_0 in IH. cbn in IH. lia.
    - fold (FillSim.filled fs). fold (FillSim.filled (take k fs)). specialize (IH k). lia. }
  intros Hl. enough (Forall (fun f => 0 <= FillSim.fill_shares f) (FillSim.expected past l) /\
    0 <= FillSim.filled (FillSim.expected past l) <= FillSim.attempted l) as [H1 H2].
  { split; [done|]. intros k. specialize (Htake _ k H1). lia. }
  revert past. induction Hl as [|e l He _ IH]; intros past; cbn [FillSim.expected]; [split; [apply Forall_nil_2|cbn; lia]|].
  destruct (IH (past ++ [e])) as [I1 I2]. rewrite Forall_app, FillSim.filled_app. cbn [FillSim.attempted foldr].
  fold (FillSim.attempted l). destruct e as [b|t|o]; [split; [by split; [apply Forall_nil_2|]|cbn; lia]..|].
  destruct He as (_ & _ & Ho). unfold is_u32 in Ho. destruct (FillSim.trades_at _ _ _) as [price|];
    (split; [split; [|done]|cbn; lia]); [apply Forall_singleton; cbn; lia|apply Forall_nil_2].
Qed.

(** ** Properties *)

(** C10: whatever the strategy, the market and the client do, the execution layer
    keeps its promises together: for every sequence of calls that follows the
    protocol of the headers (the strategy's queue is drained before its next
    event, an accepted order is evaluated at most once) on a strategy with its
    invariant, a fresh gate and a fresh simulator, no call ends in undefined
    behaviour; each order accepted respects the per-order limits under the
    reference price then in force; together the accepted orders exceed neither
    what is left of the parent order (for TWAP and Almgren-Chriss the invariant
    asks for a schedule within it, which Almgren-Chriss's rounding can break)
    nor, counted since the last reset, either session budget; the simulator
    attempts exactly the shares given to it and fills no more, both its counters
    being exact (they never wrap); and once the kill switch is latched not one
    more order is accepted until the gate is reset. *)
Theorem execution_within_limits {S} `{Strategy.StrategyLaws S} (s : S) (limits : RiskGate.RiskLimits) (reference_price : Z)
  (script : list command)
  (Hs : Strategy.inv s) (Hq : ExecTypes.items (Strategy.child_orders s) = [])
  (Hgate : RiskGate.gate_inv (RiskGate.construct limits reference_price))
  (Hobeys : obeys script (start s limits reference_price)) :
  exists d', run script (start s limits reference_price) = Ok d' /\
    Forall (fun po => RiskGate.order_ok (RiskGate.construct limits po.1) po.2) (accepted d') /\
    shares (accepted d') <= Strategy.sent (strategy d') - Strategy.sent s /\
    Strategy.sent (strategy d') <= Strategy.parent s /\
    ExecTypes.total_shares (window d') <= RiskGate.max_cumulative_shares limits /\
    RiskGate.total_notional (window d') <= RiskGate.max_cumulative_notional limits /\
    FillSim.shares_attempted_ (sim d') = shares (accepted d') - ExecTypes.total_shares (held d') /\
    FillSim.shares_filled_ (sim d') = FillSim.filled (ExecTypes.items (FillSim.fills_ (sim d'))) /\
    FillSim.shares_filled_ (sim d') <= FillSim.shares_attempted_ (sim d') /\
    (forall c1 c2 d1, script = c1 ++ c2 -> run c1 (start s limits reference_price) = Ok d1 ->
       RiskGate.tripped (gate d1) = true -> Reset ∉ c2 -> accepted d' = accepted d1).
Proof.
  pose proof (start_stands s limits reference_price Hs Hq Hgate) as Hd.
  destruct (obeys_run s limits script [] _ Hd Hobeys) as (d' & past & Hrun & Hst & _). exists d'. destruct Hst.
  destruct (Strategy.inv_sent s Hs) as [Hs0 _]. destruct (Strategy.inv_sent _ d_strategy0) as [Hs1 Hp1]. rewrite d_parent0 in Hs1, Hp1.
  pose proof (RiskGate.gi_shares _ d_gate0) as G1. pose proof (RiskGate.gi_notional _ d_gate0) as G2.
  rewrite d_limits0, ?d_shares0, ?d_notional0 in G1, G2.
  pose proof (total_nonneg _ d_queued0) as Hnn. pose proof (total_nonneg _ d_held0) as Hhn. unfold is_u32 in Hp1.
  destruct d_sim0 as [S1 S2 S3 S4 S5 S6 S7 S8].
  destruct (filled_bounds past [] d_past0) as [_ Hfill]. specialize (Hfill FillSim.kMaxFills). rewrite <- S4 in Hfill.
  pose proof (filled_nonneg _ S5) as Hf0. rewrite S6, S7, !u32_id by (unfold is_u32; lia).
  split_and!; try done; try lia.
  - eapply Forall_impl; [exact d_accepted0|]. by intros po [Ho _].
  - intros c1 c2 d1 -> Hr1 Ht Hno. destruct (obeys_app c1 c2 _ d1 Hobeys Hr1) as [Ho1 Ho2].
    destruct (obeys_run s limits c1 [] _ Hd Ho1) as (d1' & past1 & Hr1' & Hst1 & _). rewrite Hr1 in Hr1'. injection Hr1' as <-.
    destruct (obeys_run s limits c2 past1 d1 Hst1 Ho2) as (d2 & past2 & Hr2 & _ & Hk).
    rewrite run_app, Hr1, bind_Ok, Hr2 in Hrun. injection Hrun as <-. by apply Hk.
Qed.

(** A POV strategy, a quote and a print shown to it and to the simulator, and
    its child order of 75 shares submitted and filled. *)
Definition sample_limits : RiskGate.RiskLimits := RiskGate.mkRiskLimits 500 10000000 500 1000 10000000.
Definition sample_quote : ExecTypes.Bbo := ExecTypes.mkBbo 1 9900 100 10000 100.
Definition sample_print : ExecTypes.TradeTick := ExecTypes.mkTradeTick 2 10000 300 Wire.Buy.
Definition sample_script : list command :=
  [Show (Strategy.Quote sample_quote); FeedQuote sample_quote; Show (Strategy.Trade sample_print); FeedTrade sample_print; Submit; Fill 0].

Lemma obeys_cons {S} `{Strategy.ExecutionStrategy S} c script (d d1 : desk S) :
  allowed c d -> act c d = Ok d1 -> obeys script d1 -> obeys (c :: script) d.
Proof. intros Hc Hrun Hob. split; [done|]. intros d'. rewrite Hrun. by intros [= <-]. Qed.

Lemma sample_obeys : obeys sample_script (start Pov.sample sample_limits 10000).
Proof.
  do 4 (eapply obeys_cons; [repeat split; cbn; lia|vm_compute; reflexivity|]).
  eapply obeys_cons; [exact I|vm_compute; reflexivity|]. eapply obeys_cons; [cbn; lia|vm_compute; reflexivity|exact I].
Qed.

Lemma execution_within_limits_witness :
  exists d', run sample_script (start Pov.sample sample_limits 10000) = Ok d' /\
    accepted d' = [(10000, ExecTypes.mkChildOrder 2 Wire.Buy ExecTypes.Market 0 75)] /\
    FillSim.shares_attempted_ (sim d') = 75 /\ FillSim.shares_filled_ (sim d') <= 75.
Proof.
  assert (Strategy.inv Pov.sample) as Hs by exact Pov.pov_sample_inv.
  destruct (execution_within_limits Pov.sample sample_limits 10000 sample_script Hs eq_refl)
    as (d' & Hrun & _ & _ & _ & _ & _ & Hatt & _ & Hle & _).
  - constructor; cbn; u32c.
  - exact sample_obeys.
  - exists d'. split; [exact Hrun|].
    assert (accepted d' = [(10000, ExecTypes.mkChildOrder 2 Wire.Buy ExecTypes.Market 0 75)] /\ held d' = []) as [E1 E2].
    { vm_compute in Hrun. injection Hrun as <-. split; reflexivity. }
    rewrite Hatt, E1, E2 in Hle |- *. split; [reflexivity|]. split; [reflexivity|exact Hle].
Defined.

(** A child order at the market carries price 0, so its notional counts as 0
    against every notional limit: a gate whose notional limits are 0 still
    lets the order through, and the fill is worth money. *)
Example market_orders_escape_notional :
  exists d', run sample_script (start Pov.sample (RiskGate.mkRiskLimits 500 0 500 1000 0) 10000) = Ok d' /\
    RiskGate.total_notional (window d') = 0 /\ FillSim.notional_ (sim d') = 750000 /\ RiskGate.tripped (gate d') = false.
Proof. eexists. split; [vm_compute; reflexivity|]. vm_compute. split_and!; reflexivity. Qed.

End Execution.
