(* ===== verification/Affinity.v ===== *)
(** * Affinity: pinning the pipeline's threads

    Models include/pipeline/thread_affinity.hpp, its three preprocessor
    branches as three values of [platform], and the pinning with which the
    two threads of [run_pipeline] (include/pipeline/threaded_replay.hpp) start.
    The system calls are a class with the laws their manuals give. *)

From S2P Require Import Prelude ReplayThreaded.

Module Affinity.

Inductive platform := Linux | Apple | Other.

#[export] Instance platform_eq_dec : EqDecision platform.
Proof. solve_decision. Defined.

(** Of a thread: the CPUs it may run on, and its affinity tag. *)
Record thread := mkThread { cpus : gset Z; tag : Z }.

(** [pthread_setaffinity_np] and [thread_policy_set] on the calling thread:
    the value returned and the thread after it. *)
Class Os := {
  setaffinity : gset Z -> thread -> Z * thread;
  policy_set : Z -> thread -> Z * thread }.

(** A mask takes effect on the CPUs that are [online], and a mask of none of
    them is refused; a call that fails changes nothing; a tag binds no thread
    to a CPU. *)
Class OsLaws `{Os} := {
  online : gset Z;
  setaffinity_ok set t : (setaffinity set t).1 = 0 -> cpus (setaffinity set t).2 = set ∩ online /\ set ∩ online <> ∅;
  setaffinity_failed set t : (setaffinity set t).1 <> 0 -> (setaffinity set t).2 = t;
  policy_set_cpus g t : cpus (policy_set g t).2 = cpus t }.

(** [CPU_SET] ignores a number outside the set of 1024. *)
Definition CPU_SETSIZE : Z := 1024.
Definition CPU_SET (core : Z) (set : gset Z) : gset Z :=
  if (0 <=? core) && (core <? CPU_SETSIZE) then {[core]} ∪ set else set.

Section Pinning.
Context `{Os}.

(** On macOS the tag [core + 1] is an [int]. *)
Definition pin_this_thread_to_core (p : platform) (core : Z) (t : thread) : outcome (bool * thread) :=
  match p with
  | Linux => let '(rc, t) := setaffinity (CPU_SET core ∅) t in Ok (rc =? 0, t)
  | Apple =>
    if core =? 2147483647 then UB
    else let '(rc, t) := policy_set (core + 1) t in Ok (rc =? 0, t)
  | Other => Ok (false, t)
  end.

Definition kHasHardAffinity (p : platform) : bool :=
  match p with Linux => true | Apple => false | Other => false end.

(** The first statement of either thread of [run_pipeline]; the result is ignored. *)
Definition pin_if (p : platform) (core : option Z) (t : thread) : outcome thread :=
  match core with
  | None => Ok t
  | Some core => '(_, t) ← pin_this_thread_to_core p core t; Ok t
  end.

(** [CoreAffinity] and both threads: the parser and the book builder. *)
Definition pin_threads (p : platform) (parser_core book_builder_core : option Z) (parser builder : thread) : outcome (thread * thread) :=
  builder ← pin_if p book_builder_core builder;
  parser ← pin_if p parser_core parser;
  Ok (parser, builder).

(** ** What a pin does *)

Lemma cpu_set_one core : CPU_SET core ∅ = if (0 <=? core) && (core <? 1024) then {[core]} else ∅.
Proof. unfold CPU_SET, CPU_SETSIZE. case_match; [|done]. apply union_empty_r_L. Qed.

Context `{!OsLaws}.

(** Where pinning is hard, a pin that reports success binds the thread to
    exactly that core; elsewhere no pin binds a thread to anything. *)
Theorem pin_exact (p : platform) (core : Z) (t t' : thread) (ok : bool)
  (Hrun : pin_this_thread_to_core p core t = Ok (ok, t')) :
  if kHasHardAffinity p then
    (ok = true -> cpus t' = {[core]} /\ core ∈ online /\ 0 <= core < 1024) /\ (ok = false -> t' = t)
  else cpus t' = cpus t.
Proof.
  destruct p; cbn in *.
  - destruct (setaffinity (CPU_SET core ∅) t) as [rc t1] eqn:E. injection Hrun as <- <-.
    pose proof (setaffinity_ok (CPU_SET core ∅) t) as Hok. pose proof (setaffinity_failed (CPU_SET core ∅) t) as Hfail.
    rewrite E in Hok, Hfail. cbn [fst snd] in *. rewrite cpu_set_one in Hok. split.
    + intros Hrc%Z.eqb_eq. destruct (Hok Hrc) as [Hc Hne].
      destruct ((0 <=? core) && (core <? 1024)) eqn:Er; [|by rewrite intersection_empty_l_L in Hne].
      apply andb_true_iff in Er as [H1%Z.leb_le H2%Z.ltb_lt].
      destruct (set_choose_L _ Hne) as [x [->%elem_of_singleton Hin]%elem_of_intersection].
      split_and!; [|done..]. rewrite Hc. apply subseteq_intersection_1_L. by apply singleton_subseteq_l.
    + intros Hrc%Z.eqb_neq. by apply Hfail.
  - case_match; [done|]. destruct (policy_set (core + 1) t) as [rc t1] eqn:E. injection Hrun as <- <-.
    pose proof (policy_set_cpus (core + 1) t) as Hp. by rewrite E in Hp.
  - by injection Hrun as <- <-.
Qed.

(** The only pin that is undefined is that of core [INT_MAX] on macOS. *)
Lemma pin_defined p core t : ~ (p = Apple /\ core = 2147483647) -> exists ok t', pin_this_thread_to_core p core t = Ok (ok, t').
Proof.
  intros Hne. destruct p; cbn; [case_match; by eexists _, _| |by eexists _, _].
  destruct (Z.eqb_spec core 2147483647) as [->|]; [by destruct Hne|]. case_match; by eexists _, _.
Qed.

(** The cores of [--pin] are defined on every platform; where both pins take
    effect the two threads run on different cores. *)
Theorem replay_pins_defined (p : platform) (pin : bool) (parser builder : thread) :
  exists parser' builder',
    pin_threads p (fst <$> ReplayThreaded.affinity_for pin) (snd <$> ReplayThreaded.affinity_for pin) parser builder = Ok (parser', builder') /\
    (pin = false -> parser' = parser /\ builder' = builder) /\
    (pin = true -> kHasHardAffinity p = true -> parser' <> parser -> builder' <> builder ->
       cpus parser' ## cpus builder').
Proof.
  destruct pin; cbn [ReplayThreaded.affinity_for option_fmap option_map fmap fst snd]; unfold pin_threads, pin_if.
  2: { rewrite !bind_Ok. eexists _, _. split_and!; done. }
  destruct (pin_defined p 1 builder) as (ok1 & b' & E1); [by intros []|]. destruct (pin_defined p 0 parser) as (ok0 & q' & E0); [by intros []|].
  rewrite E1, !bind_Ok, E0, !bind_Ok. eexists _, _. split_and!; [done|done|].
  intros _ Hhard Hq Hb. apply pin_exact in E1, E0. rewrite Hhard in E1, E0.
  destruct ok1; [|by destruct Hb; apply E1]. destruct ok0; [|by destruct Hq; apply E0].
  destruct (proj1 E1 eq_refl) as [-> _]. destruct (proj1 E0 eq_refl) as [-> _].
  apply disjoint_singleton_l. rewrite elem_of_singleton. lia.
Qed.

End Pinning.

(** A machine of two cores. *)
#[local] Instance two_cores : Os := {
  setaffinity set t := if decide (set ∩ {[0; 1]} = ∅) then (22, t) else (0, mkThread (set ∩ {[0; 1]}) (tag t));
  policy_set g t := (0, mkThread (cpus t) g) }.

#[local, refine] Instance two_cores_laws : OsLaws := { online := {[0; 1]} }.
Proof.
  - intros set t. cbn. by case_decide.
  - intros set t. cbn. by case_decide.
  - done.
Defined.

Example pinned_apart : let t := mkThread {[0; 1]} 0 in
  pin_threads Linux (Some 0) (Some 1) t t = Ok (mkThread {[0]} 0, mkThread {[1]} 0) /\
  pin_this_thread_to_core Linux 5 t = Ok (false, t) /\ pin_this_thread_to_core Apple 2147483647 t = UB.
Proof. split_and!; reflexivity. Qed.

End Affinity.
