(* ===== verification/FullDay.v ===== *)
(** * FullDay: the books against a naive third implementation

    Models the oracle of tests/test_full_day_invariants.cpp and what the test
    does with it: [ReferenceModel], which keeps no aggregates and scans every
    resting order when it is asked for a quote; [SymbolState], the two books and
    the oracle; [Recorder], which gives all three the same messages; and
    [run_checkpoint], which compares them.  The test checks one random day; the
    theorem here is about every feed that keeps the discipline the test's
    generator documents: sides are Buy or Sell, prices stay in the ladder's
    window, and a symbol's buys and sells stay on their own sides of its mid
    price.

    An [std::unordered_map] is walked in an order nobody promises; that order is
    the class [Iteration], about which only the contents are assumed. *)

From S2P Require Import Prelude Wire Encode Book OrderBook Doubles LadderBook Builder.

Module FullDay.

Class Iteration := {
  iter : gmap Z Book.Order -> list (Z * Book.Order);
  iter_perm os : iter os ≡ₚ map_to_list os }.

(** ** The oracle *)

(** A [ReferenceModel] is its [orders_]. *)

Section Reference.
Context `{Iteration}.

Definition add (ref : Z) (side : Wire.Side) (shares price : Z) (m : gmap Z Book.Order) : bool * gmap Z Book.Order :=
  match m !! ref with
  | Some _ => (false, m)
  | None => (true, <[ref := Book.mkOrder shares price side]> m)
  end.

Definition reduce (ref shares : Z) (m : gmap Z Book.Order) : bool * gmap Z Book.Order :=
  match m !! ref with
  | None => (false, m)
  | Some o =>
    let qty := if shares <? Book.ord_shares o then shares else Book.ord_shares o in
    let left := u32 (Book.ord_shares o - qty) in
    (true, if left =? 0 then delete ref m else <[ref := Book.mkOrder left (Book.ord_price o) (Book.ord_side o)]> m)
  end.

Definition execute (ref shares : Z) (m : gmap Z Book.Order) : bool * gmap Z Book.Order := reduce ref shares m.
Definition cancel (ref shares : Z) (m : gmap Z Book.Order) : bool * gmap Z Book.Order := reduce ref shares m.

Definition remove (ref : Z) (m : gmap Z Book.Order) : bool * gmap Z Book.Order :=
  (bool_decide (is_Some (m !! ref)), delete ref m).

Definition replace (orig next shares price : Z) (m : gmap Z Book.Order) : bool * gmap Z Book.Order :=
  match m !! orig with
  | None => (false, m)
  | Some o => add next (Book.ord_side o) shares price (delete orig m)
  end.

(** The first loop of [best]. *)
Fixpoint best_price (side : Wire.Side) (l : list (Z * Book.Order)) (best : option Z) : option Z :=
  match l with
  | [] => best
  | (_, o) :: l =>
    if negb (Book.ord_side o =? side) then best_price side l best
    else if match best with
            | None => true
            | Some b => if side =? Wire.Buy then b <? Book.ord_price o else Book.ord_price o <? b
            end
    then best_price side l (Some (Book.ord_price o)) else best_price side l best
  end.

(** The second. *)
Fixpoint shares_at (side : Wire.Side) (price : Z) (l : list (Z * Book.Order)) (shares : Z) : Z :=
  match l with
  | [] => shares
  | (_, o) :: l =>
    shares_at side price l
      (if (Book.ord_side o =? side) && (Book.ord_price o =? price) then u64 (shares + Book.ord_shares o) else shares)
  end.

Definition best (side : Wire.Side) (m : gmap Z Book.Order) : option Book.Quote :=
  match best_price side (iter m) None with
  | None => None
  | Some p => Some (Book.mkQuote p (shares_at side p (iter m) 0))
  end.

Definition best_bid (m : gmap Z Book.Order) : option Book.Quote := best Wire.Buy m.
Definition best_ask (m : gmap Z Book.Order) : option Book.Quote := best Wire.Sell m.
Definition open_orders (m : gmap Z Book.Order) : nat := size m.

(** The loop of [level_count]. *)
Fixpoint collect (side : Wire.Side) (l : list (Z * Book.Order)) (prices : list Z) : list Z :=
  match l with
  | [] => prices
  | (_, o) :: l =>
    if negb (Book.ord_side o =? side) then collect side l prices
    else if bool_decide (Book.ord_price o ∈ prices) then collect side l prices
    else collect side l (prices ++ [Book.ord_price o])
  end.

Definition level_count (side : Wire.Side) (m : gmap Z Book.Order) : nat := length (collect side (iter m) []).
Definition bid_levels (m : gmap Z Book.Order) : nat := level_count Wire.Buy m.
Definition ask_levels (m : gmap Z Book.Order) : nat := level_count Wire.Sell m.

(** ** The oracle computes the specification *)

(** Every side is one of the two. *)
Definition two_sided (o : Book.Order) : Prop := Book.ord_side o = Wire.Buy \/ Book.ord_side o = Wire.Sell.
Definition sided (os : gmap Z Book.Order) : Prop := map_Forall (fun _ o => two_sided o) os.

Definition the_side (buy : bool) : Wire.Side := if buy then Wire.Buy else Wire.Sell.

Lemma side_test buy o : two_sided o ->
  (Book.ord_side o =? the_side buy) = Book.on_side buy o.
Proof. unfold two_sided, Book.on_side, Book.is_buy. by intros [-> | ->]; destruct buy. Qed.

Lemma the_side_buy buy : (the_side buy =? Wire.Buy) = buy.
Proof. by destruct buy. Qed.

(** The prices of one side in a list of orders. *)
Definition side_prices (buy : bool) (l : list (Z * Book.Order)) : list Z :=
  Book.ord_price <$> filter (fun o => Book.on_side buy o = true) l.*2.

Definition all_sided : list (Z * Book.Order) -> Prop :=
  Forall (fun kv => two_sided kv.2).

Lemma best_price_spec buy l acc : all_sided l ->
  best_price (the_side buy) l acc =
    match Book.best_of buy (side_prices buy l) with
    | None => acc
    | Some q => Some (match acc with None => q | Some b => Book.better buy b q end)
    end.
Proof.
  revert acc. induction l as [|[k o] l IH]; intros acc Hl; [done|]. apply Forall_cons_1 in Hl as [Ho Hl].
  cbn [best_price]. cbn [snd] in Ho. rewrite side_test, the_side_buy by done.
  unfold side_prices in *. cbn [fmap list_fmap snd]. rewrite filter_cons.
  destruct (Book.on_side buy o) eqn:E; [rewrite decide_True by done|rewrite decide_False by done; by apply IH].
  cbn [negb fmap list_fmap Book.best_of]. rewrite !IH by done.
  destruct (Book.best_of buy _) as [q|]; destruct acc as [b|]; try done; unfold Book.better;
    destruct buy; case_match eqn:Hc; apply Z.ltb_lt in Hc || apply Z.ltb_ge in Hc; f_equal; lia.
Qed.

Lemma collect_spec buy l acc : all_sided l -> NoDup acc ->
  NoDup (collect (the_side buy) l acc) /\
  forall p, p ∈ collect (the_side buy) l acc <-> p ∈ acc \/ p ∈ side_prices buy l.
Proof.
  revert acc. induction l as [|[k o] l IH]; intros acc Hl Hacc.
  { split; [done|]. intros p. unfold side_prices. cbn. rewrite elem_of_nil. tauto. }
  apply Forall_cons_1 in Hl as [Ho Hl]. cbn [collect]. cbn [snd] in Ho. rewrite side_test by done.
  unfold side_prices in *. cbn [fmap list_fmap snd]. rewrite filter_cons.
  destruct (Book.on_side buy o) eqn:E; [rewrite decide_True by done|rewrite decide_False by done; by apply IH].
  cbn [negb fmap list_fmap]. case_bool_decide as Hin.
  - destruct (IH acc Hl Hacc) as [IH1 IH2]. split; [done|]. intros p. rewrite IH2, elem_of_cons.
    split; [tauto|]. by intros [?|[->|?]]; auto.
  - destruct (IH (acc ++ [Book.ord_price o]) Hl) as [IH1 IH2].
    { apply NoDup_app. split; [done|]. split; [|apply NoDup_singleton]. by intros p Hp ->%list_elem_of_singleton. }
    split; [done|]. intros p. rewrite IH2, elem_of_app, list_elem_of_singleton, elem_of_cons. tauto.
Qed.

(** The shares of one level in a list of orders. *)
Definition level_sum (buy : bool) (price : Z) (l : list (Z * Book.Order)) : Z :=
  foldr (fun kv acc => (if Book.at_level buy price kv.2 then Book.ord_shares kv.2 else 0) + acc) 0 l.

Lemma level_sum_perm buy price l k : l ≡ₚ k -> level_sum buy price l = level_sum buy price k.
Proof.
  induction 1 as [|x l k _ IH|x y l|l k j _ IH1 _ IH2]; cbn; [done| | |congruence];
    fold (level_sum buy price l) in *; [fold (level_sum buy price k); lia|lia].
Qed.

Lemma level_sum_shares buy price os : level_sum buy price (iter os) = Book.level_shares buy price os.
Proof.
  rewrite (level_sum_perm _ _ _ _ (iter_perm os)). unfold Book.level_shares, Book.sum_over. rewrite map_fold_foldr.
  unfold level_sum. induction (map_to_list os) as [|[k o] l IH]; cbn; [done|]. by rewrite IH.
Qed.

Lemma shares_at_spec buy price l acc : all_sided l -> Forall (fun kv => is_u32 (Book.ord_shares kv.2)) l ->
  0 <= acc -> acc + level_sum buy price l < 18446744073709551616 ->
  shares_at (the_side buy) price l acc = acc + level_sum buy price l.
Proof.
  revert acc. induction l as [|[k o] l IH]; intros acc Hl Hw Hacc Hmax; cbn in *; [lia|].
  apply Forall_cons_1 in Hl as [Ho Hl]. apply Forall_cons_1 in Hw as [Hwo Hw]. cbn in Ho, Hwo.
  fold (level_sum buy price l) in *. rewrite side_test by done. fold (Book.at_level buy price o).
  assert (0 <= level_sum buy price l) as Hpos.
  { clear -Hw. induction Hw as [|[k o] l Ho _ IH]; cbn; [lia|]. fold (level_sum buy price l). unfold is_u32 in Ho. cbn in Ho. case_match; lia. }
  unfold is_u32 in Hwo. destruct (Book.at_level buy price o); [rewrite u64_id by (unfold is_u64; lia)|]; rewrite IH by (done || lia); lia.
Qed.

Section Spec.
Variable os : gmap Z Book.Order.
Hypothesis os_sided : sided os.
Hypothesis os_wf : Book.wf_orders os.
Hypothesis os_size : Z.of_nat (size os) < Book.max_orders.

Lemma iter_Forall (P : Book.Order -> Prop) : map_Forall (fun _ o => P o) os -> Forall (fun kv => P kv.2) (iter os).
Proof.
  intros HP. apply Forall_forall. intros [k o] Hin. rewrite iter_perm in Hin. apply elem_of_map_to_list in Hin. exact (HP k o Hin).
Qed.

Lemma elem_of_side_prices buy p : p ∈ side_prices buy (iter os) <-> p ∈ Book.prices buy os.
Proof.
  unfold side_prices, Book.prices. rewrite elem_of_list_to_set, !list_elem_of_fmap.
  setoid_rewrite list_elem_of_filter. setoid_rewrite list_elem_of_fmap. setoid_rewrite iter_perm. done.
Qed.

Lemma best_exact buy : best (the_side buy) os = Book.spec_best buy os.
Proof.
  unfold best, Book.spec_best. rewrite best_price_spec by exact (iter_Forall two_sided os_sided).
  rewrite (Book.best_of_ext buy (side_prices buy (iter os)) (elements (Book.prices buy os)))
    by (intros p; by rewrite elem_of_elements, elem_of_side_prices).
  destruct (Book.best_of buy _) as [q|]; cbn; [|done]. do 2 f_equal.
  pose proof (Book.level_shares_bounds buy q os os_wf). unfold Book.max_orders in os_size. rewrite shares_at_spec, level_sum_shares; try done.
  - exact (iter_Forall two_sided os_sided).
  - apply (iter_Forall (fun o => is_u32 (Book.ord_shares o))). intros k o Ho. apply (os_wf k o Ho).
  - rewrite level_sum_shares. lia.
Qed.

Lemma level_count_exact buy : level_count (the_side buy) os = size (Book.prices buy os).
Proof.
  unfold level_count. destruct (collect_spec buy (iter os) [] (iter_Forall two_sided os_sided) (NoDup_nil_2)) as [Hnd Hin].
  rewrite <- (size_list_to_set (C := gset Z) _ Hnd). f_equal. apply set_eq. intros p.
  rewrite elem_of_list_to_set, Hin, elem_of_side_prices, elem_of_nil. tauto.
Qed.

End Spec.

(** ** The three together *)

Record SymbolState := mkSymbol {
  order_book : OrderBook.OrderBook; ladder_book : LadderBook.LadderBook; reference : gmap Z Book.Order }.

(** [SymbolState{mid_price}], the ladder with its default tick and window. *)
Definition symbol (mid_price : Z) : outcome SymbolState :=
  lb ← LadderBook.construct mid_price 1 (Doubles.literal 20 100);
  Ok (mkSymbol OrderBook.init lb ∅).

(** A [Recorder] is its [books].  One operation on the three, the results of which are ignored. *)
Definition on_all (locate : Z) (ob : OrderBook.OrderBook -> bool * OrderBook.OrderBook)
    (lb : LadderBook.LadderBook -> outcome (bool * LadderBook.LadderBook)) (rf : gmap Z Book.Order -> bool * gmap Z Book.Order)
    (r : gmap Z SymbolState) : outcome (gmap Z SymbolState) :=
  match r !! locate with
  | None => Throw "std::out_of_range"
  | Some s =>
    let order_book := (ob (order_book s)).2 in
    '(_, ladder_book) ← lb (ladder_book s);
    Ok (<[locate := mkSymbol order_book ladder_book (rf (reference s)).2]> r)
  end.

Definition on_add (m : Wire.AddOrder) : gmap Z SymbolState -> outcome (gmap Z SymbolState) :=
  on_all (Wire.locate (Wire.add_hdr m))
    (OrderBook.add (Wire.add_ref m) (Wire.add_side m) (Wire.add_shares m) (Wire.add_price m))
    (LadderBook.add (Wire.add_ref m) (Wire.add_side m) (Wire.add_shares m) (Wire.add_price m))
    (add (Wire.add_ref m) (Wire.add_side m) (Wire.add_shares m) (Wire.add_price m)).
Definition on_execute (m : Wire.OrderExecuted) : gmap Z SymbolState -> outcome (gmap Z SymbolState) :=
  on_all (Wire.locate (Wire.exec_hdr m)) (OrderBook.execute (Wire.exec_ref m) (Wire.exec_shares m))
    (LadderBook.execute (Wire.exec_ref m) (Wire.exec_shares m)) (execute (Wire.exec_ref m) (Wire.exec_shares m)).
Definition on_execute_price (_ : Wire.OrderExecutedPrice) (r : gmap Z SymbolState) : outcome (gmap Z SymbolState) := Ok r.
Definition on_cancel (m : Wire.OrderCancel) : gmap Z SymbolState -> outcome (gmap Z SymbolState) :=
  on_all (Wire.locate (Wire.cancel_hdr m)) (OrderBook.cancel (Wire.cancel_ref m) (Wire.cancel_canceled m))
    (LadderBook.cancel (Wire.cancel_ref m) (Wire.cancel_canceled m)) (cancel (Wire.cancel_ref m) (Wire.cancel_canceled m)).
Definition on_delete (m : Wire.OrderDelete) : gmap Z SymbolState -> outcome (gmap Z SymbolState) :=
  on_all (Wire.locate (Wire.delete_hdr m)) (OrderBook.remove (Wire.delete_ref m))
    (LadderBook.remove (Wire.delete_ref m)) (remove (Wire.delete_ref m)).
Definition on_replace (m : Wire.OrderReplace) : gmap Z SymbolState -> outcome (gmap Z SymbolState) :=
  on_all (Wire.locate (Wire.replace_hdr m))
    (OrderBook.replace (Wire.replace_orig_ref m) (Wire.replace_new_ref m) (Wire.replace_shares m) (Wire.replace_price m))
    (LadderBook.replace (Wire.replace_orig_ref m) (Wire.replace_new_ref m) (Wire.replace_shares m) (Wire.replace_price m))
    (replace (Wire.replace_orig_ref m) (Wire.replace_new_ref m) (Wire.replace_shares m) (Wire.replace_price m)).
Definition on_other (_ : Z) (_ : nat) (r : gmap Z SymbolState) : outcome (gmap Z SymbolState) := Ok r.

#[local] Instance recorder_handler : Wire.Handler (outcome (gmap Z SymbolState)) := {
  on_add m r := r ← r; on_add m r;
  on_execute m r := r ← r; on_execute m r;
  on_execute_price m r := r ← r; on_execute_price m r;
  on_cancel m r := r ← r; on_cancel m r;
  on_delete m r := r ← r; on_delete m r;
  on_replace m r := r ← r; on_replace m r;
  on_other t n r := r ← r; on_other t n r
}.

Definition quotes_equal (a b : option Book.Quote) : bool :=
  match a, b with
  | None, None => true
  | Some a, Some b => (Book.q_price a =? Book.q_price b) && (Book.q_shares a =? Book.q_shares b)
  | _, _ => false
  end.

(** What a line of the report complains of. *)
Inductive mismatch :=
| OrderBook_best_bid | LadderBook_best_bid | OrderBook_best_ask | LadderBook_best_ask
| OrderBook_open_orders | LadderBook_open_orders | OrderBook_levels | LadderBook_levels
| OrderBook_crossed | LadderBook_crossed.

Definition complain (bad : bool) (m : mismatch) : list mismatch := if bad then [m] else [].

Definition crossed (bid ask : option Book.Quote) : bool :=
  match bid, ask with
  | Some b, Some a => Book.q_price a <=? Book.q_price b
  | _, _ => false
  end.

(** The body of [run_checkpoint] for one symbol. *)
Definition mismatches (s : SymbolState) : outcome (list mismatch) :=
  let ob := order_book s in let lb := ladder_book s in let rf := reference s in
  let ob_bid := OrderBook.best_bid ob in
  lb_bid ← LadderBook.best_bid lb;
  let rf_bid := best_bid rf in
  let ob_ask := OrderBook.best_ask ob in
  lb_ask ← LadderBook.best_ask lb;
  let rf_ask := best_ask rf in
  Ok (complain (negb (quotes_equal ob_bid rf_bid)) OrderBook_best_bid ++
      complain (negb (quotes_equal lb_bid rf_bid)) LadderBook_best_bid ++
      complain (negb (quotes_equal ob_ask rf_ask)) OrderBook_best_ask ++
      complain (negb (quotes_equal lb_ask rf_ask)) LadderBook_best_ask ++
      complain (negb (OrderBook.open_orders ob =? open_orders rf)%nat) OrderBook_open_orders ++
      complain (negb (LadderBook.open_orders lb =? open_orders rf)%nat) LadderBook_open_orders ++
      complain (negb (OrderBook.bid_levels ob =? bid_levels rf)%nat || negb (OrderBook.ask_levels ob =? ask_levels rf)%nat) OrderBook_levels ++
      complain (negb (LadderBook.bid_levels lb =? Z.of_nat (bid_levels rf)) || negb (LadderBook.ask_levels lb =? Z.of_nat (ask_levels rf))) LadderBook_levels ++
      complain (crossed ob_bid ob_ask) OrderBook_crossed ++
      complain (crossed lb_bid lb_ask) LadderBook_crossed).

(** The loop of [run_checkpoint]: every symbol's complaints. *)
Fixpoint checkpoint_loop (books : list (Z * SymbolState)) : outcome (list (Z * mismatch)) :=
  match books with
  | [] => Ok []
  | (locate, s) :: books =>
    ms ← mismatches s;
    more ← checkpoint_loop books;
    Ok (((fun m => (locate, m)) <$> ms) ++ more)
  end.

Definition run_checkpoint (r : gmap Z SymbolState) : outcome (list (Z * mismatch)) := checkpoint_loop (map_to_list r).

(** ** The test *)

(** The symbols' books, opened at their mid prices. *)
Fixpoint open_books (symbols : list (Z * Z)) (r : gmap Z SymbolState) : outcome (gmap Z SymbolState) :=
  match symbols with
  | [] => Ok r
  | (locate, mid) :: symbols =>
    s ← symbol mid;
    open_books symbols (match r !! locate with Some _ => r | None => <[locate := s]> r end)
  end.

Definition kMaxReportedFailures : nat := 20.
Definition kCheckpointStride : nat := 250.

(** The replay loop over the feed, one buffer per message: whether it stopped
    early, and the failures. *)
Fixpoint replay_day (wires : list (list Z)) (replayed total_failures : nat) (r : gmap Z SymbolState) : outcome (bool * nat * gmap Z SymbolState) :=
  match wires with
  | [] => Ok (false, total_failures, r)
  | wire :: wires =>
    '(_, r) ← Wire.parse_stream wire (length wire) (Ok r);
    r ← r;
    total_failures ← (if (S replayed mod kCheckpointStride =? 0)%nat
                      then ms ← run_checkpoint r; Ok (total_failures + length ms)%nat else Ok total_failures);
    if (kMaxReportedFailures <? total_failures)%nat then Ok (true, total_failures, r)
    else replay_day wires (S replayed) total_failures r
  end.

(** [TEST_CASE]: the failures of the whole day. *)
Definition full_day (symbols : list (Z * Z)) (wires : list (list Z)) : outcome nat :=
  r ← open_books symbols ∅;
  '(capped, total_failures, r) ← replay_day wires 0 0 r;
  if capped : bool then Ok total_failures
  else ms ← run_checkpoint r; Ok (total_failures + length ms)%nat.

(** ** The discipline of the feed *)

(** A price on its side of the mid price and in the ladder's window. *)
Definition in_band (mid : Z) (s : SymbolState) (side : Wire.Side) (price : Z) : Prop :=
  LadderBook.in_range price (ladder_book s) = true /\ if Book.is_buy side then price < mid else mid < price.

Definition feed_ok (mids : gmap Z Z) (r : gmap Z SymbolState) (e : Wire.event) : Prop :=
  match e with
  | Wire.EAdd m => exists s mid, r !! Wire.locate (Wire.add_hdr m) = Some s /\ mids !! Wire.locate (Wire.add_hdr m) = Some mid /\
      (Wire.add_side m = Wire.Buy \/ Wire.add_side m = Wire.Sell) /\ in_band mid s (Wire.add_side m) (Wire.add_price m)
  | Wire.EExec m => is_Some (r !! Wire.locate (Wire.exec_hdr m))
  | Wire.EExecPrice _ => True
  | Wire.ECancel m => is_Some (r !! Wire.locate (Wire.cancel_hdr m))
  | Wire.EDelete m => is_Some (r !! Wire.locate (Wire.delete_hdr m))
  | Wire.EReplace m => exists s mid, r !! Wire.locate (Wire.replace_hdr m) = Some s /\ mids !! Wire.locate (Wire.replace_hdr m) = Some mid /\
      forall o, reference s !! Wire.replace_orig_ref m = Some o -> in_band mid s (Book.ord_side o) (Wire.replace_price m)
  | Wire.EOther _ _ => True
  end.

(** The generator sees what rests before it chooses the next message. *)
Fixpoint disciplined (mids : gmap Z Z) (es : list Wire.event) (r : gmap Z SymbolState) : Prop :=
  match es with
  | [] => True
  | e :: es => feed_ok mids r e /\ forall r', Wire.apply_event (Ok r) e = Ok r' -> disciplined mids es r'
  end.

(** ** The three stay together *)

Lemma add_spec ref side shares price os : add ref side shares price os = Book.spec_add ref side shares price os.
Proof. done. Qed.

Lemma reduce_spec ref shares os : Book.wf_orders os -> is_u32 shares -> reduce ref shares os = Book.spec_reduce ref shares os.
Proof.
  intros Hwf Hs. unfold reduce, Book.spec_reduce. destruct (os !! ref) as [o|] eqn:E; [|done].
  pose proof (Book.reduce_left_range o shares (Hwf ref o E) Hs). destruct (Hwf ref o E) as [Ho _].
  replace (if shares <? _ then _ else _) with (Z.min shares (Book.ord_shares o))
    by (destruct (Z.ltb_spec shares (Book.ord_shares o)); lia).
  rewrite u32_id by (unfold is_u32 in *; lia). done.
Qed.

Lemma remove_spec ref os : remove ref os = Book.spec_remove ref os.
Proof.
  unfold remove, Book.spec_remove. destruct (os !! ref) as [o|] eqn:E.
  - by rewrite bool_decide_eq_true_2 by done.
  - rewrite bool_decide_eq_false_2 by (by intros []). by rewrite delete_id.
Qed.

Lemma replace_spec orig next shares price os : replace orig next shares price os = Book.spec_replace true orig next shares price os.
Proof. unfold replace, Book.spec_replace. by case_match. Qed.

Definition banded (mid : Z) (o : Book.Order) : Prop :=
  if Book.is_buy (Book.ord_side o) then Book.ord_price o < mid else mid < Book.ord_price o.

Record agree (mid : Z) (k : nat) (s : SymbolState) : Prop := {
  ag_ob : OrderBook.ob_inv (order_book s);
  ag_lb : LadderBook.lb_inv (ladder_book s);
  ag_ob_orders : OrderBook.orders_ (order_book s) = reference s;
  ag_lb_orders : LadderBook.orders_ (ladder_book s) = reference s;
  ag_tick : LadderBook.tick_size_ (ladder_book s) = 1;
  ag_orders : map_Forall (fun _ o => two_sided o /\ banded mid o) (reference s);
  ag_size : (size (reference s) <= k)%nat }.

Definition day_inv (mids : gmap Z Z) (k : nat) (r : gmap Z SymbolState) : Prop :=
  forall locate s, r !! locate = Some s -> exists mid, mids !! locate = Some mid /\ agree mid k s.

Lemma agree_mono mid k s : agree mid k s -> agree mid (S k) s.
Proof. intros []. constructor; try done. lia. Qed.

Lemma symbol_ok mid : is_u32 mid -> exists s, symbol mid = Ok s /\ agree mid 0 s.
Proof.
  intros Hm. unfold symbol. destruct (LadderBook.construct_ok mid 1 (Doubles.literal 20 100) Hm) as (lb & -> & Hinv & Ho & _ & _ & Ht & _);
    [done|apply (bool_decide_unpack _); vm_compute; exact I|].
  rewrite bind_Ok. eexists. split; [reflexivity|]. by constructor.
Qed.

(** ** One message *)

Definition disciplined_orders (mid : Z) (os : gmap Z Book.Order) : Prop := map_Forall (fun _ o => two_sided o /\ banded mid o) os.

Lemma orders_reduce mid ref shares os : disciplined_orders mid os -> disciplined_orders mid (Book.spec_reduce ref shares os).2.
Proof.
  intros Hos. unfold Book.spec_reduce. destruct (os !! ref) as [o|] eqn:E; [|done]. cbn. case_match; [by apply map_Forall_delete|].
  apply map_Forall_insert_2; [|done]. exact (Hos ref o E).
Qed.

Lemma orders_remove mid ref os : disciplined_orders mid os -> disciplined_orders mid (Book.spec_remove ref os).2.
Proof. intros Hos. unfold Book.spec_remove. case_match; [by apply map_Forall_delete|done]. Qed.

Lemma orders_add mid ref side shares price os : disciplined_orders mid os ->
  two_sided (Book.mkOrder shares price side) -> banded mid (Book.mkOrder shares price side) ->
  disciplined_orders mid (Book.spec_add ref side shares price os).2.
Proof. intros Hos H1 H2. unfold Book.spec_add. case_match; [done|]. by apply map_Forall_insert_2. Qed.

Lemma in_band_admits mid k s side price : agree mid k s -> in_band mid s side price -> LadderBook.admits (ladder_book s) price = true.
Proof. intros Ha [Hr _]. unfold LadderBook.admits. by rewrite (ag_tick _ _ _ Ha), Z.mod_1_r, Hr. Qed.

(** A ladder operation that acts as specified, for [on_all_ok]. *)
Definition lb_does (r : outcome (bool * LadderBook.LadderBook)) (spec : bool * gmap Z Book.Order) : Prop :=
  exists ok lb', r = Ok (ok, lb') /\ LadderBook.lb_inv lb' /\ (ok, LadderBook.orders_ lb') = spec /\ LadderBook.tick_size_ lb' = 1.

Lemma acts_does b r spec : LadderBook.tick_size_ b = 1 -> LadderBook.acts b r spec -> lb_does r spec.
Proof. intros Ht (ok & b' & -> & Hinv & Heq & (Ht' & _)). exists ok, b'. split_and!; try done. congruence. Qed.

Lemma lb_add_does ref side shares price b : LadderBook.lb_inv b -> LadderBook.tick_size_ b = 1 ->
  Z.of_nat (size (LadderBook.orders_ b)) + 1 < Book.max_orders -> is_u32 shares -> is_u32 price -> LadderBook.admits b price = true ->
  lb_does (LadderBook.add ref side shares price b) (Book.spec_add ref side shares price (LadderBook.orders_ b)).
Proof.
  intros Hinv Ht Hsize Hs Hp Had. destruct (LadderBook.add_refines ref side shares price b Hinv Hsize Hs Hp) as (ok & b' & Hrun & Hinv' & Heq).
  rewrite Had in Heq. destruct (LadderBook.add_range ref side shares price b ok b' Hinv Hp Hrun) as [Ht' _].
  exists ok, b'. split_and!; try done. congruence.
Qed.

Lemma lb_replace_does orig next shares price b : LadderBook.lb_inv b -> LadderBook.tick_size_ b = 1 -> is_u32 shares -> is_u32 price ->
  (is_Some (LadderBook.orders_ b !! orig) -> LadderBook.admits b price = true) ->
  lb_does (LadderBook.replace orig next shares price b) (Book.spec_replace true orig next shares price (LadderBook.orders_ b)).
Proof.
  intros Hinv Ht Hs Hp Had. destruct (LadderBook.replace_refines orig next shares price b Hinv Hs Hp) as (ok & b' & Hrun & Hinv' & Heq).
  exists ok, b'. split_and!; [done|done| |].
  - rewrite Heq. unfold Book.spec_replace. destruct (LadderBook.orders_ b !! orig) as [o|]; [|done]. by rewrite Had.
  - unfold LadderBook.replace in Hrun. destruct (LadderBook.orders_ b !! orig) as [o|]; [|by injection Hrun as _ <-].
    destruct (LadderBook.lb_remove_acts orig b Hinv) as (ok1 & b1 & Hr & Hinv1 & _ & (Ht1 & _)). rewrite Hr, bind_Ok in Hrun.
    destruct (LadderBook.add_range next (Book.ord_side o) shares price b1 ok b' Hinv1 Hp Hrun) as [Ht' _]. congruence.
Qed.

(** What the operations of one message do to a symbol whose three agree. *)
Record keeps (mid : Z) (k : nat) (s : SymbolState) (ob : bool * OrderBook.OrderBook)
    (lb : outcome (bool * LadderBook.LadderBook)) (rf spec : bool * gmap Z Book.Order) : Prop := {
  k_ob : OrderBook.acts ob spec;
  k_lb : lb_does lb spec;
  k_rf : rf = spec;
  k_orders : disciplined_orders mid spec.2;
  k_size : (size spec.2 <= S k)%nat }.

Lemma keeps_add mid k s ref side shares price : agree mid k s -> Z.of_nat (S k) < Book.max_orders ->
  is_u32 shares -> is_u32 price -> side = Wire.Buy \/ side = Wire.Sell -> in_band mid s side price ->
  keeps mid k s (OrderBook.add ref side shares price (order_book s)) (LadderBook.add ref side shares price (ladder_book s))
    (add ref side shares price (reference s)) (Book.spec_add ref side shares price (reference s)).
Proof.
  intros Ha Hk Hsh Hpr Hside Hband. pose proof Ha as [A1 A2 A3 A4 A5 A6 A7]. constructor; [| |done| |].
  - rewrite <- A3. apply OrderBook.add_acts; try done. rewrite A3. lia.
  - rewrite <- A4. apply lb_add_does; try done; [rewrite A4; lia|]. by eapply in_band_admits.
  - by apply orders_add; [|done|apply Hband].
  - unfold Book.spec_add. case_match eqn:E; cbn; [lia|]. rewrite map_size_insert_None by done. lia.
Qed.

Lemma keeps_reduce mid k s ref shares : agree mid k s -> is_u32 shares ->
  keeps mid k s (OrderBook.reduce ref shares (order_book s)) (LadderBook.reduce ref shares (ladder_book s))
    (reduce ref shares (reference s)) (Book.spec_reduce ref shares (reference s)).
Proof.
  intros Ha Hsh. pose proof Ha as [A1 A2 A3 A4 A5 A6 A7]. constructor.
  - rewrite <- A3. by apply OrderBook.reduce_acts.
  - rewrite <- A4. eapply acts_does; [done|]. by apply LadderBook.lb_reduce_acts.
  - apply reduce_spec; [|done]. rewrite <- A3. apply (OrderBook.ob_wf _ A1).
  - by apply orders_reduce.
  - unfold Book.spec_reduce. destruct (reference s !! ref) as [o|] eqn:E; cbn; [|lia].
    case_match; [pose proof (Book.size_delete_le ref (reference s)); lia|]. rewrite (Book.size_update _ o) by done. lia.
Qed.

Lemma keeps_remove mid k s ref : agree mid k s ->
  keeps mid k s (OrderBook.remove ref (order_book s)) (LadderBook.remove ref (ladder_book s))
    (remove ref (reference s)) (Book.spec_remove ref (reference s)).
Proof.
  intros Ha. pose proof Ha as [A1 A2 A3 A4 A5 A6 A7]. constructor.
  - rewrite <- A3. by apply OrderBook.remove_acts.
  - rewrite <- A4. eapply acts_does; [done|]. by apply LadderBook.lb_remove_acts.
  - apply remove_spec.
  - by apply orders_remove.
  - unfold Book.spec_remove. case_match; cbn; [|lia]. pose proof (Book.size_delete_le ref (reference s)). lia.
Qed.

Lemma keeps_replace mid k s orig next shares price : agree mid k s -> is_u32 shares -> is_u32 price ->
  (forall o, reference s !! orig = Some o -> in_band mid s (Book.ord_side o) price) ->
  keeps mid k s (OrderBook.replace orig next shares price (order_book s)) (LadderBook.replace orig next shares price (ladder_book s))
    (replace orig next shares price (reference s)) (Book.spec_replace true orig next shares price (reference s)).
Proof.
  intros Ha Hsh Hpr Hband. pose proof Ha as [A1 A2 A3 A4 A5 A6 A7]. constructor.
  - rewrite <- A3. by apply OrderBook.replace_acts.
  - rewrite <- A4. apply lb_replace_does; try done. rewrite A4. intros [o Ho]. by eapply in_band_admits; [|apply (Hband o Ho)].
  - apply replace_spec.
  - unfold Book.spec_replace. destruct (reference s !! orig) as [o|] eqn:E; [|done].
    apply orders_add; [by apply map_Forall_delete|exact (proj1 (A6 orig o E))|]. apply (Hband o eq_refl).
  - unfold Book.spec_replace, Book.spec_add. pose proof (Book.size_delete_le orig (reference s)). repeat case_match; cbn; try lia.
    rewrite map_size_insert. case_match; cbn; lia.
Qed.

Lemma on_all_ok mids k locate ob lb rf r s mid spec : day_inv mids k r -> r !! locate = Some s -> mids !! locate = Some mid ->
  (agree mid k s -> keeps mid k s (ob (order_book s)) (lb (ladder_book s)) (rf (reference s)) spec) ->
  exists r', on_all locate ob lb rf r = Ok r' /\ day_inv mids (S k) r'.
Proof.
  intros Hr Hs Hm Hop. destruct (Hr locate s Hs) as (mid' & Hm' & Ha). rewrite Hm in Hm'. injection Hm' as <-.
  destruct (Hop Ha) as [Hob (ok & lb' & Hlb & Hinv & Heq & Ht) Hrf Hf Hsize]. clear Hop.
  unfold on_all. rewrite Hs, Hlb, bind_Ok, Hrf. eexists. split; [reflexivity|].
  intros loc s' Hs'. destruct (decide (loc = locate)) as [->|Hne].
  - rewrite lookup_insert_eq in Hs'. injection Hs' as <-. exists mid. split; [done|].
    unfold OrderBook.acts in Hob. destruct (ob (order_book s)) as [ok' ob']. destruct Hob as [Hob1 Hob2].
    rewrite <- Heq in Hob2 |- *. injection Hob2 as -> Hob2. rewrite <- Heq in Hf, Hsize. constructor; cbn; done.
  - rewrite lookup_insert_ne in Hs' by done. destruct (Hr loc s' Hs') as (mid' & Hm' & Ha'). exists mid'. split; [done|]. by apply agree_mono.
Qed.

Lemma day_step mids k r e : day_inv mids k r -> Builder.ranged e -> feed_ok mids r e -> Z.of_nat (S k) < Book.max_orders ->
  exists r', Wire.apply_event (Ok r) e = Ok r' /\ day_inv mids (S k) r'.
Proof.
  intros Hr Hran Hfeed Hk.
  assert (day_inv mids (S k) r) as Hsame.
  { intros loc s Hs. destruct (Hr loc s Hs) as (mid & ? & ?). exists mid. split; [done|by apply agree_mono]. }
  assert (forall loc, is_Some (r !! loc) -> exists s mid, r !! loc = Some s /\ mids !! loc = Some mid) as Hmid.
  { intros loc [s Hs]. destruct (Hr loc s Hs) as (mid & ? & _). eauto. }
  destruct e as [m|m|m|m|m|m|t n]; cbn [Wire.apply_event Wire.on_add Wire.on_execute Wire.on_execute_price Wire.on_cancel
    Wire.on_delete Wire.on_replace Wire.on_other recorder_handler Builder.ranged feed_ok] in *; rewrite bind_Ok;
    unfold on_add, on_execute, on_cancel, on_delete, on_replace.
  - destruct Hfeed as (s & mid & Hs & Hm & Hside & Hband). eapply on_all_ok; [done..|]. intros Ha. by apply keeps_add; try apply Hran.
  - destruct (Hmid _ Hfeed) as (s & mid & Hs & Hm). eapply on_all_ok; [done..|]. intros Ha. by apply keeps_reduce; try apply Hran.
  - by exists r.
  - destruct (Hmid _ Hfeed) as (s & mid & Hs & Hm). eapply on_all_ok; [done..|]. intros Ha. by apply keeps_reduce; try apply Hran.
  - destruct (Hmid _ Hfeed) as (s & mid & Hs & Hm). eapply on_all_ok; [done..|]. intros Ha. by apply keeps_remove.
  - destruct Hfeed as (s & mid & Hs & Hm & Hband). eapply on_all_ok; [done..|]. intros Ha. by apply keeps_replace; try apply Hran.
  - by exists r.
Qed.

(** ** A checkpoint *)

Lemma quotes_equal_refl q : quotes_equal q q = true.
Proof. destruct q; [|done]. cbn. by rewrite !Z.eqb_refl. Qed.

Lemma banded_uncrossed mid os : disciplined_orders mid os -> crossed (Book.spec_best true os) (Book.spec_best false os) = false.
Proof.
  intros Hos. destruct (Book.spec_best true os) as [b|] eqn:Eb; [|done]. destruct (Book.spec_best false os) as [a|] eqn:Ea; [|done].
  apply Book.spec_best_Some in Eb as (Hb & _), Ea as (Ha & _). apply Book.elem_of_prices in Hb as (rb & ob & Hrb & Hob), Ha as (ra & oa & Hra & Hoa).
  apply Book.at_level_spec in Hob as [Sb Pb], Hoa as [Sa Pa].
  destruct (Hos rb ob Hrb) as [_ Bb], (Hos ra oa Hra) as [_ Ba]. unfold banded in Bb, Ba. rewrite Sb in Bb. rewrite Sa in Ba.
  cbn. apply Z.leb_gt. lia.
Qed.

Lemma no_mismatch mid k s : agree mid k s -> Z.of_nat k < Book.max_orders -> mismatches s = Ok [].
Proof.
  intros [A1 A2 A3 A4 A5 A6 A7] Hk. assert (sided (reference s)) as Hsided by (intros r o Ho; apply (A6 r o Ho)).
  assert (Book.wf_orders (reference s)) as Hwf by (rewrite <- A3; apply (OrderBook.ob_wf _ A1)).
  assert (Z.of_nat (size (reference s)) < Book.max_orders) as Hsize by lia.
  unfold mismatches. rewrite (LadderBook.best_bid_ok _ A2), (LadderBook.best_ask_ok _ A2), A4. cbv zeta. rewrite !bind_Ok.
  rewrite (OrderBook.best_bid_spec _ A1), (OrderBook.best_ask_spec _ A1), A3.
  unfold best_bid, best_ask, bid_levels, ask_levels. change Wire.Buy with (the_side true). change Wire.Sell with (the_side false).
  rewrite !best_exact, !level_count_exact by done. rewrite !quotes_equal_refl, (banded_uncrossed mid) by done.
  unfold OrderBook.open_orders, LadderBook.open_orders, open_orders. rewrite A3, A4, !Nat.eqb_refl.
  unfold OrderBook.bid_levels, OrderBook.ask_levels.
  rewrite (OrderBook.levels_spec true _ _ (OrderBook.ob_bids _ A1)), (OrderBook.levels_spec false _ _ (OrderBook.ob_asks _ A1)), A3, !Nat.eqb_refl.
  pose proof (Book.bid_levels_law (ladder_book s) A2) as L1. pose proof (Book.ask_levels_law (ladder_book s) A2) as L2. cbn in L1, L2.
  rewrite L1, L2, A4, !Z.eqb_refl. done.
Qed.

Lemma checkpoint_clean mids k r : day_inv mids k r -> Z.of_nat k < Book.max_orders -> run_checkpoint r = Ok [].
Proof.
  intros Hr Hk. unfold run_checkpoint.
  assert (forall loc s, (loc, s) ∈ map_to_list r -> exists mid, agree mid k s) as Hl.
  { intros loc s Hin. apply elem_of_map_to_list in Hin. destruct (Hr loc s Hin) as (mid & _ & Ha). by exists mid. }
  induction (map_to_list r) as [|[loc s] l IH]; [done|]. cbn [checkpoint_loop].
  destruct (Hl loc s ltac:(apply list_elem_of_here)) as [mid Ha]. rewrite (no_mismatch mid k s Ha Hk), bind_Ok, IH; [done|].
  intros loc' s' Hin. apply (Hl loc' s'). by apply list_elem_of_further.
Qed.

(** ** The whole day *)

Lemma disciplined_app mids es1 es2 r r' : disciplined mids (es1 ++ es2) r -> foldl Wire.apply_event (Ok r) es1 = Ok r' ->
  disciplined mids es2 r'.
Proof.
  revert r. induction es1 as [|e es1 IH]; intros r; cbn [app disciplined foldl]; [by intros Hd [= <-]|].
  intros [_ Hd] Hrun. destruct (Wire.apply_event (Ok r) e) as [r1| | |] eqn:E; [by apply (IH r1); [apply Hd|]|..];
    (assert (foldl Wire.apply_event (Wire.apply_event (Ok r) e) es1 <> Ok r'); [|congruence]); rewrite E; clear;
    induction es1 as [|e' es1 IH]; [done| |done| |done|]; cbn; destruct e'; exact IH.
Qed.

Lemma day_run mids k r es : day_inv mids k r -> Forall Builder.ranged es -> disciplined mids es r ->
  Z.of_nat (k + length es) < Book.max_orders ->
  exists r', foldl Wire.apply_event (Ok r) es = Ok r' /\ day_inv mids (k + length es) r'.
Proof.
  revert k r. induction es as [|e es IH]; intros k r Hr Hran Hd Hk; cbn [foldl length] in *.
  { exists r. by rewrite Nat.add_0_r. }
  apply Forall_cons_1 in Hran as [He Hran]. destruct Hd as [Hf Hd].
  destruct (day_step mids k r e Hr He Hf ltac:(lia)) as (r1 & Hr1 & Hinv1). rewrite Hr1.
  destruct (IH (S k) r1 Hinv1 Hran (Hd r1 Hr1) ltac:(lia)) as (r' & Hrun & Hinv'). exists r'. split; [done|].
  by rewrite Nat.add_succ_r.
Qed.

Lemma open_books_ok symbols r : NoDup symbols.*1 -> Forall is_u32 symbols.*2 ->
  (forall loc mid, (loc, mid) ∈ symbols -> r !! loc = None) ->
  forall mids, day_inv mids 0 r -> (forall loc mid, (loc, mid) ∈ symbols -> mids !! loc = Some mid) ->
  exists r', open_books symbols r = Ok r' /\ day_inv mids 0 r'.
Proof.
  revert r. induction symbols as [|[loc mid] symbols IH]; intros r Hnd Hu Hnew mids Hr Hm; cbn [open_books]; [by exists r|].
  cbn in Hnd, Hu. apply NoDup_cons in Hnd as [Hn Hnd]. apply Forall_cons_1 in Hu as [Hmid Hu].
  destruct (symbol_ok mid Hmid) as (s & -> & Ha). rewrite bind_Ok, (Hnew loc mid) by apply list_elem_of_here.
  apply IH; [done|done| | |intros l m Hin; apply Hm; by apply list_elem_of_further].
  - intros l m Hin. rewrite lookup_insert_ne; [apply (Hnew l m); by apply list_elem_of_further|].
    intros <-. apply Hn. apply list_elem_of_fmap. by exists (loc, m).
  - intros l s' Hs'. destruct (decide (l = loc)) as [->|Hne].
    + rewrite lookup_insert_eq in Hs'. injection Hs' as <-. exists mid. split; [apply Hm, list_elem_of_here|done].
    + rewrite lookup_insert_ne in Hs' by done. exact (Hr l s' Hs').
Qed.

Lemma replay_day_ok mids wires k i r : day_inv mids k r -> Forall Wire.bytes wires ->
  disciplined mids (mjoin (Wire.events <$> wires)) r -> Z.of_nat (k + length (mjoin (Wire.events <$> wires))) < Book.max_orders ->
  exists r', replay_day wires i 0 r = Ok (false, 0%nat, r') /\ day_inv mids (k + length (mjoin (Wire.events <$> wires))) r'.
Proof.
  revert k i r. induction wires as [|w wires IH]; intros k i r Hr Hb Hd Hk; cbn [replay_day fmap list_fmap] in *.
  { exists r. cbn. by rewrite Nat.add_0_r. }
  change (mjoin (Wire.events w :: (Wire.events <$> wires))) with (Wire.events w ++ mjoin (Wire.events <$> wires)) in *. rewrite length_app in *. apply Forall_cons_1 in Hb as [Hw Hb].
  rewrite Wire.parse_stream_frames, take_ge by (done || lia). rewrite bind_Ok.
  destruct (day_run mids k r (Wire.events w) Hr (Builder.events_ranged w Hw)) as (r1 & Hrun & Hr1); [|lia|].
  { clear -Hd. revert r Hd. induction (Wire.events w) as [|e es IH]; intros r Hd; [done|]. destruct Hd as [Hf Hd].
    split; [done|]. intros r' Hr'. apply IH. by apply Hd. }
  rewrite Hrun, bind_Ok, (checkpoint_clean mids _ r1 Hr1) by lia.
  assert (disciplined mids (mjoin (Wire.events <$> wires)) r1) as Hd1 by (by eapply disciplined_app).
  destruct (IH (k + length (Wire.events w))%nat (S i) r1 Hr1 Hb Hd1 ltac:(lia)) as (r' & Hrun' & Hr').
  exists r'. split; [|by rewrite Nat.add_assoc]. destruct (_ =? 0)%nat; rewrite !bind_Ok; exact Hrun'.
Qed.

(** The bands of the test's generator are in the windows of its ladders: mid
    prices from $1000 in steps of $25, prices within $50 of them. *)
Lemma generator_bands sym mid s price : 0 <= sym < 6 -> mid = 10000000 + sym * 250000 -> symbol mid = Ok s ->
  mid - 500000 <= price <= mid + 500000 -> LadderBook.in_range price (ladder_book s) = true.
Proof.
  intros Hsym Hmid Hs Hp. unfold symbol, LadderBook.construct in Hs.
  assert (LadderBook.window_low mid (Doubles.literal 20 100) = Ok (mid - mid / 5) /\
    LadderBook.window_high mid (Doubles.literal 20 100) = Ok (mid + mid / 5)) as [Hlo Hhi].
  { assert (sym = 0 \/ sym = 1 \/ sym = 2 \/ sym = 3 \/ sym = 4 \/ sym = 5) as Hc by lia.
    subst mid. destruct Hc as [->|[->|[->|[->|[->| ->]]]]]; split; vm_compute; reflexivity. }
  rewrite Hlo, Hhi, !bind_Ok in Hs. unfold LadderBook.make_range, LadderBook.check_range in Hs.
  change (LadderBook.snap_to_tick (mid - mid / 5) (if 1 =? 0 then 1 else 1)) with (u32 ((mid - mid / 5) / 1 * 1)) in Hs.
  assert (0 <= mid / 5 <= mid) as Hd by (pose proof (Z.mul_div_le mid 5 ltac:(lia)); pose proof (Z.div_pos mid 5); lia).
  assert (mid / 5 >= 2000000) as Hd2 by (assert (2000000 <= mid / 5) by (apply Z.div_le_lower_bound; lia); lia).
  rewrite Z.div_1_r, Z.mul_1_r, u32_id, (proj2 (Z.ltb_ge _ _)), !bind_Ok in Hs by (unfold is_u32; lia).
  injection Hs as <-. unfold LadderBook.in_range. cbn [ladder_book LadderBook.min_price_ LadderBook.max_price_].
  apply andb_true_iff. rewrite !Z.leb_le. lia.
Qed.

(** ** Properties *)

(** C20: the full-day test passes on every feed, not only on its random one:
    whatever the symbols, their mid prices and the messages, if each message
    names an open symbol and each new price is in its ladder's window and on its
    side of the mid price (what the test's generator promises), then every
    checkpoint finds the map-based book, the ladder and the naive oracle equal in
    best quotes, open orders and level counts, and no book crossed.  Nothing
    throws, whatever order the oracle's hash map is walked in. *)
Theorem full_day_clean (symbols : list (Z * Z)) (wires : list (list Z))
  (Hsymbols : NoDup symbols.*1) (Hmids : Forall is_u32 symbols.*2) (Hbytes : Forall Wire.bytes wires)
  (Hn : Z.of_nat (length (mjoin (Wire.events <$> wires))) < Book.max_orders)
  (Hfeed : forall r, open_books symbols ∅ = Ok r -> disciplined (list_to_map symbols) (mjoin (Wire.events <$> wires)) r) :
  full_day symbols wires = Ok 0%nat.
Proof.
  destruct (open_books_ok symbols ∅ Hsymbols Hmids) with (mids := list_to_map symbols : gmap Z Z) as (r & Hopen & Hr); [done|by intros ? ? ?| |].
  { intros loc mid Hin. by apply elem_of_list_to_map_1. }
  unfold full_day. rewrite Hopen, bind_Ok.
  destruct (replay_day_ok _ wires 0 0 r Hr Hbytes (Hfeed r Hopen) Hn) as (r' & -> & Hr').
  by rewrite bind_Ok, (checkpoint_clean _ _ _ Hr'), bind_Ok by lia.
Qed.

End Reference.

(** One order of iteration, and a feed of four messages. *)
Definition by_map_to_list : Iteration := {| iter os := map_to_list os; iter_perm os := reflexivity _ |}.

Definition sample_wires : list (list Z) :=
  (fun m => Encode.stream [m]) <$>
    [Encode.add_order 1 100 1001 Wire.Buy 300 [65; 65; 80; 76] 9;
     Encode.add_order 1 110 1002 Wire.Sell 200 [65; 65; 80; 76] 11;
     Encode.executed 1 120 1001 100 90001;
     Encode.replace 1 130 1002 1003 50 12].

Lemma full_day_clean_witness : @full_day by_map_to_list [(1, 10)] sample_wires = Ok 0%nat.
Proof.
  apply (@full_day_clean by_map_to_list [(1, 10)] sample_wires).
  - apply NoDup_singleton.
  - apply Forall_singleton. cbn. u32c.
  - apply (bool_decide_unpack _). vm_compute. exact I.
  - vm_compute. reflexivity.
  - intros r Hr. vm_compute in Hr. injection Hr as <-.
    match goal with |- disciplined _ ?es _ => let es' := eval vm_compute in es in change es with es' end.
    split; [|intros r Hr; vm_compute in Hr; injection Hr as <-; split; [|intros r Hr; vm_compute in Hr; injection Hr as <-;
      split; [|intros r Hr; vm_compute in Hr; injection Hr as <-; split; [|intros r _; exact I]]]].
    + eexists _, _. split; [vm_compute; reflexivity|]. split; [vm_compute; reflexivity|]. split; [by left|]. split; [reflexivity|]. vm_compute. reflexivity.
    + eexists _, _. split; [vm_compute; reflexivity|]. split; [vm_compute; reflexivity|]. split; [by right|]. split; [reflexivity|]. vm_compute. reflexivity.
    + eexists. vm_compute. reflexivity.
    + eexists _, _. split; [vm_compute; reflexivity|]. split; [vm_compute; reflexivity|]. intros o Ho. vm_compute in Ho. injection Ho as <-.
      split; [reflexivity|]. vm_compute. reflexivity.
Defined.

(** A crossed feed is reported by both books, and only so. *)
Example crossing_is_reported :
  @full_day by_map_to_list [(1, 10)]
    ((fun m => Encode.stream [m]) <$> [Encode.add_order 1 100 1 Wire.Buy 300 [65] 11; Encode.add_order 1 110 2 Wire.Sell 200 [65] 9]) = Ok 2%nat.
Proof. vm_compute. reflexivity. Qed.

End FullDay.
