(* ===== verification/UnitTests.v ===== *)
(** * UnitTests: the program's own tests

    The cases of tests/test_book.cpp, test_ladder_book.cpp, test_spsc_queue.cpp,
    test_volume_curve.cpp, test_exec_twap.cpp, test_exec_vwap.cpp,
    test_exec_pov.cpp, test_risk_gate.cpp, test_fill_sim.cpp, test_parser.cpp,
    test_multicast_receiver.cpp, test_moldudp64.cpp, test_book_snapshot.cpp and
    the wire protocol of test_query_server.cpp, run on the models by
    evaluation: what the authors expect of the code, the models do.  A network
    is the list of datagrams sent, a request channel what the sender answers.
    The cases that need real threads, sockets, files or an [acosh] are left to
    the theorems about them. *)

From S2P Require Import Prelude Wire Encode Book OrderBook Doubles LadderBook Builder Spsc ExecTypes Twap Vwap Pov RiskGate FillSim Mold Sender Receiver Recovery Snapshot Query Replay.

Import Query (text, str, dq, mkReads, handle_line, after_first, extract_string_field, extract_uint_field).

Module UnitTests.

(** [REQUIRE] and [CHECK]. *)
Definition check (b : bool) : outcome () := if b then Ok () else Throw "CHECK".

(** [CHECK_THROWS_AS]. *)
Definition throws {A} (r : outcome A) : bool := match r with Throw _ => true | _ => false end.

(** ** The books: test_book.cpp, test_ladder_book.cpp *)

(** A line of a test: an operation with its verdict, or an observation. *)
Inductive action :=
| Add (ref side shares price : Z) (ok : bool)
| Execute (ref shares : Z) (ok : bool)
| Cancel (ref shares : Z) (ok : bool)
| Remove (ref : Z) (ok : bool)
| Replace (orig next shares price : Z) (ok : bool)
| Bid (q : option (Z * Z))
| BidPrice (p : Z)
| Ask (q : option (Z * Z))
| AskPrice (p : Z)
| Open (n : nat)
| BidLevels (n : Z)
| AskLevels (n : Z).

Section Books.
Context {B : Type} `{Book.BookOps B}.

Definition verdict (r : outcome (bool * B)) (ok : bool) : outcome B := '(v, b) ← r; check (eqb v ok);; Ok b.

Definition pair_of (q : Book.Quote) : Z * Z := (Book.q_price q, Book.q_shares q).

Definition line (a : action) (b : B) : outcome B :=
  match a with
  | Add ref side shares price ok => verdict (Book.add ref side shares price b) ok
  | Execute ref shares ok => verdict (Book.execute ref shares b) ok
  | Cancel ref shares ok => verdict (Book.cancel ref shares b) ok
  | Remove ref ok => verdict (Book.remove ref b) ok
  | Replace orig next shares price ok => verdict (Book.replace orig next shares price b) ok
  | Bid q => q' ← Book.best_bid b; check (bool_decide (pair_of <$> q' = q));; Ok b
  | BidPrice p => q' ← Book.best_bid b; check (bool_decide (Book.q_price <$> q' = Some p));; Ok b
  | Ask q => q' ← Book.best_ask b; check (bool_decide (pair_of <$> q' = q));; Ok b
  | AskPrice p => q' ← Book.best_ask b; check (bool_decide (Book.q_price <$> q' = Some p));; Ok b
  | Open n => check (Book.open_orders b =? n)%nat;; Ok b
  | BidLevels n => check (Book.bid_levels b =? n);; Ok b
  | AskLevels n => check (Book.ask_levels b =? n);; Ok b
  end.

Fixpoint script (l : list action) (b : B) : outcome () :=
  match l with [] => Ok () | a :: l => b ← line a b; script l b end.

End Books.

(** The cases the two files share. *)
Definition shared_cases : list (list action) := [
  [Add 1 Wire.Buy 100 9990000 true; Add 2 Wire.Buy 200 10000000 true; Add 3 Wire.Sell 300 10010000 true;
   Bid (Some (10000000, 200)); Ask (Some (10010000, 300))];
  [Add 1 Wire.Buy 500 10000000 true; Execute 1 200 true; Bid (Some (10000000, 300)); Open 1;
   Execute 1 300 true; Open 0; BidLevels 0; Bid None];
  [Add 1 Wire.Buy 100 10000000 true; Add 2 Wire.Buy 250 9990000 true; Remove 1 true; Bid (Some (9990000, 250)); BidLevels 1];
  [Add 1 Wire.Sell 100 10010000 true; Add 2 Wire.Sell 400 10010000 true; Remove 1 true; Ask (Some (10010000, 400)); AskLevels 1; Open 1];
  [Add 1 Wire.Buy 500 10000000 true; Cancel 1 200 true; Open 1; Bid (Some (10000000, 300)); Remove 1 true; Open 0; BidLevels 0];
  [Add 1 Wire.Buy 500 10000000 true; Replace 1 2 300 9995000 true; BidLevels 1; Bid (Some (9995000, 300));
   Execute 1 100 false; Execute 2 100 true];
  [Add 1 Wire.Buy 100 10000000 true; Add 1 Wire.Buy 999 10000000 false; Bid (Some (10000000, 100)); Execute 42 10 false;
   Cancel 42 10 false; Remove 42 false; Replace 42 43 10 10000000 false; Open 1];
  [Add 1 Wire.Sell 100 10010000 true; Execute 1 250 true; Open 0; AskLevels 0]].

Example test_book : (fun l => script (B := OrderBook.OrderBook) l OrderBook.init) <$> shared_cases = replicate 8 (Ok ()).
Proof. vm_compute. reflexivity. Qed.

(** [LadderBook b(base, tick, pct); ...]; where a case has ticks so fine that
    its window is long they are coarser here, all its prices being on them. *)
Definition ladder (base tick : Z) (pct : Doubles.double) (l : list action) : outcome () :=
  b ← LadderBook.construct base tick pct; script l b.

Example test_ladder_book : ladder 10000000 5000 (Doubles.literal 2 10) <$> shared_cases = replicate 8 (Ok ()).
Proof. vm_compute. reflexivity. Qed.

Example test_ladder_window :
  ladder 10000000 100000 (Doubles.literal 2 10)
    [Add 1 Wire.Buy 100 7900000 true; BidPrice 7900000; Open 1; Add 2 Wire.Sell 100 12100000 true; AskPrice 12100000; Open 2;
     Add 3 Wire.Buy 50 10000000 true; BidPrice 10000000; Open 3; Execute 1 100 true; Open 2] = Ok () /\
  ladder 10000000 100000 (Doubles.literal 2 10)
    [Add 1 Wire.Buy 200 9900000 true; Add 2 Wire.Buy 100 9800000 true; Add 3 Wire.Sell 300 10100000 true;
     Add 4 Wire.Buy 500 5000000 true; Bid (Some (9900000, 200)); AskPrice 10100000; BidLevels 3; AskLevels 1; Open 4;
     Execute 2 100 true; BidLevels 2; BidPrice 9900000] = Ok () /\
  ladder 4290000000 10000000 (Doubles.literal 3 10) [Add 1 Wire.Buy 100 4290000000 true; BidPrice 4290000000] = Ok () /\
  ladder 0 1 (Doubles.literal 3 10) [Add 1 Wire.Buy 100 0 true; BidPrice 0] = Ok ().
Proof. split_and!; vm_compute; reflexivity. Qed.

(** ** The ring: test_spsc_queue.cpp *)

Definition ring_push (k v : Z) (ok : bool) (q : Spsc.SpscQueue Z) : outcome (Spsc.SpscQueue Z) :=
  '(b, q) ← Spsc.push k v q; check (eqb b ok);; Ok q.
Definition ring_pop (k : Z) (v : option Z) (q : Spsc.SpscQueue Z) : outcome (Spsc.SpscQueue Z) :=
  '(o, q) ← Spsc.pop k q; check (bool_decide (o = v));; Ok q.
Definition ring (k : Z) : Spsc.SpscQueue Z := Spsc.mkQueue (replicate (Z.to_nat (2 ^ k)) 0) 0 0.

(** A test pushes and pops: [inl] a push with its verdict, [inr] a pop with
    what it gives. *)
Fixpoint ring_script (k : Z) (l : list (Z * bool + option Z)) (q : Spsc.SpscQueue Z) : outcome (Spsc.SpscQueue Z) :=
  match l with
  | [] => Ok q
  | inl (v, ok) :: l => q ← ring_push k v ok q; ring_script k l q
  | inr v :: l => q ← ring_pop k v q; ring_script k l q
  end.

(** Fifty rounds of two pushes and two pops. *)
Definition rounds : list (Z * bool + option Z) :=
  seq 0 50 ≫= fun i => let a := 2 * Z.of_nat i in [inl (a, true); inl (a + 1, true); inr (Some a); inr (Some (a + 1))].

Example test_spsc_queue :
  (_ ← ring_script 2 [inl (10, true); inl (20, true); inl (30, true); inr (Some 10); inr (Some 20); inr (Some 30)] (ring 2);
   _ ← ring_script 2 [inl (1, true); inl (2, true); inl (3, true); inl (4, false); inl (5, false); inr (Some 1); inr (Some 2);
     inr (Some 3); inr None] (ring 2);
   _ ← ring_script 2 [inr None; inl (42, true); inr (Some 42); inr None] (ring 2);
   q ← ring_script 2 rounds (ring 2); check (Spsc.size 2 q =? 0);;
   check (Spsc.size 3 (ring 3) =? 0);;
   q ← ring_script 3 [inl (1, true); inl (2, true)] (ring 3); check (Spsc.size 3 q =? 2);;
   q ← ring_script 3 [inr (Some 1)] q; check (Spsc.size 3 q =? 1)) = Ok ().
Proof. vm_compute. reflexivity. Qed.

(** ** The strategies *)

Definition shares_of (q : ExecTypes.ChildOrderQueue) : list Z := ExecTypes.co_shares <$> ExecTypes.items q.

(** test_exec_twap.cpp: [make_params]. *)
Definition twap_params (total start end_ bin : Z) : Twap.TwapParams :=
  Twap.mkTwapParams Wire.Buy total start end_ bin ExecTypes.Limit 10000000.

(** Successive calls of [advance], with what each returns. *)
Fixpoint advances (l : list (Z * Z)) (t : Twap.Twap) : outcome Twap.Twap :=
  match l with
  | [] => Ok t
  | (now, n) :: l => '(pushed, t) ← Twap.advance now t; check (pushed =? n);; advances l t
  end.

Definition schedule (total start end_ bin : Z) (calls : list (Z * Z)) (expected : list Z) (done : bool) : outcome () :=
  t ← Twap.construct (twap_params total start end_ bin);
  t ← advances calls t;
  check (bool_decide (shares_of (Twap.queue_ t) = expected));; check (eqb (Twap.done t) done).

Definition whole (total span bin : Z) : outcome () :=
  t ← Twap.construct (twap_params total 0 span bin);
  '(_, t) ← Twap.advance (span + bin) t;
  check (Twap.done t);; check (Twap.sum (shares_of (Twap.queue_ t)) =? total).

Example test_exec_twap :
  (schedule 1000 0 500 100 [(500, 5)] [200; 200; 200; 200; 200] true;;
   schedule 1000 0 300 100 [(300, 3)] [334; 333; 333] true;;
   whole 997 700 100;; whole 1 500 100;; whole 10000 1000 3;; whole 333 999 111;;
   schedule 500 1000 1500 100 [(1050, 0)] [] false;;
   schedule 500 1000 1500 100 [(1050, 0); (1100, 1); (1250, 1); (1500, 3); (9999, 0)] [100; 100; 100; 100; 100] true;;
   schedule 300 1000 1300 100 [(999, 0); (1000, 0)] [] false;;
   schedule 400 0 400 100 [(100, 1); (200, 1); (300, 1)] [100; 100; 100] false;;
   schedule 400 0 400 100 [(100, 1); (200, 1); (300, 1); (400, 1)] [100; 100; 100; 100] true) = Ok () /\
  (throws (Twap.construct (twap_params 1000 500 0 100)) && throws (Twap.construct (twap_params 1000 0 500 0)) &&
   throws (Twap.construct (twap_params 1000 0 1000000000 1))) = true.
Proof. split; vm_compute; reflexivity. Qed.

(** The order queue is full already: nothing is pushed and no bin consumed. *)
Example test_twap_full_queue :
  (t ← Twap.construct (twap_params 300 0 300 100);
   let full := Twap.mkTwap (Twap.params_ t) (Twap.schedule_ t) (Twap.bin_count_ t) (Twap.next_bin_ t)
     (ExecTypes.mkFixed (replicate ExecTypes.kMaxChildOrders ExecTypes.default_order) ExecTypes.kMaxChildOrders) in
   '(pushed, t) ← Twap.advance 300 full; Ok (pushed, Twap.done t, Twap.bin_count_ t)) = Ok (0, false, 3).
Proof. vm_compute. reflexivity. Qed.

(** test_volume_curve.cpp. *)
Example test_volume_curve :
  (c ← Vwap.make_curve; ws ← Ok (fun i => match Vwap.cumulative_weight c i with Ok w => w | _ => -1 end);
   let bucket i := ws i - (if (i =? 0)%nat then 0 else ws (i - 1)%nat) in
   let average := Vwap.kCurveScale / Z.of_nat Vwap.kVolumeCurveBuckets in
   check (forallb (fun i => 0 <=? bucket i) (seq 0 13));;
   check (ws 12%nat =? Vwap.kCurveScale);; check (ws 13%nat =? Vwap.kCurveScale);; check (ws 113%nat =? Vwap.kCurveScale);;
   check (average <? bucket 0%nat);; check (average <? bucket 12%nat);; check (bucket 6%nat <? average)) = Ok ().
Proof. vm_compute. reflexivity. Qed.

(** test_exec_vwap.cpp: the shares sent after each tick of one share. *)
Fixpoint sent_after (ticks : list Z) (v : Vwap.Vwap) : outcome (list Z * Vwap.Vwap) :=
  match ticks with
  | [] => Ok ([], v)
  | ts :: ticks =>
    v ← Vwap.on_trade_tick (ExecTypes.mkTradeTick ts 10000000 1 Wire.Buy) v;
    '(l, v') ← sent_after ticks v; Ok (Vwap.shares_sent_ v :: l, v')
  end.

Definition vwap_run (total start end_ : Z) (ticks : list Z) : outcome (list Z * Vwap.Vwap) :=
  v ← Vwap.construct (Vwap.mkVwapParams Wire.Buy total start end_ ExecTypes.Limit 10000000); sent_after ticks v.

Definition flat_target (elapsed span total : Z) : Z := u32 (u64 (total * elapsed) / span).

Fixpoint rising (l : list Z) : bool :=
  match l with x :: (y :: _) as l => (x <=? y) && rising l | _ => true end.

Example test_exec_vwap :
  ('(l, v) ← vwap_run 1000000 1000000 2000000 [1000000; 1250000; 1500000; 1750000; 2000000];
   check (bool_decide (head l = Some 0));; check (rising l);; check (bool_decide (last l = Some 1000000));;
   check (Vwap.done v);; check (Vwap.market_shares_seen_ v =? 5);;
   '(l, v) ← vwap_run 10 0 3 [1; 2; 3]; check (rising l);; check (bool_decide (last l = Some 10));; check (Vwap.done v);;
   '(l, v) ← vwap_run 100 1000 2000 [999]; check (bool_decide (l = [0]));; check (Vwap.market_shares_seen_ v =? 0);;
   '(l, v) ← vwap_run 100 1000 2000 [1500; 2001]; check (bool_decide (nth 0 l 0 = nth 1 l 1));; check (Vwap.market_shares_seen_ v =? 1);;
   '(l, v) ← vwap_run 5 0 10 [10; 10]; check (bool_decide (l = [5; 5]));; check (Vwap.market_shares_seen_ v =? 2);;
   check (Twap.sum (shares_of (Vwap.queue_ v)) =? 5);;
   '(l, _) ← vwap_run 1000000 0 1300000 [100000; 500000; 600000; 900000; 1200000; 1300000];
   check (flat_target 500000 1300000 1000000 <? nth 1 l 0);; check (nth 3 l 0 <? flat_target 900000 1300000 1000000);;
   check (nth 5 l 0 =? flat_target 1300000 1300000 1000000);;
   check (nth 2 l 0 - nth 1 l 0 <? nth 0 l 0);; check (nth 2 l 0 - nth 1 l 0 <? nth 5 l 0 - nth 4 l 0)) = Ok () /\
  (throws (vwap_run 100 500 500 []) && throws (vwap_run 100 500 100 [])) = true.
Proof. split; vm_compute; reflexivity. Qed.

(** test_exec_pov.cpp: trades (time, shares) and the orders after each. *)
Fixpoint pov_run (trades : list (Z * Z * list Z)) (p : Pov.Pov) : outcome Pov.Pov :=
  match trades with
  | [] => Ok p
  | (ts, shares, orders) :: trades =>
    p ← Pov.on_trade_tick (ExecTypes.mkTradeTick ts 10000000 shares Wire.Sell) p;
    check (bool_decide (shares_of (Pov.queue_ p) = orders));; pov_run trades p
  end.

Definition pov (max bps end_ : Z) : Pov.Pov := Pov.construct (Pov.mkPovParams Wire.Buy max bps end_).

Example test_exec_pov :
  (p ← pov_run [(1, 1000, [100]); (2, 333, [100; 33])] (pov 100000 1000 0); check (Pov.shares_sent_ p =? 133);;
   p ← pov_run [(1, 800, [400])] (pov 500 5000 0); check (Pov.shares_sent_ p =? 400);; check (negb (Pov.done p));;
   p ← pov_run [(2, 800, [400; 100])] p; check (Pov.shares_sent_ p =? 500);; check (Pov.done p);; check (Pov.remaining p =? 0);;
   p ← pov_run [(1, 100, [100]); (2, 500, [100])] (pov 100 10000 0); check (Pov.done p);; check (Pov.shares_sent_ p =? 100);;
   pov_run [(50, 1000, [100]); (100, 1000, [100; 100]); (101, 1000, [100; 100])] (pov 100000 1000 100);;
   p ← pov_run [(1, 10, [])] (pov 100000 1 0); check (Pov.shares_sent_ p =? 0);;
   check (bool_decide (shares_of (Pov.queue_ (Pov.on_bbo_change (ExecTypes.mkBbo 1 10000000 100 0 0) (pov 1000 1000 0))) = []))) = Ok ().
Proof. vm_compute. reflexivity. Qed.

(** ** The gate: test_risk_gate.cpp *)

Definition base_limits : RiskGate.RiskLimits := RiskGate.mkRiskLimits 1000 50000 100 1000000 1000000000.
Definition with_shares (n : Z) : RiskGate.RiskLimits := RiskGate.mkRiskLimits 1000 50000 100 n 1000000000.
Definition with_notional (n : Z) : RiskGate.RiskLimits := RiskGate.mkRiskLimits 1000 50000 100 1000000 n.

Definition limit_order (ts price shares : Z) : ExecTypes.ChildOrder := ExecTypes.mkChildOrder ts Wire.Buy ExecTypes.Limit price shares.
Definition market_order (ts shares : Z) : ExecTypes.ChildOrder := ExecTypes.mkChildOrder ts Wire.Buy ExecTypes.Market 0 shares.

(** Checks in a row; an order that passes is recorded. *)
Fixpoint verdicts (orders : list ExecTypes.ChildOrder) (g : RiskGate.RiskGate) : list RiskGate.RejectReason * RiskGate.RiskGate :=
  match orders with
  | [] => ([], g)
  | o :: orders =>
    let '(r, g) := RiskGate.check o g in
    let '(rs, g) := verdicts orders (if decide (r = RiskGate.None_) then RiskGate.record o g else g) in
    (r :: rs, g)
  end.

Definition gate_case (limits : RiskGate.RiskLimits) (orders : list ExecTypes.ChildOrder) (expected : list RiskGate.RejectReason)
    (tripped : bool) : outcome RiskGate.RiskGate :=
  let '(rs, g) := verdicts orders (RiskGate.construct limits 100) in
  check (bool_decide (rs = expected));; check (eqb (RiskGate.tripped g) tripped);; Ok g.

Import RiskGate (None_, OrderTooLarge, NotionalTooLarge, PriceOutOfCollar, CumulativeSharesExceeded, CumulativeNotionalExceeded, KillSwitchTripped).

Example test_risk_gate :
  (gate_case base_limits [limit_order 1 100 400] [None_] false;;
   gate_case base_limits [limit_order 1 1 1001] [OrderTooLarge] false;;
   gate_case base_limits [limit_order 1 100 600] [NotionalTooLarge] false;;
   gate_case base_limits [limit_order 1 110 100] [PriceOutOfCollar] false;;
   gate_case base_limits [limit_order 1 101 100] [None_] false;;
   gate_case base_limits [market_order 1 100; limit_order 2 110 100] [None_; PriceOutOfCollar] false;;
   gate_case (with_shares 250) [limit_order 1 100 100; limit_order 2 100 100] [None_; None_] false;;
   gate_case (with_shares 250) [limit_order 1 100 100; limit_order 2 100 100; limit_order 3 100 100]
     [None_; None_; CumulativeSharesExceeded] true;;
   gate_case (with_notional 25000) [limit_order 1 100 100; limit_order 2 100 100; limit_order 3 100 100]
     [None_; None_; CumulativeNotionalExceeded] true;;
   gate_case (with_shares 100) [limit_order 1 100 100; limit_order 2 100 1; limit_order 3 100 1]
     [None_; CumulativeSharesExceeded; KillSwitchTripped] true;;
   g ← gate_case (with_shares 100) [limit_order 1 100 100; limit_order 2 100 1] [None_; CumulativeSharesExceeded] true;
   check (negb (RiskGate.tripped (RiskGate.reset g)));;
   check (bool_decide ((RiskGate.check (limit_order 3 100 50) (RiskGate.reset g)).1 = None_))) = Ok ().
Proof. vm_compute. reflexivity. Qed.

Fixpoint queue_of (orders : list ExecTypes.ChildOrder) (q : ExecTypes.ChildOrderQueue) : outcome ExecTypes.ChildOrderQueue :=
  match orders with [] => Ok q | o :: orders => '(_, q) ← ExecTypes.push o q; queue_of orders q end.

Example test_risk_gate_apply :
  (let none := ExecTypes.empty_queue ExecTypes.default_order in
   input ← queue_of [limit_order 1 100 100; limit_order 2 1 1001; limit_order 3 110 50; limit_order 4 100 100;
     limit_order 5 100 100; limit_order 6 100 1] none;
   '(n, g, accepted, reasons) ← RiskGate.apply (RiskGate.construct (with_shares 250) 100) input none
     (Some (replicate ExecTypes.kMaxChildOrders None_));
   check (n =? 2)%nat;; check (bool_decide (ExecTypes.co_ts <$> ExecTypes.items accepted = [1; 4]));; check (RiskGate.tripped g);;
   check (bool_decide (take 6 (default [] reasons) =
     [None_; OrderTooLarge; PriceOutOfCollar; None_; CumulativeSharesExceeded; KillSwitchTripped]));;
   input ← queue_of [limit_order 1 100 100; limit_order 2 1 1001] none;
   '(n, _, accepted, _) ← RiskGate.apply (RiskGate.construct base_limits 100) input none None;
   check (n =? 1)%nat;; check (bool_decide (ExecTypes.co_ts <$> ExecTypes.items accepted = [1]))) = Ok ().
Proof. vm_compute. reflexivity. Qed.

(** ** The simulator: test_fill_sim.cpp *)

Definition quote (ts bid bid_shares ask ask_shares : Z) : FillSim.Event := FillSim.Quote (ExecTypes.mkBbo ts bid bid_shares ask ask_shares).
Definition print (ts price shares : Z) : FillSim.Event := FillSim.Print_ (ExecTypes.mkTradeTick ts price shares Wire.Sell).
Definition sell_order (ts price shares : Z) : ExecTypes.ChildOrder := ExecTypes.mkChildOrder ts Wire.Sell ExecTypes.Limit price shares.

(** The fills (price, shares) and the shares filled and attempted. *)
Definition scored (events : list FillSim.Event) : outcome (list (Z * Z) * Z * Z) :=
  s ← FillSim.run events FillSim.construct;
  Ok ((fun f => (FillSim.fill_price f, FillSim.fill_shares f)) <$> ExecTypes.items (FillSim.fills_ s),
      FillSim.shares_filled_ s, FillSim.shares_attempted_ s).

(** The exact value of a displayed ratio, times [d]. *)
Definition ratio (f : FillSim.FillSimulator -> Doubles.double) (d : Z) (events : list FillSim.Event) : outcome Z :=
  s ← FillSim.run events FillSim.construct; Doubles.to_u64 (Doubles.mul (f s) (Doubles.of_Z d)).

Definition three_fills : list FillSim.Event :=
  [quote 1 9900 500 10000 500; FillSim.Child (limit_order 1 10000 200); quote 2 9900 500 10010 500; FillSim.Child (limit_order 2 10010 300);
   print 3 9990 500; FillSim.Child (market_order 3 500)].

Definition half_filled : list FillSim.Event :=
  [quote 1 99 100 100 100; FillSim.Child (limit_order 1 100 40); FillSim.Child (limit_order 1 95 60)].

Example test_fill_sim :
  scored [quote 1 99 100 100 100; FillSim.Child (limit_order 1 101 50)] = Ok ([(100, 50)], 50, 50) /\
  scored [quote 1 100 100 101 100; FillSim.Child (sell_order 1 99 75)] = Ok ([(100, 75)], 75, 75) /\
  scored [quote 1 99 100 102 100; FillSim.Child (limit_order 1 101 50)] = Ok ([], 0, 50) /\
  scored [quote 1 99 100 100 100; FillSim.Child (limit_order 1 100 10); FillSim.Child (sell_order 1 99 10)] = Ok ([(100, 10); (99, 10)], 20, 20) /\
  scored [print 5 250 1000; FillSim.Child (market_order 5 300)] = Ok ([(250, 300)], 300, 300) /\
  scored [FillSim.Child (market_order 1 10)] = Ok ([], 0, 10) /\
  scored three_fills = Ok ([(10000, 200); (10010, 300); (9990, 500)], 1000, 1000) /\
  ratio FillSim.vwap_price 1 three_fills = Ok 9998 /\ ratio FillSim.fill_rate 1 three_fills = Ok 1 /\
  scored half_filled = Ok ([(100, 40)], 40, 100) /\ ratio FillSim.fill_rate 10 half_filled = Ok 4 /\
  scored [] = Ok ([], 0, 0) /\ ratio FillSim.vwap_price 1 [] = Ok 0 /\ ratio FillSim.fill_rate 1 [] = Ok 0.
Proof. vm_compute. repeat split. Qed.

(** A schedule's orders, scored: three bins of a hundred, the first of them
    above the limit. *)
Example test_fill_sim_twap :
  (t ← Twap.construct (Twap.mkTwapParams Wire.Buy 300 0 300 100 ExecTypes.Limit 101);
   '(_, t) ← Twap.advance 300 t;
   match ExecTypes.items (Twap.queue_ t) with
   | [o1; o2; o3] =>
     let day := [quote 100 98 50 102 50; FillSim.Child o1; quote 200 99 50 100 50; FillSim.Child o2; quote 300 100 50 101 50; FillSim.Child o3] in
     r ← scored day; v ← ratio FillSim.vwap_price 2 day; Ok (r, v)
   | _ => Throw "CHECK"
   end) = Ok ([(100, 100); (101, 100)], 200, 300, 201).
Proof. vm_compute. reflexivity. Qed.

(** ** The parser: test_parser.cpp *)

(** [Recorder]: the callbacks in order. *)
Definition parsed (buf : list Z) : outcome (nat * list Wire.event) := Wire.parse_stream buf (length buf) [].

Definition AAPL : list Z := str "AAPL".
Definition TSLA : list Z := str "TSLA".

(** A stock field: the letters, then the terminating zeros. *)
Definition stock (s : list Z) : list Z := s ++ replicate (9 - length s) 0.

Definition ibm : list Z := Encode.stream [Encode.add_order 1 100 1 Wire.Buy 10 (str "IBM") 1000000].

Example test_parser :
  parsed (Encode.stream [Encode.add_order 7 34200000000123 62678480408215041 Wire.Buy 250 AAPL 1523400]) =
    Ok (1%nat, [Wire.EAdd (Wire.mkAddOrder (Wire.mkHeader 7 34200000000123) 62678480408215041 Wire.Buy 250 (stock AAPL) 1523400)]) /\
  parsed (Encode.stream [Encode.executed 3 100 42 500 900001; Encode.executed_price 3 110 42 100 900002 true 999900;
      Encode.cancel 3 120 43 75; Encode.del 3 130 44; Encode.replace 3 140 45 46 800 1000100]) =
    Ok (5%nat, [Wire.EExec (Wire.mkOrderExecuted (Wire.mkHeader 3 100) 42 500 900001);
      Wire.EExecPrice (Wire.mkOrderExecutedPrice (Wire.mkHeader 3 110) 42 100 900002 true 999900);
      Wire.ECancel (Wire.mkOrderCancel (Wire.mkHeader 3 120) 43 75); Wire.EDelete (Wire.mkOrderDelete (Wire.mkHeader 3 130) 44);
      Wire.EReplace (Wire.mkOrderReplace (Wire.mkHeader 3 140) 45 46 800 1000100)]) /\
  Builder.event_type <$> (default [] (match parsed (Encode.stream [Encode.add_order 1 100 1 Wire.Sell 10 TSLA 2000000;
      Encode.header [] 73 5 200 ++ replicate 39 0; Encode.add_order 1 300 2 Wire.Sell 20 TSLA 2000100]) with Ok (_, es) => Some es | _ => None end)) =
    [Wire.chA; 73; Wire.chA] /\
  parsed (Encode.stream [take 20 (Encode.add_order 1 100 1 Wire.Buy 10 TSLA 2000000); Encode.del 1 200 99]) =
    Ok (2%nat, [Wire.EOther Wire.chA 20; Wire.EDelete (Wire.mkOrderDelete (Wire.mkHeader 1 200) 99)]) /\
  parsed (take (length ibm - 5) ibm) = Ok (0%nat, []) /\
  (fst <$> parsed (ibm ++ [0])) = Ok 1%nat.
Proof. vm_compute. repeat split. Qed.

(** ** MoldUDP64: test_multicast_receiver.cpp, test_moldudp64.cpp *)

Definition mold_session : Mold.SessionId := str "GAPTEST001".

Example mold_session_made : Mold.make_session (str "GAPTEST001") = Ok mold_session.
Proof. reflexivity. Qed.

(** [sender->load(synthetic_session())]; the session is the self test's. *)
Definition loaded : outcome Sender.MoldUdp64Sender := Sender.load Replay.selftest_data (Sender.mkSender mold_session []).

(** [receiver->poll] with the request server running: the reply to the poll's
    first request comes back. *)
Definition answered_poll (tx : Sender.MoldUdp64Sender) (buf : list Z) (s : Receiver.MoldUdp64Receiver) (h : list Wire.event)
  : outcome (nat * Receiver.MoldUdp64Receiver * list Wire.event) :=
  '(_, asked, _) ← Receiver.poll buf [] s h;
  '(_, replies) ← match drop (length (Receiver.requests_ s)) (Receiver.requests_ asked) with
                  | request :: _ => Sender.serve_one_request tx request
                  | [] => Ok (true, [])
                  end;
  Receiver.poll buf ((fun pkt => Receiver.Recv pkt false) <$> replies) s h.

Fixpoint polls (tx : Sender.MoldUdp64Sender) (pkts : list (list Z)) (frames : nat) (s : Receiver.MoldUdp64Receiver) (h : list Wire.event)
  : outcome (nat * Receiver.MoldUdp64Receiver * list Wire.event) :=
  match pkts with
  | [] => Ok (frames, s, h)
  | buf :: pkts => '(n, s, h) ← answered_poll tx buf s h; polls tx pkts (frames + n) s h
  end.

(** [run_session] with [drop], after [before]: frames, requests sent, next
    sequence number, packets pending and the callbacks. *)
Definition run_session (before : Sender.MoldUdp64Sender -> outcome (list (list Z))) (should_drop : Z -> bool)
  : outcome (bool * nat * Z * Z * nat * list Wire.event) :=
  tx ← loaded;
  first ← before tx;
  pkts ← Sender.send_all tx should_drop;
  '(frames, s, h) ← polls tx (first ++ pkts) 0 (Receiver.construct mold_session) [];
  Ok (Receiver.ended_ s, frames, Receiver.requests_sent_ s, Receiver.next_seq_ s, size (Receiver.pending_ s), h).

(** What a run that recovered everything gives: the file parsed directly. *)
Definition full_session (requests : Z) : outcome (bool * nat * Z * Z * nat * list Wire.event) :=
  '(frames, h) ← parsed Replay.selftest_data; Ok (true, frames, requests, 10, 0%nat, h).

Definition nothing (tx : Sender.MoldUdp64Sender) : outcome (list (list Z)) := Ok [].
Definition heartbeat (tx : Sender.MoldUdp64Sender) : outcome (list (list Z)) := pkt ← Sender.send_heartbeat tx 1; Ok [pkt].

(** Each loss costs one request; the last case is the heartbeat's. *)
Example test_moldudp64 :
  (parsed Replay.selftest_data ≫= fun p => Ok p.1) = Ok 9%nat /\
  run_session nothing (fun _ => false) = full_session 0 /\
  run_session nothing (fun seq => seq =? 3) = full_session 1 /\
  run_session nothing (fun seq => existsb (Z.eqb seq) [2; 5; 8]) = full_session 3 /\
  run_session heartbeat (fun _ => false) = full_session 0.
Proof. vm_compute. repeat split. Qed.

(** The patterns are among those [Recovery.losses_recovered] is about. *)
Example test_losses_recover :
  forallb (fun dropped => Recovery.recovers (Recovery.losses (fun seq => existsb (Z.eqb seq) dropped) 0 9) 0 0) [[]; [3]; [2; 5; 8]] = true.
Proof. reflexivity. Qed.

(** The burst past a gap nobody fills: [n] packets from sequence number 2. *)
Fixpoint burst (n : nat) (seq : Z) (s : Receiver.MoldUdp64Receiver) : outcome Receiver.MoldUdp64Receiver :=
  match n with
  | O => Ok s
  | S n =>
    pkt ← Sender.send_raw (Sender.mkSender mold_session []) seq 1 [];
    '(_, s, _) ← Receiver.poll pkt [] s ([] : list Wire.event);
    burst n (seq + 1) s
  end.

(** Pending, dropped, and the requests made for the gap. *)
Example test_pending_cap :
  (fun s => (size (Receiver.pending_ s), Receiver.dropped_pending_ s, Receiver.requests_sent_ s)) <$>
    burst (Receiver.kMaxPendingPackets + 64) 2 (Receiver.construct mold_session) = Ok (256%nat, 64, 1600).
Proof. vm_compute. reflexivity. Qed.

(** ** Snapshots and queries: test_book_snapshot.cpp, test_query_server.cpp *)

(** Both files' [synthetic_session] is the replay program's self test. *)
Definition session_snapshot : outcome (list Snapshot.LocateSnapshot) :=
  '(_, h) ← Wire.parse_stream Replay.selftest_data (length Replay.selftest_data) (Ok (Builder.init (B := LadderBook.LadderBook)));
  h ← h; Snapshot.snapshot_book_table (Builder.books h).

Definition aapl_snapshot : Snapshot.LocateSnapshot := Snapshot.mkLocateSnapshot 1 false 0 0 true 1500100 400 1 0 1.
Definition msft_snapshot : Snapshot.LocateSnapshot := Snapshot.mkLocateSnapshot 2 true 4199500 800 false 0 0 1 1 0.

Example test_snapshot :
  session_snapshot = Ok [aapl_snapshot; msft_snapshot] /\
  Snapshot.snapshot_book_table (B := LadderBook.LadderBook) [] = Ok [].
Proof. split; vm_compute; reflexivity. Qed.

Definition bid_only : Snapshot.LocateSnapshot := Snapshot.mkLocateSnapshot 1 true 100 10 false 0 0 0 0 0.
Definition ask_only : Snapshot.LocateSnapshot := Snapshot.mkLocateSnapshot 2 false 0 0 true 200 20 0 0 0.

Example test_store :
  let s0 := Snapshot.empty_store in
  let s1 := Snapshot.publish [bid_only] 0 s0 in
  let s2 := Snapshot.publish [ask_only] 0 s1 in
  (Snapshot.version s0, Snapshot.read_all s0, Snapshot.find 1 s0) = (0, [], None) /\
  (Snapshot.version s1, length (Snapshot.read_all s1), Snapshot.find 1 s1, Snapshot.find 2 s1) = (1, 1%nat, Some bid_only, None) /\
  (Snapshot.version s2, length (Snapshot.read_all s2), Snapshot.find 1 s2, Snapshot.find 2 s2) = (2, 1%nat, None, Some ask_only).
Proof. vm_compute. repeat split. Qed.

(** A text with its double quotes written as single ones. *)
Definition json (s : string) : text := (fun c => if c =? 39 then dq else c) <$> str s.

(** [resp.find(needle) != std::string::npos] *)
Definition found (resp : text) (needle : string) : bool := match after_first (json needle) resp with Some _ => true | None => false end.

(** A client that sends the lines, one answer each. *)
Definition client (store : Snapshot.SnapshotStore) (requests : list string) : list text :=
  let reads := mkReads store store store in
  (fun r => handle_line reads (json r)) <$> requests.

Definition answer_has (store : Snapshot.SnapshotStore) (request : string) (needles : list string) : bool :=
  forallb (fun resp => forallb (found resp) needles) (client store [request]).

Definition served : Snapshot.SnapshotStore := Snapshot.publish [aapl_snapshot; msft_snapshot] 0 Snapshot.empty_store.

Example test_query_server :
  forallb (fun c => answer_has served c.1 c.2) [
    ("{'cmd':'list'}", ["'snapshot_version':1"; "'locate':1"; "'locate':2"; "'books'"]);
    ("{'cmd':'quote','locate':1}", ["'locate':1"; "'best_bid':null"; "'best_ask':1500100"; "'best_ask_shares':400"; "'open_orders':1";
       "'bid_levels':0"; "'ask_levels':1"; "'snapshot_version':1"]);
    ("{'cmd':'quote','locate':2}", ["'best_bid':4199500"; "'best_bid_shares':800"; "'best_ask':null"]);
    ("{'cmd':'quote','locate':99}", ["'error':'unknown locate'"; "'locate':99"]);
    ("{'cmd':'quote'}", ["'error':'missing locate'"]);
    ("{'cmd':'delete_everything'}", ["'error':'unknown command'"]);
    ("{'oops':true}", ["'error':'bad request'"])]%string = true /\
  existsb (fun resp => found resp "'error'") (client served ["{'cmd':'list'}"]%string) = false /\
  answer_has Snapshot.empty_store "{'cmd':'list'}" ["'snapshot_version':0"]%string = true /\
  answer_has (Snapshot.publish [Snapshot.mkLocateSnapshot 7 true 42 5 false 0 0 0 0 0] 0 Snapshot.empty_store)
    "{'cmd':'quote','locate':7}" ["'snapshot_version':1"; "'best_bid':42"]%string = true.
Proof. vm_compute. repeat split. Qed.

Example test_field_extraction :
  extract_string_field (json "{'cmd':'list'}") (str "cmd") = Some (str "list") /\
  extract_string_field (json "{ 'cmd' : 'quote' }") (str "cmd") = Some (str "quote") /\
  extract_string_field (json "{'locate':1,'cmd':'quote'}") (str "cmd") = Some (str "quote") /\
  extract_string_field (json "{'nope':1}") (str "cmd") = None /\
  extract_uint_field (json "{'cmd':'quote','locate':42}") (str "locate") = Some 42 /\
  extract_uint_field (json "{'locate': 7, 'cmd':'quote'}") (str "locate") = Some 7 /\
  extract_uint_field (json "{'cmd':'quote'}") (str "locate") = None /\
  extract_uint_field (json "{'locate':'abc'}") (str "locate") = None.
Proof. vm_compute. repeat split. Qed.

End UnitTests.
